(** * Multiplayer snake: the network server, its wire codec and its tick

    A shallow embedding of [snake_game.py]: the reliable wire codec
    ([NetworkProtocol]), the simulation engine ([SnakeGameLogic]) and the
    message handlers of [GameServer], followed by the properties of the
    specification that were checked against them.

    Conventions of the embedding.
    - Python [int] is [Z]; [bytes] is [list byte]; [str] is [string].
    - A [dict] is an association list in insertion order (iteration order
      is observable in the tick), with the update-in-place discipline of
      Python dictionaries written out in [Dict.set].
    - Methods that mutate [self] or [game] are computations in a state
      monad whose exceptions keep the state reached when they were raised,
      as in-place mutation does.
    - [time.time()] reads a clock field, in milliseconds; [random] reads a
      tape of draws. *)

From Stdlib Require Import ZArith List String Ascii Bool Lia.
From Stdlib Require Import Strings.Byte DecimalString.
Import ListNotations.
Open Scope string_scope.
Open Scope list_scope.
Open Scope Z_scope.
Set Warnings "-register-all".

(** ** Python values carried by messages *)

(** What [json.loads] can return. A float keeps its literal text: the
    handlers only ever ask whether a value is a [str] or an [int]. *)
Inductive json : Type :=
| JNull
| JBool (b : bool)
| JInt (n : Z)
| JFloat (literal : string)
| JStr (s : string)
| JList (items : list json)
| JDict (items : list (string * json)).

(** ** Dictionaries *)

Module Dict.

Definition t (V : Type) := list (string * V).

Fixpoint get {V} (k : string) (d : t V) : option V :=
  match d with
  | [] => None
  | (k', v) :: d' => if String.eqb k k' then Some v else get k d'
  end.

Definition mem {V} (k : string) (d : t V) : bool :=
  match get k d with Some _ => true | None => false end.

(** [d[k] = v]: an existing key keeps its position, a new key goes last. *)
Fixpoint set {V} (k : string) (v : V) (d : t V) : t V :=
  match d with
  | [] => [(k, v)]
  | (k', v') :: d' =>
      if String.eqb k k' then (k', v) :: d' else (k', v') :: set k v d'
  end.

(** [del d[k]] for a key known to be present; absent keys leave [d] as is. *)
Fixpoint del {V} (k : string) (d : t V) : t V :=
  match d with
  | [] => []
  | (k', v') :: d' => if String.eqb k k' then d' else (k', v') :: del k d'
  end.

(** Mutation of the object stored under [k] (a reference obtained from
    the dictionary and written through). *)
Definition update {V} (k : string) (f : V -> V) (d : t V) : t V :=
  map (fun kv => if String.eqb k (fst kv) then (fst kv, f (snd kv)) else kv) d.

Definition keys {V} (d : t V) : list string := map fst d.
Definition values {V} (d : t V) : list V := map snd d.

End Dict.

(** ** Bytes and integers *)

Definition byte_of_Z (z : Z) : byte :=
  match Byte.of_N (Z.to_N (z mod 256)) with
  | Some b => b
  | None => x00
  end.

Definition Z_of_byte (b : byte) : Z := Z.of_N (Byte.to_N b).

(** [int.from_bytes(bs, 'big')] *)
Definition int_from_bytes_big (bs : list byte) : Z :=
  fold_left (fun acc b => acc * 256 + Z_of_byte b) bs 0.

(** [n.to_bytes(4, 'big')]; [None] is Python's [OverflowError]. *)
Definition int_to_bytes4_big (n : Z) : option (list byte) :=
  if (0 <=? n) && (n <? 4294967296)
  then Some [byte_of_Z (n / 16777216); byte_of_Z (n / 65536);
             byte_of_Z (n / 256); byte_of_Z n]
  else None.

(** [b[lo:hi]] for [0 <= lo <= hi]. *)
Definition bytes_slice (lo hi : Z) (b : list byte) : list byte :=
  firstn (Z.to_nat (hi - lo)) (skipn (Z.to_nat lo) b).

(** [b[lo:]] for [0 <= lo]. *)
Definition bytes_from (lo : Z) (b : list byte) : list byte :=
  skipn (Z.to_nat lo) b.

Definition len {A} (l : list A) : Z := Z.of_nat (List.length l).

(** ** Constants *)

Definition MAX_PLAYERS : Z := 10.
Definition WEAPON_SPAWN_MIN : Z := 5.
Definition WEAPON_SPAWN_MAX : Z := 15.
Definition BOMB_RANGE : Z := 25.
Definition BOMB_DAMAGE : nat := 4.
Definition BOMB_SPEED : nat := 3.
(** Seconds in the source; the clock of the model counts milliseconds. *)
Definition GHOST_DURATION : Z := 5000.

Definition MAX_MESSAGE_SIZE : Z := 65536.
Definition MAX_CONNECTIONS : Z := 50.
Definition MAX_MESSAGES_PER_SECOND : Z := 30.
Definition VALID_ACTIONS : list string :=
  ["UP"; "DOWN"; "LEFT"; "RIGHT"; "FIRE"; "GHOST"].

Definition PRIVATE_IP_PREFIXES : list string :=
  ["10."; "172.16."; "172.17."; "172.18."; "172.19.";
   "172.20."; "172.21."; "172.22."; "172.23."; "172.24.";
   "172.25."; "172.26."; "172.27."; "172.28."; "172.29.";
   "172.30."; "172.31."; "192.168."; "127."; "localhost"].

(** [ip.startswith(prefixes)] with a tuple of prefixes. *)
Definition startswith_any (s : string) (prefixes : list string) : bool :=
  existsb (fun p => String.prefix p s) prefixes.

Definition is_private_ip (ip : string) : bool :=
  if existsb (String.eqb ip) ["0.0.0.0"; "::"]
  then false
  else startswith_any ip PRIVATE_IP_PREFIXES.

(** ** Exceptions *)

Inductive exn : Type :=
| ValueError | IndexError | KeyError | AttributeError | TypeError
| RecursionError.

Inductive outcome (A : Type) : Type :=
| Return (a : A)
| Raise (e : exn).
Arguments Return {A} a.
Arguments Raise {A} e.

(** What [json.loads(b.decode('utf-8'))] can do with the bytes of a
    payload: hand back a value; fail with [UnicodeDecodeError] or
    [JSONDecodeError], the two exceptions the decoder catches; or fail with
    another exception, which the decoder lets through: [ValueError] for an
    integer literal of more than 4300 digits, [RecursionError] for nesting
    beyond the recursion limit. *)
Inductive loaded : Type :=
| Loaded (v : json)
| Malformed
| LoadRaised (e : exn).

(** ** The reliable wire codec *)

Module NetworkProtocol.

Section Codec.

(** Python's [json] module and the UTF-8 codec are library code: the codec
    is stated over them. [dumps m] stands for
    [json.dumps(m).encode('utf-8')], and [loads b] for
    [json.loads(b.decode('utf-8'))]. *)
Variable dumps : json -> list byte.
Variable loads : list byte -> loaded.

(** [Optional[dict]] as the callers see it: Python's [None] is both "no
    message" and the value of the JSON text [null]. *)
Definition optional (v : json) : option json :=
  match v with
  | JNull => None
  | _ => Some v
  end.

Definition encode (message : json) : option (list byte) :=
  let data := dumps message in
  let length := len data in
  match int_to_bytes4_big length with
  | Some prefix => Some (prefix ++ data)
  | None => None
  end.

(** The [except] clause names [json.JSONDecodeError] and
    [UnicodeDecodeError] only: any other exception of [json.loads] leaves
    the function. *)
Definition decode_from_buffer (buffer : list byte)
  : outcome (option json * list byte) :=
  if len buffer <? 4 then Return (None, buffer)
  else
    let length := int_from_bytes_big (bytes_slice 0 4 buffer) in
    if length >? MAX_MESSAGE_SIZE then Return (None, bytes_from 4 buffer)
    else if len buffer <? 4 + length then Return (None, buffer)
    else
      match loads (bytes_slice 4 (4 + length) buffer) with
      | Loaded message =>
          Return (optional message, bytes_from (4 + length) buffer)
      | Malformed => Return (None, bytes_from (4 + length) buffer)
      | LoadRaised e => Raise e
      end.

End Codec.

End NetworkProtocol.

(** ** Effects: state, exceptions, randomness *)

(** A computation over a mutable state [S]. The state comes back with an
    exception too: what was mutated before a [raise] stays mutated. *)
Definition M (S A : Type) : Type := S -> outcome A * S.

Definition ret {S A} (a : A) : M S A := fun s => (Return a, s).

Definition bind {S A B} (m : M S A) (k : A -> M S B) : M S B :=
  fun s =>
    match m s with
    | (Return a, s') => k a s'
    | (Raise e, s') => (Raise e, s')
    end.

Definition raise {S A} (e : exn) : M S A := fun s => (Raise e, s).
Definition get {S} : M S S := fun s => (Return s, s).
Definition gets {S A} (f : S -> A) : M S A := fun s => (Return (f s), s).
Definition modify {S} (f : S -> S) : M S unit := fun s => (Return tt, f s).

(** [try: m except Exception: handler] *)
Definition try_except {S A} (m : M S A) (handler : M S A) : M S A :=
  fun s =>
    match m s with
    | (Return a, s') => (Return a, s')
    | (Raise _, s') => handler s'
    end.

Declare Scope monad_scope.
Delimit Scope monad_scope with monad.
Notation "x <- c1 ;; c2" := (bind c1 (fun x => c2))
  (at level 61, c1 at next level, right associativity) : monad_scope.
Notation "c1 ;; c2" := (bind c1 (fun _ => c2))
  (at level 61, right associativity) : monad_scope.
Open Scope monad_scope.

(** [for x in xs: body(x)] *)
Fixpoint for_each {S A} (xs : list A) (body : A -> M S unit) : M S unit :=
  match xs with
  | [] => ret tt
  | x :: xs' => body x ;; for_each xs' body
  end.

Definition when {S} (b : bool) (m : M S unit) : M S unit :=
  if b then m else ret tt.

(** ** The world *)

Inductive Direction : Type := UP | DOWN | LEFT | RIGHT.

Definition Direction_value (d : Direction) : Z :=
  match d with UP => 0 | DOWN => 1 | LEFT => 2 | RIGHT => 3 end.

Definition GameMode_CLASSIC : string := "classic".
Definition GameMode_KURVE : string := "kurve".

Definition GameState_WAITING : string := "waiting".
Definition GameState_COUNTDOWN : string := "countdown".
Definition GameState_RUNNING : string := "running".
Definition GameState_FINISHED : string := "finished".

Definition Cell : Type := (Z * Z)%type.

(** The dictionary built by [_add_player_to_game]. ['direction'] holds a
    [Direction] value, always one of the four. *)
Module Snake.
Record t : Type := mk {
  player_id : Z;
  player_name : string;
  body : list Cell;
  direction : Direction;
  alive : bool;
  has_weapon : bool;
  has_ghost : bool;
  is_invisible : bool;
  invisible_until : Z;
  score : Z;
  color : Z
}.

Definition set_body (v : list Cell) (s : t) : t :=
  mk (player_id s) (player_name s) v (direction s) (alive s) (has_weapon s)
     (has_ghost s) (is_invisible s) (invisible_until s) (score s) (color s).
Definition set_direction (v : Direction) (s : t) : t :=
  mk (player_id s) (player_name s) (body s) v (alive s) (has_weapon s)
     (has_ghost s) (is_invisible s) (invisible_until s) (score s) (color s).
Definition set_alive (v : bool) (s : t) : t :=
  mk (player_id s) (player_name s) (body s) (direction s) v (has_weapon s)
     (has_ghost s) (is_invisible s) (invisible_until s) (score s) (color s).
Definition set_has_weapon (v : bool) (s : t) : t :=
  mk (player_id s) (player_name s) (body s) (direction s) (alive s) v
     (has_ghost s) (is_invisible s) (invisible_until s) (score s) (color s).
Definition set_has_ghost (v : bool) (s : t) : t :=
  mk (player_id s) (player_name s) (body s) (direction s) (alive s)
     (has_weapon s) v (is_invisible s) (invisible_until s) (score s) (color s).
Definition set_is_invisible (v : bool) (s : t) : t :=
  mk (player_id s) (player_name s) (body s) (direction s) (alive s)
     (has_weapon s) (has_ghost s) v (invisible_until s) (score s) (color s).
Definition set_invisible_until (v : Z) (s : t) : t :=
  mk (player_id s) (player_name s) (body s) (direction s) (alive s)
     (has_weapon s) (has_ghost s) (is_invisible s) v (score s) (color s).
Definition set_score (v : Z) (s : t) : t :=
  mk (player_id s) (player_name s) (body s) (direction s) (alive s)
     (has_weapon s) (has_ghost s) (is_invisible s) (invisible_until s) v
     (color s).
End Snake.

Module Bomb.
Record t : Type := mk {
  x : Z;
  y : Z;
  direction : Direction;
  owner_id : Z;
  remaining_range : Z
}.
End Bomb.

Module Explosion.
Record t : Type := mk {
  x : Z;
  y : Z;
  radius : Z;
  ttl : Z
}.
End Explosion.

Module GameData.
Record t : Type := mk {
  state : string;
  mode : string;
  speed : string;
  walls_enabled : bool;
  width : Z;
  height : Z;
  snakes : Dict.t Snake.t;
  foods : list Cell;
  weapons : list Cell;
  ghost_pickups : list Cell;
  bombs : list Bomb.t;
  explosions : list Explosion.t;
  host_id : string;
  next_player_id : Z;
  tick : Z;
  last_weapon_spawn : Z;
  next_weapon_spawn : Z;
  winner : string;
  countdown : Z;
  countdown_start : Z
}.

(** [GameData()] with the defaults of the dataclass. *)
Definition default : t :=
  mk "waiting" "classic" "normal" true 80 24 [] [] [] [] [] []
     EmptyString 0 0 0 0 EmptyString
     0 0.

Definition set_state (v : string) (g : t) : t :=
  mk v (mode g) (speed g) (walls_enabled g) (width g) (height g) (snakes g)
     (foods g) (weapons g) (ghost_pickups g) (bombs g) (explosions g)
     (host_id g) (next_player_id g) (tick g) (last_weapon_spawn g)
     (next_weapon_spawn g) (winner g) (countdown g) (countdown_start g).
Definition set_mode (v : string) (g : t) : t :=
  mk (state g) v (speed g) (walls_enabled g) (width g) (height g) (snakes g)
     (foods g) (weapons g) (ghost_pickups g) (bombs g) (explosions g)
     (host_id g) (next_player_id g) (tick g) (last_weapon_spawn g)
     (next_weapon_spawn g) (winner g) (countdown g) (countdown_start g).
Definition set_width (v : Z) (g : t) : t :=
  mk (state g) (mode g) (speed g) (walls_enabled g) v (height g) (snakes g)
     (foods g) (weapons g) (ghost_pickups g) (bombs g) (explosions g)
     (host_id g) (next_player_id g) (tick g) (last_weapon_spawn g)
     (next_weapon_spawn g) (winner g) (countdown g) (countdown_start g).
Definition set_height (v : Z) (g : t) : t :=
  mk (state g) (mode g) (speed g) (walls_enabled g) (width g) v (snakes g)
     (foods g) (weapons g) (ghost_pickups g) (bombs g) (explosions g)
     (host_id g) (next_player_id g) (tick g) (last_weapon_spawn g)
     (next_weapon_spawn g) (winner g) (countdown g) (countdown_start g).
Definition set_snakes (v : Dict.t Snake.t) (g : t) : t :=
  mk (state g) (mode g) (speed g) (walls_enabled g) (width g) (height g) v
     (foods g) (weapons g) (ghost_pickups g) (bombs g) (explosions g)
     (host_id g) (next_player_id g) (tick g) (last_weapon_spawn g)
     (next_weapon_spawn g) (winner g) (countdown g) (countdown_start g).
Definition set_foods (v : list Cell) (g : t) : t :=
  mk (state g) (mode g) (speed g) (walls_enabled g) (width g) (height g)
     (snakes g) v (weapons g) (ghost_pickups g) (bombs g) (explosions g)
     (host_id g) (next_player_id g) (tick g) (last_weapon_spawn g)
     (next_weapon_spawn g) (winner g) (countdown g) (countdown_start g).
Definition set_weapons (v : list Cell) (g : t) : t :=
  mk (state g) (mode g) (speed g) (walls_enabled g) (width g) (height g)
     (snakes g) (foods g) v (ghost_pickups g) (bombs g) (explosions g)
     (host_id g) (next_player_id g) (tick g) (last_weapon_spawn g)
     (next_weapon_spawn g) (winner g) (countdown g) (countdown_start g).
Definition set_ghost_pickups (v : list Cell) (g : t) : t :=
  mk (state g) (mode g) (speed g) (walls_enabled g) (width g) (height g)
     (snakes g) (foods g) (weapons g) v (bombs g) (explosions g)
     (host_id g) (next_player_id g) (tick g) (last_weapon_spawn g)
     (next_weapon_spawn g) (winner g) (countdown g) (countdown_start g).
Definition set_bombs (v : list Bomb.t) (g : t) : t :=
  mk (state g) (mode g) (speed g) (walls_enabled g) (width g) (height g)
     (snakes g) (foods g) (weapons g) (ghost_pickups g) v (explosions g)
     (host_id g) (next_player_id g) (tick g) (last_weapon_spawn g)
     (next_weapon_spawn g) (winner g) (countdown g) (countdown_start g).
Definition set_explosions (v : list Explosion.t) (g : t) : t :=
  mk (state g) (mode g) (speed g) (walls_enabled g) (width g) (height g)
     (snakes g) (foods g) (weapons g) (ghost_pickups g) (bombs g) v
     (host_id g) (next_player_id g) (tick g) (last_weapon_spawn g)
     (next_weapon_spawn g) (winner g) (countdown g) (countdown_start g).
Definition set_next_player_id (v : Z) (g : t) : t :=
  mk (state g) (mode g) (speed g) (walls_enabled g) (width g) (height g)
     (snakes g) (foods g) (weapons g) (ghost_pickups g) (bombs g)
     (explosions g) (host_id g) v (tick g) (last_weapon_spawn g)
     (next_weapon_spawn g) (winner g) (countdown g) (countdown_start g).
Definition set_tick (v : Z) (g : t) : t :=
  mk (state g) (mode g) (speed g) (walls_enabled g) (width g) (height g)
     (snakes g) (foods g) (weapons g) (ghost_pickups g) (bombs g)
     (explosions g) (host_id g) (next_player_id g) v (last_weapon_spawn g)
     (next_weapon_spawn g) (winner g) (countdown g) (countdown_start g).
Definition set_next_weapon_spawn (v : Z) (g : t) : t :=
  mk (state g) (mode g) (speed g) (walls_enabled g) (width g) (height g)
     (snakes g) (foods g) (weapons g) (ghost_pickups g) (bombs g)
     (explosions g) (host_id g) (next_player_id g) (tick g)
     (last_weapon_spawn g) v (winner g) (countdown g) (countdown_start g).
Definition set_winner (v : string) (g : t) : t :=
  mk (state g) (mode g) (speed g) (walls_enabled g) (width g) (height g)
     (snakes g) (foods g) (weapons g) (ghost_pickups g) (bombs g)
     (explosions g) (host_id g) (next_player_id g) (tick g)
     (last_weapon_spawn g) (next_weapon_spawn g) v (countdown g)
     (countdown_start g).
Definition set_countdown (v : Z) (g : t) : t :=
  mk (state g) (mode g) (speed g) (walls_enabled g) (width g) (height g)
     (snakes g) (foods g) (weapons g) (ghost_pickups g) (bombs g)
     (explosions g) (host_id g) (next_player_id g) (tick g)
     (last_weapon_spawn g) (next_weapon_spawn g) (winner g) v
     (countdown_start g).
Definition set_countdown_start (v : Z) (g : t) : t :=
  mk (state g) (mode g) (speed g) (walls_enabled g) (width g) (height g)
     (snakes g) (foods g) (weapons g) (ghost_pickups g) (bombs g)
     (explosions g) (host_id g) (next_player_id g) (tick g)
     (last_weapon_spawn g) (next_weapon_spawn g) (winner g) (countdown g) v.
End GameData.

(** The module [random]: a tape of draws and how many were read. *)
Record Rng : Type := mkRng {
  draws : nat -> Z;
  used : nat
}.

(** What a tick did to an actor, recorded where the code does it. No branch
    of the program reads the record; properties quantify over it. *)
Inductive Event : Type :=
| EvAte (player : string)
| EvStrike (player : string).

(** What the simulation engine works on: the [game] object it is handed,
    the random module, and the record of events (newest first). *)
Record Env : Type := mkEnv {
  game : GameData.t;
  rng : Rng;
  trace : list Event
}.

Definition modify_game (f : GameData.t -> GameData.t) : M Env unit :=
  modify (fun e => mkEnv (f (game e)) (rng e) (trace e)).

Definition emit (ev : Event) : M Env unit :=
  modify (fun e => mkEnv (game e) (rng e) (ev :: trace e)).

Definition random_draw : M Env Z :=
  fun e =>
    (Return (draws (rng e) (used (rng e))),
     mkEnv (game e) (mkRng (draws (rng e)) (S (used (rng e)))) (trace e)).

(** [random.randint(a, b)]: [ValueError] on an empty range. *)
Definition random_randint (a b : Z) : M Env Z :=
  if b <? a then raise ValueError
  else r <- random_draw ;; ret (a + r mod (b - a + 1)).

(** [random.choice(seq)] on a non-empty sequence. *)
Definition random_choice {A} (default : A) (seq : list A) : M Env A :=
  r <- random_draw ;;
  ret (nth (Z.to_nat (r mod len seq)) seq default).

(** [random.random() < 0.5] *)
Definition random_coin : M Env bool :=
  r <- random_draw ;; ret (r mod 2 =? 0).

(** [random.uniform(a, b)] in milliseconds, for [a <= b] in seconds. *)
Definition random_uniform (a b : Z) : M Env Z :=
  r <- random_draw ;; ret (1000 * a + r mod (1000 * (b - a) + 1)).

(** The snake object stored under a key: reading the reference, and
    writing through it. *)
Definition get_snake (pid : string) : M Env Snake.t :=
  g <- gets game ;;
  match Dict.get pid (GameData.snakes g) with
  | Some s => ret s
  | None => raise KeyError
  end.

Definition modify_snake (pid : string) (f : Snake.t -> Snake.t) : M Env unit :=
  modify_game (fun g =>
    GameData.set_snakes (Dict.update pid f (GameData.snakes g)) g).

(** ** The simulation engine *)

Definition cell_at (x y : Z) (c : Cell) : bool :=
  (fst c =? x) && (snd c =? y).

Definition cell_eqb (a b : Cell) : bool := cell_at (fst a) (snd a) b.

(** [l.remove(c)]: the first element equal to [c] goes. *)
Fixpoint list_remove (c : Cell) (l : list Cell) : list Cell :=
  match l with
  | [] => []
  | c' :: l' => if cell_eqb c c' then l' else c' :: list_remove c l'
  end.

(** [l.pop(i)] for an index in range. *)
Fixpoint list_pop {A} (i : nat) (l : list A) : list A :=
  match l, i with
  | [], _ => []
  | _ :: l', O => l'
  | a :: l', S i' => a :: list_pop i' l'
  end.

Definition step_cell (d : Direction) (c : Cell) : Cell :=
  match d with
  | UP => (fst c, snd c - 1)
  | DOWN => (fst c, snd c + 1)
  | LEFT => (fst c - 1, snd c)
  | RIGHT => (fst c + 1, snd c)
  end.

Definition wrap_coord (v limit : Z) : Z :=
  if v <=? 0 then limit - 2
  else if v >=? limit - 1 then 1
  else v.

Definition wrap_cell (g : GameData.t) (c : Cell) : Cell :=
  (wrap_coord (fst c) (GameData.width g),
   wrap_coord (snd c) (GameData.height g)).

Definition out_of_bounds (g : GameData.t) (c : Cell) : bool :=
  (fst c <=? 0) || (fst c >=? GameData.width g - 1) ||
  (snd c <=? 0) || (snd c >=? GameData.height g - 1).

(** The index of the first segment on a cell. *)
Fixpoint index_of (c : Cell) (body : list Cell) : option nat :=
  match body with
  | [] => None
  | seg :: body' =>
      if cell_eqb c seg then Some O
      else option_map S (index_of c body')
  end.

(** The first snake, in dictionary order, with a segment on a cell. *)
Fixpoint find_hit (c : Cell) (snakes : Dict.t Snake.t)
  : option (string * nat) :=
  match snakes with
  | [] => None
  | (pid, s) :: rest =>
      match index_of c (Snake.body s) with
      | Some j => Some (pid, j)
      | None => find_hit c rest
      end
  end.

(** The [while] loop of a strike: [budget] counts
    [BOMB_DAMAGE - segments_removed]. *)
Fixpoint remove_segments (budget hit_index : nat) (body : list Cell)
  : list Cell :=
  match budget with
  | O => body
  | S budget' =>
      if ((hit_index <? List.length body) && (1 <? List.length body))%nat
      then remove_segments budget' hit_index (list_pop hit_index body)
      else body
  end.

Definition strike (hit_index : nat) (s : Snake.t) : Snake.t :=
  let s' :=
    Snake.set_body (remove_segments BOMB_DAMAGE hit_index (Snake.body s)) s in
  if (List.length (Snake.body s') <? 2)%nat
  then Snake.set_alive false s'
  else s'.

Module SnakeGameLogic.

Definition _is_position_occupied (g : GameData.t) (x y : Z) : bool :=
  existsb (fun s => existsb (cell_at x y) (Snake.body s))
          (Dict.values (GameData.snakes g))
  || existsb (cell_at x y) (GameData.foods g)
  || existsb (cell_at x y) (GameData.weapons g)
  || existsb (cell_at x y) (GameData.ghost_pickups g).

(** The loop shared, verbatim, by the three spawners: up to [attempts]
    draws of a cell, the first free one receives the item. *)
Fixpoint spawn_attempts (attempts : nat)
  (place : Cell -> GameData.t -> GameData.t) : M Env unit :=
  match attempts with
  | O => ret tt
  | S attempts' =>
      g <- gets game ;;
      x <- random_randint 2 (GameData.width g - 2) ;;
      y <- random_randint 2 (GameData.height g - 2) ;;
      if negb (_is_position_occupied g x y)
      then modify_game (place (x, y))
      else spawn_attempts attempts' place
  end.

Definition _spawn_food : M Env unit :=
  spawn_attempts 100
    (fun c g => GameData.set_foods (GameData.foods g ++ [c]) g).

Definition _spawn_weapon : M Env unit :=
  spawn_attempts 100
    (fun c g => GameData.set_weapons (GameData.weapons g ++ [c]) g).

Definition _spawn_ghost : M Env unit :=
  spawn_attempts 100
    (fun c g => GameData.set_ghost_pickups (GameData.ghost_pickups g ++ [c]) g).

(** The area test around a candidate start: offsets [-3..3] by [-1..1]. *)
Definition position_clear (g : GameData.t) (start_x start_y : Z) : bool :=
  forallb (fun check_offset =>
    forallb (fun dy =>
      negb (_is_position_occupied g (start_x + check_offset) (start_y + dy)))
      [-1; 0; 1])
    [-3; -2; -1; 0; 1; 2; 3].

Fixpoint find_start (attempts : nat) (start : Cell) : M Env Cell :=
  match attempts with
  | O => ret start
  | S attempts' =>
      g <- gets game ;;
      start_x <- random_randint 5 (GameData.width g - 5) ;;
      start_y <- random_randint 5 (GameData.height g - 5) ;;
      if position_clear g start_x start_y
      then ret (start_x, start_y)
      else find_start attempts' (start_x, start_y)
  end.

Definition initial_body (d : Direction) (start : Cell) : list Cell :=
  let (start_x, start_y) := start in
  match d with
  | RIGHT => [(start_x, start_y); (start_x - 1, start_y); (start_x - 2, start_y)]
  | LEFT => [(start_x, start_y); (start_x + 1, start_y); (start_x + 2, start_y)]
  | DOWN => [(start_x, start_y); (start_x, start_y - 1); (start_x, start_y - 2)]
  | UP => [(start_x, start_y); (start_x, start_y + 1); (start_x, start_y + 2)]
  end.

Definition _add_player_to_game (player_id player_name : string)
  : M Env unit :=
  g <- gets game ;;
  let player_num := GameData.next_player_id g in
  modify_game (GameData.set_next_player_id (player_num + 1)) ;;
  direction <- random_choice UP [UP; DOWN; LEFT; RIGHT] ;;
  start <- find_start 100 (0, 0) ;;
  let snake_data :=
    Snake.mk player_num player_name (initial_body direction start) direction
             true false false false 0 0 player_num in
  modify_game (fun g =>
    GameData.set_snakes (Dict.set player_id snake_data (GameData.snakes g)) g) ;;
  _spawn_food.

Definition _move_snake (pid : string) : M Env unit :=
  snake <- get_snake pid ;;
  match Snake.body snake with
  | [] => raise IndexError
  | head :: _ =>
      g <- gets game ;;
      let new_head := step_cell (Snake.direction snake) head in
      let new_head :=
        if negb (GameData.walls_enabled g) then wrap_cell g new_head
        else new_head in
      modify_snake pid (fun s => Snake.set_body (new_head :: Snake.body s) s) ;;
      ate_food <-
        match find (cell_eqb new_head) (GameData.foods g) with
        | Some food_to_remove =>
            modify_snake pid (fun s => Snake.set_score (Snake.score s + 10) s) ;;
            emit (EvAte pid) ;;
            modify_game (fun g =>
              GameData.set_foods (list_remove food_to_remove (GameData.foods g)) g) ;;
            _spawn_food ;;
            ret true
        | None => ret false
        end ;;
      g <- gets game ;;
      match find (cell_eqb new_head) (GameData.weapons g) with
      | Some weapon_to_remove =>
          modify_snake pid (Snake.set_has_weapon true) ;;
          modify_game (fun g =>
            GameData.set_weapons
              (list_remove weapon_to_remove (GameData.weapons g)) g)
      | None => ret tt
      end ;;
      g <- gets game ;;
      match find (cell_eqb new_head) (GameData.ghost_pickups g) with
      | Some ghost_to_remove =>
          modify_snake pid (Snake.set_has_ghost true) ;;
          modify_game (fun g =>
            GameData.set_ghost_pickups
              (list_remove ghost_to_remove (GameData.ghost_pickups g)) g)
      | None => ret tt
      end ;;
      g <- gets game ;;
      if String.eqb (GameData.mode g) GameMode_KURVE then ret tt
      else if negb ate_food
           then modify_snake pid (fun s =>
                  Snake.set_body (removelast (Snake.body s)) s)
           else ret tt
  end.

Definition _fire_weapon (pid : string) : M Env unit :=
  modify_snake pid (Snake.set_has_weapon false) ;;
  snake <- get_snake pid ;;
  match Snake.body snake with
  | [] => raise IndexError
  | head :: _ =>
      let start := step_cell (Snake.direction snake) head in
      let bomb := Bomb.mk (fst start) (snd start) (Snake.direction snake)
                          (Snake.player_id snake) BOMB_RANGE in
      modify_game (fun g => GameData.set_bombs (GameData.bombs g ++ [bomb]) g)
  end.

Definition _activate_ghost (pid : string) (current_time : Z) : M Env unit :=
  modify_snake pid (fun s =>
    Snake.set_invisible_until (current_time + GHOST_DURATION)
      (Snake.set_is_invisible true (Snake.set_has_ghost false s))).

Definition _create_explosion (x y : Z) : M Env unit :=
  modify_game (fun g =>
    GameData.set_explosions
      (GameData.explosions g ++ [Explosion.mk x y 3 5]) g).

(** One bomb, for at most [steps] cells; the flag says whether its index
    went into [bombs_to_remove]. *)
Fixpoint bomb_flight (steps : nat) (bomb : Bomb.t)
  : M Env (Bomb.t * bool) :=
  match steps with
  | O => ret (bomb, false)
  | S steps' =>
      let after_walls (bomb : Bomb.t) : M Env (Bomb.t * bool) :=
        g <- gets game ;;
        match find_hit (Bomb.x bomb, Bomb.y bomb) (GameData.snakes g) with
        | Some (player_id, hit_index) =>
            _create_explosion (Bomb.x bomb) (Bomb.y bomb) ;;
            modify_snake player_id (strike hit_index) ;;
            emit (EvStrike player_id) ;;
            ret (bomb, true)
        | None =>
            if Bomb.remaining_range bomb <=? 0 then ret (bomb, true)
            else bomb_flight steps' bomb
        end in
      g <- gets game ;;
      let pos := step_cell (Bomb.direction bomb) (Bomb.x bomb, Bomb.y bomb) in
      let moved := Bomb.mk (fst pos) (snd pos) (Bomb.direction bomb)
                           (Bomb.owner_id bomb)
                           (Bomb.remaining_range bomb - 1) in
      if GameData.walls_enabled g then
        if out_of_bounds g pos then
          _create_explosion (Bomb.x moved) (Bomb.y moved) ;;
          ret (moved, true)
        else after_walls moved
      else
        let wrapped := wrap_cell g pos in
        after_walls (Bomb.mk (fst wrapped) (snd wrapped) (Bomb.direction moved)
                             (Bomb.owner_id moved)
                             (Bomb.remaining_range moved))
  end.

Fixpoint fly_bombs (bombs : list Bomb.t) : M Env (list (Bomb.t * bool)) :=
  match bombs with
  | [] => ret []
  | bomb :: rest =>
      flown <- bomb_flight BOMB_SPEED bomb ;;
      others <- fly_bombs rest ;;
      ret (flown :: others)
  end.

Definition _update_bombs : M Env unit :=
  g <- gets game ;;
  flown <- fly_bombs (GameData.bombs g) ;;
  modify_game
    (GameData.set_bombs (map fst (filter (fun b => negb (snd b)) flown))).

Definition _update_explosions : M Env unit :=
  modify_game (fun g =>
    GameData.set_explosions
      (filter (fun e => negb (Explosion.ttl e <=? 0))
         (map (fun e => Explosion.mk (Explosion.x e) (Explosion.y e)
                          (Explosion.radius e) (Explosion.ttl e - 1))
              (GameData.explosions g))) g).

(** The head of [player_id] lies on a segment of another snake that is
    alive and not invisible. *)
Definition hits_other (player_id : string) (head : Cell)
  (snakes : Dict.t Snake.t) : bool :=
  existsb (fun entry =>
    negb (String.eqb (fst entry) player_id)
    && Snake.alive (snd entry)
    && negb (Snake.is_invisible (snd entry))
    && existsb (cell_eqb head) (Snake.body (snd entry))) snakes.

Definition check_snake (player_id : string) : M Env unit :=
  snake <- get_snake player_id ;;
  if negb (Snake.alive snake) then ret tt
  else
    match Snake.body snake with
    | [] => raise IndexError
    | head :: tail =>
        g <- gets game ;;
        if GameData.walls_enabled g && out_of_bounds g head
        then modify_snake player_id (Snake.set_alive false)
        else if existsb (cell_eqb head) tail
        then modify_snake player_id (Snake.set_alive false)
        else if hits_other player_id head (GameData.snakes g)
        then modify_snake player_id (Snake.set_alive false)
        else ret tt
    end.

Definition _check_collisions : M Env unit :=
  g <- gets game ;;
  for_each (Dict.keys (GameData.snakes g)) check_snake.

End SnakeGameLogic.

(** ** The server *)

(** What the server writes to a client. Each stands for the dictionary the
    source builds: [MsgError m] for [{'type': 'error', 'message': m}],
    [MsgWelcome ...] for the ['welcome'] dictionary of [_handle_join], and
    [MsgState g] for [{'type': 'state', 'game': asdict(g)}]. *)
Inductive ServerMsg : Type :=
| MsgError (message : string)
| MsgWelcome (player_id : string) (udp_port game_width game_height : Z)
             (message : string)
| MsgState (g : GameData.t).

Definition Addr : Type := (string * Z)%type.

(** The effects of the server on its sockets, oldest first. [IoSend] is a
    completed [sendall(NetworkProtocol.encode(msg))] on the reliable
    connection to a peer, [IoSendTo] a datagram. *)
Inductive IoEvent : Type :=
| IoSend (peer : Addr) (msg : ServerMsg)
| IoSendTo (addr : Addr) (msg : ServerMsg)
| IoShutdownWr (peer : Addr)
| IoClose (peer : Addr).

(** An accepted connection. On a socket that is not [connected] (reset by
    the peer, say) [sendall] and [shutdown] raise [socket.error]; [close]
    releases the descriptor and returns whatever the state of the
    connection. *)
Module Socket.
Record t : Type := mk {
  peer : Addr;
  connected : bool
}.
End Socket.

Module Client.
Record t : Type := mk {
  socket : Socket.t;
  buffer : list byte;
  name : string;
  addr : Addr;
  joined : bool;
  authenticated : bool
}.

Definition set_name (v : string) (c : t) : t :=
  mk (socket c) (buffer c) v (addr c) (joined c) (authenticated c).
Definition set_joined (v : bool) (c : t) : t :=
  mk (socket c) (buffer c) (name c) (addr c) v (authenticated c).
Definition set_authenticated (v : bool) (c : t) : t :=
  mk (socket c) (buffer c) (name c) (addr c) (joined c) v.
Definition set_buffer (v : list byte) (c : t) : t :=
  mk (socket c) v (name c) (addr c) (joined c) (authenticated c).
End Client.

(** [m.get(k, default)] on a decoded message. *)
Definition msg_get (k : string) (default : json) (m : Dict.t json) : json :=
  match Dict.get k m with
  | Some v => v
  | None => default
  end.

(** [isinstance(v, int)]: a [bool] is an [int] in Python. *)
Definition as_int (v : json) : option Z :=
  match v with
  | JInt n => Some n
  | JBool b => Some (if b then 1 else 0)
  | _ => None
  end.

(** [c.isprintable()] on the characters of the model. *)
Definition isprintable (c : ascii) : bool :=
  let n := Z.of_nat (nat_of_ascii c) in
  ((32 <=? n) && (n <=? 126)) || ((161 <=? n) && negb (n =? 173)).

Fixpoint string_filter (p : ascii -> bool) (s : string) : string :=
  match s with
  | EmptyString => EmptyString
  | String c s' =>
      if p c then String c (string_filter p s') else string_filter p s'
  end.

Definition is_space (c : ascii) : bool := Ascii.eqb c " "%char.

Fixpoint lstrip (s : string) : string :=
  match s with
  | String c s' => if is_space c then lstrip s' else s
  | EmptyString => EmptyString
  end.

Fixpoint rstrip (s : string) : string :=
  match s with
  | EmptyString => EmptyString
  | String c s' =>
      match rstrip s' with
      | EmptyString => if is_space c then EmptyString else String c EmptyString
      | rest => String c rest
      end
  end.

(** [''.join(c for c in raw if c.isprintable())[:16].strip()] *)
Definition sanitize_name (raw_name : string) : string :=
  lstrip (rstrip (String.substring 0 16 (string_filter isprintable raw_name))).

Module GameServer.

Record t : Type := mk {
  host : string;
  port : Z;
  udp_port : Z;
  mode : string;
  speed : string;
  walls_enabled : bool;
  width : Z;
  height : Z;
  requires_password : bool;
  password : option string;
  clients : Dict.t Client.t;
  env : Env;
  pending_inputs : Dict.t string;
  udp_clients : Dict.t Addr;
  client_message_counts : Dict.t (list Z);
  total_connections : Z;
  clock : Z;
  io : list IoEvent
}.

Definition set_width (v : Z) (s : t) : t :=
  mk (host s) (port s) (udp_port s) (mode s) (speed s) (walls_enabled s)
     v (height s) (requires_password s) (password s) (clients s) (env s)
     (pending_inputs s) (udp_clients s) (client_message_counts s)
     (total_connections s) (clock s) (io s).
Definition set_height (v : Z) (s : t) : t :=
  mk (host s) (port s) (udp_port s) (mode s) (speed s) (walls_enabled s)
     (width s) v (requires_password s) (password s) (clients s) (env s)
     (pending_inputs s) (udp_clients s) (client_message_counts s)
     (total_connections s) (clock s) (io s).
Definition set_clients (v : Dict.t Client.t) (s : t) : t :=
  mk (host s) (port s) (udp_port s) (mode s) (speed s) (walls_enabled s)
     (width s) (height s) (requires_password s) (password s) v (env s)
     (pending_inputs s) (udp_clients s) (client_message_counts s)
     (total_connections s) (clock s) (io s).
Definition set_env (v : Env) (s : t) : t :=
  mk (host s) (port s) (udp_port s) (mode s) (speed s) (walls_enabled s)
     (width s) (height s) (requires_password s) (password s) (clients s) v
     (pending_inputs s) (udp_clients s) (client_message_counts s)
     (total_connections s) (clock s) (io s).
Definition set_pending_inputs (v : Dict.t string) (s : t) : t :=
  mk (host s) (port s) (udp_port s) (mode s) (speed s) (walls_enabled s)
     (width s) (height s) (requires_password s) (password s) (clients s)
     (env s) v (udp_clients s) (client_message_counts s)
     (total_connections s) (clock s) (io s).
Definition set_udp_clients (v : Dict.t Addr) (s : t) : t :=
  mk (host s) (port s) (udp_port s) (mode s) (speed s) (walls_enabled s)
     (width s) (height s) (requires_password s) (password s) (clients s)
     (env s) (pending_inputs s) v (client_message_counts s)
     (total_connections s) (clock s) (io s).
Definition set_client_message_counts (v : Dict.t (list Z)) (s : t) : t :=
  mk (host s) (port s) (udp_port s) (mode s) (speed s) (walls_enabled s)
     (width s) (height s) (requires_password s) (password s) (clients s)
     (env s) (pending_inputs s) (udp_clients s) v
     (total_connections s) (clock s) (io s).
Definition set_clock (v : Z) (s : t) : t :=
  mk (host s) (port s) (udp_port s) (mode s) (speed s) (walls_enabled s)
     (width s) (height s) (requires_password s) (password s) (clients s)
     (env s) (pending_inputs s) (udp_clients s) (client_message_counts s)
     (total_connections s) v (io s).
Definition set_io (v : list IoEvent) (s : t) : t :=
  mk (host s) (port s) (udp_port s) (mode s) (speed s) (walls_enabled s)
     (width s) (height s) (requires_password s) (password s) (clients s)
     (env s) (pending_inputs s) (udp_clients s) (client_message_counts s)
     (total_connections s) (clock s) v.

(** [self.game] *)
Definition the_game (s : t) : GameData.t := game (env s).

(** A method of [self.logic] run on [self.game]. *)
Definition logic {A} (m : M Env A) : M t A :=
  fun s =>
    match m (env s) with
    | (r, e') => (r, set_env e' s)
    end.

Definition modify_the_game (f : GameData.t -> GameData.t) : M t unit :=
  logic (modify_game f).

(** [self.game = g] *)
Definition assign_game (g : GameData.t) : M t unit :=
  modify_the_game (fun _ => g).

Definition time_time : M t Z := gets clock.

Definition time_sleep (ms : Z) : M t unit :=
  modify (fun s => set_clock (clock s + ms) s).

Definition log (ev : IoEvent) : M t unit :=
  modify (fun s => set_io (io s ++ [ev]) s).

Definition modify_client (k : string) (f : Client.t -> Client.t) : M t unit :=
  modify (fun s => set_clients (Dict.update k f (clients s)) s).

(** [GameServer(host, port, mode, speed, walls_enabled, width, height,
    password)] up to [start()], which installs the game and the sources of
    time and randomness given here as [e] and [now]. [generated] is what
    [generate_password()] returns when it is called. *)
Definition __init__ (host : string) (port : Z) (mode speed : string)
  (walls_enabled : bool) (width height : Z) (password : option string)
  (generated : string) (e : Env) (now : Z) : t :=
  let requires_password := negb (is_private_ip host) in
  mk host port (port + 1) mode speed walls_enabled width height
     requires_password
     (if requires_password
      then match password with
           | Some p => if String.eqb p EmptyString then Some generated else Some p
           | None => Some generated
           end
      else None)
     [] e [] [] [] 0 now [].

Definition _check_rate_limit (client_id : string) : M t bool :=
  current_time <- time_time ;;
  s <- get ;;
  when (negb (Dict.mem client_id (client_message_counts s)))
    (modify (fun s =>
       set_client_message_counts
         (Dict.set client_id [] (client_message_counts s)) s)) ;;
  modify (fun s =>
    set_client_message_counts
      (Dict.update client_id
         (filter (fun ts => current_time - ts <? 1000))
         (client_message_counts s)) s) ;;
  s <- get ;;
  match Dict.get client_id (client_message_counts s) with
  | None => raise KeyError
  | Some stamps =>
      if len stamps >=? MAX_MESSAGES_PER_SECOND then ret false
      else
        modify (fun s =>
          set_client_message_counts
            (Dict.update client_id (fun l => l ++ [current_time])
               (client_message_counts s)) s) ;;
        ret true
  end.

(** The messages the server builds are always serializable, so the only
    failure left inside the [try] is the write on the socket. *)
Definition _send_to_client (player_id : string) (msg : ServerMsg)
  : M t bool :=
  s <- get ;;
  match Dict.get player_id (clients s) with
  | None => ret false
  | Some client =>
      if Socket.connected (Client.socket client)
      then log (IoSend (Socket.peer (Client.socket client)) msg) ;; ret true
      else ret false
  end.

Definition _remove_client (player_id : string) (graceful : bool)
  : M t unit :=
  s <- get ;;
  match Dict.get player_id (clients s) with
  | Some client =>
      (if graceful then
         when (Socket.connected (Client.socket client))
           (log (IoShutdownWr (Socket.peer (Client.socket client))) ;;
            time_sleep 100 ;;
            log (IoClose (Socket.peer (Client.socket client))))
       else log (IoClose (Socket.peer (Client.socket client)))) ;;
      modify (fun s => set_clients (Dict.del player_id (clients s)) s)
  | None => ret tt
  end ;;
  s <- get ;;
  when (Dict.mem player_id (udp_clients s))
    (modify (fun s => set_udp_clients (Dict.del player_id (udp_clients s)) s)) ;;
  s <- get ;;
  when (Dict.mem player_id (GameData.snakes (the_game s)))
    (logic (modify_snake player_id (Snake.set_alive false))).

(** The reliable fallback of [_broadcast_state]: the state goes to every
    joined client; those whose write failed are collected. *)
Fixpoint send_state_to (state_msg : ServerMsg) (ids disconnected : list string)
  : M t (list string) :=
  match ids with
  | [] => ret disconnected
  | player_id :: rest =>
      s <- get ;;
      match Dict.get player_id (clients s) with
      | Some client =>
          if Client.joined client then
            sent <- _send_to_client player_id state_msg ;;
            if sent then send_state_to state_msg rest disconnected
            else send_state_to state_msg rest (disconnected ++ [player_id])
          else send_state_to state_msg rest disconnected
      | None => send_state_to state_msg rest disconnected
      end
  end.

Definition _broadcast_state : M t unit :=
  s <- get ;;
  let state_msg := MsgState (the_game s) in
  for_each (Dict.values (udp_clients s))
    (fun udp_addr => log (IoSendTo udp_addr state_msg)) ;;
  let should_send_tcp :=
    (GameData.tick (the_game s) mod 3 =? 0)
    || String.eqb (GameData.state (the_game s)) GameState_WAITING in
  when should_send_tcp
    (disconnected <- send_state_to state_msg (Dict.keys (clients s)) [] ;;
     for_each disconnected (fun player_id => _remove_client player_id false)).

Definition _start_countdown : M t unit :=
  now <- time_time ;;
  modify_the_game (fun g =>
    GameData.set_countdown_start now
      (GameData.set_countdown 5
         (GameData.set_state GameState_COUNTDOWN g))).

(** [_handle_join] after the password gate. *)
Definition join_after_gate (temp_id : string) (msg : Dict.t json) : M t unit :=
  s <- get ;;
  if negb (String.eqb (GameData.state (the_game s)) GameState_WAITING) then
    _send_to_client temp_id (MsgError "Game already started") ;; ret tt
  else if len (GameData.snakes (the_game s)) >=? MAX_PLAYERS then
    _send_to_client temp_id (MsgError "Game is full") ;; ret tt
  else
    let raw_name :=
      match msg_get "name" (JStr "Player") msg with
      | JStr n => n
      | _ => "Player"
      end in
    let player_name := sanitize_name raw_name in
    let player_name :=
      if String.eqb player_name EmptyString then "Player" else player_name in
    let player_id := temp_id in
    let client_udp_port :=
      match as_int (msg_get "udp_port" (JInt 0) msg) with
      | Some p => if (p <? 0) || (p >? 65535) then 0 else p
      | None => 0
      end in
    let client_width :=
      match as_int (msg_get "screen_width" (JInt 0) msg) with
      | Some w => if (w <? 0) || (w >? 10000) then 0 else w
      | None => 0
      end in
    let client_height :=
      match as_int (msg_get "screen_height" (JInt 0) msg) with
      | Some h => if (h <? 0) || (h >? 10000) then 0 else h
      | None => 0
      end in
    when ((len (GameData.snakes (the_game s)) =? 0)
          && (client_width >? 0) && (client_height >? 0))
      (let max_width := Z.min client_width 1920 in
       let max_height := Z.min client_height 1080 in
       (if client_width <=? 300 then
          modify_the_game (fun g =>
            GameData.set_height (Z.min (client_height - 3) 50)
              (GameData.set_width (Z.min (client_width - 2) 200) g))
        else
          let cell_size := 16 in
          modify_the_game (fun g =>
            GameData.set_height (Z.min (max_height / cell_size - 4) 63)
              (GameData.set_width (Z.min (max_width / cell_size - 2) 118) g))) ;;
       modify (fun s =>
         set_height (GameData.height (the_game s))
           (set_width (GameData.width (the_game s)) s))) ;;
    logic (SnakeGameLogic._add_player_to_game player_id player_name) ;;
    modify_client temp_id (fun c =>
      Client.set_authenticated true
        (Client.set_joined true (Client.set_name player_name c))) ;;
    when (client_udp_port >? 0)
      (s <- get ;;
       match Dict.get temp_id (clients s) with
       | Some client =>
           when (Socket.connected (Client.socket client))
             (modify (fun s =>
                set_udp_clients
                  (Dict.set player_id
                     (fst (Socket.peer (Client.socket client)), client_udp_port)
                     (udp_clients s)) s))
       | None => ret tt
       end) ;;
    s <- get ;;
    _send_to_client player_id
      (MsgWelcome player_id (udp_port s) (GameData.width (the_game s))
         (GameData.height (the_game s))
         (String.append "Welcome " (String.append player_name "!"))) ;;
    _broadcast_state.

Definition _handle_join (temp_id : string) (msg : Dict.t json) : M t unit :=
  s <- get ;;
  if requires_password s then
    match msg_get "password" (JStr EmptyString) msg with
    | JStr client_password =>
        if Z.of_nat (String.length client_password) >? 50 then
          _send_to_client temp_id (MsgError "Invalid password format") ;;
          _remove_client temp_id true
        else if negb (match password s with
                      | Some p => String.eqb client_password p
                      | None => false
                      end) then
          _send_to_client temp_id (MsgError "Invalid password") ;;
          _remove_client temp_id true
        else
          modify_client temp_id (Client.set_authenticated true) ;;
          join_after_gate temp_id msg
    | _ =>
        _send_to_client temp_id (MsgError "Invalid password format") ;;
        _remove_client temp_id true
    end
  else join_after_gate temp_id msg.

(** Reading an attribute that no method of [GameServer] ever assigns:
    neither [__init__] nor any other method sets [self.no_walls], and the
    class defines no fallback lookup. *)
Definition self_no_walls : M t bool := raise AttributeError.

Definition _restart_game : M t unit :=
  s <- get ;;
  let player_info :=
    fold_left
      (fun info entry =>
         if Client.joined (snd entry)
         then Dict.set (fst entry) (Client.name (snd entry)) info
         else info)
      (clients s) [] in
  assign_game GameData.default ;;
  modify_the_game (GameData.set_mode (mode s)) ;;
  no_walls <- self_no_walls ;;
  (* [self.game.no_walls = no_walls]: an attribute no reader looks at. *)
  modify_the_game (GameData.set_state GameState_WAITING) ;;
  for_each player_info
    (fun entry =>
       logic (SnakeGameLogic._add_player_to_game (fst entry) (snd entry))) ;;
  modify (set_pending_inputs []) ;;
  s <- get ;;
  when (len (GameData.snakes (the_game s)) >? 0) _start_countdown.

Definition _handle_message (temp_id : string) (msg : json) : M t unit :=
  allowed <- _check_rate_limit temp_id ;;
  if negb allowed then ret tt
  else
    match msg with
    | JDict msg =>
        match Dict.get "type" msg with
        | Some (JStr msg_type) =>
            if Z.of_nat (String.length msg_type) >? 20 then ret tt
            else if String.eqb msg_type "join" then _handle_join temp_id msg
            else if String.eqb msg_type "input" then
              s <- get ;;
              match Dict.get temp_id (clients s) with
              | None => ret tt
              | Some client =>
                  if requires_password s && negb (Client.authenticated client)
                  then ret tt
                  else
                    let player_id := msg_get "player_id" (JStr temp_id) msg in
                    match Dict.get "action" msg with
                    | Some (JStr action) =>
                        if negb (existsb (String.eqb action) VALID_ACTIONS)
                        then ret tt
                        else
                          match player_id with
                          | JStr player_id =>
                              if negb (String.eqb player_id temp_id)
                                 && negb (Dict.mem player_id (clients s))
                              then ret tt
                              else
                                when (Dict.mem player_id
                                        (GameData.snakes (the_game s)))
                                  (modify (fun s =>
                                     set_pending_inputs
                                       (Dict.set player_id action
                                          (pending_inputs s)) s))
                          | JList _ | JDict _ => raise TypeError
                          | _ => ret tt
                          end
                    | _ => ret tt
                    end
              end
            else if String.eqb msg_type "start" then
              s <- get ;;
              when (String.eqb (GameData.state (the_game s)) GameState_WAITING
                    && (len (GameData.snakes (the_game s)) >? 0))
                _start_countdown
            else if String.eqb msg_type "restart" then
              s <- get ;;
              when (String.eqb (GameData.state (the_game s)) GameState_FINISHED)
                _restart_game
            else ret tt
        | _ => ret tt
        end
    | _ => raise AttributeError
    end.

(** One entry of the drained input map. *)
Definition apply_input (current_time : Z) (player_id action : string)
  : M Env unit :=
  g <- gets game ;;
  match Dict.get player_id (GameData.snakes g) with
  | None => ret tt
  | Some snake =>
      if negb (Snake.alive snake) then ret tt
      else
        let current_dir := Snake.direction snake in
        if String.eqb action "UP"
           && negb (Z.eqb (Direction_value current_dir) (Direction_value DOWN))
        then modify_snake player_id (Snake.set_direction UP)
        else if String.eqb action "DOWN"
           && negb (Z.eqb (Direction_value current_dir) (Direction_value UP))
        then modify_snake player_id (Snake.set_direction DOWN)
        else if String.eqb action "LEFT"
           && negb (Z.eqb (Direction_value current_dir) (Direction_value RIGHT))
        then modify_snake player_id (Snake.set_direction LEFT)
        else if String.eqb action "RIGHT"
           && negb (Z.eqb (Direction_value current_dir) (Direction_value LEFT))
        then modify_snake player_id (Snake.set_direction RIGHT)
        else if String.eqb action "FIRE" && Snake.has_weapon snake
        then SnakeGameLogic._fire_weapon player_id
        else if String.eqb action "GHOST" && Snake.has_ghost snake
        then SnakeGameLogic._activate_ghost player_id current_time
        else ret tt
  end.

Definition _process_inputs : M t unit :=
  s <- get ;;
  let inputs := pending_inputs s in
  modify (set_pending_inputs []) ;;
  current_time <- time_time ;;
  for_each inputs
    (fun entry => logic (apply_input current_time (fst entry) (snd entry))).

Definition expire_invisibility (current_time : Z) (pid : string)
  : M Env unit :=
  snake <- get_snake pid ;;
  when (Snake.is_invisible snake
        && (current_time >=? Snake.invisible_until snake))
    (modify_snake pid (Snake.set_is_invisible false)).

Definition move_if_alive (pid : string) : M Env unit :=
  snake <- get_snake pid ;;
  if negb (Snake.alive snake) then ret tt
  else SnakeGameLogic._move_snake pid.

Definition spawn_pickup (current_time : Z) : M Env unit :=
  g <- gets game ;;
  when (current_time >=? GameData.next_weapon_spawn g)
    (bomb <- random_coin ;;
     (if bomb then SnakeGameLogic._spawn_weapon
      else SnakeGameLogic._spawn_ghost) ;;
     delay <- random_uniform WEAPON_SPAWN_MIN WEAPON_SPAWN_MAX ;;
     modify_game (GameData.set_next_weapon_spawn (current_time + delay))).

Definition check_winner : M Env unit :=
  g <- gets game ;;
  let alive_count :=
    len (filter Snake.alive (Dict.values (GameData.snakes g))) in
  when ((alive_count <=? 1) && (len (GameData.snakes g) >? 1))
    (modify_game (GameData.set_state GameState_FINISHED) ;;
     for_each (Dict.values (GameData.snakes g))
       (fun s =>
          when (Snake.alive s)
            (modify_game (GameData.set_winner (Snake.player_name s))))).

(** [_update_game] once the clock is read: every step runs on [self.game]
    through [self.logic] and [random]. *)
Definition update_world (current_time : Z) : M Env unit :=
  g <- gets game ;;
  for_each (Dict.keys (GameData.snakes g)) (expire_invisibility current_time) ;;
  for_each (Dict.keys (GameData.snakes g)) move_if_alive ;;
  SnakeGameLogic._update_bombs ;;
  SnakeGameLogic._update_explosions ;;
  SnakeGameLogic._check_collisions ;;
  spawn_pickup current_time ;;
  check_winner ;;
  modify_game (fun g => GameData.set_tick (GameData.tick g + 1) g).

Definition _update_game : M t unit :=
  current_time <- time_time ;;
  logic (update_world current_time).

Definition _update_countdown : M t unit :=
  now <- time_time ;;
  s <- get ;;
  let elapsed := now - GameData.countdown_start (the_game s) in
  let new_countdown := 5 - Z.quot elapsed 1000 in
  when (negb (new_countdown =? GameData.countdown (the_game s)))
    (modify_the_game (GameData.set_countdown (Z.max 0 new_countdown))) ;;
  when (elapsed >=? 5000)
    (modify_the_game (fun g =>
       GameData.set_countdown 0 (GameData.set_state GameState_RUNNING g))).

(** What [_run_loop] does when a tick is due. *)
Definition run_loop_tick : M t unit :=
  _process_inputs ;;
  s <- get ;;
  (if String.eqb (GameData.state (the_game s)) GameState_COUNTDOWN
   then _update_countdown
   else if String.eqb (GameData.state (the_game s)) GameState_RUNNING
   then _update_game
   else ret tt) ;;
  _broadcast_state.

Definition set_total_connections (v : Z) (s : t) : t :=
  mk (host s) (port s) (udp_port s) (mode s) (speed s) (walls_enabled s)
     (width s) (height s) (requires_password s) (password s) (clients s)
     (env s) (pending_inputs s) (udp_clients s) (client_message_counts s)
     v (clock s) (io s).

(** [f"temp_{addr[0]}_{addr[1]}"] *)
Definition temp_id_of (addr : Addr) : string :=
  String.append "temp_"
    (String.append (fst addr)
       (String.append "_" (NilEmpty.string_of_int (Z.to_int (snd addr))))).

(** [_accept_connections] when the listening socket is readable and
    [accept()] hands over [client_socket]; the address is the peer of the
    socket. Switching the socket to non-blocking is a local flag and does
    not fail. *)
Definition _accept_connections (client_socket : Socket.t) : M t unit :=
  s <- get ;;
  let addr := Socket.peer client_socket in
  modify (set_total_connections (len (clients s))) ;;
  if len (clients s) >=? MAX_CONNECTIONS then
    when (Socket.connected client_socket)
      (log (IoSend addr (MsgError "Server full")) ;;
       log (IoClose addr))
  else
    let temp_id := temp_id_of addr in
    modify (fun s =>
      set_clients
        (Dict.set temp_id
           (Client.mk client_socket [] "Unknown" addr false false)
           (clients s)) s).

(** [try: self._handle_message(player_id, msg) except Exception: print] *)
Definition handle_safely (player_id : string) (msg : json) : M t unit :=
  try_except (_handle_message player_id msg) (ret tt).

(** The [while True] loop of [_read_clients] over the buffer of one client.
    The buffer lives in the client object the loop holds, which the
    handlers never touch; it is written through to the registry as long
    as the session is registered. An exception of the decoder leaves the
    loop before the buffer is assigned. Every round that goes on consumed
    a frame, so [fuel] above the length of the buffer never runs out. *)
Fixpoint read_loop (fuel : nat) (loads : list byte -> loaded)
  (player_id : string) (buffer : list byte) : M t unit :=
  match fuel with
  | O => ret tt
  | S fuel' =>
      match NetworkProtocol.decode_from_buffer loads buffer with
      | Raise e => raise e
      | Return (msg, rest) =>
          modify_client player_id (Client.set_buffer rest) ;;
          match msg with
          | None => ret tt
          | Some msg => handle_safely player_id msg ;;
                        read_loop fuel' loads player_id rest
          end
      end
  end.

(** The body of [_read_clients] for one registered client whose socket is
    readable and whose [recv] returned [data]. No data means the peer
    closed; an exception of the decoder is caught by the outer
    [except Exception]. Either way the identifier goes on the
    [disconnected] list, and [_remove_client] runs on it after the pass. *)
Definition read_client (loads : list byte -> loaded)
  (player_id : string) (data : list byte) : M t unit :=
  s <- get ;;
  match Dict.get player_id (clients s) with
  | None => ret tt
  | Some client =>
      match data with
      | [] => _remove_client player_id false
      | _ =>
          let buffer := Client.buffer client ++ data in
          try_except
            (modify_client player_id (Client.set_buffer buffer) ;;
             read_loop (S (List.length buffer)) loads player_id buffer)
            (_remove_client player_id false)
      end
  end.

End GameServer.

(** ** A reference instance of the JSON library

    Python's [json] is not part of the program. For running the codec on
    concrete messages, this is a printer with the defaults of [json.dumps]
    (separators [", "] and [": "], ASCII output) and a reader for the same
    grammar, on wire text in the ASCII range. *)

Module RefJson.

Definition quote : ascii := ascii_of_nat 34.
Definition backslash : ascii := ascii_of_nat 92.

Definition char (s : string) : ascii :=
  match s with
  | String c _ => c
  | EmptyString => zero
  end.

Definition hex_digit (n : Z) : ascii :=
  nth (Z.to_nat n) (list_ascii_of_string "0123456789abcdef") (char "0").

Definition escape (c : ascii) : string :=
  let n := Z.of_nat (nat_of_ascii c) in
  if Ascii.eqb c quote then String backslash (String quote EmptyString)
  else if Ascii.eqb c backslash then String backslash (String backslash EmptyString)
  else if n =? 10 then "\n"
  else if n =? 13 then "\r"
  else if n =? 9 then "\t"
  else if n =? 8 then "\b"
  else if n =? 12 then "\f"
  else if (32 <=? n) && (n <=? 127) then String c EmptyString
  else String backslash
         (String (char "u") (String (char "0") (String (char "0")
            (String (hex_digit (n / 16))
               (String (hex_digit (n mod 16)) EmptyString))))).

Fixpoint escape_all (s : string) : string :=
  match s with
  | EmptyString => EmptyString
  | String c s' => String.append (escape c) (escape_all s')
  end.

Definition quoted (s : string) : string :=
  String quote (String.append (escape_all s) (String quote EmptyString)).

Fixpoint text (v : json) : string :=
  match v with
  | JNull => "null"
  | JBool true => "true"
  | JBool false => "false"
  | JInt n => NilEmpty.string_of_int (Z.to_int n)
  | JFloat literal => literal
  | JStr s => quoted s
  | JList items =>
      String.append "["
        (String.append
           ((fix elements (l : list json) : string :=
               match l with
               | [] => EmptyString
               | v :: l' =>
                   String.append (text v)
                     match l' with
                     | [] => EmptyString
                     | _ => String.append ", " (elements l')
                     end
               end) items) "]")
  | JDict items =>
      String.append "{"
        (String.append
           ((fix members (l : list (string * json)) : string :=
               match l with
               | [] => EmptyString
               | (k, v) :: l' =>
                   String.append (quoted k)
                     (String.append ": "
                        (String.append (text v)
                           match l' with
                           | [] => EmptyString
                           | _ => String.append ", " (members l')
                           end))
               end) items) "}")
  end.

Definition dumps (v : json) : list byte := list_byte_of_string (text v).

Definition is_ws (c : ascii) : bool :=
  let n := nat_of_ascii c in
  (Nat.eqb n 32 || Nat.eqb n 9 || Nat.eqb n 10 || Nat.eqb n 13)%bool.

Fixpoint skip_ws (s : string) : string :=
  match s with
  | String c s' => if is_ws c then skip_ws s' else s
  | EmptyString => EmptyString
  end.

Definition hex_value (c : ascii) : option Z :=
  let n := Z.of_nat (nat_of_ascii c) in
  if (48 <=? n) && (n <=? 57) then Some (n - 48)
  else if (97 <=? n) && (n <=? 102) then Some (n - 87)
  else if (65 <=? n) && (n <=? 70) then Some (n - 55)
  else None.

(** The characters of a string literal, after its opening quote. *)
Fixpoint read_string (fuel : nat) (s : string) : option (string * string) :=
  match fuel, s with
  | S fuel', String c s' =>
      if Ascii.eqb c quote then Some (EmptyString, s')
      else if Ascii.eqb c backslash then
        match s' with
        | String e s'' =>
            let simple (d : ascii) :=
              match read_string fuel' s'' with
              | Some (r, rest) => Some (String d r, rest)
              | None => None
              end in
            if Ascii.eqb e (char "n") then simple (ascii_of_nat 10)
            else if Ascii.eqb e (char "r") then simple (ascii_of_nat 13)
            else if Ascii.eqb e (char "t") then simple (ascii_of_nat 9)
            else if Ascii.eqb e (char "b") then simple (ascii_of_nat 8)
            else if Ascii.eqb e (char "f") then simple (ascii_of_nat 12)
            else if Ascii.eqb e (char "/") then simple (char "/")
            else if Ascii.eqb e quote then simple quote
            else if Ascii.eqb e backslash then simple backslash
            else if Ascii.eqb e (char "u") then
              match s'' with
              | String h1 (String h2 (String h3 (String h4 s4))) =>
                  match hex_value h1, hex_value h2, hex_value h3, hex_value h4 with
                  | Some 0, Some 0, Some a, Some b =>
                      match read_string fuel' s4 with
                      | Some (r, rest) =>
                          Some (String (ascii_of_nat (Z.to_nat (16 * a + b))) r, rest)
                      | None => None
                      end
                  | _, _, _, _ => None
                  end
              | _ => None
              end
            else None
        | EmptyString => None
        end
      else if Nat.ltb (nat_of_ascii c) 32 then None
      else
        match read_string fuel' s' with
        | Some (r, rest) => Some (String c r, rest)
        | None => None
        end
  | _, _ => None
  end.

Definition is_number_char (c : ascii) : bool :=
  let n := Z.of_nat (nat_of_ascii c) in
  ((48 <=? n) && (n <=? 57)) || (n =? 45) || (n =? 43) || (n =? 46)
  || (n =? 101) || (n =? 69).

Fixpoint read_number (s : string) : string * string :=
  match s with
  | String c s' =>
      if is_number_char c
      then let (tok, rest) := read_number s' in (String c tok, rest)
      else (EmptyString, s)
  | EmptyString => (EmptyString, EmptyString)
  end.

(** [int] refuses a literal of more than 4300 digits
    ([sys.int_info.default_max_str_digits]) with [ValueError]. *)
Definition MAX_STR_DIGITS : Z := 4300.

Fixpoint count_digits (tok : string) : Z :=
  match tok with
  | String c tok' =>
      let n := Z.of_nat (nat_of_ascii c) in
      (if (48 <=? n) && (n <=? 57) then 1 else 0) + count_digits tok'
  | EmptyString => 0
  end.

(** The reader answers [Return (Some _)] for what it read, [Return None]
    for a syntax error ([JSONDecodeError]), and [Raise _] for an exception
    of another class. *)
Definition number (tok : string) : outcome (option json) :=
  match NilEmpty.int_of_string tok with
  | Some d =>
      if count_digits tok >? MAX_STR_DIGITS then Raise ValueError
      else Return (Some (JInt (Z.of_int d)))
  | None => match tok with
            | EmptyString => Return None
            | _ => Return (Some (JFloat tok))
            end
  end.

Definition strip_prefix (p s : string) : option string :=
  if String.prefix p s
  then Some (String.substring (String.length p)
               (String.length s - String.length p) s)
  else None.

Fixpoint read_value (fuel : nat) (s : string)
  : outcome (option (json * string)) :=
  match fuel with
  | O => Return None
  | S fuel' =>
      let s := skip_ws s in
      match s with
      | EmptyString => Return None
      | String c rest =>
          if Ascii.eqb c quote then
            match read_string (String.length rest) rest with
            | Some (str, rest') => Return (Some (JStr str, rest'))
            | None => Return None
            end
          else if Ascii.eqb c (char "[") then
            match skip_ws rest with
            | String c' rest' =>
                if Ascii.eqb c' (char "]") then Return (Some (JList [], rest'))
                else read_elements fuel' rest []
            | EmptyString => Return None
            end
          else if Ascii.eqb c (char "{") then
            match skip_ws rest with
            | String c' rest' =>
                if Ascii.eqb c' (char "}") then Return (Some (JDict [], rest'))
                else read_members fuel' rest []
            | EmptyString => Return None
            end
          else
            match strip_prefix "null" s, strip_prefix "true" s,
                  strip_prefix "false" s with
            | Some rest', _, _ => Return (Some (JNull, rest'))
            | _, Some rest', _ => Return (Some (JBool true, rest'))
            | _, _, Some rest' => Return (Some (JBool false, rest'))
            | _, _, _ =>
                let (tok, rest') := read_number s in
                match number tok with
                | Return (Some v) => Return (Some (v, rest'))
                | Return None => Return None
                | Raise e => Raise e
                end
            end
      end
  end
with read_elements (fuel : nat) (s : string) (acc : list json)
  : outcome (option (json * string)) :=
  match fuel with
  | O => Return None
  | S fuel' =>
      match read_value fuel' s with
      | Return (Some (v, rest)) =>
          match skip_ws rest with
          | String c rest' =>
              if Ascii.eqb c (char ",") then read_elements fuel' rest' (acc ++ [v])
              else if Ascii.eqb c (char "]")
              then Return (Some (JList (acc ++ [v]), rest'))
              else Return None
          | EmptyString => Return None
          end
      | failed => failed
      end
  end
with read_members (fuel : nat) (s : string) (acc : list (string * json))
  : outcome (option (json * string)) :=
  match fuel with
  | O => Return None
  | S fuel' =>
      match skip_ws s with
      | String q after_quote =>
          if Ascii.eqb q quote then
            match read_string (String.length after_quote) after_quote with
            | Some (k, rest) =>
                match skip_ws rest with
                | String colon rest' =>
                    if Ascii.eqb colon (char ":") then
                      match read_value fuel' rest' with
                      | Return (Some (v, rest'')) =>
                          match skip_ws rest'' with
                          | String c rest3 =>
                              if Ascii.eqb c (char ",")
                              then read_members fuel' rest3 (Dict.set k v acc)
                              else if Ascii.eqb c (char "}")
                              then Return (Some (JDict (Dict.set k v acc), rest3))
                              else Return None
                          | EmptyString => Return None
                          end
                      | failed => failed
                      end
                    else Return None
                | EmptyString => Return None
                end
            | None => Return None
            end
          else Return None
      | EmptyString => Return None
      end
  end.

(** Bytes outside the ASCII range are left to [Malformed]: the reference
    reader is for wire text in that range, nested less deep than the
    recursion limit. *)
Definition loads (b : list byte) : loaded :=
  if forallb (fun x => Z_of_byte x <? 128) b then
    let s := string_of_list_byte b in
    match read_value (2 * String.length s + 2) s with
    | Return (Some (v, rest)) =>
        match skip_ws rest with
        | EmptyString => Loaded v
        | _ => Malformed
        end
    | Return None => Malformed
    | Raise e => LoadRaised e
    end
  else Malformed.

End RefJson.

(** ** Sample data *)

Definition sample_input : json :=
  JDict [("type", JStr "input"); ("player_id", JStr "temp_10.0.0.7_40001");
         ("action", JStr "UP")].

Fixpoint repeat_char (n : nat) (c : ascii) : string :=
  match n with
  | O => EmptyString
  | S n' => String c (repeat_char n' c)
  end.

(** A join whose name alone fills [MAX_MESSAGE_SIZE] bytes. *)
Definition large_message : json :=
  JDict [("type", JStr "join"); ("name", JStr (repeat_char (Z.to_nat 65536) "a"%char))].

(** ** Vocabulary of the properties *)

(** Two dictionaries with the same keys in the same order whose values
    are related entry by entry. *)
Definition entries {V} (R : string -> V -> V -> Prop) (d d' : Dict.t V) : Prop :=
  Forall2 (fun kv kv' => fst kv' = fst kv /\ R (fst kv) (snd kv) (snd kv')) d d'.

Definition respects {S A} (R : S -> S -> Prop) (m : M S A) : Prop :=
  forall s, R s (snd (m s)).

Definition Event_eq_dec (a b : Event) : {a = b} + {a <> b}.
Proof. decide equality; apply string_dec. Defined.

(** How often an actor ate in a list of events. *)
Definition ate_count (k : string) (evs : list Event) : nat :=
  count_occ Event_eq_dec evs (EvAte k).

Definition no_budget : string -> nat := fun _ => O.

(** Nothing but the random tape and the parts of the game outside the
    actors changed. *)
Definition quiet_rel (e e' : Env) : Prop :=
  GameData.snakes (game e') = GameData.snakes (game e) /\
  trace e' = trace e /\
  GameData.mode (game e') = GameData.mode (game e).

(** No body changed and no event was recorded. *)
Definition frame_rel (e e' : Env) : Prop :=
  GameData.mode (game e') = GameData.mode (game e) /\
  trace e' = trace e /\
  entries (fun _ s s' => Snake.body s' = Snake.body s)
    (GameData.snakes (game e)) (GameData.snakes (game e')).

(** What a stretch of a tick with events [evs] may do to the body of
    actor [k] in game mode [md]. *)
Definition entry_rel (md : string) (evs : list Event) (k : string)
  (s s' : Snake.t) : Prop :=
  (Snake.body s <> [] -> Snake.body s' <> []) /\
  (~ In (EvStrike k) evs ->
   (md = GameMode_KURVE ->
    (List.length (Snake.body s) <= List.length (Snake.body s'))%nat) /\
   (md <> GameMode_KURVE ->
    List.length (Snake.body s')
    = (List.length (Snake.body s) + ate_count k evs)%nat)).

(** A stretch of a tick in which actor [k] ate at most [budget k] times. *)
Definition tick_rel (budget : string -> nat) (e e' : Env) : Prop :=
  GameData.mode (game e') = GameData.mode (game e) /\
  exists evs,
    trace e' = evs ++ trace e /\
    (forall k, (ate_count k evs <= budget k)%nat) /\
    entries (entry_rel (GameData.mode (game e)) evs)
      (GameData.snakes (game e)) (GameData.snakes (game e')).

(** One meal for [pid], none for the others. *)
Definition one_at (pid : string) : string -> nat :=
  fun k => if String.eqb k pid then 1%nat else O.

(** One meal per occurrence of a key: what a pass over [ks] allows. *)
Definition keys_budget (ks : list string) : string -> nat :=
  fun k => count_occ string_dec ks k.

(** The relation of a tick, seen from the server. *)
Definition server_tick_rel (budget : string -> nat) (s s' : GameServer.t)
  : Prop :=
  tick_rel budget (GameServer.env s) (GameServer.env s').

Definition all_bodies_nonempty (g : GameData.t) : Prop :=
  Forall (fun kv => (1 <= List.length (Snake.body (snd kv)))%nat)
    (GameData.snakes g).

Definition server_frame_rel (s s' : GameServer.t) : Prop :=
  frame_rel (GameServer.env s) (GameServer.env s').

(** ** Sample worlds *)

Definition ann_id : string := "temp_10.0.0.7_40001".
Definition bob_id : string := "temp_10.0.0.8_40002".

Definition ann : Snake.t :=
  Snake.mk 0 "Ann" [(10, 5); (9, 5); (8, 5); (7, 5); (6, 5); (5, 5)] RIGHT
           true false false false 0 0 0.

Definition bob : Snake.t :=
  Snake.mk 1 "Bob" [(8, 1); (9, 1); (10, 1)] DOWN
           true true false false 0 0 1.

(** A running 40 by 20 walled game: Ann heads east along row 5; Bob, who
    holds a bomb, has just turned south in column 8, above Ann's body,
    with a food item in front of him. *)
Definition sample_game (mode : string) : GameData.t :=
  GameData.mk GameState_RUNNING mode "normal" true 40 20
    [(ann_id, ann); (bob_id, bob)]
    [(30, 10); (8, 2)] [] []
    [] []
    "server" 2 7 0 100000 EmptyString 0 0.

Definition sample_rng : Rng := mkRng (fun _ => 7) O.

Definition sample_client (ip : string) (port : Z) (name : string) : Client.t :=
  Client.mk (Socket.mk (ip, port) true) [] name (ip, port) true true.

(** The sample server, with Bob's request to fire queued for the next
    tick. *)
Definition sample_server (mode : string) : GameServer.t :=
  GameServer.mk "0.0.0.0" 5555 5556 mode "normal" true 40 20 true
    (Some "s3cret-Passw0rd")
    [(ann_id, sample_client "10.0.0.7" 40001 "Ann");
     (bob_id, sample_client "10.0.0.8" 40002 "Bob")]
    (mkEnv (sample_game mode) sample_rng [])
    [(bob_id, "FIRE")] [] [] 0 50000 [].

(** Bob after one tick of the sample world: he fired, ate and grew. *)
Definition bob_after : Snake.t :=
  Snake.mk 1 "Bob" [(8, 2); (8, 1); (9, 1); (10, 1)] DOWN
           true false false false 0 10 1.

(** No actor segment, alive or dead, and no consumable lies on [c]. *)
Definition free_cell (g : GameData.t) (c : Cell) : Prop :=
  (forall k s, In (k, s) (GameData.snakes g) -> ~ In c (Snake.body s)) /\
  ~ In c (GameData.foods g) /\
  ~ In c (GameData.weapons g) /\
  ~ In c (GameData.ghost_pickups g).

(** What a spawner may do: nothing, or [place] one item on a free cell;
    either way it reads at most [200] draws, two per attempt. *)
Definition spawned (place : Cell -> GameData.t -> GameData.t) (e e' : Env)
  : Prop :=
  (game e' = game e \/
   exists c, free_cell (game e) c /\ game e' = place c (game e)) /\
  (used (rng e') <= used (rng e) + 200)%nat.

(** The cell that attempt number [i], counted from [0], of a spawner draws
    in world [e]: two draws of the tape per attempt, [x] before [y], each
    brought into the range from [2] to the size of the field less [2]. *)
Definition candidate (e : Env) (i : nat) : Cell :=
  (2 + draws (rng e) (used (rng e) + 2 * i)
       mod (GameData.width (game e) - 2 - 2 + 1),
   2 + draws (rng e) (used (rng e) + 2 * i + 1)
       mod (GameData.height (game e) - 2 - 2 + 1)).

(** The world after the two draws of an attempt that collided. *)
Definition after_attempt (e : Env) : Env :=
  mkEnv (game e) (mkRng (draws (rng e)) (S (S (used (rng e))))) (trace e).

(** A spawner retries on collision, [100] times at most: the item goes on
    the cell of the first attempt whose cell is free, and the attempts
    after it are not made; when the cells of all [100] attempts are taken,
    [200] draws are spent and the game is as it was. *)
Definition retried (place : Cell -> GameData.t -> GameData.t) (e e' : Env)
  : Prop :=
  (forall i,
      (i < 100)%nat ->
      (forall j, (j < i)%nat -> ~ free_cell (game e) (candidate e j)) ->
      free_cell (game e) (candidate e i) ->
      game e' = place (candidate e i) (game e) /\
      used (rng e') = (used (rng e) + 2 * (i + 1))%nat) /\
  ((forall j, (j < 100)%nat -> ~ free_cell (game e) (candidate e j)) ->
   game e' = game e /\
   used (rng e') = (used (rng e) + 200)%nat).

(** The sample world with a tape whose first attempt lands on the food at
    (8, 2) and whose second lands on (9, 9). *)
Definition retry_env : Env :=
  mkEnv (sample_game GameMode_CLASSIC)
        (mkRng (fun k => match k with
                         | O => 6
                         | S O => 0
                         | _ => 7
                         end) O) [].

(** The sample world with a food item on (9, 9), the one cell its tape
    draws. *)
Definition crowded_env : Env :=
  mkEnv (GameData.set_foods
           (GameData.foods (sample_game GameMode_CLASSIC) ++ [(9, 9)])
           (sample_game GameMode_CLASSIC))
        sample_rng [].

(** The sample world with a bomb in flight on cell (9, 9). *)
Definition projectile_env : Env :=
  mkEnv (GameData.set_bombs [Bomb.mk 9 9 LEFT 1 20]
           (sample_game GameMode_CLASSIC))
        sample_rng [].

(** What can kill actor [a] with snake [A] in collision resolution: its
    head on a wall, on its own body, or on a segment of another actor that
    is alive and not cloaked. *)
Definition death_cause (g : GameData.t) (a : string) (A : Snake.t) : Prop :=
  match Snake.body A with
  | [] => False
  | head :: tail =>
      (GameData.walls_enabled g = true /\ out_of_bounds g head = true) \/
      In head tail \/
      exists c C,
        In (c, C) (GameData.snakes g) /\ c <> a /\
        Snake.alive C = true /\ Snake.is_invisible C = false /\
        In head (Snake.body C)
  end.

(** Collision resolution so far, against the state [e0] it started from. *)
Definition collisions_rel (e0 e : Env) : Prop :=
  GameData.walls_enabled (game e) = GameData.walls_enabled (game e0) /\
  GameData.width (game e) = GameData.width (game e0) /\
  GameData.height (game e) = GameData.height (game e0) /\
  entries (fun k s0 s =>
             Snake.body s = Snake.body s0 /\
             Snake.is_invisible s = Snake.is_invisible s0 /\
             (Snake.alive s = true -> Snake.alive s0 = true) /\
             (Snake.alive s0 = true -> Snake.alive s = false ->
              death_cause (game e0) k s0))
    (GameData.snakes (game e0)) (GameData.snakes (game e)).

(** Ann, cloaked, has just moved north onto a segment of visible Bob. *)
Definition cloaked_ann : Snake.t :=
  Snake.mk 0 "Ann" [(9, 1); (9, 2); (9, 3)] UP
           true false false true 60000 0 0.

Definition cloak_env : Env :=
  mkEnv
    (GameData.set_snakes [(ann_id, cloaked_ann); (bob_id, bob)]
       (sample_game GameMode_CLASSIC))
    sample_rng [].

(** A join whose password field is not a string, is longer than 50
    characters, or differs from the password of the server. *)
Definition bad_password (server_password : option string) (msg : Dict.t json)
  : bool :=
  match msg_get "password" (JStr EmptyString) msg with
  | JStr p =>
      (Z.of_nat (String.length p) >? 50)
      || negb (match server_password with
               | Some q => String.eqb p q
               | None => false
               end)
  | _ => true
  end.

(** The two error texts of the password gate. *)
Definition password_error (msg : Dict.t json) : string :=
  match msg_get "password" (JStr EmptyString) msg with
  | JStr p =>
      if Z.of_nat (String.length p) >? 50 then "Invalid password format"
      else "Invalid password"
  | _ => "Invalid password format"
  end.

(** Sent on Ann's connection, naming Bob. *)
Definition spoofed_input : json :=
  JDict [("type", JStr "input"); ("player_id", JStr bob_id);
         ("action", JStr "LEFT")].

Definition wrong_join : Dict.t json :=
  [("type", JStr "join"); ("name", JStr "Ann"); ("password", JStr "guess")].

Definition restart_message : json := JDict [("type", JStr "restart")].

(** The sample server once its game is over, with an input still queued. *)
Definition finished_server : GameServer.t :=
  GameServer.set_pending_inputs [(ann_id, "UP")]
    (GameServer.set_env
       (mkEnv (GameData.set_winner "Bob"
                 (GameData.set_state GameState_FINISHED
                    (sample_game GameMode_CLASSIC)))
              sample_rng [])
       (sample_server GameMode_CLASSIC)).


(** ** Vocabulary of the further properties *)



(** The frame [encode] makes of a message with the reference library. *)
Definition frame_of (m : json) : list byte :=
  match NetworkProtocol.encode RefJson.dumps m with
  | Some frame => frame
  | None => []
  end.

Definition start_message : json := JDict [("type", JStr "start")].





(** A frame whose two-byte payload is not JSON. *)
Definition corrupt_frame : list byte := [x00; x00; x00; x02] ++ [x7b; x3a].


(** Nothing but the table of the rate limiter changed. *)
Definition same_but_counts (s s' : GameServer.t) : Prop :=
  GameServer.clients s' = GameServer.clients s /\
  GameServer.env s' = GameServer.env s /\
  GameServer.pending_inputs s' = GameServer.pending_inputs s /\
  GameServer.udp_clients s' = GameServer.udp_clients s /\
  GameServer.io s' = GameServer.io s /\
  GameServer.clock s' = GameServer.clock s /\
  GameServer.requires_password s' = GameServer.requires_password s /\
  GameServer.password s' = GameServer.password s.

(** The stamps recorded for a client. *)
Definition stamps_of (client_id : string) (s : GameServer.t) : list Z :=
  match Dict.get client_id (GameServer.client_message_counts s) with
  | Some l => l
  | None => []
  end.

(** The stamps of a client that lie within the last second. *)
Definition recent_stamps (client_id : string) (s : GameServer.t) : list Z :=
  filter (fun ts => GameServer.clock s - ts <? 1000) (stamps_of client_id s).


(** The action of an input message is one of the six valid strings. *)
Definition valid_action (msg : Dict.t json) : bool :=
  match Dict.get "action" msg with
  | Some (JStr a) => existsb (String.eqb a) VALID_ACTIONS
  | _ => false
  end.

(** A call that returned and changed nothing but the table of the rate
    limiter. *)
Definition dropped (srv : GameServer.t) (r : outcome unit * GameServer.t)
  : Prop :=
  fst r = Return tt /\ same_but_counts srv (snd r).

(** The session may send input: it is registered and, on a server with a
    password, has presented it. *)
Definition input_permitted (temp_id : string) (s : GameServer.t) : bool :=
  match Dict.get temp_id (GameServer.clients s) with
  | Some client =>
      negb (GameServer.requires_password s
            && negb (Client.authenticated client))
  | None => false
  end.

(** The sample server after thirty messages of Ann within ten
    milliseconds. *)
Definition flooded_server : GameServer.t :=
  GameServer.set_client_message_counts
    [(ann_id, repeat 49990 30)] (sample_server GameMode_CLASSIC).

(** The sample server before the game began. *)
Definition waiting_server : GameServer.t :=
  GameServer.set_pending_inputs []
    (GameServer.set_env
       (mkEnv (GameData.set_state GameState_WAITING
                 (sample_game GameMode_CLASSIC))
              sample_rng [])
       (sample_server GameMode_CLASSIC)).


Definition jump_input : Dict.t json :=
  [("type", JStr "input"); ("action", JStr "JUMP")].

Definition ann_left : Dict.t json :=
  [("type", JStr "input"); ("action", JStr "LEFT")].

Definition start_request : Dict.t json := [("type", JStr "start")].

(** The sample server two and a half seconds into the countdown. *)
Definition countdown_server : GameServer.t :=
  GameServer.set_pending_inputs []
    (GameServer.set_env
       (mkEnv (GameData.set_countdown_start 47500
                 (GameData.set_countdown 5
                    (GameData.set_state GameState_COUNTDOWN
                       (sample_game GameMode_CLASSIC))))
              sample_rng [])
       (sample_server GameMode_CLASSIC)).

(** What a tick may do to an actor: it keeps its number, name and colour,
    is not revived, and loses no points. *)
Definition steady (s s' : Snake.t) : Prop :=
  Snake.player_id s' = Snake.player_id s /\
  Snake.player_name s' = Snake.player_name s /\
  Snake.color s' = Snake.color s /\
  (Snake.alive s' = true -> Snake.alive s = true) /\
  Snake.score s <= Snake.score s'.

(** The actors are the same and steady, and the field is the same. *)
Definition steady_rel (e e' : Env) : Prop :=
  entries (fun _ => steady) (GameData.snakes (game e))
          (GameData.snakes (game e')) /\
  GameData.width (game e') = GameData.width (game e) /\
  GameData.height (game e') = GameData.height (game e) /\
  GameData.walls_enabled (game e') = GameData.walls_enabled (game e) /\
  GameData.mode (game e') = GameData.mode (game e) /\
  GameData.next_player_id (game e') = GameData.next_player_id (game e).

Definition server_steady_rel (s s' : GameServer.t) : Prop :=
  steady_rel (GameServer.env s) (GameServer.env s').

Definition opposite (d : Direction) : Direction :=
  match d with
  | UP => DOWN
  | DOWN => UP
  | LEFT => RIGHT
  | RIGHT => LEFT
  end.

(** What the inputs of one tick may do to an actor: it turns, but not
    back onto itself; it is neither moved nor killed nor revived. *)
Definition turned (o o' : option Snake.t) : Prop :=
  match o, o' with
  | Some s, Some s' =>
      Snake.direction s' <> opposite (Snake.direction s) /\
      Snake.body s' = Snake.body s /\
      Snake.alive s' = Snake.alive s
  | None, None => True
  | _, _ => False
  end.

(** Inputs for the actors [ks] were applied. *)
Definition turn_rel (ks : list string) (e e' : Env) : Prop :=
  forall k,
    (In k ks ->
     turned (Dict.get k (GameData.snakes (game e)))
            (Dict.get k (GameData.snakes (game e')))) /\
    (~ In k ks ->
     Dict.get k (GameData.snakes (game e'))
     = Dict.get k (GameData.snakes (game e))).

(** A projectile that is still flying after an update: it is one of the
    projectiles of before, [BOMB_SPEED] cells of range later, and has range
    left. *)
Definition still_flying (before : list Bomb.t) (b' : Bomb.t) : Prop :=
  exists b,
    In b before /\
    Bomb.owner_id b' = Bomb.owner_id b /\
    Bomb.direction b' = Bomb.direction b /\
    Bomb.remaining_range b' = Bomb.remaining_range b - Z.of_nat BOMB_SPEED /\
    0 < Bomb.remaining_range b'.

(** The explosion [n] updates later. *)
Definition aged (n : nat) (x : Explosion.t) : Explosion.t :=
  Explosion.mk (Explosion.x x) (Explosion.y x) (Explosion.radius x)
               (Explosion.ttl x - Z.of_nat n).

(** [n] updates of the explosions in a row. *)
Definition explosions_after (n : nat) (e : Env) : Env :=
  Nat.iter n (fun e => snd (SnakeGameLogic._update_explosions e)) e.

(** The sample world with Ann holding the cloak pickup. *)
Definition ghost_env : Env :=
  mkEnv
    (GameData.set_snakes
       [(ann_id, Snake.set_has_ghost true ann); (bob_id, bob)]
       (sample_game GameMode_CLASSIC))
    sample_rng [].

(** The sample world after Ann died. *)
Definition duel_over_env : Env :=
  mkEnv
    (GameData.set_snakes
       [(ann_id, Snake.set_alive false ann); (bob_id, bob)]
       (sample_game GameMode_CLASSIC))
    sample_rng [].

(** Collision resolution has nothing left to do for actor [k]: if it is
    alive, none of the three tests of the code fires on its head. *)
Definition settled (g : GameData.t) (k : string) : Prop :=
  forall s head tail,
    Dict.get k (GameData.snakes g) = Some s ->
    Snake.alive s = true ->
    Snake.body s = head :: tail ->
    (GameData.walls_enabled g && out_of_bounds g head)
    || existsb (cell_eqb head) tail
    || SnakeGameLogic.hits_other k head (GameData.snakes g) = false.

(** The cell a snake moves its head to. *)
Definition next_head (g : GameData.t) (s : Snake.t) (head : Cell) : Cell :=
  let c := step_cell (Snake.direction s) head in
  if negb (GameData.walls_enabled g) then wrap_cell g c else c.

(** The error text of a join that passed the password gate and is refused
    all the same. *)
Definition refusal_text (g : GameData.t) : string :=
  if negb (String.eqb (GameData.state g) GameState_WAITING)
  then "Game already started"
  else "Game is full".

(** What a send on the session [temp_id] adds to the log of the sockets. *)
Definition sent_to (temp_id : string) (msg : ServerMsg) (s : GameServer.t)
  : list IoEvent :=
  match Dict.get temp_id (GameServer.clients s) with
  | Some client =>
      if Socket.connected (Client.socket client)
      then [IoSend (Socket.peer (Client.socket client)) msg]
      else []
  | None => []
  end.

Definition right_join : Dict.t json :=
  [("type", JStr "join"); ("name", JStr "Cyd");
   ("password", JStr "s3cret-Passw0rd")].

(** A session the reliable broadcast reaches, and one it loses. *)
Definition reachable (c : Client.t) : bool :=
  Client.joined c && Socket.connected (Client.socket c).

Definition lost (c : Client.t) : bool :=
  Client.joined c && negb (Socket.connected (Client.socket c)).

(** The datagrams of a broadcast, and its writes on the connections. *)
Definition datagrams (msg : ServerMsg) (udp : Dict.t Addr) : list IoEvent :=
  map (fun a => IoSendTo a msg) (Dict.values udp).

Definition tcp_sends (msg : ServerMsg) (cs : Dict.t Client.t) : list IoEvent :=
  map (fun kv => IoSend (Socket.peer (Client.socket (snd kv))) msg)
      (filter (fun kv => reachable (snd kv)) cs).

Definition lost_ids (cs : Dict.t Client.t) : list string :=
  map fst (filter (fun kv => lost (snd kv)) cs).

(** The sockets of the lost sessions being closed, in the order of the
    registry. *)
Definition closes (cs : Dict.t Client.t) : list IoEvent :=
  map (fun kv => IoClose (Socket.peer (Client.socket (snd kv))))
      (filter (fun kv => lost (snd kv)) cs).

(** The state goes out on the connections every third tick, and always
    while the game is waiting. *)
Definition due_on_tcp (g : GameData.t) : bool :=
  (GameData.tick g mod 3 =? 0)
  || String.eqb (GameData.state g) GameState_WAITING.

(** Only the log of the sockets grew, by [evs]. *)
Definition logged (evs : list IoEvent) (s s' : GameServer.t) : Prop :=
  GameServer.io s' = GameServer.io s ++ evs /\
  GameServer.clients s' = GameServer.clients s /\
  GameServer.env s' = GameServer.env s /\
  GameServer.udp_clients s' = GameServer.udp_clients s /\
  GameServer.pending_inputs s' = GameServer.pending_inputs s.

(** The sample server with Bob's connection reset and a datagram address
    for Ann. *)
Definition half_open_server : GameServer.t :=
  GameServer.set_udp_clients [(ann_id, ("10.0.0.7", 41001))]
    (GameServer.set_clients
       [(ann_id, sample_client "10.0.0.7" 40001 "Ann");
        (bob_id, Client.mk (Socket.mk ("10.0.0.8", 40002) false) [] "Bob"
                           ("10.0.0.8", 40002) true true)]
       waiting_server).

(** The sample world on a field too narrow for a start position. *)
Definition narrow_env : Env :=
  mkEnv (GameData.set_width 9 (sample_game GameMode_CLASSIC)) sample_rng [].

(** The state of the game and the size of the field are as before. *)
Definition field_rel (e e' : Env) : Prop :=
  GameData.state (game e') = GameData.state (game e) /\
  GameData.width (game e') = GameData.width (game e) /\
  GameData.height (game e') = GameData.height (game e).

(** The name under which a join is registered, and the datagram port it
    announces, as [_handle_join] reads them from the message. *)
Definition join_name (msg : Dict.t json) : string :=
  let raw_name :=
    match msg_get "name" (JStr "Player") msg with
    | JStr n => n
    | _ => "Player"
    end in
  let player_name := sanitize_name raw_name in
  if String.eqb player_name EmptyString then "Player" else player_name.

Definition join_udp_port (msg : Dict.t json) : Z :=
  match as_int (msg_get "udp_port" (JInt 0) msg) with
  | Some p => if (p <? 0) || (p >? 65535) then 0 else p
  | None => 0
  end.

(** [_handle_join] from the point where the actor is added. *)
Definition join_tail (temp_id player_name : string) (client_udp_port : Z)
  : M GameServer.t unit :=
  GameServer.logic
    (SnakeGameLogic._add_player_to_game temp_id player_name) ;;
  GameServer.modify_client temp_id (fun c =>
    Client.set_authenticated true
      (Client.set_joined true (Client.set_name player_name c))) ;;
  when (client_udp_port >? 0)
    (s <- get ;;
     match Dict.get temp_id (GameServer.clients s) with
     | Some client =>
         when (Socket.connected (Client.socket client))
           (modify (fun s =>
              GameServer.set_udp_clients
                (Dict.set temp_id
                   (fst (Socket.peer (Client.socket client)), client_udp_port)
                   (GameServer.udp_clients s)) s))
     | None => ret tt
     end) ;;
  s <- get ;;
  GameServer._send_to_client temp_id
    (MsgWelcome temp_id (GameServer.udp_port s)
       (GameData.width (GameServer.the_game s))
       (GameData.height (GameServer.the_game s))
       (String.append "Welcome " (String.append player_name "!"))) ;;
  GameServer._broadcast_state.

(** A join of a third player, with a datagram port. *)
Definition cyd_id : string := "temp_10.0.0.9_40003".

Definition cyd_join : Dict.t json :=
  [("type", JStr "join"); ("name", JStr "  Cyd  ");
   ("password", JStr "s3cret-Passw0rd"); ("udp_port", JInt 41003)].

(** The waiting sample server with Cyd connected and not yet joined. *)
Definition lobby_server : GameServer.t :=
  GameServer.set_clients
    [(ann_id, sample_client "10.0.0.7" 40001 "Ann");
     (bob_id, sample_client "10.0.0.8" 40002 "Bob");
     (cyd_id, Client.mk (Socket.mk ("10.0.0.9", 40003) true) [] "Unknown"
                        ("10.0.0.9", 40003) false false)]
    waiting_server.

(** The sample server before anybody joined, and a first join from a
    terminal of 11 columns. *)
Definition empty_server : GameServer.t :=
  GameServer.set_env
    (mkEnv (GameData.set_snakes []
              (GameData.set_state GameState_WAITING
                 (sample_game GameMode_CLASSIC)))
           sample_rng [])
    lobby_server.

Definition tiny_join : Dict.t json :=
  [("type", JStr "join"); ("name", JStr "Cyd");
   ("password", JStr "s3cret-Passw0rd");
   ("screen_width", JInt 11); ("screen_height", JInt 40)].
(** * Properties *)

(** Closed facts are settled by evaluation. *)
Ltac by_computation :=
  vm_compute; first [reflexivity | discriminate | lia | tauto].

(** ** Bytes *)

Lemma Z_of_byte_range (b : byte) : 0 <= Z_of_byte b < 256.
Proof.
  unfold Z_of_byte. pose proof (Byte.to_N_bounded b). lia.
Qed.

Lemma Z_of_byte_of_Z (z : Z) : Z_of_byte (byte_of_Z z) = z mod 256.
Proof.
  unfold Z_of_byte, byte_of_Z.
  pose proof (Z.mod_pos_bound z 256 ltac:(lia)) as Hb.
  destruct (Byte.of_N (Z.to_N (z mod 256))) as [b|] eqn:E.
  - apply Byte.to_of_N in E. rewrite E. lia.
  - apply Byte.of_N_None_iff in E. lia.
Qed.

Lemma int_to_bytes4_big_some (n : Z) :
  0 <= n < 4294967296 ->
  exists p, int_to_bytes4_big n = Some p /\ List.length p = 4%nat
            /\ int_from_bytes_big p = n.
Proof.
  intros Hn. unfold int_to_bytes4_big.
  replace ((0 <=? n) && (n <? 4294967296)) with true
    by (symmetry; apply andb_true_iff; split; [apply Z.leb_le|apply Z.ltb_lt]; lia).
  eexists. split; [reflexivity|]. split; [reflexivity|].
  unfold int_from_bytes_big. cbn [fold_left].
  rewrite !Z_of_byte_of_Z.
  Z.div_mod_to_equations. lia.
Qed.

Lemma gtb_true (a b : Z) : a > b -> (a >? b) = true.
Proof. intros. rewrite Z.gtb_ltb. apply Z.ltb_lt. lia. Qed.

Lemma gtb_false (a b : Z) : a <= b -> (a >? b) = false.
Proof. intros. rewrite Z.gtb_ltb. apply Z.ltb_ge. lia. Qed.

Lemma len_app {A} (l1 l2 : list A) : len (l1 ++ l2) = len l1 + len l2.
Proof. unfold len. rewrite length_app. lia. Qed.

Lemma len_nonneg {A} (l : list A) : 0 <= len l.
Proof. unfold len. lia. Qed.

Lemma bytes_slice_prefix (p rest : list byte) :
  List.length p = 4%nat -> bytes_slice 0 4 (p ++ rest) = p.
Proof.
  intros Hp. unfold bytes_slice. cbn [Z.sub Z.to_nat skipn].
  change (Z.to_nat (4 - 0)) with 4%nat.
  rewrite <- Hp, firstn_app, Nat.sub_diag, firstn_all. cbn. apply app_nil_r.
Qed.

Lemma bytes_from_prefix (p rest : list byte) :
  List.length p = 4%nat -> bytes_from 4 (p ++ rest) = rest.
Proof.
  intros Hp. unfold bytes_from. change (Z.to_nat 4) with 4%nat.
  rewrite <- Hp, skipn_app, Nat.sub_diag, skipn_all. reflexivity.
Qed.

Lemma bytes_slice_payload (p payload rest : list byte) :
  List.length p = 4%nat ->
  bytes_slice 4 (4 + len payload) (p ++ payload ++ rest) = payload.
Proof.
  intros Hp. unfold bytes_slice. change (Z.to_nat 4) with 4%nat.
  replace (Z.to_nat (4 + len payload - 4)) with (List.length payload)
    by (unfold len; lia).
  rewrite <- Hp, skipn_app, Nat.sub_diag, skipn_all. cbn [skipn app].
  rewrite firstn_app, Nat.sub_diag, firstn_all. cbn. apply app_nil_r.
Qed.

Lemma bytes_from_payload (p payload rest : list byte) :
  List.length p = 4%nat ->
  bytes_from (4 + len payload) (p ++ payload ++ rest) = rest.
Proof.
  intros Hp. unfold bytes_from.
  replace (Z.to_nat (4 + len payload)) with (List.length p + List.length payload)%nat
    by (unfold len; lia).
  rewrite app_assoc, <- length_app, skipn_app, Nat.sub_diag, skipn_all.
  reflexivity.
Qed.

(** ** The reliable wire codec *)

Section CodecFacts.

Variable dumps : json -> list byte.
Variable loads : list byte -> loaded.

Lemma decode_short (buffer : list byte) :
  len buffer < 4 ->
  NetworkProtocol.decode_from_buffer loads buffer = Return (None, buffer).
Proof.
  intros H. unfold NetworkProtocol.decode_from_buffer.
  apply Z.ltb_lt in H. now rewrite H.
Qed.

Lemma decode_oversized (p rest : list byte) :
  List.length p = 4%nat ->
  int_from_bytes_big p > MAX_MESSAGE_SIZE ->
  NetworkProtocol.decode_from_buffer loads (p ++ rest) = Return (None, rest).
Proof.
  intros Hp Hbig. unfold NetworkProtocol.decode_from_buffer.
  replace (len (p ++ rest) <? 4) with false
    by (symmetry; apply Z.ltb_ge; rewrite len_app; pose proof (len_nonneg rest);
        unfold len; lia).
  rewrite bytes_slice_prefix by assumption.
  replace (int_from_bytes_big p >? MAX_MESSAGE_SIZE) with true
    by (symmetry; apply gtb_true; lia).
  now rewrite bytes_from_prefix.
Qed.

Lemma decode_incomplete (p part : list byte) :
  List.length p = 4%nat ->
  int_from_bytes_big p <= MAX_MESSAGE_SIZE ->
  len part < int_from_bytes_big p ->
  NetworkProtocol.decode_from_buffer loads (p ++ part)
  = Return (None, p ++ part).
Proof.
  intros Hp Hmax Hpart. unfold NetworkProtocol.decode_from_buffer.
  replace (len (p ++ part) <? 4) with false
    by (symmetry; apply Z.ltb_ge; rewrite len_app; pose proof (len_nonneg part);
        unfold len; lia).
  rewrite bytes_slice_prefix by assumption.
  replace (int_from_bytes_big p >? MAX_MESSAGE_SIZE) with false
    by (symmetry; apply gtb_false; lia).
  replace (len (p ++ part) <? 4 + int_from_bytes_big p) with true
    by (symmetry; apply Z.ltb_lt; rewrite len_app; unfold len in *; lia).
  reflexivity.
Qed.

Lemma decode_frame (p payload rest : list byte) :
  List.length p = 4%nat ->
  int_from_bytes_big p = len payload ->
  len payload <= MAX_MESSAGE_SIZE ->
  NetworkProtocol.decode_from_buffer loads (p ++ payload ++ rest) =
  match loads payload with
  | Loaded message => Return (NetworkProtocol.optional message, rest)
  | Malformed => Return (None, rest)
  | LoadRaised e => Raise e
  end.
Proof.
  intros Hp Hlen Hmax. unfold NetworkProtocol.decode_from_buffer.
  replace (len (p ++ payload ++ rest) <? 4) with false
    by (symmetry; apply Z.ltb_ge; rewrite len_app;
        pose proof (len_nonneg (payload ++ rest)); unfold len; lia).
  rewrite bytes_slice_prefix by assumption. rewrite Hlen.
  replace (len payload >? MAX_MESSAGE_SIZE) with false
    by (symmetry; apply gtb_false; lia).
  replace (len (p ++ payload ++ rest) <? 4 + len payload) with false
    by (symmetry; apply Z.ltb_ge; rewrite !len_app;
        pose proof (len_nonneg rest); unfold len in *; lia).
  rewrite bytes_slice_payload, bytes_from_payload by assumption.
  destruct (loads payload); reflexivity.
Qed.

Lemma optional_some (message : json) :
  message <> JNull -> NetworkProtocol.optional message = Some message.
Proof. destruct message; cbn; congruence. Qed.

End CodecFacts.

(** C3. The reliable-channel decoder, case by case: fewer than 4 bytes, or
    a declared length within the maximum with the payload not yet complete,
    give no message and the buffer as it was; a declared length above the
    maximum gives no message and the buffer without its 4 prefix bytes; a
    payload that parses as [message] gives [message] itself and exactly the
    bytes after the frame. The one value that is not handed on as a message
    is the JSON text [null], which is Python's [None]: its frame is
    consumed and no message comes back. *)
Theorem decode_from_buffer_cases (loads : list byte -> loaded) :
  (forall buffer,
      len buffer < 4 ->
      NetworkProtocol.decode_from_buffer loads buffer
      = Return (None, buffer)) /\
  (forall prefix part,
      List.length prefix = 4%nat ->
      int_from_bytes_big prefix <= MAX_MESSAGE_SIZE ->
      len part < int_from_bytes_big prefix ->
      NetworkProtocol.decode_from_buffer loads (prefix ++ part)
      = Return (None, prefix ++ part)) /\
  (forall prefix rest,
      List.length prefix = 4%nat ->
      int_from_bytes_big prefix > MAX_MESSAGE_SIZE ->
      NetworkProtocol.decode_from_buffer loads (prefix ++ rest)
      = Return (None, rest)) /\
  (forall prefix payload rest message,
      List.length prefix = 4%nat ->
      int_from_bytes_big prefix = len payload ->
      len payload <= MAX_MESSAGE_SIZE ->
      loads payload = Loaded message ->
      message <> JNull ->
      NetworkProtocol.decode_from_buffer loads (prefix ++ payload ++ rest)
      = Return (Some message, rest)) /\
  (forall prefix payload rest,
      List.length prefix = 4%nat ->
      int_from_bytes_big prefix = len payload ->
      len payload <= MAX_MESSAGE_SIZE ->
      loads payload = Loaded JNull ->
      NetworkProtocol.decode_from_buffer loads (prefix ++ payload ++ rest)
      = Return (None, rest)).
Proof.
  split; [exact (decode_short loads)|].
  split; [exact (decode_incomplete loads)|].
  split; [exact (decode_oversized loads)|].
  split.
  - intros prefix payload rest message Hp Hlen Hmax Hload Hmsg.
    rewrite decode_frame by assumption.
    now rewrite Hload, optional_some.
  - intros prefix payload rest Hp Hlen Hmax Hload.
    rewrite decode_frame by assumption. now rewrite Hload.
Qed.

Lemma decode_from_buffer_cases_witness :
  NetworkProtocol.decode_from_buffer RefJson.loads [x00; x00; x00]
  = Return (None, [x00; x00; x00]) /\
  NetworkProtocol.decode_from_buffer RefJson.loads
    ([x00; x00; x00; x02] ++ [x7b])
  = Return (None, [x00; x00; x00; x02] ++ [x7b]) /\
  NetworkProtocol.decode_from_buffer RefJson.loads
    ([x00; x01; x00; x01] ++ [x7b; x7d])
  = Return (None, [x7b; x7d]) /\
  NetworkProtocol.decode_from_buffer RefJson.loads
    ([x00; x00; x00; x02] ++ [x7b; x7d] ++ [x00; x00])
  = Return (Some (JDict []), [x00; x00]) /\
  NetworkProtocol.decode_from_buffer RefJson.loads
    ([x00; x00; x00; x04] ++ [x6e; x75; x6c; x6c] ++ [x00; x00])
  = Return (None, [x00; x00]).
Proof.
  destruct (decode_from_buffer_cases RefJson.loads)
    as (H1 & H2 & H3 & H4 & H5).
  split; [apply H1; by_computation|].
  split; [apply H2; by_computation|].
  split; [apply H3; by_computation|].
  split; [apply H4; by_computation|].
  apply H5; by_computation.
Defined.

(** Whatever the JSON library, a message whose payload is longer than
    [MAX_MESSAGE_SIZE] is framed by [encode] and not read back: the decoder
    drops the prefix and keeps the payload in the buffer. *)
Lemma encode_then_decode_oversized
  (dumps : json -> list byte) (loads : list byte -> loaded) (m : json) :
  MAX_MESSAGE_SIZE < len (dumps m) < 4294967296 ->
  exists frame,
    NetworkProtocol.encode dumps m = Some frame /\
    NetworkProtocol.decode_from_buffer loads frame = Return (None, dumps m).
Proof.
  intros Hlen. unfold NetworkProtocol.encode.
  destruct (int_to_bytes4_big_some (len (dumps m))) as (p & Hp & Hp4 & Hfrom);
    [unfold MAX_MESSAGE_SIZE in Hlen; lia|].
  rewrite Hp. eexists. split; [reflexivity|].
  apply decode_oversized; [assumption|lia].
Qed.

(** C9, as stated, fails on a message whose payload is longer than
    [MAX_MESSAGE_SIZE]: [encode] frames it, and the decoder returns no
    message and a remainder that is not empty. *)
Lemma roundtrip_fails_for_large_message :
  exists frame,
    NetworkProtocol.encode RefJson.dumps large_message = Some frame /\
    NetworkProtocol.decode_from_buffer RefJson.loads frame
    = Return (None, RefJson.dumps large_message) /\
    len (RefJson.dumps large_message) = 65564.
Proof.
  destruct (encode_then_decode_oversized RefJson.dumps RefJson.loads
              large_message) as (frame & He & Hd).
  - by_computation.
  - exists frame. split; [exact He|]. split; [exact Hd|]. by_computation.
Qed.

(** C9, amended. A control message whose encoded payload is at most
    [MAX_MESSAGE_SIZE] bytes, and which the JSON library reads back as the
    dictionary [items'], is framed by [encode] and decoded from the frame
    as [items'] with nothing left over; and a buffer whose declared length
    exceeds the maximum never yields a message: the decoder returns none,
    and the buffer without its four prefix bytes. *)
Theorem encode_decode_within_limit
  (dumps : json -> list byte) (loads : list byte -> loaded) :
  (forall items items',
      len (dumps (JDict items)) <= MAX_MESSAGE_SIZE ->
      loads (dumps (JDict items)) = Loaded (JDict items') ->
      exists frame,
        NetworkProtocol.encode dumps (JDict items) = Some frame /\
        NetworkProtocol.decode_from_buffer loads frame
        = Return (Some (JDict items'), [])) /\
  (forall buffer,
      4 <= len buffer ->
      int_from_bytes_big (bytes_slice 0 4 buffer) > MAX_MESSAGE_SIZE ->
      NetworkProtocol.decode_from_buffer loads buffer
      = Return (None, bytes_from 4 buffer)).
Proof.
  split.
  - intros items items' Hmax Hload.
    unfold NetworkProtocol.encode.
    destruct (int_to_bytes4_big_some (len (dumps (JDict items))))
      as (p & Hp & Hp4 & Hfrom).
    { pose proof (len_nonneg (dumps (JDict items))).
      unfold MAX_MESSAGE_SIZE in Hmax. lia. }
    rewrite Hp. eexists. split; [reflexivity|].
    pose proof (decode_frame loads p (dumps (JDict items)) [] Hp4 Hfrom Hmax) as D.
    rewrite app_nil_r in D. rewrite D, Hload. reflexivity.
  - intros buffer Hlen Hbig.
    unfold NetworkProtocol.decode_from_buffer.
    replace (len buffer <? 4) with false by (symmetry; apply Z.ltb_ge; lia).
    rewrite gtb_true by assumption. reflexivity.
Qed.

Lemma encode_decode_within_limit_witness :
  (exists frame,
      NetworkProtocol.encode RefJson.dumps sample_input = Some frame /\
      NetworkProtocol.decode_from_buffer RefJson.loads frame
      = Return (Some sample_input, [])) /\
  NetworkProtocol.decode_from_buffer RefJson.loads
    [x00; x01; x00; x01; x7b; x7d]
  = Return (None, bytes_from 4 [x00; x01; x00; x01; x7b; x7d]).
Proof.
  destruct (encode_decode_within_limit RefJson.dumps RefJson.loads) as (H1 & H2).
  split.
  - apply H1; by_computation.
  - apply H2; by_computation.
Defined.

(** ** Dictionaries *)

Lemma get_update {V} (k k' : string) (f : V -> V) (d : Dict.t V) :
  Dict.get k (Dict.update k' f d) =
  if String.eqb k' k then option_map f (Dict.get k d) else Dict.get k d.
Proof.
  induction d as [|[k0 v0] d IH]; cbn.
  - now destruct (String.eqb k' k).
  - destruct (String.eqb k' k0) eqn:E0; cbn.
    + apply String.eqb_eq in E0. subst k0.
      rewrite (String.eqb_sym k k').
      destruct (String.eqb k' k) eqn:E; [reflexivity|]. exact IH.
    + destruct (String.eqb k k0) eqn:E1.
      * apply String.eqb_eq in E1. subst k0. now rewrite E0.
      * exact IH.
Qed.

Lemma update_update {V} (k : string) (f g : V -> V) (d : Dict.t V) :
  Dict.update k f (Dict.update k g d) = Dict.update k (fun v => f (g v)) d.
Proof.
  unfold Dict.update. rewrite map_map. apply map_ext. intros [k0 v0]. cbn.
  destruct (String.eqb k k0) eqn:E; cbn; now rewrite E.
Qed.

Lemma keys_update {V} (k : string) (f : V -> V) (d : Dict.t V) :
  Dict.keys (Dict.update k f d) = Dict.keys d.
Proof.
  unfold Dict.keys, Dict.update. rewrite map_map. apply map_ext.
  intros [k0 v0]. cbn. now destruct (String.eqb k k0).
Qed.

Lemma get_In {V} (k : string) (v : V) (d : Dict.t V) :
  Dict.get k d = Some v -> In (k, v) d.
Proof.
  induction d as [|[k0 v0] d IH]; cbn; [discriminate|].
  destruct (String.eqb k k0) eqn:E.
  - apply String.eqb_eq in E. intros [= ->]. subst. now left.
  - intros H. right. now apply IH.
Qed.

Lemma In_get_NoDup {V} (k : string) (v : V) (d : Dict.t V) :
  NoDup (Dict.keys d) -> In (k, v) d -> Dict.get k d = Some v.
Proof.
  induction d as [|[k0 v0] d IH]; cbn; [easy|].
  intros Hnd [Heq|Hin].
  - injection Heq as -> ->. now rewrite String.eqb_refl.
  - inversion Hnd as [|? ? Hnotin Hnd']. subst.
    destruct (String.eqb k k0) eqn:E.
    + apply String.eqb_eq in E. subst k0. exfalso. apply Hnotin.
      change k with (fst (k, v)). now apply in_map.
    + now apply IH.
Qed.

Lemma entries_refl {V} (R : string -> V -> V -> Prop) (d : Dict.t V) :
  (forall k v, R k v v) -> entries R d d.
Proof.
  intros HR. induction d as [|[k v] d IH]; constructor; auto.
Qed.

Lemma entries_trans {V} (R1 R2 R : string -> V -> V -> Prop) (d1 d2 d3 : Dict.t V) :
  (forall k a b c, R1 k a b -> R2 k b c -> R k a c) ->
  entries R1 d1 d2 -> entries R2 d2 d3 -> entries R d1 d3.
Proof.
  intros HR H12. revert d3.
  induction H12 as [|[k1 v1] [k2 v2] d1 d2 [Hk H1] _ IH]; intros d3 H23.
  - inversion H23. constructor.
  - inversion H23 as [|? [k3 v3] ? d3' [Hk' H2] Hrest]. subst. cbn in *. subst.
    constructor; [split; [reflexivity|]; cbn; eauto|]. now apply IH.
Qed.

Lemma entries_mono {V} (R R' : string -> V -> V -> Prop) (d d' : Dict.t V) :
  (forall k a b, R k a b -> R' k a b) -> entries R d d' -> entries R' d d'.
Proof.
  intros HR H. induction H as [|? ? ? ? [Hk H1] _ IH]; constructor; auto.
Qed.

Lemma entries_update {V} (R : string -> V -> V -> Prop) (k : string)
  (f : V -> V) (d : Dict.t V) :
  (forall v, R k v (f v)) -> (forall k' v, k' <> k -> R k' v v) ->
  entries R d (Dict.update k f d).
Proof.
  intros Hf Hrefl. induction d as [|[k0 v0] d IH]; cbn; constructor; auto.
  cbn. destruct (String.eqb k k0) eqn:E; cbn; split; auto.
  - apply String.eqb_eq in E. subst. apply Hf.
  - apply Hrefl. apply String.eqb_neq in E. congruence.
Qed.

Lemma entries_keys {V} (R : string -> V -> V -> Prop) (d d' : Dict.t V) :
  entries R d d' -> Dict.keys d' = Dict.keys d.
Proof.
  intros H. unfold Dict.keys.
  induction H as [|? ? ? ? [Hk _] _ IH]; cbn; [reflexivity|].
  now rewrite Hk, IH.
Qed.

Lemma entries_get {V} (R : string -> V -> V -> Prop) (d d' : Dict.t V)
  (k : string) (v : V) :
  entries R d d' -> Dict.get k d = Some v ->
  exists v', Dict.get k d' = Some v' /\ R k v v'.
Proof.
  intros H. induction H as [|[k1 v1] [k2 v2] d1 d2 [Hk H1] _ IH]; cbn;
    [discriminate|].
  cbn in Hk, H1. subst k2.
  destruct (String.eqb k k1) eqn:E.
  - apply String.eqb_eq in E. subst. intros [= ->]. eauto.
  - exact IH.
Qed.

Lemma entries_Forall {V} (R : string -> V -> V -> Prop) (P : V -> Prop)
  (d d' : Dict.t V) :
  (forall k a b, R k a b -> P a -> P b) ->
  entries R d d' ->
  Forall (fun kv => P (snd kv)) d -> Forall (fun kv => P (snd kv)) d'.
Proof.
  intros HR H. induction H as [|? ? ? ? [Hk H1] _ IH]; intros HF;
    inversion HF; subst; constructor; eauto.
Qed.

(** ** Computations that stay within a relation *)

Section Respects.

Context {S : Type} (R : S -> S -> Prop).
Hypothesis R_refl : forall s, R s s.
Hypothesis R_trans : forall a b c, R a b -> R b c -> R a c.

Lemma respects_ret {A} (a : A) : respects R (ret a).
Proof. intros s. apply R_refl. Qed.

Lemma respects_raise {A} (x : exn) : respects R (@raise S A x).
Proof. intros s. apply R_refl. Qed.

Lemma respects_gets {A} (f : S -> A) : respects R (gets f).
Proof. intros s. apply R_refl. Qed.

Lemma respects_get : respects R (@get S).
Proof. intros s. apply R_refl. Qed.

Lemma respects_bind {A B} (m : M S A) (k : A -> M S B) :
  respects R m -> (forall a, respects R (k a)) -> respects R (bind m k).
Proof.
  intros Hm Hk s. unfold bind. specialize (Hm s).
  destruct (m s) as [[a|x] s1]; cbn in *; [|assumption].
  eapply R_trans; [eassumption|]. apply Hk.
Qed.

Lemma respects_for_each {A} (xs : list A) (body : A -> M S unit) :
  (forall x, respects R (body x)) -> respects R (for_each xs body).
Proof.
  intros Hb. induction xs as [|x xs IH]; cbn.
  - apply respects_ret.
  - apply respects_bind; auto.
Qed.

Lemma respects_when (b : bool) (m : M S unit) :
  respects R m -> respects R (when b m).
Proof. intros Hm. destruct b; cbn; [assumption|apply respects_ret]. Qed.

Lemma respects_modify (f : S -> S) :
  (forall s, R s (f s)) -> respects R (modify f).
Proof. intros Hf s. apply Hf. Qed.

End Respects.

(** ** Relations between the states of a tick *)

Lemma quiet_refl (e : Env) : quiet_rel e e.
Proof. now repeat split. Qed.

Lemma quiet_trans (a b c : Env) : quiet_rel a b -> quiet_rel b c -> quiet_rel a c.
Proof.
  intros (H1 & H2 & H3) (H4 & H5 & H6). repeat split; congruence.
Qed.

Lemma frame_refl (e : Env) : frame_rel e e.
Proof. repeat split. now apply entries_refl. Qed.

Lemma frame_trans (a b c : Env) : frame_rel a b -> frame_rel b c -> frame_rel a c.
Proof.
  intros (H1 & H2 & H3) (H4 & H5 & H6). repeat split; try congruence.
  eapply entries_trans; [|eassumption|eassumption].
  cbn. intros. congruence.
Qed.

Lemma quiet_frame (e e' : Env) : quiet_rel e e' -> frame_rel e e'.
Proof.
  intros (H1 & H2 & H3). repeat split; try assumption.
  rewrite H1. now apply entries_refl.
Qed.

Lemma entry_rel_refl (md : string) (k : string) (s : Snake.t) :
  entry_rel md [] k s s.
Proof.
  split; [auto|]. intros _. split; intros _; [lia|]. cbn. lia.
Qed.

Lemma ate_count_app (k : string) (l1 l2 : list Event) :
  ate_count k (l1 ++ l2) = (ate_count k l1 + ate_count k l2)%nat.
Proof. apply count_occ_app. Qed.

Lemma entry_rel_trans (md : string) (evs1 evs2 : list Event) (k : string)
  (a b c : Snake.t) :
  entry_rel md evs1 k a b -> entry_rel md evs2 k b c ->
  entry_rel md (evs2 ++ evs1) k a c.
Proof.
  intros [N1 L1] [N2 L2]. split; [auto|].
  intros Hns.
  assert (H1 : ~ In (EvStrike k) evs1) by (intros H; apply Hns, in_or_app; auto).
  assert (H2 : ~ In (EvStrike k) evs2) by (intros H; apply Hns, in_or_app; auto).
  destruct (L1 H1) as [K1 C1]. destruct (L2 H2) as [K2 C2].
  split; intros Hm.
  - specialize (K1 Hm). specialize (K2 Hm). lia.
  - rewrite (C2 Hm), (C1 Hm), ate_count_app. lia.
Qed.

Lemma tick_refl (b : string -> nat) (e : Env) : tick_rel b e e.
Proof.
  split; [reflexivity|]. exists []. repeat split.
  - intros k. cbn. lia.
  - apply entries_refl. intros. apply entry_rel_refl.
Qed.

Lemma tick_trans (b1 b2 b : string -> nat) (e1 e2 e3 : Env) :
  (forall k, (b1 k + b2 k <= b k)%nat) ->
  tick_rel b1 e1 e2 -> tick_rel b2 e2 e3 -> tick_rel b e1 e3.
Proof.
  intros Hb (M1 & evs1 & T1 & B1 & E1) (M2 & evs2 & T2 & B2 & E2).
  split; [congruence|].
  exists (evs2 ++ evs1). repeat split.
  - rewrite T2, T1. now rewrite app_assoc.
  - intros k. rewrite ate_count_app. specialize (B1 k). specialize (B2 k).
    specialize (Hb k). lia.
  - rewrite M1 in E2.
    eapply entries_trans; [|exact E1|exact E2].
    intros. eapply entry_rel_trans; eassumption.
Qed.

Lemma tick_trans0 (e1 e2 e3 : Env) :
  tick_rel no_budget e1 e2 -> tick_rel no_budget e2 e3 ->
  tick_rel no_budget e1 e3.
Proof. apply tick_trans. intros k. cbn. lia. Qed.

Lemma frame_tick (e e' : Env) : frame_rel e e' -> tick_rel no_budget e e'.
Proof.
  intros (H1 & H2 & H3). split; [assumption|].
  exists []. repeat split; [assumption| |].
  - intros k. cbn. lia.
  - eapply entries_mono; [|exact H3].
    intros k a b Hab. split.
    + now rewrite Hab.
    + intros _. rewrite Hab. split; intros _; [lia|]. cbn. lia.
Qed.

(** Structural steps, for a relation that is a preorder; [leaf] settles
    the calls. The steps follow the syntax of the computation and never
    unfold a call. *)
Ltac respects_steps leaf Rrefl Rtrans :=
  repeat first
    [ leaf
    | match goal with
      | |- respects _ (ret _) => apply (respects_ret _ Rrefl)
      | |- respects _ (raise _) => apply (respects_raise _ Rrefl)
      | |- respects _ (gets _) => apply (respects_gets _ Rrefl)
      | |- respects _ get => apply (respects_get _ Rrefl)
      | |- respects _ (when _ _) => apply (respects_when _ Rrefl)
      | |- respects _ (for_each _ _) =>
          apply (respects_for_each _ Rrefl Rtrans); intros
      | |- respects _ (bind _ _) => apply (respects_bind _ Rtrans); [|intros]
      | |- respects _ (if ?b then _ else _) => destruct b
      | |- respects _ (match ?x with _ => _ end) => destruct x
      end ].

Lemma quiet_modify_game (f : GameData.t -> GameData.t) :
  (forall g, GameData.snakes (f g) = GameData.snakes g) ->
  (forall g, GameData.mode (f g) = GameData.mode g) ->
  respects quiet_rel (modify_game f).
Proof.
  intros Hs Hm e. cbn. repeat split; cbn; auto.
Qed.

Lemma quiet_random_draw : respects quiet_rel random_draw.
Proof. intros e. cbn. now repeat split. Qed.

Lemma quiet_random_randint (a b : Z) : respects quiet_rel (random_randint a b).
Proof.
  unfold random_randint.
  respects_steps
    ltac:(idtac; match goal with |- respects _ random_draw => apply quiet_random_draw end)
    quiet_refl quiet_trans.
Qed.

Lemma quiet_random_coin : respects quiet_rel random_coin.
Proof.
  unfold random_coin.
  respects_steps
    ltac:(idtac; match goal with |- respects _ random_draw => apply quiet_random_draw end)
    quiet_refl quiet_trans.
Qed.

Lemma quiet_random_uniform (a b : Z) : respects quiet_rel (random_uniform a b).
Proof.
  unfold random_uniform.
  respects_steps
    ltac:(idtac; match goal with |- respects _ random_draw => apply quiet_random_draw end)
    quiet_refl quiet_trans.
Qed.

Lemma quiet_spawn_attempts (n : nat) (place : Cell -> GameData.t -> GameData.t) :
  (forall c g, GameData.snakes (place c g) = GameData.snakes g) ->
  (forall c g, GameData.mode (place c g) = GameData.mode g) ->
  respects quiet_rel (SnakeGameLogic.spawn_attempts n place).
Proof.
  intros Hs Hm. induction n as [|n IH]; cbn.
  - apply respects_ret, quiet_refl.
  - respects_steps
      ltac:(idtac; match goal with
            | |- respects _ (random_randint _ _) => apply quiet_random_randint
            | |- respects _ (SnakeGameLogic.spawn_attempts _ _) => exact IH
            | |- respects _ (modify_game _) =>
                apply quiet_modify_game; solve [auto]
            end)
      quiet_refl quiet_trans.
Qed.

Lemma quiet_spawn_food : respects quiet_rel SnakeGameLogic._spawn_food.
Proof. apply quiet_spawn_attempts; reflexivity. Qed.

Lemma quiet_spawn_weapon : respects quiet_rel SnakeGameLogic._spawn_weapon.
Proof. apply quiet_spawn_attempts; reflexivity. Qed.

Lemma quiet_spawn_ghost : respects quiet_rel SnakeGameLogic._spawn_ghost.
Proof. apply quiet_spawn_attempts; reflexivity. Qed.

Lemma quiet_create_explosion (x y : Z) :
  respects quiet_rel (SnakeGameLogic._create_explosion x y).
Proof. apply quiet_modify_game; reflexivity. Qed.

Lemma quiet_update_explosions : respects quiet_rel SnakeGameLogic._update_explosions.
Proof. apply quiet_modify_game; reflexivity. Qed.

Lemma frame_of_quiet {A} (m : M Env A) :
  respects quiet_rel m -> respects frame_rel m.
Proof. intros H e. apply quiet_frame, H. Qed.

Lemma frame_modify_snake (pid : string) (f : Snake.t -> Snake.t) :
  (forall s, Snake.body (f s) = Snake.body s) ->
  respects frame_rel (modify_snake pid f).
Proof.
  intros Hf e. cbn. repeat split. cbn.
  apply entries_update; auto.
Qed.

Lemma frame_get_snake (pid : string) : respects frame_rel (get_snake pid).
Proof.
  unfold get_snake. intros e. unfold bind, gets. cbn.
  destruct (Dict.get pid _); apply frame_refl.
Qed.

Ltac frame_leaf :=
  match goal with
  | H : respects frame_rel ?m |- respects frame_rel ?m => exact H
  | |- respects _ (get_snake _) => apply frame_get_snake
  | |- respects _ (modify_snake _ _) => apply frame_modify_snake; reflexivity
  | |- respects _ (modify_game _) =>
      apply frame_of_quiet, quiet_modify_game; reflexivity
  | |- respects _ (random_randint _ _) =>
      apply frame_of_quiet, quiet_random_randint
  | |- respects _ random_coin => apply frame_of_quiet, quiet_random_coin
  | |- respects _ (random_uniform _ _) =>
      apply frame_of_quiet, quiet_random_uniform
  | |- respects _ SnakeGameLogic._spawn_food =>
      apply frame_of_quiet, quiet_spawn_food
  | |- respects _ SnakeGameLogic._spawn_weapon =>
      apply frame_of_quiet, quiet_spawn_weapon
  | |- respects _ SnakeGameLogic._spawn_ghost =>
      apply frame_of_quiet, quiet_spawn_ghost
  | |- respects _ (SnakeGameLogic._create_explosion _ _) =>
      apply frame_of_quiet, quiet_create_explosion
  | |- respects _ SnakeGameLogic._update_explosions =>
      apply frame_of_quiet, quiet_update_explosions
  end.

Ltac frame_auto := respects_steps ltac:(idtac; frame_leaf) frame_refl frame_trans.

Lemma frame_fire_weapon (pid : string) :
  respects frame_rel (SnakeGameLogic._fire_weapon pid).
Proof. unfold SnakeGameLogic._fire_weapon. frame_auto. Qed.

Lemma frame_activate_ghost (pid : string) (now : Z) :
  respects frame_rel (SnakeGameLogic._activate_ghost pid now).
Proof. unfold SnakeGameLogic._activate_ghost. frame_auto. Qed.

Lemma frame_check_snake (pid : string) :
  respects frame_rel (SnakeGameLogic.check_snake pid).
Proof. unfold SnakeGameLogic.check_snake. frame_auto. Qed.

Lemma frame_check_collisions : respects frame_rel SnakeGameLogic._check_collisions.
Proof.
  unfold SnakeGameLogic._check_collisions.
  respects_steps
    ltac:(idtac; match goal with
          | |- respects _ (SnakeGameLogic.check_snake _) =>
              apply frame_check_snake
          end)
    frame_refl frame_trans.
Qed.

Lemma frame_expire_invisibility (now : Z) (pid : string) :
  respects frame_rel (GameServer.expire_invisibility now pid).
Proof. unfold GameServer.expire_invisibility. frame_auto. Qed.

Lemma frame_spawn_pickup (now : Z) : respects frame_rel (GameServer.spawn_pickup now).
Proof. unfold GameServer.spawn_pickup. frame_auto. Qed.

Lemma frame_check_winner : respects frame_rel GameServer.check_winner.
Proof. unfold GameServer.check_winner. frame_auto. Qed.

Lemma frame_apply_input (now : Z) (player_id action : string) :
  respects frame_rel (GameServer.apply_input now player_id action).
Proof.
  unfold GameServer.apply_input.
  respects_steps
    ltac:(idtac; match goal with
          | |- respects _ (SnakeGameLogic._fire_weapon _) =>
              apply frame_fire_weapon
          | |- respects _ (SnakeGameLogic._activate_ghost _ _) =>
              apply frame_activate_ghost
          | _ => frame_leaf
          end)
    frame_refl frame_trans.
Qed.

Lemma tick_of_frame {A} (m : M Env A) :
  respects frame_rel m -> respects (tick_rel no_budget) m.
Proof. intros H e. apply frame_tick, H. Qed.

Lemma length_removelast_cons {A} (a : A) (l : list A) :
  List.length (removelast (a :: l)) = List.length l.
Proof.
  revert a. induction l as [|b l IH]; intros a; [reflexivity|].
  change (removelast (a :: b :: l)) with (a :: removelast (b :: l)).
  cbn [List.length]. now rewrite IH.
Qed.

Lemma ate_count_single (k p : string) : ate_count k [EvAte p] = one_at p k.
Proof.
  unfold ate_count, one_at. cbn [count_occ].
  destruct (Event_eq_dec (EvAte p) (EvAte k)) as [E|E].
  - injection E as ->. now rewrite String.eqb_refl.
  - destruct (String.eqb k p) eqn:Ek; [|reflexivity].
    apply String.eqb_eq in Ek. subst. congruence.
Qed.

Lemma ate_count_strike (k p : string) (evs : list Event) :
  ate_count k (EvStrike p :: evs) = ate_count k evs.
Proof.
  unfold ate_count. cbn [count_occ].
  destruct (Event_eq_dec (EvStrike p) (EvAte k)); [discriminate|reflexivity].
Qed.

Lemma entry_rel_idle (md : string) (evs : list Event) (k : string) (s : Snake.t) :
  ate_count k evs = O -> entry_rel md evs k s s.
Proof.
  intros H0. split; [auto|]. intros _. split; intros _; lia.
Qed.

(** The shape every stretch of a move has: the snake under [pid] went
    through [F], the events [evs] were recorded. *)
Lemma tick_rel_update (pid : string) (F : Snake.t -> Snake.t)
  (evs : list Event) (e e' : Env) :
  GameData.mode (game e') = GameData.mode (game e) ->
  trace e' = evs ++ trace e ->
  GameData.snakes (game e') = Dict.update pid F (GameData.snakes (game e)) ->
  (forall k, (ate_count k evs <= one_at pid k)%nat) ->
  (forall s, entry_rel (GameData.mode (game e)) evs pid s (F s)) ->
  tick_rel (one_at pid) e e'.
Proof.
  intros Hm Ht Hs Hb HF. split; [assumption|].
  exists evs. repeat split; try assumption.
  rewrite Hs. apply entries_update; [assumption|].
  intros k s Hk. apply entry_rel_idle.
  specialize (Hb k). unfold one_at in Hb.
  apply String.eqb_neq in Hk. rewrite Hk in Hb. lia.
Qed.

Lemma removelast_cons_nonempty {A} (a : A) (l : list A) :
  l <> [] -> removelast (a :: l) <> [].
Proof. destruct l; [congruence|]. cbn. discriminate. Qed.

Lemma ate_count_nil (k : string) : ate_count k [] = O.
Proof. reflexivity. Qed.

Opaque SnakeGameLogic._spawn_food.
Arguments Dict.update : simpl never.
Arguments ate_count : simpl never.
Arguments removelast : simpl never.

Lemma eqb_kurve_true (md : string) :
  String.eqb md GameMode_KURVE = true -> md <> GameMode_KURVE -> False.
Proof. intros H N. apply String.eqb_eq in H. contradiction. Qed.

Lemma eqb_kurve_false (md : string) :
  String.eqb md GameMode_KURVE = false -> md = GameMode_KURVE -> False.
Proof. intros H N. apply String.eqb_neq in H. contradiction. Qed.

(** Closes a path of [_move_snake] whose events are [evs]. *)
Ltac move_path evs :=
  eapply (tick_rel_update _ _ evs);
  [ cbn; congruence
  | cbn; try congruence; reflexivity
  | cbn;
    repeat match goal with H : GameData.snakes _ = _ |- _ => rewrite H end;
    cbn; rewrite ?update_update; reflexivity
  | intros k; first [ rewrite ate_count_single; lia
                    | rewrite ate_count_nil; lia ]
  | intros s; split;
    [ cbn; first [ discriminate | apply removelast_cons_nonempty ]
    | intros _; split; intros Hmd; cbn;
      repeat match goal with
             | Q : GameData.mode (game ?a) = _,
               H : String.eqb (GameData.mode (game ?a)) _ = _ |- _ =>
                 rewrite Q in H
             end;
      repeat match goal with
             | H : String.eqb _ _ = _ |- _ =>
                 first [ exfalso; exact (eqb_kurve_true _ H Hmd)
                       | exfalso; exact (eqb_kurve_false _ H Hmd)
                       | clear H ]
             end;
      rewrite ?length_removelast_cons, ?ate_count_single, ?ate_count_nil;
      unfold one_at; rewrite ?String.eqb_refl; cbn; lia ] ].

Lemma tick_move_snake (pid : string) :
  respects (tick_rel (one_at pid)) (SnakeGameLogic._move_snake pid).
Proof.
  intros e. unfold SnakeGameLogic._move_snake, get_snake.
  unfold bind, gets, ret, raise, modify_snake, modify_game, emit, modify.
  cbn.
  destruct (Dict.get pid (GameData.snakes (game e))) as [snake|] eqn:Hget;
    [|apply tick_refl].
  destruct (Snake.body snake) as [|head tl] eqn:Hbody; [apply tick_refl|].
  cbn.
  set (new_head := if negb (GameData.walls_enabled (game e)) then _ else _).
  clearbody new_head.
  destruct (find (cell_eqb new_head) (GameData.foods (game e))) as [food|].
  - match goal with
    | |- context [SnakeGameLogic._spawn_food ?x] =>
        pose proof (quiet_spawn_food x) as (Qs & Qt & Qm);
        destruct (SnakeGameLogic._spawn_food x) as [[[]|x0] e2]
    end; cbn in Qs, Qt, Qm |- *.
    + destruct (find (cell_eqb new_head) (GameData.weapons (game e2)));
        cbn;
        match goal with
        | |- context [find ?p ?l] => destruct (find p l)
        end; cbn;
        match goal with
        | |- context [String.eqb ?a ?b] => destruct (String.eqb a b) eqn:Hk
        end; cbn in Hk |- *; move_path [EvAte pid].
    + move_path [EvAte pid].
  - cbn.
    destruct (find (cell_eqb new_head) (GameData.weapons (game e)));
      cbn;
      match goal with
      | |- context [find ?p ?l] => destruct (find p l)
      end; cbn;
      match goal with
      | |- context [String.eqb ?a ?b] => destruct (String.eqb a b) eqn:Hk
      end; cbn in Hk |- *; move_path (@nil Event).
Qed.

Transparent SnakeGameLogic._spawn_food.

(** ** Projectiles *)

Lemma length_list_pop {A} (i : nat) (l : list A) :
  (i < List.length l)%nat ->
  List.length (list_pop i l) = (List.length l - 1)%nat.
Proof.
  revert i. induction l as [|a l IH]; intros i Hi; cbn in *; [lia|].
  destruct i as [|i]; cbn; [lia|].
  rewrite IH by lia. lia.
Qed.

Lemma remove_segments_length (budget hit_index : nat) (body : list Cell) :
  (1 <= List.length body)%nat ->
  (1 <= List.length (remove_segments budget hit_index body)
   <= List.length body)%nat.
Proof.
  revert body. induction budget as [|b IH]; intros body Hlen;
    cbn [remove_segments]; [split; [assumption|apply le_n]|].
  destruct (Nat.ltb hit_index (List.length body)) eqn:E1;
    cbn [andb]; [|split; [assumption|apply le_n]].
  destruct (Nat.ltb 1 (List.length body)) eqn:E2;
    [|split; [assumption|apply le_n]].
  apply Nat.ltb_lt in E1, E2.
  pose proof (length_list_pop hit_index body E1) as Hp.
  specialize (IH (list_pop hit_index body)).
  unfold Cell in *. lia.
Qed.

Lemma strike_body (hit_index : nat) (s : Snake.t) :
  Snake.body (strike hit_index s)
  = remove_segments BOMB_DAMAGE hit_index (Snake.body s).
Proof.
  unfold strike.
  match goal with |- context [if ?c then _ else _] => destruct c end;
    reflexivity.
Qed.

Lemma strike_nonempty (hit_index : nat) (s : Snake.t) :
  Snake.body s <> [] -> Snake.body (strike hit_index s) <> [].
Proof.
  intros Hne. rewrite strike_body.
  pose proof (remove_segments_length BOMB_DAMAGE hit_index (Snake.body s)) as H.
  destruct (Snake.body s) as [|c l]; [congruence|].
  specialize (H ltac:(cbn; lia)).
  intros E. rewrite E in H. cbn in H. lia.
Qed.

Lemma tick_strike {A} (pid : string) (hit_index : nat) (a : A) :
  respects (tick_rel no_budget)
    (modify_snake pid (strike hit_index) ;; emit (EvStrike pid) ;; ret a).
Proof.
  intros e. cbn. split; [reflexivity|].
  exists [EvStrike pid]. cbn. repeat split.
  - intros k. rewrite ate_count_strike, ate_count_nil. cbn. lia.
  - apply entries_update.
    + intros s. split; [apply strike_nonempty|].
      intros Hn. exfalso. apply Hn. now left.
    + intros k s _. apply entry_rel_idle.
      now rewrite ate_count_strike, ate_count_nil.
Qed.

Ltac tick_leaf :=
  match goal with
  | H : respects (tick_rel no_budget) ?m |- respects (tick_rel no_budget) ?m =>
      exact H
  | H : forall b, respects (tick_rel no_budget) (?f b)
    |- respects (tick_rel no_budget) (?f _) => apply H
  | |- respects _ (bind (modify_snake _ (strike _)) _) => apply tick_strike
  | |- respects _ (SnakeGameLogic._create_explosion _ _) =>
      apply tick_of_frame, frame_of_quiet, quiet_create_explosion
  | |- respects _ (modify_game _) =>
      apply tick_of_frame, frame_of_quiet, quiet_modify_game; reflexivity
  end.

Ltac tick_auto :=
  respects_steps ltac:(idtac; tick_leaf) (tick_refl no_budget) tick_trans0.

Lemma tick_bomb_flight (steps : nat) :
  forall bomb, respects (tick_rel no_budget) (SnakeGameLogic.bomb_flight steps bomb).
Proof.
  induction steps as [|steps IH]; intros bomb; cbn [SnakeGameLogic.bomb_flight].
  - tick_auto.
  - cbv zeta. tick_auto.
Qed.

Lemma tick_fly_bombs (bombs : list Bomb.t) :
  respects (tick_rel no_budget) (SnakeGameLogic.fly_bombs bombs).
Proof.
  induction bombs as [|bomb rest IH]; cbn [SnakeGameLogic.fly_bombs].
  - tick_auto.
  - respects_steps
      ltac:(idtac; match goal with
            | |- respects _ (SnakeGameLogic.bomb_flight _ _) =>
                apply tick_bomb_flight
            | _ => tick_leaf
            end)
      (tick_refl no_budget) tick_trans0.
Qed.

Lemma tick_update_bombs : respects (tick_rel no_budget) SnakeGameLogic._update_bombs.
Proof.
  unfold SnakeGameLogic._update_bombs.
  respects_steps
    ltac:(idtac; match goal with
          | |- respects _ (SnakeGameLogic.fly_bombs _) => apply tick_fly_bombs
          | _ => tick_leaf
          end)
    (tick_refl no_budget) tick_trans0.
Qed.

(** ** The tick *)

Lemma tick_bind {A B} (b1 b2 b : string -> nat) (m : M Env A) (k : A -> M Env B) :
  (forall x, (b1 x + b2 x <= b x)%nat) ->
  respects (tick_rel b1) m -> (forall a, respects (tick_rel b2) (k a)) ->
  respects (tick_rel b) (bind m k).
Proof.
  intros Hb Hm Hk e. unfold bind. specialize (Hm e).
  destruct (m e) as [[a|x] e1]; cbn in *.
  - eapply tick_trans; [exact Hb|exact Hm|apply Hk].
  - eapply tick_trans; [exact Hb|exact Hm|apply tick_refl].
Qed.

Lemma tick_mono (b b' : string -> nat) (e e' : Env) :
  (forall k, (b k <= b' k)%nat) -> tick_rel b e e' -> tick_rel b' e e'.
Proof.
  intros Hb (Hm & evs & Ht & Hc & He). split; [assumption|].
  exists evs. repeat split; try assumption.
  intros k. specialize (Hc k). specialize (Hb k). lia.
Qed.

Lemma tick_move_if_alive (pid : string) :
  respects (tick_rel (one_at pid)) (GameServer.move_if_alive pid).
Proof.
  intros e. unfold GameServer.move_if_alive, get_snake, bind, gets.
  cbn.
  destruct (Dict.get pid (GameData.snakes (game e))) as [snake|];
    [|apply tick_refl].
  cbn. destruct (Snake.alive snake); cbn; [|apply tick_refl].
  apply tick_move_snake.
Qed.

Lemma tick_move_all (ks : list string) :
  respects (tick_rel (keys_budget ks)) (for_each ks GameServer.move_if_alive).
Proof.
  induction ks as [|k ks IH]; cbn [for_each].
  - intros e. apply tick_refl.
  - eapply tick_bind; [|apply tick_move_if_alive|intros _; exact IH].
    intros x. unfold one_at, keys_budget. cbn [count_occ].
    destruct (string_dec k x) as [->|N].
    + rewrite String.eqb_refl. lia.
    + destruct (String.eqb x k) eqn:E; [|lia].
      apply String.eqb_eq in E. congruence.
Qed.

Lemma bind_gets {S A B} (f : S -> A) (k : A -> M S B) (s : S) :
  bind (gets f) k s = k (f s) s.
Proof. reflexivity. Qed.

Lemma bind_get {S B} (k : S -> M S B) (s : S) : bind get k s = k s s.
Proof. reflexivity. Qed.

Lemma tick_update_world (now : Z) (e : Env) :
  tick_rel (keys_budget (Dict.keys (GameData.snakes (game e)))) e
    (snd (GameServer.update_world now e)).
Proof.
  unfold GameServer.update_world. rewrite bind_gets. cbv beta.
  generalize (Dict.keys (GameData.snakes (game e))). intros ks. revert e.
  change (respects (tick_rel (keys_budget ks))
    (for_each ks (GameServer.expire_invisibility now) ;;
     for_each ks GameServer.move_if_alive ;;
     SnakeGameLogic._update_bombs ;;
     SnakeGameLogic._update_explosions ;;
     SnakeGameLogic._check_collisions ;;
     GameServer.spawn_pickup now ;;
     GameServer.check_winner ;;
     modify_game (fun g => GameData.set_tick (GameData.tick g + 1) g))).
  apply (tick_bind no_budget (keys_budget ks)); [intros; unfold no_budget; lia| |intros _].
  { apply tick_of_frame.
    respects_steps
      ltac:(idtac; match goal with
            | |- respects _ (GameServer.expire_invisibility _ _) =>
                apply frame_expire_invisibility
            end)
      frame_refl frame_trans. }
  apply (tick_bind (keys_budget ks) no_budget);
    [intros; unfold no_budget; lia|apply tick_move_all|intros _].
  respects_steps
    ltac:(idtac; match goal with
          | |- respects _ SnakeGameLogic._update_bombs => apply tick_update_bombs
          | |- respects _ SnakeGameLogic._update_explosions =>
              apply tick_of_frame, frame_of_quiet, quiet_update_explosions
          | |- respects _ SnakeGameLogic._check_collisions =>
              apply tick_of_frame, frame_check_collisions
          | |- respects _ (GameServer.spawn_pickup _) =>
              apply tick_of_frame, frame_spawn_pickup
          | |- respects _ GameServer.check_winner =>
              apply tick_of_frame, frame_check_winner
          | _ => tick_leaf
          end)
    (tick_refl no_budget) tick_trans0.
Qed.

(** ** The tick, from the server *)

Lemma env_logic {A} (m : M Env A) (s : GameServer.t) :
  GameServer.env (snd (GameServer.logic m s)) = snd (m (GameServer.env s)).
Proof.
  unfold GameServer.logic. destruct (m (GameServer.env s)). reflexivity.
Qed.

Lemma server_frame_refl (s : GameServer.t) : server_frame_rel s s.
Proof. apply frame_refl. Qed.

Lemma server_frame_trans (a b c : GameServer.t) :
  server_frame_rel a b -> server_frame_rel b c -> server_frame_rel a c.
Proof. apply frame_trans. Qed.

Lemma server_frame_logic {A} (m : M Env A) :
  respects frame_rel m -> respects server_frame_rel (GameServer.logic m).
Proof.
  intros H s. unfold server_frame_rel. rewrite env_logic. apply H.
Qed.

Lemma server_frame_modify (f : GameServer.t -> GameServer.t) :
  (forall s, GameServer.env (f s) = GameServer.env s) ->
  respects server_frame_rel (modify f).
Proof.
  intros Hf s. unfold server_frame_rel. cbn. rewrite Hf. apply frame_refl.
Qed.

Ltac server_leaf :=
  match goal with
  | H : respects server_frame_rel ?m |- respects server_frame_rel ?m => exact H
  | H : forall a b, respects server_frame_rel (?f a b)
    |- respects server_frame_rel (?f _ _) => apply H
  | |- respects _ (modify _) => apply server_frame_modify; reflexivity
  | |- respects _ (GameServer.log _) => apply server_frame_modify; reflexivity
  | |- respects _ (GameServer.time_sleep _) =>
      apply server_frame_modify; reflexivity
  | |- respects _ GameServer.time_time =>
      apply (respects_gets _ server_frame_refl)
  | |- respects _ (GameServer.modify_client _ _) =>
      apply server_frame_modify; reflexivity
  | |- respects _ (GameServer.modify_the_game _) =>
      apply server_frame_logic, frame_of_quiet, quiet_modify_game; reflexivity
  | |- respects _ (GameServer.logic (modify_snake _ _)) =>
      apply server_frame_logic, frame_modify_snake; reflexivity
  | |- respects _ (GameServer.logic (GameServer.apply_input _ _ _)) =>
      apply server_frame_logic, frame_apply_input
  end.

Ltac server_auto :=
  respects_steps ltac:(idtac; server_leaf) server_frame_refl server_frame_trans.

Lemma server_frame_send_to_client (player_id : string) (msg : ServerMsg) :
  respects server_frame_rel (GameServer._send_to_client player_id msg).
Proof. unfold GameServer._send_to_client. server_auto. Qed.

Lemma server_frame_remove_client (player_id : string) (graceful : bool) :
  respects server_frame_rel (GameServer._remove_client player_id graceful).
Proof. unfold GameServer._remove_client. server_auto. Qed.

Lemma server_frame_send_state_to (msg : ServerMsg) (ids : list string) :
  forall disconnected,
    respects server_frame_rel (GameServer.send_state_to msg ids disconnected).
Proof.
  induction ids as [|player_id rest IH]; intros disconnected;
    cbn [GameServer.send_state_to].
  - server_auto.
  - respects_steps
      ltac:(idtac; match goal with
            | |- respects _ (GameServer._send_to_client _ _) =>
                apply server_frame_send_to_client
            | |- respects _ (GameServer.send_state_to _ _ _) => apply IH
            | _ => server_leaf
            end)
      server_frame_refl server_frame_trans.
Qed.

Lemma server_frame_broadcast_state :
  respects server_frame_rel GameServer._broadcast_state.
Proof.
  unfold GameServer._broadcast_state.
  respects_steps
    ltac:(idtac; match goal with
          | |- respects _ (GameServer.send_state_to _ _ _) =>
              apply server_frame_send_state_to
          | |- respects _ (GameServer._remove_client _ _) =>
              apply server_frame_remove_client
          | _ => server_leaf
          end)
    server_frame_refl server_frame_trans.
Qed.

Lemma server_frame_process_inputs :
  respects server_frame_rel GameServer._process_inputs.
Proof. unfold GameServer._process_inputs. server_auto. Qed.

Lemma server_frame_update_countdown :
  respects server_frame_rel GameServer._update_countdown.
Proof. unfold GameServer._update_countdown. server_auto. Qed.

Lemma server_tick_update_game (s : GameServer.t) :
  server_tick_rel
    (keys_budget (Dict.keys (GameData.snakes (GameServer.the_game s))))
    s (snd (GameServer._update_game s)).
Proof.
  unfold server_tick_rel, GameServer._update_game, GameServer.time_time.
  rewrite bind_gets, env_logic. apply tick_update_world.
Qed.

Lemma frame_keys (e e' : Env) :
  frame_rel e e' ->
  Dict.keys (GameData.snakes (game e')) = Dict.keys (GameData.snakes (game e)).
Proof. intros (_ & _ & H). eapply entries_keys, H. Qed.

Lemma frame_tick_any (b : string -> nat) (e e' : Env) :
  frame_rel e e' -> tick_rel b e e'.
Proof.
  intros H. eapply tick_mono; [|apply frame_tick, H].
  intros k. unfold no_budget. lia.
Qed.

(** A tick of the server loop: every actor's body went through the tick
    relation, with at most one meal per key of the dictionary. *)
Lemma server_tick_run_loop_tick (s : GameServer.t) :
  server_tick_rel
    (keys_budget (Dict.keys (GameData.snakes (GameServer.the_game s))))
    s (snd (GameServer.run_loop_tick s)).
Proof.
  unfold GameServer.run_loop_tick.
  pose proof (server_frame_process_inputs s) as H1.
  unfold bind at 1.
  destruct (GameServer._process_inputs s) as [[[]|x] s1]; cbn [snd] in *;
    [|apply frame_tick_any; exact H1].
  rewrite bind_get.
  set (ks := Dict.keys (GameData.snakes (GameServer.the_game s))).
  assert (Hks : Dict.keys (GameData.snakes (GameServer.the_game s1)) = ks)
    by (apply frame_keys, H1).
  assert (H2 : server_tick_rel (keys_budget ks) s1
                 (snd ((if String.eqb (GameData.state (GameServer.the_game s1))
                            GameState_COUNTDOWN
                        then GameServer._update_countdown
                        else if String.eqb
                                  (GameData.state (GameServer.the_game s1))
                                  GameState_RUNNING
                             then GameServer._update_game
                             else ret tt) s1))).
  { destruct (String.eqb _ GameState_COUNTDOWN).
    - apply frame_tick_any, server_frame_update_countdown.
    - destruct (String.eqb _ GameState_RUNNING).
      + rewrite <- Hks. apply server_tick_update_game.
      + apply tick_refl. }
  unfold bind.
  match goal with
  | H2 : context [snd (?m s1)] |- _ =>
      destruct (m s1) as [[[]|x] s2] eqn:E2
  end; cbn [snd] in *.
  - pose proof (server_frame_broadcast_state s2) as H3.
    eapply tick_trans; [|apply frame_tick; exact H1|].
    2:{ eapply tick_trans; [|exact H2|apply frame_tick; exact H3].
        intros k. unfold no_budget.
        instantiate (1 := keys_budget ks). lia. }
    intros k. unfold no_budget. lia.
  - eapply tick_trans; [|apply frame_tick; exact H1|exact H2].
    intros k. unfold no_budget. lia.
Qed.

Lemma nonempty_length {A} (l : list A) : l <> [] <-> (1 <= List.length l)%nat.
Proof. destruct l; cbn; split; intros; try congruence; lia. Qed.

(** C10. Every actor's body has at least one segment at the end of a tick
    of the server loop, alive or dead, whatever the tick did and whether or
    not it completed; a projectile strike leaves at least one segment and
    marks the actor dead when fewer than two remain; and a move that drops
    the tail does so on a body that already has its new head. *)
Theorem bodies_nonempty_after_tick (srv : GameServer.t) :
  (all_bodies_nonempty (GameServer.the_game srv) ->
   all_bodies_nonempty
     (GameServer.the_game (snd (GameServer.run_loop_tick srv)))) /\
  (forall hit_index s,
      (1 <= List.length (Snake.body s))%nat ->
      (1 <= List.length (Snake.body (strike hit_index s)))%nat /\
      ((List.length (Snake.body (strike hit_index s)) < 2)%nat ->
       Snake.alive (strike hit_index s) = false)) /\
  (forall (new_head : Cell) (body : list Cell),
      (1 <= List.length body)%nat ->
      List.length (removelast (new_head :: body)) = List.length body).
Proof.
  split; [|split].
  - destruct (server_tick_run_loop_tick srv) as (_ & evs & _ & _ & He).
    unfold all_bodies_nonempty, GameServer.the_game.
    apply (entries_Forall _ (fun s => (1 <= List.length (Snake.body s))%nat) _ _)
      with (2 := He).
    intros k a b [Hne _] Ha. apply nonempty_length, Hne, nonempty_length, Ha.
  - intros hit_index s Hs. split.
    + apply nonempty_length, strike_nonempty, nonempty_length, Hs.
    + unfold strike.
      match goal with |- context [if ?c then _ else _] => destruct c eqn:E end;
        cbn [Snake.body Snake.set_alive Snake.alive Snake.set_body] in *.
      * reflexivity.
      * apply Nat.ltb_ge in E. intros H. unfold Cell in *. lia.
  - intros new_head body _. apply length_removelast_cons.
Qed.

Lemma bodies_nonempty_after_tick_witness :
  all_bodies_nonempty (GameServer.the_game (sample_server GameMode_CLASSIC)) /\
  all_bodies_nonempty
    (GameServer.the_game
       (snd (GameServer.run_loop_tick (sample_server GameMode_CLASSIC)))).
Proof.
  assert (H : all_bodies_nonempty
                (GameServer.the_game (sample_server GameMode_CLASSIC))).
  { repeat constructor; cbn; lia. }
  split; [exact H|].
  exact (proj1 (bodies_nonempty_after_tick (sample_server GameMode_CLASSIC)) H).
Defined.

(** What a tick does to the body of the actor under key [p], in terms of
    the events [evs] it recorded. *)
Lemma tick_entry (srv : GameServer.t) (p : string) (s s' : Snake.t)
  (evs : list Event) :
  Dict.get p (GameData.snakes (GameServer.the_game srv)) = Some s ->
  Dict.get p (GameData.snakes
                (GameServer.the_game (snd (GameServer.run_loop_tick srv))))
  = Some s' ->
  trace (GameServer.env (snd (GameServer.run_loop_tick srv)))
  = evs ++ trace (GameServer.env srv) ->
  entry_rel (GameData.mode (GameServer.the_game srv)) evs p s s' /\
  (ate_count p evs
   <= keys_budget (Dict.keys (GameData.snakes (GameServer.the_game srv))) p)%nat.
Proof.
  intros Hs Hs' Ht.
  destruct (server_tick_run_loop_tick srv) as (_ & evs0 & Ht0 & Hb & He).
  rewrite Ht in Ht0. apply app_inv_tail in Ht0. subst evs0.
  destruct (entries_get _ _ _ _ _ He Hs) as (s2 & Hs2 & Hrel).
  unfold GameServer.the_game in Hs'. rewrite Hs' in Hs2.
  injection Hs2 as <-. split; [exact Hrel|apply Hb].
Qed.

(** C4, amended. In continuous-growth (kurve) mode, an actor that is alive
    at the end of a tick in which no projectile struck it is at least as
    long at the end of the tick as at its start. *)
Theorem kurve_length_after_tick (srv : GameServer.t) (p : string)
  (s s' : Snake.t) (evs : list Event) :
  GameData.mode (GameServer.the_game srv) = GameMode_KURVE ->
  Dict.get p (GameData.snakes (GameServer.the_game srv)) = Some s ->
  Dict.get p (GameData.snakes
                (GameServer.the_game (snd (GameServer.run_loop_tick srv))))
  = Some s' ->
  Snake.alive s' = true ->
  trace (GameServer.env (snd (GameServer.run_loop_tick srv)))
  = evs ++ trace (GameServer.env srv) ->
  ~ In (EvStrike p) evs ->
  (List.length (Snake.body s) <= List.length (Snake.body s'))%nat.
Proof.
  intros Hmode Hs Hs' _ Ht Hns.
  destruct (tick_entry srv p s s' evs Hs Hs' Ht) as [[_ Hrel] _].
  destruct (Hrel Hns) as [Hk _]. exact (Hk Hmode).
Qed.

(** C5, amended. In classic mode, for a living actor and a tick in which
    no projectile struck it: if it ate no food, its body is as long at the
    end of the tick as at the start; if it ate, it is longer by exactly
    one. *)
Theorem classic_length_after_tick (srv : GameServer.t) (p : string)
  (s s' : Snake.t) (evs : list Event) :
  NoDup (Dict.keys (GameData.snakes (GameServer.the_game srv))) ->
  GameData.mode (GameServer.the_game srv) = GameMode_CLASSIC ->
  Dict.get p (GameData.snakes (GameServer.the_game srv)) = Some s ->
  Snake.alive s = true ->
  Dict.get p (GameData.snakes
                (GameServer.the_game (snd (GameServer.run_loop_tick srv))))
  = Some s' ->
  trace (GameServer.env (snd (GameServer.run_loop_tick srv)))
  = evs ++ trace (GameServer.env srv) ->
  ~ In (EvStrike p) evs ->
  (~ In (EvAte p) evs ->
   List.length (Snake.body s') = List.length (Snake.body s)) /\
  (In (EvAte p) evs ->
   List.length (Snake.body s') = (List.length (Snake.body s) + 1)%nat).
Proof.
  intros Hnd Hmode Hs _ Hs' Ht Hns.
  destruct (tick_entry srv p s s' evs Hs Hs' Ht) as [[_ Hrel] Hb].
  destruct (Hrel Hns) as [_ Hc].
  assert (Hlen : List.length (Snake.body s')
                 = (List.length (Snake.body s) + ate_count p evs)%nat).
  { apply Hc. rewrite Hmode. discriminate. }
  assert (Hone : (keys_budget
                    (Dict.keys (GameData.snakes (GameServer.the_game srv))) p
                  <= 1)%nat).
  { unfold keys_budget. now apply NoDup_count_occ. }
  split; intros Hin.
  - apply (count_occ_not_In Event_eq_dec) in Hin.
    unfold ate_count in Hlen. lia.
  - apply (count_occ_In Event_eq_dec) in Hin.
    unfold ate_count in *. lia.
Qed.

Lemma kurve_length_after_tick_witness :
  (List.length (Snake.body bob) <= List.length (Snake.body bob_after))%nat.
Proof.
  apply (kurve_length_after_tick (sample_server GameMode_KURVE) bob_id
           bob bob_after [EvStrike ann_id; EvAte bob_id]).
  - reflexivity.
  - reflexivity.
  - vm_compute. reflexivity.
  - reflexivity.
  - vm_compute. reflexivity.
  - cbn. intros [H|[H|[]]]; discriminate H.
Defined.

(** C4, as stated, fails: in kurve mode Bob fires, and his bomb strikes
    Ann, who is six segments long, three segments behind her new head; she
    ends the tick alive and three segments long. *)
Lemma kurve_length_decreases_when_struck :
  GameData.state (GameServer.the_game (sample_server GameMode_KURVE))
  = GameState_RUNNING /\
  GameData.mode (GameServer.the_game (sample_server GameMode_KURVE))
  = GameMode_KURVE /\
  exists s s',
    Dict.get ann_id
      (GameData.snakes (GameServer.the_game (sample_server GameMode_KURVE)))
    = Some s /\
    Dict.get ann_id
      (GameData.snakes
         (GameServer.the_game
            (snd (GameServer.run_loop_tick (sample_server GameMode_KURVE)))))
    = Some s' /\
    Snake.alive s' = true /\
    List.length (Snake.body s) = 6%nat /\
    List.length (Snake.body s') = 3%nat /\
    ~ (List.length (Snake.body s) <= List.length (Snake.body s'))%nat.
Proof.
  split; [reflexivity|]. split; [reflexivity|].
  eexists. eexists.
  split; [reflexivity|]. split; [vm_compute; reflexivity|].
  split; [reflexivity|]. split; [reflexivity|]. split; [reflexivity|].
  cbn. lia.
Qed.

Lemma classic_length_after_tick_witness :
  (~ In (EvAte bob_id) [EvStrike ann_id; EvAte bob_id] ->
   List.length (Snake.body bob_after) = List.length (Snake.body bob)) /\
  (In (EvAte bob_id) [EvStrike ann_id; EvAte bob_id] ->
   List.length (Snake.body bob_after) = (List.length (Snake.body bob) + 1)%nat).
Proof.
  apply (classic_length_after_tick (sample_server GameMode_CLASSIC) bob_id
           bob bob_after [EvStrike ann_id; EvAte bob_id]).
  - repeat constructor; cbn; intuition discriminate.
  - reflexivity.
  - reflexivity.
  - reflexivity.
  - vm_compute. reflexivity.
  - vm_compute. reflexivity.
  - cbn. intros [H|[H|[]]]; discriminate H.
Defined.

(** C5, as stated, fails: in classic mode Ann, alive and six segments long,
    eats nothing during the tick, is struck by Bob's bomb three segments
    behind her head, and ends the tick alive and three segments long. *)
Lemma classic_length_decreases_when_struck :
  GameData.mode (GameServer.the_game (sample_server GameMode_CLASSIC))
  = GameMode_CLASSIC /\
  exists s s',
    Dict.get ann_id
      (GameData.snakes (GameServer.the_game (sample_server GameMode_CLASSIC)))
    = Some s /\
    Snake.alive s = true /\
    Dict.get ann_id
      (GameData.snakes
         (GameServer.the_game
            (snd (GameServer.run_loop_tick (sample_server GameMode_CLASSIC)))))
    = Some s' /\
    Snake.alive s' = true /\
    trace (GameServer.env
             (snd (GameServer.run_loop_tick (sample_server GameMode_CLASSIC))))
    = [EvStrike ann_id; EvAte bob_id] /\
    Snake.score s' = Snake.score s /\
    List.length (Snake.body s) = 6%nat /\
    List.length (Snake.body s') = 3%nat.
Proof.
  split; [reflexivity|].
  eexists. eexists.
  split; [reflexivity|]. split; [reflexivity|].
  split; [vm_compute; reflexivity|].
  repeat split; vm_compute; reflexivity.
Qed.

(** ** Spawning *)

Lemma cell_at_true (x y : Z) (c : Cell) : cell_at x y c = true <-> c = (x, y).
Proof.
  unfold cell_at. destruct c as [a b]. cbn.
  rewrite andb_true_iff, !Z.eqb_eq. split; [intros [-> ->]|intros [= -> ->]]; auto.
Qed.

Lemma existsb_cell_at_false (x y : Z) (l : list Cell) :
  existsb (cell_at x y) l = false -> ~ In (x, y) l.
Proof.
  intros H Hin.
  assert (E : existsb (cell_at x y) l = true).
  { apply existsb_exists. exists (x, y). split; [assumption|].
    now apply cell_at_true. }
  congruence.
Qed.

Lemma not_occupied_free (g : GameData.t) (x y : Z) :
  SnakeGameLogic._is_position_occupied g x y = false -> free_cell g (x, y).
Proof.
  unfold SnakeGameLogic._is_position_occupied.
  rewrite !orb_false_iff. intros [[[Hs Hf] Hw] Hg].
  repeat split; try now apply existsb_cell_at_false.
  intros k s Hin. apply existsb_cell_at_false.
  destruct (existsb (cell_at x y) (Snake.body s)) eqn:E; [|reflexivity].
  rewrite <- Hs. symmetry. apply existsb_exists.
  exists s. split; [|assumption].
  unfold Dict.values. change s with (snd (k, s)). now apply in_map.
Qed.

Lemma randint_state (a b : Z) (e : Env) :
  game (snd (random_randint a b e)) = game e /\
  (used (rng (snd (random_randint a b e))) <= S (used (rng e)))%nat.
Proof.
  unfold random_randint. destruct (b <? a); cbn; split; auto; lia.
Qed.

Lemma spawn_attempts_spec (n : nat) (place : Cell -> GameData.t -> GameData.t)
  (e : Env) :
  (game (snd (SnakeGameLogic.spawn_attempts n place e)) = game e \/
   exists c, free_cell (game e) c /\
     game (snd (SnakeGameLogic.spawn_attempts n place e)) = place c (game e)) /\
  (used (rng (snd (SnakeGameLogic.spawn_attempts n place e)))
   <= used (rng e) + 2 * n)%nat.
Proof.
  revert e. induction n as [|n IH]; intros e; cbn [SnakeGameLogic.spawn_attempts].
  - cbn. split; [now left|lia].
  - rewrite bind_gets. unfold bind.
    destruct (randint_state 2 (GameData.width (game e) - 2) e) as [G1 U1].
    destruct (random_randint 2 (GameData.width (game e) - 2) e)
      as [[x|x1] e1]; cbn [snd] in *; [|split; [now left|lia]].
    destruct (randint_state 2 (GameData.height (game e) - 2) e1) as [G2 U2].
    destruct (random_randint 2 (GameData.height (game e) - 2) e1)
      as [[y|x2] e2]; cbn [snd] in *;
      [|split; [left; congruence|lia]].
    destruct (SnakeGameLogic._is_position_occupied (game e) x y) eqn:Occ;
      cbn [negb].
    + destruct (IH e2) as [Hg Hu]. split.
      * destruct Hg as [Hg|(c & Hc & Hg)]; [left; congruence|].
        right. exists c. rewrite G2, G1 in *. auto.
      * lia.
    + cbn. split; [|lia]. right. exists (x, y).
      split; [now apply not_occupied_free|]. congruence.
Qed.

Lemma spawn_attempts_spawned (place : Cell -> GameData.t -> GameData.t) (e : Env) :
  spawned place e (snd (SnakeGameLogic.spawn_attempts 100 place e)).
Proof.
  destruct (spawn_attempts_spec 100 place e) as [H1 H2].
  split; [exact H1|]. lia.
Qed.

(** C8, as stated, fails: projectiles are not looked at. With a bomb in
    flight on cell (9, 9), [_spawn_food] puts a food item on (9, 9). *)
Lemma spawn_on_projectile_cell :
  map (fun b => (Bomb.x b, Bomb.y b)) (GameData.bombs (game projectile_env))
  = [(9, 9)] /\
  GameData.foods (game (snd (SnakeGameLogic._spawn_food projectile_env)))
  = GameData.foods (game projectile_env) ++ [(9, 9)].
Proof. split; vm_compute; reflexivity. Qed.

Lemma existsb_cell_at_true (x y : Z) (l : list Cell) :
  In (x, y) l -> existsb (cell_at x y) l = true.
Proof.
  intros Hin. apply existsb_exists. exists (x, y).
  split; [assumption | now apply cell_at_true].
Qed.

Lemma free_not_occupied (g : GameData.t) (x y : Z) :
  free_cell g (x, y) -> SnakeGameLogic._is_position_occupied g x y = false.
Proof.
  intros (Hs & Hf & Hw & Hg).
  unfold SnakeGameLogic._is_position_occupied.
  rewrite !orb_false_iff. repeat split.
  - destruct (existsb _ (Dict.values (GameData.snakes g))) eqn:E;
      [|reflexivity].
    apply existsb_exists in E. destruct E as (s & Hin & Hb).
    unfold Dict.values in Hin. apply in_map_iff in Hin.
    destruct Hin as ([k s'] & <- & Hin). cbn [snd] in Hb.
    exfalso. apply (Hs k s' Hin).
    apply existsb_exists in Hb. destruct Hb as (c & Hc & Hat).
    apply cell_at_true in Hat. now subst c.
  - destruct (existsb (cell_at x y) (GameData.foods g)) eqn:E; [|reflexivity].
    exfalso. apply Hf. apply existsb_exists in E.
    destruct E as (c & Hc & Hat). apply cell_at_true in Hat. now subst c.
  - destruct (existsb (cell_at x y) (GameData.weapons g)) eqn:E;
      [|reflexivity].
    exfalso. apply Hw. apply existsb_exists in E.
    destruct E as (c & Hc & Hat). apply cell_at_true in Hat. now subst c.
  - destruct (existsb (cell_at x y) (GameData.ghost_pickups g)) eqn:E;
      [|reflexivity].
    exfalso. apply Hg. apply existsb_exists in E.
    destruct E as (c & Hc & Hat). apply cell_at_true in Hat. now subst c.
Qed.

Lemma candidate_after_attempt (e : Env) (i : nat) :
  candidate (after_attempt e) i = candidate e (S i).
Proof.
  unfold candidate, after_attempt. cbn [game rng draws used].
  replace (S (S (used (rng e))) + 2 * i)%nat
    with (used (rng e) + 2 * S i)%nat by lia.
  reflexivity.
Qed.

Lemma spawn_attempts_step (n : nat)
  (place : Cell -> GameData.t -> GameData.t) (e : Env) :
  4 <= GameData.width (game e) ->
  4 <= GameData.height (game e) ->
  SnakeGameLogic.spawn_attempts (S n) place e
  = if SnakeGameLogic._is_position_occupied (game e)
         (fst (candidate e 0)) (snd (candidate e 0))
    then SnakeGameLogic.spawn_attempts n place (after_attempt e)
    else modify_game (place (candidate e 0)) (after_attempt e).
Proof.
  intros Hw Hh. cbn [SnakeGameLogic.spawn_attempts].
  rewrite bind_gets. unfold random_randint.
  replace (GameData.width (game e) - 2 <? 2) with false
    by (symmetry; apply Z.ltb_ge; lia).
  replace (GameData.height (game e) - 2 <? 2) with false
    by (symmetry; apply Z.ltb_ge; lia).
  unfold bind, random_draw, ret, candidate, after_attempt.
  cbn [fst snd game rng draws used].
  replace (used (rng e) + 2 * 0)%nat with (used (rng e)) by lia.
  replace (used (rng e) + 1)%nat with (S (used (rng e))) by lia.
  destruct (SnakeGameLogic._is_position_occupied _ _ _); reflexivity.
Qed.

Lemma spawn_attempts_retries (n : nat)
  (place : Cell -> GameData.t -> GameData.t) :
  forall e,
    4 <= GameData.width (game e) ->
    4 <= GameData.height (game e) ->
    let r := SnakeGameLogic.spawn_attempts n place e in
    fst r = Return tt /\
    (forall i,
        (i < n)%nat ->
        (forall j, (j < i)%nat -> ~ free_cell (game e) (candidate e j)) ->
        free_cell (game e) (candidate e i) ->
        game (snd r) = place (candidate e i) (game e) /\
        used (rng (snd r)) = (used (rng e) + 2 * (i + 1))%nat) /\
    ((forall j, (j < n)%nat -> ~ free_cell (game e) (candidate e j)) ->
     game (snd r) = game e /\
     used (rng (snd r)) = (used (rng e) + 2 * n)%nat).
Proof.
  induction n as [|n IH]; intros e Hw Hh; cbv zeta.
  - cbn. split; [reflexivity|]. split; [intros; lia|].
    intros _. split; [reflexivity|lia].
  - rewrite spawn_attempts_step by assumption.
    destruct (IH (after_attempt e) Hw Hh) as (Hr & Hfirst & Hnone).
    cbv zeta in Hr, Hfirst, Hnone.
    destruct (SnakeGameLogic._is_position_occupied (game e)
                (fst (candidate e 0)) (snd (candidate e 0))) eqn:Occ.
    + assert (Htaken : ~ free_cell (game e) (candidate e 0)).
      { intros Hfree. destruct (candidate e 0) as [x y].
        apply free_not_occupied in Hfree. cbn [fst snd] in Occ. congruence. }
      split; [exact Hr|]. split.
      * intros [|i] Hi Hbefore Hfree; [contradiction|].
        destruct (Hfirst i) as [Hg Hu].
        -- lia.
        -- intros j Hj. rewrite candidate_after_attempt.
           apply Hbefore. lia.
        -- rewrite candidate_after_attempt. exact Hfree.
        -- rewrite candidate_after_attempt in Hg.
           split; [exact Hg|]. rewrite Hu. cbn [after_attempt rng used]. lia.
      * intros Hall. destruct Hnone as [Hg Hu].
        -- intros j Hj. rewrite candidate_after_attempt.
           apply Hall. lia.
        -- split; [exact Hg|]. rewrite Hu. cbn [after_attempt rng used]. lia.
    + assert (Hfree0 : free_cell (game e) (candidate e 0)).
      { destruct (candidate e 0) as [x y]. now apply not_occupied_free. }
      cbn [modify_game modify fst snd game rng used after_attempt].
      split; [reflexivity|]. split.
      * intros [|i] Hi Hbefore Hfree.
        -- split; [reflexivity|lia].
        -- exfalso. apply (Hbefore 0%nat); [lia|exact Hfree0].
      * intros Hall. exfalso. apply (Hall 0%nat); [lia|exact Hfree0].
Qed.

Lemma spawn_attempts_retried (place : Cell -> GameData.t -> GameData.t)
  (e : Env) :
  4 <= GameData.width (game e) ->
  4 <= GameData.height (game e) ->
  fst (SnakeGameLogic.spawn_attempts 100 place e) = Return tt /\
  retried place e (snd (SnakeGameLogic.spawn_attempts 100 place e)).
Proof.
  intros Hw Hh.
  destruct (spawn_attempts_retries 100 place e Hw Hh) as (Hr & Hfirst & Hnone).
  split; [exact Hr|]. split; [exact Hfirst|exact Hnone].
Qed.

Lemma spawn_attempts_small (n : nat)
  (place : Cell -> GameData.t -> GameData.t) (e : Env) :
  GameData.width (game e) < 4 \/ GameData.height (game e) < 4 ->
  fst (SnakeGameLogic.spawn_attempts (S n) place e) = Raise ValueError /\
  game (snd (SnakeGameLogic.spawn_attempts (S n) place e)) = game e.
Proof.
  intros Hsmall. cbn [SnakeGameLogic.spawn_attempts].
  rewrite bind_gets. unfold random_randint.
  destruct (GameData.width (game e) - 2 <? 2) eqn:Ew.
  - split; reflexivity.
  - assert (Eh : (GameData.height (game e) - 2 <? 2) = true)
      by (apply Z.ltb_ge in Ew; apply Z.ltb_lt; lia).
    rewrite Eh. split; reflexivity.
Qed.

(** C8, amended. Whenever one of the three spawners (food, explosive
    pickup, cloak pickup) spawns, the chosen cell holds no actor segment
    and no other consumable at that moment, and at most 200 draws are
    read. On a field of at least four cells each way the spawner returns
    and retries on collision: the item goes on the cell of the first of at
    most 100 attempts that is free, and nothing is spawned when the cells
    of all 100 attempts are taken. On a smaller field the range of the
    draws is empty: the spawner raises [ValueError] and spawns nothing. *)
Theorem spawn_on_free_cell (e : Env) :
  let food := fun c g => GameData.set_foods (GameData.foods g ++ [c]) g in
  let weapon := fun c g => GameData.set_weapons (GameData.weapons g ++ [c]) g in
  let ghost := fun c g =>
    GameData.set_ghost_pickups (GameData.ghost_pickups g ++ [c]) g in
  (spawned food e (snd (SnakeGameLogic._spawn_food e)) /\
   spawned weapon e (snd (SnakeGameLogic._spawn_weapon e)) /\
   spawned ghost e (snd (SnakeGameLogic._spawn_ghost e))) /\
  (4 <= GameData.width (game e) ->
   4 <= GameData.height (game e) ->
   (fst (SnakeGameLogic._spawn_food e) = Return tt /\
    retried food e (snd (SnakeGameLogic._spawn_food e))) /\
   (fst (SnakeGameLogic._spawn_weapon e) = Return tt /\
    retried weapon e (snd (SnakeGameLogic._spawn_weapon e))) /\
   (fst (SnakeGameLogic._spawn_ghost e) = Return tt /\
    retried ghost e (snd (SnakeGameLogic._spawn_ghost e)))) /\
  (GameData.width (game e) < 4 \/ GameData.height (game e) < 4 ->
   (fst (SnakeGameLogic._spawn_food e) = Raise ValueError /\
    game (snd (SnakeGameLogic._spawn_food e)) = game e) /\
   (fst (SnakeGameLogic._spawn_weapon e) = Raise ValueError /\
    game (snd (SnakeGameLogic._spawn_weapon e)) = game e) /\
   (fst (SnakeGameLogic._spawn_ghost e) = Raise ValueError /\
    game (snd (SnakeGameLogic._spawn_ghost e)) = game e)).
Proof.
  cbv zeta. split; [|split].
  - repeat split; apply spawn_attempts_spawned.
  - intros Hw Hh.
    split; [|split]; apply spawn_attempts_retried; assumption.
  - intros Hsmall.
    split; [|split]; apply spawn_attempts_small; assumption.
Qed.

Lemma spawn_on_free_cell_witness :
  (game (snd (SnakeGameLogic._spawn_food retry_env))
   = GameData.set_foods (GameData.foods (game retry_env) ++ [(9, 9)])
       (game retry_env) /\
   used (rng (snd (SnakeGameLogic._spawn_food retry_env))) = 4%nat) /\
  (game (snd (SnakeGameLogic._spawn_food crowded_env)) = game crowded_env /\
   used (rng (snd (SnakeGameLogic._spawn_food crowded_env))) = 200%nat).
Proof.
  split.
  - destruct (proj1 (proj2 (spawn_on_free_cell retry_env))
                ltac:(vm_compute; discriminate)
                ltac:(vm_compute; discriminate))
      as ((_ & Hfirst & _) & _).
    apply (Hfirst 1%nat); [lia| |].
    + intros j Hj. assert (j = 0%nat) as -> by lia.
      intros (_ & Hfood & _). apply Hfood. vm_compute. tauto.
    + apply (not_occupied_free (game retry_env) 9 9). vm_compute. reflexivity.
  - destruct (proj1 (proj2 (spawn_on_free_cell crowded_env))
                ltac:(vm_compute; discriminate)
                ltac:(vm_compute; discriminate))
      as ((_ & _ & Hnone) & _).
    apply Hnone. intros j Hj (_ & Hfood & _). apply Hfood.
    vm_compute. tauto.
Defined.

(** ** Collision resolution *)

Lemma cell_eqb_true (a b : Cell) : cell_eqb a b = true <-> a = b.
Proof.
  unfold cell_eqb. rewrite cell_at_true. destruct a, b; cbn.
  split; intros [= -> ->]; reflexivity.
Qed.

Lemma existsb_cell_eqb (c : Cell) (l : list Cell) :
  existsb (cell_eqb c) l = true -> In c l.
Proof.
  intros H. apply existsb_exists in H. destruct H as (x & Hin & Hx).
  apply cell_eqb_true in Hx. now subst.
Qed.

Lemma entries_update_In {V} (R : string -> V -> V -> Prop) (k : string)
  (f : V -> V) (d0 d : Dict.t V) :
  entries R d0 d ->
  (forall s0 s, In (k, s) d -> R k s0 s -> R k s0 (f s)) ->
  entries R d0 (Dict.update k f d).
Proof.
  intros H. induction H as [|[k0 v0] [k1 v1] d0 d [Hk H1] _ IH]; intros Hf;
    cbn; constructor.
  - cbn in *. subst k1. destruct (String.eqb k k0) eqn:E; cbn; split; auto.
    apply String.eqb_eq in E. subst k0. apply Hf; [now left|assumption].
  - apply IH. intros s0 s Hin. apply Hf. now right.
Qed.

Lemma entries_In_back {V} (R : string -> V -> V -> Prop) (d0 d : Dict.t V)
  (k : string) (v : V) :
  entries R d0 d -> In (k, v) d -> exists v0, In (k, v0) d0 /\ R k v0 v.
Proof.
  intros H. induction H as [|[k0 v0] [k1 v1] d0 d [Hk H1] _ IH]; cbn;
    [easy|].
  cbn in Hk, H1. subst k1. intros [[= -> ->]|Hin].
  - exists v0. auto.
  - destruct (IH Hin) as (w & Hw & HR). eauto.
Qed.

Lemma collisions_refl (e : Env) : collisions_rel e e.
Proof.
  repeat split. apply entries_refl. intros k s.
  repeat split; auto. intros H1 H2. congruence.
Qed.

Lemma check_snake_state (k : string) (e : Env) :
  snd (SnakeGameLogic.check_snake k e) =
  match Dict.get k (GameData.snakes (game e)) with
  | None => e
  | Some s =>
      if negb (Snake.alive s) then e
      else
        match Snake.body s with
        | [] => e
        | head :: tail =>
            if (GameData.walls_enabled (game e) && out_of_bounds (game e) head)
               || existsb (cell_eqb head) tail
               || SnakeGameLogic.hits_other k head (GameData.snakes (game e))
            then snd (modify_snake k (Snake.set_alive false) e)
            else e
        end
  end.
Proof.
  unfold SnakeGameLogic.check_snake, get_snake, bind, gets, ret, raise.
  cbn [fst snd].
  destruct (Dict.get k (GameData.snakes (game e))) as [s|]; [|reflexivity].
  destruct (negb (Snake.alive s)); [reflexivity|].
  destruct (Snake.body s) as [|head tail]; [reflexivity|].
  destruct (GameData.walls_enabled (game e) && out_of_bounds (game e) head);
    [reflexivity|].
  destruct (existsb (cell_eqb head) tail); [reflexivity|].
  destruct (SnakeGameLogic.hits_other k head (GameData.snakes (game e)));
    reflexivity.
Qed.

Lemma hits_other_cause (e0 e : Env) (k : string) (head : Cell) :
  collisions_rel e0 e ->
  SnakeGameLogic.hits_other k head (GameData.snakes (game e)) = true ->
  exists c C,
    In (c, C) (GameData.snakes (game e0)) /\ c <> k /\
    Snake.alive C = true /\ Snake.is_invisible C = false /\
    In head (Snake.body C).
Proof.
  intros (_ & _ & _ & He) H.
  apply existsb_exists in H. destruct H as ([c C] & Hin & Hc). cbn in Hc.
  rewrite !andb_true_iff, !negb_true_iff in Hc.
  destruct Hc as [[[Hne Ha] Hv] Hb].
  destruct (entries_In_back _ _ _ _ _ He Hin) as (C0 & Hin0 & Hb0 & Hi0 & Ha0 & _).
  exists c, C0. repeat split.
  - assumption.
  - apply String.eqb_neq in Hne. assumption.
  - auto.
  - congruence.
  - rewrite <- Hb0. now apply existsb_cell_eqb.
Qed.

Lemma collisions_check_snake (e0 e : Env) (k : string) :
  NoDup (Dict.keys (GameData.snakes (game e0))) ->
  collisions_rel e0 e ->
  collisions_rel e0 (snd (SnakeGameLogic.check_snake k e)).
Proof.
  intros Hnd Hrel. rewrite check_snake_state.
  destruct (Dict.get k (GameData.snakes (game e))) as [s|] eqn:Hget;
    [|exact Hrel].
  destruct (Snake.alive s) eqn:Halive; cbn [negb]; [|exact Hrel].
  destruct (Snake.body s) as [|head tail] eqn:Hbody; [exact Hrel|].
  match goal with |- context [if ?c then _ else _] => destruct c eqn:Hc end;
    [|exact Hrel].
  pose proof Hrel as (Hw & Hwd & Hh & He).
  assert (Hnd' : NoDup (Dict.keys (GameData.snakes (game e)))).
  { now rewrite (entries_keys _ _ _ He). }
  cbn. repeat split; try assumption. cbn.
  apply entries_update_In; [exact He|].
  intros s0 s1 Hin (Hb & Hi & Ha & Hcause).
  apply (In_get_NoDup _ _ _ Hnd') in Hin. rewrite Hget in Hin.
  injection Hin as <-.
  cbn. repeat split; try assumption; [discriminate|].
  intros Ha0 _. unfold death_cause. rewrite <- Hb, Hbody.
  rewrite !orb_true_iff in Hc. destruct Hc as [[Hc|Hc]|Hc].
  - left. apply andb_true_iff in Hc. destruct Hc as [Hc1 Hc2].
    split; [congruence|].
    unfold out_of_bounds in *. rewrite <- Hwd, <- Hh. exact Hc2.
  - right. left. now apply existsb_cell_eqb.
  - right. right. eapply hits_other_cause; eassumption.
Qed.

Lemma collisions_for_each (e0 : Env) (ks : list string) :
  NoDup (Dict.keys (GameData.snakes (game e0))) ->
  forall e, collisions_rel e0 e ->
            collisions_rel e0 (snd (for_each ks SnakeGameLogic.check_snake e)).
Proof.
  intros Hnd. induction ks as [|k ks IH]; intros e Hrel; cbn [for_each].
  - exact Hrel.
  - unfold bind.
    pose proof (collisions_check_snake e0 e k Hnd Hrel) as H1.
    destruct (SnakeGameLogic.check_snake k e) as [[[]|x] e1]; cbn [snd] in *.
    + apply IH, H1.
    + exact H1.
Qed.

(** C6, as stated, fails: the cloaked actor is killed by the other one.
    Ann is cloaked and alive, her head is on a segment of Bob, who is alive
    and visible; she is inside the walls and not on her own body. After
    collision resolution Ann is dead and Bob is alive. *)
Lemma cloaked_actor_killed_by_other :
  exists A B A' B',
    Dict.get ann_id (GameData.snakes (game cloak_env)) = Some A /\
    Dict.get bob_id (GameData.snakes (game cloak_env)) = Some B /\
    Snake.is_invisible A = true /\ Snake.alive A = true /\
    Snake.alive B = true /\
    hd (0, 0) (Snake.body A) = (9, 1) /\ In (9, 1) (Snake.body B) /\
    out_of_bounds (game cloak_env) (9, 1) = false /\
    ~ In (9, 1) (tl (Snake.body A)) /\
    Dict.get ann_id
      (GameData.snakes (game (snd (SnakeGameLogic._check_collisions cloak_env))))
    = Some A' /\
    Dict.get bob_id
      (GameData.snakes (game (snd (SnakeGameLogic._check_collisions cloak_env))))
    = Some B' /\
    Snake.alive A' = false /\ Snake.alive B' = true.
Proof.
  do 4 eexists.
  split; [reflexivity|]. split; [reflexivity|].
  split; [reflexivity|]. split; [reflexivity|]. split; [reflexivity|].
  split; [reflexivity|]. split; [cbn; tauto|]. split; [reflexivity|].
  split; [cbn; intuition discriminate|].
  split; [vm_compute; reflexivity|]. split; [vm_compute; reflexivity|].
  split; reflexivity.
Qed.

(** C6, amended. A cloaked actor is never the cause of another actor's
    death in collision resolution: an actor that was alive before the pass
    and is dead after it had its head on a wall, on its own body, or on a
    segment of another actor that is alive and not cloaked. (The cloaked
    actor itself is still killed by running into such an actor.) *)
Theorem cloaked_never_kills (e : Env) (a : string) (A A' : Snake.t) :
  NoDup (Dict.keys (GameData.snakes (game e))) ->
  Dict.get a (GameData.snakes (game e)) = Some A ->
  Snake.alive A = true ->
  Dict.get a
    (GameData.snakes (game (snd (SnakeGameLogic._check_collisions e))))
  = Some A' ->
  Snake.alive A' = false ->
  death_cause (game e) a A.
Proof.
  intros Hnd HA Halive HA' Hdead.
  unfold SnakeGameLogic._check_collisions in HA'. rewrite bind_gets in HA'.
  destruct (collisions_for_each e (Dict.keys (GameData.snakes (game e))) Hnd e
              (collisions_refl e)) as (_ & _ & _ & He).
  destruct (entries_get _ _ _ _ _ He HA) as (A2 & HA2 & _ & _ & _ & Hcause).
  rewrite HA' in HA2. injection HA2 as <-. auto.
Qed.

Lemma cloaked_never_kills_witness :
  death_cause (game cloak_env) ann_id cloaked_ann.
Proof.
  apply (cloaked_never_kills cloak_env ann_id cloaked_ann
           (Snake.set_alive false cloaked_ann)).
  - repeat constructor; cbn; intuition discriminate.
  - reflexivity.
  - reflexivity.
  - vm_compute. reflexivity.
  - reflexivity.
Defined.

(** ** The password gate *)

Lemma update_absent {V} (k : string) (f : V -> V) (d : Dict.t V) :
  Dict.mem k d = false -> Dict.update k f d = d.
Proof.
  unfold Dict.mem, Dict.update.
  induction d as [|[k0 v0] d IH]; cbn; [reflexivity|].
  destruct (String.eqb k k0) eqn:E; [discriminate|].
  intros H. now rewrite IH.
Qed.

(** The error reply followed by the graceful close, on a session whose
    socket is connected. *)
Lemma reject_and_close (srv : GameServer.t) (temp_id message : string)
  (client : Client.t) :
  Dict.get temp_id (GameServer.clients srv) = Some client ->
  Socket.connected (Client.socket client) = true ->
  exists srv',
    (GameServer._send_to_client temp_id (MsgError message) ;;
     GameServer._remove_client temp_id true) srv = (Return tt, srv') /\
    GameServer.io srv'
    = GameServer.io srv
      ++ [IoSend (Socket.peer (Client.socket client)) (MsgError message);
          IoShutdownWr (Socket.peer (Client.socket client));
          IoClose (Socket.peer (Client.socket client))] /\
    GameServer.clients srv' = Dict.del temp_id (GameServer.clients srv) /\
    GameData.snakes (GameServer.the_game srv')
    = Dict.update temp_id (Snake.set_alive false)
        (GameData.snakes (GameServer.the_game srv)).
Proof.
  intros Hc Hconn.
  unfold GameServer._send_to_client, GameServer._remove_client,
    GameServer.log, GameServer.time_sleep, GameServer.logic, modify_snake,
    modify_game, when, bind, get, modify, ret.
  cbn. rewrite Hc, Hconn. cbn. rewrite Hc, Hconn. cbn.
  destruct (Dict.mem temp_id (GameServer.udp_clients srv)); cbn;
    unfold GameServer.the_game; cbn;
    destruct (Dict.mem temp_id (GameData.snakes (game (GameServer.env srv))))
      eqn:Hm; cbn;
    eexists; (split; [reflexivity|]); cbn;
    rewrite <- !app_assoc; cbn; repeat split;
    try (symmetry; now apply update_absent).
Qed.

Lemma handle_join_bad_password (srv : GameServer.t) (temp_id : string)
  (msg : Dict.t json) :
  GameServer.requires_password srv = true ->
  bad_password (GameServer.password srv) msg = true ->
  GameServer._handle_join temp_id msg srv
  = (GameServer._send_to_client temp_id (MsgError (password_error msg)) ;;
     GameServer._remove_client temp_id true) srv.
Proof.
  intros Hreq Hbad. unfold GameServer._handle_join. rewrite bind_get, Hreq.
  unfold bad_password, password_error in *.
  destruct (msg_get "password" (JStr EmptyString) msg); try reflexivity.
  destruct (Z.of_nat (String.length s) >? 50); [reflexivity|].
  cbn in Hbad. rewrite Hbad. reflexivity.
Qed.

Lemma init_requires_password (port : Z) (mode speed : string)
  (walls_enabled : bool) (width height : Z) (password : option string)
  (generated : string) (e : Env) (now : Z) :
  GameServer.requires_password
    (GameServer.__init__ "0.0.0.0" port mode speed walls_enabled width height
       password generated e now) = true.
Proof. reflexivity. Qed.

(** C2, as stated, fails on [game.snakes is unchanged]: Ann has joined and
    her snake is alive; a join with a wrong password on her connection gets
    the error reply and the close, and her snake is marked dead. *)
Lemma wrong_password_marks_own_snake_dead :
  GameServer.requires_password (sample_server GameMode_CLASSIC) = true /\
  bad_password (GameServer.password (sample_server GameMode_CLASSIC)) wrong_join
  = true /\
  fst (GameServer._handle_join ann_id wrong_join (sample_server GameMode_CLASSIC))
  = Return tt /\
  GameServer.io
    (snd (GameServer._handle_join ann_id wrong_join
            (sample_server GameMode_CLASSIC)))
  = [IoSend ("10.0.0.7", 40001) (MsgError "Invalid password");
     IoShutdownWr ("10.0.0.7", 40001); IoClose ("10.0.0.7", 40001)] /\
  GameData.snakes
    (GameServer.the_game
       (snd (GameServer._handle_join ann_id wrong_join
               (sample_server GameMode_CLASSIC))))
  <> GameData.snakes (GameServer.the_game (sample_server GameMode_CLASSIC)).
Proof.
  split; [reflexivity|]. split; [reflexivity|]. split; [reflexivity|].
  split; [reflexivity|]. vm_compute. discriminate.
Qed.

(** C2, amended. A server bound to 0.0.0.0 requires a password; there, a
    join whose password field is not a string, is longer than 50
    characters, or differs from the server password, arriving on a
    connected session, gets an ['error'] reply on the reliable channel
    followed by the graceful close of that connection, the session is
    removed, and no actor is added to the world: [game.snakes] keeps its
    keys and its snakes, except that the snake of this very session, if it
    has one, is marked dead. *)
Theorem bad_password_join_rejected (srv : GameServer.t) (temp_id : string)
  (msg : Dict.t json) (client : Client.t) :
  GameServer.host srv = "0.0.0.0" ->
  GameServer.requires_password srv = negb (is_private_ip (GameServer.host srv)) ->
  Dict.get temp_id (GameServer.clients srv) = Some client ->
  Socket.connected (Client.socket client) = true ->
  bad_password (GameServer.password srv) msg = true ->
  fst (GameServer._handle_join temp_id msg srv) = Return tt /\
  GameServer.io (snd (GameServer._handle_join temp_id msg srv))
  = GameServer.io srv
    ++ [IoSend (Socket.peer (Client.socket client))
          (MsgError (password_error msg));
        IoShutdownWr (Socket.peer (Client.socket client));
        IoClose (Socket.peer (Client.socket client))] /\
  GameServer.clients (snd (GameServer._handle_join temp_id msg srv))
  = Dict.del temp_id (GameServer.clients srv) /\
  Dict.keys (GameData.snakes
               (GameServer.the_game
                  (snd (GameServer._handle_join temp_id msg srv))))
  = Dict.keys (GameData.snakes (GameServer.the_game srv)) /\
  GameData.snakes
    (GameServer.the_game (snd (GameServer._handle_join temp_id msg srv)))
  = Dict.update temp_id (Snake.set_alive false)
      (GameData.snakes (GameServer.the_game srv)).
Proof.
  intros Hhost Hreq Hc Hconn Hbad.
  rewrite Hhost in Hreq. change (negb (is_private_ip "0.0.0.0")) with true in Hreq.
  rewrite (handle_join_bad_password srv temp_id msg Hreq Hbad).
  destruct (reject_and_close srv temp_id (password_error msg) client Hc Hconn)
    as (srv' & Hrun & Hio & Hcl & Hsn).
  rewrite Hrun. cbn [fst snd]. repeat split; try assumption.
  rewrite Hsn. apply keys_update.
Qed.

Lemma bad_password_join_rejected_witness :
  fst (GameServer._handle_join bob_id wrong_join (sample_server GameMode_CLASSIC))
  = Return tt /\
  GameServer.io
    (snd (GameServer._handle_join bob_id wrong_join
            (sample_server GameMode_CLASSIC)))
  = GameServer.io (sample_server GameMode_CLASSIC)
    ++ [IoSend ("10.0.0.8", 40002) (MsgError (password_error wrong_join));
        IoShutdownWr ("10.0.0.8", 40002);
        IoClose ("10.0.0.8", 40002)] /\
  GameServer.clients
    (snd (GameServer._handle_join bob_id wrong_join
            (sample_server GameMode_CLASSIC)))
  = Dict.del bob_id (GameServer.clients (sample_server GameMode_CLASSIC)) /\
  Dict.keys
    (GameData.snakes
       (GameServer.the_game
          (snd (GameServer._handle_join bob_id wrong_join
                  (sample_server GameMode_CLASSIC)))))
  = Dict.keys
      (GameData.snakes (GameServer.the_game (sample_server GameMode_CLASSIC))) /\
  GameData.snakes
    (GameServer.the_game
       (snd (GameServer._handle_join bob_id wrong_join
               (sample_server GameMode_CLASSIC))))
  = Dict.update bob_id (Snake.set_alive false)
      (GameData.snakes (GameServer.the_game (sample_server GameMode_CLASSIC))).
Proof.
  apply (bad_password_join_rejected (sample_server GameMode_CLASSIC) bob_id
           wrong_join (sample_client "10.0.0.8" 40002 "Bob"));
    reflexivity.
Defined.

(** ** Restart *)

(** Whatever the state of the server, [_restart_game] stops at the read of
    [self.no_walls]: the game has been replaced by a fresh one, nobody has
    been re-added, and the queued inputs are still there. *)
Lemma restart_game_raises (srv : GameServer.t) :
  fst (GameServer._restart_game srv) = Raise AttributeError /\
  GameServer.the_game (snd (GameServer._restart_game srv))
  = GameData.set_mode (GameServer.mode srv) GameData.default /\
  GameServer.pending_inputs (snd (GameServer._restart_game srv))
  = GameServer.pending_inputs srv /\
  GameServer.clients (snd (GameServer._restart_game srv))
  = GameServer.clients srv.
Proof. repeat split. Qed.

(** C7. The code at the failing input: a restart request handled while the
    game is finished, with Ann and Bob connected and joined and one input
    queued. Handling raises [AttributeError]; afterwards the world is a
    fresh one without any actor, and the queued input is still queued. *)
Theorem restart_in_finished_state_raises :
  GameData.state (GameServer.the_game finished_server) = GameState_FINISHED /\
  map (fun kv => Client.joined (snd kv)) (GameServer.clients finished_server)
  = [true; true] /\
  fst (GameServer._handle_message ann_id restart_message finished_server)
  = Raise AttributeError /\
  GameData.snakes
    (GameServer.the_game
       (snd (GameServer._handle_message ann_id restart_message finished_server)))
  = [] /\
  GameServer.pending_inputs
    (snd (GameServer._handle_message ann_id restart_message finished_server))
  = [(ann_id, "UP")].
Proof. repeat split. Qed.

(** ** Inputs *)

(** C1. The code at the failing input: an ['input'] message arrives on
    Ann's connection and claims Bob's identity. It is not dropped: the
    action is queued under Bob's key, where it replaces Bob's own request,
    and the next drain of the queue turns Bob's snake. *)
Theorem spoofed_input_is_queued :
  GameServer.pending_inputs (sample_server GameMode_CLASSIC)
  = [(bob_id, "FIRE")] /\
  fst (GameServer._handle_message ann_id spoofed_input
         (sample_server GameMode_CLASSIC)) = Return tt /\
  GameServer.pending_inputs
    (snd (GameServer._handle_message ann_id spoofed_input
            (sample_server GameMode_CLASSIC)))
  = [(bob_id, "LEFT")] /\
  option_map Snake.direction
    (Dict.get bob_id
       (GameData.snakes (GameServer.the_game (sample_server GameMode_CLASSIC))))
  = Some DOWN /\
  option_map Snake.direction
    (Dict.get bob_id
       (GameData.snakes
          (GameServer.the_game
             (snd (GameServer._process_inputs
                     (snd (GameServer._handle_message ann_id spoofed_input
                             (sample_server GameMode_CLASSIC)))))))) = Some LEFT.
Proof. repeat split. Qed.

Lemma check_rate_limit_state (client_id : string) (srv : GameServer.t) :
  GameServer.pending_inputs (snd (GameServer._check_rate_limit client_id srv))
  = GameServer.pending_inputs srv /\
  GameServer.env (snd (GameServer._check_rate_limit client_id srv))
  = GameServer.env srv /\
  GameServer.clients (snd (GameServer._check_rate_limit client_id srv))
  = GameServer.clients srv /\
  GameServer.requires_password (snd (GameServer._check_rate_limit client_id srv))
  = GameServer.requires_password srv.
Proof.
  unfold GameServer._check_rate_limit, GameServer.time_time, when, bind, gets,
    get, modify, ret, raise.
  cbn.
  destruct (negb (Dict.mem client_id (GameServer.client_message_counts srv)));
    cbn;
    match goal with
    | |- context [match Dict.get ?k ?d with _ => _ end] =>
        destruct (Dict.get k d) as [stamps|]; cbn; [|auto]
    end;
    match goal with
    | |- context [if ?c then _ else _] => destruct c; cbn; auto
    end.
Qed.

(** What the impersonation check does drop: an input that claims an
    identity which is neither the session's own nor that of any connected
    session leaves the queue and the world as they were. *)
Lemma input_with_unknown_identity_dropped (srv : GameServer.t)
  (temp_id claimed : string) (msg : Dict.t json) :
  Dict.get "type" msg = Some (JStr "input") ->
  Dict.get "player_id" msg = Some (JStr claimed) ->
  claimed <> temp_id ->
  Dict.mem claimed (GameServer.clients srv) = false ->
  GameServer.pending_inputs
    (snd (GameServer._handle_message temp_id (JDict msg) srv))
  = GameServer.pending_inputs srv /\
  GameServer.env (snd (GameServer._handle_message temp_id (JDict msg) srv))
  = GameServer.env srv.
Proof.
  intros Htype Hid Hne Hmem.
  set (P := fun s : GameServer.t =>
              GameServer.pending_inputs s = GameServer.pending_inputs srv /\
              GameServer.env s = GameServer.env srv).
  change (P (snd (GameServer._handle_message temp_id (JDict msg) srv))).
  destruct (check_rate_limit_state temp_id srv) as (Hp & He & Hc & Hr).
  unfold GameServer._handle_message. unfold bind at 1.
  destruct (GameServer._check_rate_limit temp_id srv) as [[allowed|x] s1];
    cbn [fst snd] in *; [|split; assumption].
  assert (HP : P s1) by (split; assumption).
  destruct allowed; cbn [negb]; [|exact HP].
  rewrite Htype. cbn. rewrite Hc.
  destruct (Dict.get temp_id (GameServer.clients srv)) as [client|];
    [|exact HP].
  match goal with
  | |- context [if ?c then _ else _] => destruct c; [exact HP|]
  end.
  unfold msg_get. rewrite Hid.
  destruct (Dict.get "action" msg) as [[| | | |action| |]|]; try exact HP.
  match goal with
  | |- context [if ?c then _ else _] => destruct c; [exact HP|]
  end.
  apply String.eqb_neq in Hne. rewrite Hne, Hmem. exact HP.
Qed.

(** ** Joining keeps the invariant of the tick *)

Lemma Forall_dict_set {V} (P : V -> Prop) (k : string) (v : V) (d : Dict.t V) :
  P v -> Forall (fun kv => P (snd kv)) d ->
  Forall (fun kv => P (snd kv)) (Dict.set k v d).
Proof.
  intros Hv. induction d as [|[k0 v0] d IH]; cbn; intros HF.
  - constructor; auto.
  - inversion HF as [|? ? H0 Hd]. subst.
    destruct (String.eqb k k0); constructor; auto.
Qed.

Lemma initial_body_length (d : Direction) (start : Cell) :
  List.length (SnakeGameLogic.initial_body d start) = 3%nat.
Proof. destruct start, d; reflexivity. Qed.

(** A new actor starts with three segments, and admitting it leaves every
    other body as it was: the invariant of [bodies_nonempty_after_tick]
    holds from the empty world on. *)
Lemma add_player_bodies_nonempty (player_id player_name : string) (e : Env) :
  all_bodies_nonempty (game e) ->
  all_bodies_nonempty
    (game (snd (SnakeGameLogic._add_player_to_game player_id player_name e))).
Proof.
  set (R := fun e e' : Env =>
              all_bodies_nonempty (game e) -> all_bodies_nonempty (game e')).
  assert (Rrefl : forall e, R e e) by (intros ? H; exact H).
  assert (Rtrans : forall a b c, R a b -> R b c -> R a c)
    by (intros a b c H1 H2 H; apply H2, H1, H).
  assert (Rquiet : forall A (m : M Env A), respects quiet_rel m -> respects R m).
  { intros A m Hm e0 H. destruct (Hm e0) as (Hs & _ & _).
    unfold all_bodies_nonempty in *. now rewrite Hs. }
  assert (Hstart : forall n c, respects quiet_rel (SnakeGameLogic.find_start n c)).
  { induction n as [|n IH]; intros c; cbn [SnakeGameLogic.find_start].
    - apply respects_ret, quiet_refl.
    - respects_steps
        ltac:(idtac; match goal with
              | |- respects _ (random_randint _ _) => apply quiet_random_randint
              | |- respects _ (SnakeGameLogic.find_start _ _) => apply IH
              end)
        quiet_refl quiet_trans. }
  change (R e (snd (SnakeGameLogic._add_player_to_game player_id player_name e))).
  revert e. change (respects R (SnakeGameLogic._add_player_to_game player_id player_name)).
  unfold SnakeGameLogic._add_player_to_game, random_choice.
  respects_steps
    ltac:(idtac; match goal with
          | |- respects _ random_draw => apply Rquiet, quiet_random_draw
          | |- respects _ (SnakeGameLogic.find_start _ _) => apply Rquiet, Hstart
          | |- respects _ SnakeGameLogic._spawn_food =>
              apply Rquiet, quiet_spawn_food
          | |- respects _ (modify_game (GameData.set_next_player_id _)) =>
              apply Rquiet, quiet_modify_game; reflexivity
          end)
    Rrefl Rtrans.
  intros e0. unfold R, all_bodies_nonempty. cbn. intros H.
  apply (Forall_dict_set (fun s => (1 <= List.length (Snake.body s))%nat)).
  - cbn. rewrite initial_body_length. lia.
  - exact H.
Qed.

(** ** Small checks of the address and name rules *)

Example private_ip_lan : is_private_ip "192.168.1.20" = true.
Proof. reflexivity. Qed.

Example private_ip_loopback : is_private_ip "127.0.0.1" = true.
Proof. reflexivity. Qed.

Example private_ip_any_interface : is_private_ip "0.0.0.0" = false.
Proof. reflexivity. Qed.

Example private_ip_public : is_private_ip "203.0.113.9" = false.
Proof. reflexivity. Qed.

Example sanitize_name_trims :
  sanitize_name "  Ann of the long long name  " = "Ann of the lon".
Proof. reflexivity. Qed.

(** * Further properties of the code *)

(** ** The codec, beyond the frames that parse *)

Lemma int_from_bytes_big_nonneg (bs : list byte) : 0 <= int_from_bytes_big bs.
Proof.
  unfold int_from_bytes_big.
  assert (H : forall acc, 0 <= acc ->
            0 <= fold_left (fun a b => a * 256 + Z_of_byte b) bs acc).
  { induction bs as [|b bs IH]; intros acc Hacc; cbn; [assumption|].
    apply IH. pose proof (Z_of_byte_range b). lia. }
  apply H. lia.
Qed.

(** X2. When the decoder returns, it has only dropped a prefix of the
    buffer, and a call that returns a message has dropped at least the
    four bytes of a length prefix: draining a buffer frame by frame
    terminates. It raises in one situation only, a complete frame within
    the size limit on whose payload [json.loads] raises an exception that
    the [except] clause does not name, and it raises that exception. *)
Theorem decode_consumes_prefix (loads : list byte -> loaded)
  (buffer : list byte) :
  match NetworkProtocol.decode_from_buffer loads buffer with
  | Return (msg, rest) =>
      exists consumed,
        buffer = consumed ++ rest /\
        (msg <> None -> 4 <= len consumed)
  | Raise e =>
      4 <= len buffer /\
      int_from_bytes_big (bytes_slice 0 4 buffer) <= MAX_MESSAGE_SIZE /\
      4 + int_from_bytes_big (bytes_slice 0 4 buffer) <= len buffer /\
      loads (bytes_slice 4 (4 + int_from_bytes_big (bytes_slice 0 4 buffer))
               buffer) = LoadRaised e
  end.
Proof.
  unfold NetworkProtocol.decode_from_buffer.
  destruct (len buffer <? 4) eqn:E4.
  - exists []. split; [reflexivity|]. congruence.
  - apply Z.ltb_ge in E4.
    set (length := int_from_bytes_big (bytes_slice 0 4 buffer)).
    pose proof (int_from_bytes_big_nonneg (bytes_slice 0 4 buffer)) as Hnn.
    fold length in Hnn.
    destruct (length >? MAX_MESSAGE_SIZE) eqn:Eg.
    + exists (firstn 4 buffer). split.
      * unfold bytes_from. change (Z.to_nat 4) with 4%nat.
        now rewrite firstn_skipn.
      * congruence.
    + destruct (len buffer <? 4 + length) eqn:Ec.
      * exists []. split; [reflexivity|]. congruence.
      * apply Z.ltb_ge in Ec.
        assert (Hsplit : buffer = firstn (Z.to_nat (4 + length)) buffer
                                  ++ bytes_from (4 + length) buffer)
          by (unfold bytes_from; now rewrite firstn_skipn).
        assert (Hlen : 4 <= len (firstn (Z.to_nat (4 + length)) buffer)).
        { unfold len in *. rewrite length_firstn. lia. }
        destruct (loads (bytes_slice 4 (4 + length) buffer)) eqn:El.
        -- exists (firstn (Z.to_nat (4 + length)) buffer). auto.
        -- exists (firstn (Z.to_nat (4 + length)) buffer). auto.
        -- repeat split; try assumption.
           destruct (Z.gtb_spec length MAX_MESSAGE_SIZE); [discriminate|lia].
Qed.

(** X3. [encode] writes the length of the payload as a four-byte
    big-endian prefix in front of the payload, and fails (with
    [OverflowError]) exactly on payloads of [2^32] bytes or more. *)
Theorem encode_frame_shape (dumps : json -> list byte) (message : json) :
  (len (dumps message) < 4294967296 ->
   exists prefix,
     NetworkProtocol.encode dumps message = Some (prefix ++ dumps message) /\
     List.length prefix = 4%nat /\
     int_from_bytes_big prefix = len (dumps message)) /\
  (4294967296 <= len (dumps message) ->
   NetworkProtocol.encode dumps message = None).
Proof.
  unfold NetworkProtocol.encode. split; intros H.
  - destruct (int_to_bytes4_big_some (len (dumps message)))
      as (p & Hp & Hp4 & Hfrom).
    { pose proof (len_nonneg (dumps message)). lia. }
    rewrite Hp. exists p. auto.
  - unfold int_to_bytes4_big.
    replace (len (dumps message) <? 4294967296) with false
      by (symmetry; apply Z.ltb_ge; lia).
    now rewrite andb_false_r.
Qed.

Lemma encode_frame_shape_witness :
  exists prefix,
    NetworkProtocol.encode RefJson.dumps sample_input
    = Some (prefix ++ RefJson.dumps sample_input) /\
    List.length prefix = 4%nat /\
    int_from_bytes_big prefix = len (RefJson.dumps sample_input).
Proof.
  apply (proj1 (encode_frame_shape RefJson.dumps sample_input)).
  by_computation.
Defined.

(** ** Reading a client *)


Lemma read_loop_step (fuel : nat) (loads : list byte -> loaded)
  (player_id : string) (buffer : list byte) :
  GameServer.read_loop (S fuel) loads player_id buffer =
  match NetworkProtocol.decode_from_buffer loads buffer with
  | Raise e => raise e
  | Return (msg, rest) =>
      GameServer.modify_client player_id (Client.set_buffer rest) ;;
      match msg with
      | None => ret tt
      | Some msg => GameServer.handle_safely player_id msg ;;
                    GameServer.read_loop fuel loads player_id rest
      end
  end.
Proof. reflexivity. Qed.











(** X1. A complete frame whose payload [json.loads] rejects with
    [JSONDecodeError] or [UnicodeDecodeError] is dropped whole: the decoder
    returns no message and the bytes after the frame. The read loop takes
    the missing message for the end of the input: a read that meets such a
    frame first leaves the bytes after it as the buffer of the session and
    does nothing else, so the frames behind it are not handled before more
    data has arrived. *)
Theorem corrupt_frame_skipped (loads : list byte -> loaded)
  (prefix payload rest : list byte) :
  List.length prefix = 4%nat ->
  int_from_bytes_big prefix = len payload ->
  len payload <= MAX_MESSAGE_SIZE ->
  loads payload = Malformed ->
  NetworkProtocol.decode_from_buffer loads (prefix ++ payload ++ rest)
  = Return (None, rest) /\
  (forall player_id client data srv,
      Dict.get player_id (GameServer.clients srv) = Some client ->
      data <> [] ->
      Client.buffer client ++ data = prefix ++ payload ++ rest ->
      GameServer.read_client loads player_id data srv
      = (GameServer.modify_client player_id
           (Client.set_buffer (prefix ++ payload ++ rest)) ;;
         GameServer.modify_client player_id (Client.set_buffer rest)) srv).
Proof.
  intros Hp Hlen Hmax Hload.
  assert (D : NetworkProtocol.decode_from_buffer loads
                (prefix ++ payload ++ rest) = Return (None, rest))
    by (rewrite decode_frame by assumption; now rewrite Hload).
  split; [exact D|].
  intros player_id client data srv Hc Hdata Hstream.
  unfold GameServer.read_client. rewrite bind_get, Hc.
  destruct data as [|b data]; [congruence|].
  rewrite Hstream, read_loop_step, D. reflexivity.
Qed.

Lemma corrupt_frame_skipped_witness :
  NetworkProtocol.decode_from_buffer RefJson.loads
    ([x00; x00; x00; x02] ++ [x7b; x3a] ++ frame_of start_message)
  = Return (None, frame_of start_message) /\
  GameServer.read_client RefJson.loads ann_id
    (corrupt_frame ++ frame_of start_message) (sample_server GameMode_CLASSIC)
  = (GameServer.modify_client ann_id
       (Client.set_buffer
          ([x00; x00; x00; x02] ++ [x7b; x3a] ++ frame_of start_message)) ;;
     GameServer.modify_client ann_id
       (Client.set_buffer (frame_of start_message)))
      (sample_server GameMode_CLASSIC).
Proof.
  destruct (corrupt_frame_skipped RefJson.loads [x00; x00; x00; x02]
              [x7b; x3a] (frame_of start_message)
              ltac:(reflexivity) ltac:(reflexivity)
              ltac:(by_computation) ltac:(by_computation)) as [H1 H2].
  split; [exact H1|].
  apply (H2 ann_id (sample_client "10.0.0.7" 40001 "Ann")).
  - reflexivity.
  - vm_compute. discriminate.
  - reflexivity.
Defined.

Lemma remove_client_returns (player_id : string) (graceful : bool)
  (srv : GameServer.t) :
  fst (GameServer._remove_client player_id graceful srv) = Return tt.
Proof.
  unfold GameServer._remove_client, GameServer.log, GameServer.time_sleep,
    GameServer.logic, modify_snake, modify_game, when, bind, get, modify, ret.
  cbn.
  destruct (Dict.get player_id (GameServer.clients srv)) as [client|]; cbn.
  - destruct graceful; cbn;
      [destruct (Socket.connected (Client.socket client)); cbn|];
      repeat match goal with
             | |- context [if ?c then _ else _] => destruct c; cbn
             end; reflexivity.
  - repeat match goal with
           | |- context [if ?c then _ else _] => destruct c; cbn
           end; reflexivity.
Qed.



(** ** Removing a session *)

Lemma del_absent {V} (k : string) (d : Dict.t V) :
  Dict.mem k d = false -> Dict.del k d = d.
Proof.
  unfold Dict.mem. induction d as [|[k0 v0] d IH]; cbn; [reflexivity|].
  destruct (String.eqb k k0); [discriminate|]. intros H. now rewrite IH.
Qed.

Lemma get_del_other {V} (k k' : string) (d : Dict.t V) :
  k <> k' -> Dict.get k (Dict.del k' d) = Dict.get k d.
Proof.
  intros Hne. induction d as [|[k0 v0] d IH]; cbn; [reflexivity|].
  destruct (String.eqb k' k0) eqn:E.
  - apply String.eqb_eq in E. subst k0.
    apply String.eqb_neq in Hne. now rewrite Hne.
  - cbn. destruct (String.eqb k k0); [reflexivity|exact IH].
Qed.

Lemma get_del_same {V} (k : string) (d : Dict.t V) :
  NoDup (Dict.keys d) -> Dict.get k (Dict.del k d) = None.
Proof.
  induction d as [|[k0 v0] d IH]; cbn; intros Hnd; [reflexivity|].
  inversion Hnd as [|? ? Hnotin Hnd']. subst.
  destruct (String.eqb k k0) eqn:E.
  - apply String.eqb_eq in E. subst k0.
    destruct (Dict.get k d) as [v|] eqn:G; [|reflexivity].
    exfalso. apply Hnotin. apply get_In in G.
    change k with (fst (k, v)). now apply in_map.
  - cbn. rewrite E. now apply IH.
Qed.

Lemma remove_client_state (player_id : string) (graceful : bool)
  (srv : GameServer.t) :
  GameServer.clients (snd (GameServer._remove_client player_id graceful srv))
  = Dict.del player_id (GameServer.clients srv) /\
  GameServer.udp_clients (snd (GameServer._remove_client player_id graceful srv))
  = Dict.del player_id (GameServer.udp_clients srv) /\
  GameData.snakes
    (GameServer.the_game (snd (GameServer._remove_client player_id graceful srv)))
  = Dict.update player_id (Snake.set_alive false)
      (GameData.snakes (GameServer.the_game srv)) /\
  GameServer.pending_inputs
    (snd (GameServer._remove_client player_id graceful srv))
  = GameServer.pending_inputs srv.
Proof.
  unfold GameServer._remove_client, GameServer.log, GameServer.time_sleep,
    GameServer.logic, modify_snake, modify_game, when, bind, get, modify, ret,
    GameServer.the_game.
  cbn.
  destruct (Dict.get player_id (GameServer.clients srv)) as [client|] eqn:Hc;
    cbn.
  - destruct graceful; cbn;
      [destruct (Socket.connected (Client.socket client)); cbn|];
      destruct (Dict.mem player_id (GameServer.udp_clients srv)) eqn:Hu; cbn;
      destruct (Dict.mem player_id (GameData.snakes (game (GameServer.env srv))))
        eqn:Hs; cbn;
      repeat split;
      try (symmetry; now apply del_absent);
      try (symmetry; now apply update_absent).
  - assert (Hm : Dict.mem player_id (GameServer.clients srv) = false)
      by (unfold Dict.mem; now rewrite Hc).
    destruct (Dict.mem player_id (GameServer.udp_clients srv)) eqn:Hu; cbn;
      destruct (Dict.mem player_id (GameData.snakes (game (GameServer.env srv))))
        eqn:Hs; cbn;
      repeat split;
      try (symmetry; now apply del_absent);
      try (symmetry; now apply update_absent).
Qed.

(** X6. Removing a session (on a closed connection, a failed write or a
    rejected password) takes it out of the registry and out of the
    datagram address table, and marks its actor dead without deleting it:
    every key of [game.snakes] stays, the other actors are untouched, and
    the queued inputs stay as they were. A [recv] that returns no data is
    such a removal. *)
Theorem remove_client_keeps_corpse (player_id : string) (graceful : bool)
  (srv : GameServer.t) :
  NoDup (Dict.keys (GameServer.clients srv)) ->
  NoDup (Dict.keys (GameServer.udp_clients srv)) ->
  Dict.get player_id
    (GameServer.clients (snd (GameServer._remove_client player_id graceful srv)))
  = None /\
  Dict.get player_id
    (GameServer.udp_clients
       (snd (GameServer._remove_client player_id graceful srv)))
  = None /\
  Dict.keys
    (GameData.snakes
       (GameServer.the_game
          (snd (GameServer._remove_client player_id graceful srv))))
  = Dict.keys (GameData.snakes (GameServer.the_game srv)) /\
  (forall k,
      Dict.get k
        (GameData.snakes
           (GameServer.the_game
              (snd (GameServer._remove_client player_id graceful srv))))
      = if String.eqb player_id k
        then option_map (Snake.set_alive false)
               (Dict.get k (GameData.snakes (GameServer.the_game srv)))
        else Dict.get k (GameData.snakes (GameServer.the_game srv))) /\
  GameServer.pending_inputs
    (snd (GameServer._remove_client player_id graceful srv))
  = GameServer.pending_inputs srv /\
  (forall loads client,
      Dict.get player_id (GameServer.clients srv) = Some client ->
      GameServer.read_client loads player_id [] srv
      = GameServer._remove_client player_id false srv).
Proof.
  intros Hc Hu.
  destruct (remove_client_state player_id graceful srv) as (H1 & H2 & H3 & H4).
  rewrite H1, H2, H3, H4. repeat split.
  - now apply get_del_same.
  - now apply get_del_same.
  - apply keys_update.
  - intros k. apply get_update.
  - intros loads client Hget. unfold GameServer.read_client.
    rewrite bind_get, Hget. reflexivity.
Qed.

Lemma remove_client_keeps_corpse_witness :
  Dict.get ann_id
    (GameServer.clients
       (snd (GameServer._remove_client ann_id false
               (sample_server GameMode_CLASSIC))))
  = None /\
  option_map Snake.alive
    (Dict.get ann_id
       (GameData.snakes
          (GameServer.the_game
             (snd (GameServer._remove_client ann_id false
                     (sample_server GameMode_CLASSIC))))))
  = Some false.
Proof.
  destruct (remove_client_keeps_corpse ann_id false
              (sample_server GameMode_CLASSIC)) as (H1 & _ & _ & H4 & _).
  - repeat constructor; cbn; intuition discriminate.
  - constructor.
  - split; [exact H1|]. rewrite H4. reflexivity.
Defined.

(** ** Admission of connections *)

Lemma len_dict_set {V} (k : string) (v : V) (d : Dict.t V) :
  len d <= len (Dict.set k v d) <= len d + 1.
Proof.
  unfold len. induction d as [|[k0 v0] d IH]; cbn [Dict.set List.length].
  - lia.
  - destruct (String.eqb k k0); cbn [List.length]; lia.
Qed.

(** X7. Accepting a connection never takes the registry beyond
    [MAX_CONNECTIONS] sessions: with 50 or more registered, the newcomer
    gets the error ['Server full'] and is closed, and the registry is left
    alone; below that, it is registered under the identity the server
    derives from its address, with an empty buffer, not joined and not
    authenticated. *)
Theorem accept_respects_limit (client_socket : Socket.t) (srv : GameServer.t) :
  fst (GameServer._accept_connections client_socket srv) = Return tt /\
  (MAX_CONNECTIONS <= len (GameServer.clients srv) ->
   GameServer.clients (snd (GameServer._accept_connections client_socket srv))
   = GameServer.clients srv /\
   (Socket.connected client_socket = true ->
    GameServer.io (snd (GameServer._accept_connections client_socket srv))
    = GameServer.io srv
      ++ [IoSend (Socket.peer client_socket) (MsgError "Server full");
          IoClose (Socket.peer client_socket)])) /\
  (len (GameServer.clients srv) < MAX_CONNECTIONS ->
   GameServer.clients (snd (GameServer._accept_connections client_socket srv))
   = Dict.set (GameServer.temp_id_of (Socket.peer client_socket))
       (Client.mk client_socket [] "Unknown" (Socket.peer client_socket)
                  false false)
       (GameServer.clients srv) /\
   GameServer.io (snd (GameServer._accept_connections client_socket srv))
   = GameServer.io srv) /\
  (len (GameServer.clients srv) <= MAX_CONNECTIONS ->
   len (GameServer.clients
          (snd (GameServer._accept_connections client_socket srv)))
   <= MAX_CONNECTIONS) /\
  GameServer.env (snd (GameServer._accept_connections client_socket srv))
  = GameServer.env srv.
Proof.
  unfold GameServer._accept_connections, GameServer.log, when, bind, get,
    modify, ret.
  cbn.
  destruct (len (GameServer.clients srv) >=? MAX_CONNECTIONS) eqn:E.
  - assert (Hge : MAX_CONNECTIONS <= len (GameServer.clients srv))
      by (rewrite Z.geb_leb in E; apply Z.leb_le in E; exact E).
    destruct (Socket.connected client_socket); cbn;
      repeat split; intros; try congruence; try lia;
      try (rewrite <- app_assoc; reflexivity).
  - assert (Hlt : len (GameServer.clients srv) < MAX_CONNECTIONS)
      by (rewrite Z.geb_leb in E; apply Z.leb_gt in E; exact E).
    cbn. repeat split; intros; try lia.
    eapply Z.le_trans; [apply len_dict_set | lia].
Qed.

Lemma accept_respects_limit_witness :
  GameServer.clients
    (snd (GameServer._accept_connections
            (Socket.mk ("10.0.0.9", 40003) true)
            (sample_server GameMode_CLASSIC)))
  = Dict.set "temp_10.0.0.9_40003"
      (Client.mk (Socket.mk ("10.0.0.9", 40003) true) [] "Unknown"
                 ("10.0.0.9", 40003) false false)
      (GameServer.clients (sample_server GameMode_CLASSIC)).
Proof.
  destruct (accept_respects_limit (Socket.mk ("10.0.0.9", 40003) true)
              (sample_server GameMode_CLASSIC)) as (_ & _ & H & _).
  apply H. by_computation.
Defined.

(** ** The rate limiter *)

Lemma get_set {V} (k k' : string) (v : V) (d : Dict.t V) :
  Dict.get k (Dict.set k' v d)
  = if String.eqb k' k then Some v else Dict.get k d.
Proof.
  induction d as [|[k0 v0] d IH]; cbn.
  - rewrite (String.eqb_sym k k'). reflexivity.
  - destruct (String.eqb k' k0) eqn:E0; cbn.
    + apply String.eqb_eq in E0. subst k0.
      rewrite (String.eqb_sym k k').
      destruct (String.eqb k' k); reflexivity.
    + destruct (String.eqb k k0) eqn:E1.
      * apply String.eqb_eq in E1. subst k0. rewrite E0. reflexivity.
      * exact IH.
Qed.

Lemma check_rate_limit_spec (client_id : string) (srv : GameServer.t) :
  let r := GameServer._check_rate_limit client_id srv in
  let recent := recent_stamps client_id srv in
  fst r = Return (len recent <? MAX_MESSAGES_PER_SECOND) /\
  stamps_of client_id (snd r)
  = (if len recent <? MAX_MESSAGES_PER_SECOND
     then recent ++ [GameServer.clock srv] else recent) /\
  (forall other, other <> client_id ->
     Dict.get other (GameServer.client_message_counts (snd r))
     = Dict.get other (GameServer.client_message_counts srv)) /\
  same_but_counts srv (snd r).
Proof.
  unfold recent_stamps, stamps_of, same_but_counts.
  unfold GameServer._check_rate_limit, GameServer.time_time, when, bind, gets,
    get, modify, ret, raise, Dict.mem.
  cbn.
  destruct (Dict.get client_id (GameServer.client_message_counts srv))
    as [l|] eqn:G; cbn.
  - rewrite get_update, String.eqb_refl, G. cbn.
    rewrite Z.geb_leb.
    destruct (MAX_MESSAGES_PER_SECOND
              <=? len (filter (fun ts => GameServer.clock srv - ts <? 1000) l))
      eqn:E; cbn.
    + assert (E' : (len (filter (fun ts => GameServer.clock srv - ts <? 1000) l)
                    <? MAX_MESSAGES_PER_SECOND) = false)
        by (apply Z.ltb_ge; apply Z.leb_le in E; exact E).
      rewrite E'. rewrite get_update, String.eqb_refl, G. cbn.
      repeat split; auto.
      intros other Hne. rewrite get_update.
      destruct (String.eqb client_id other) eqn:Eo; [|reflexivity].
      apply String.eqb_eq in Eo. congruence.
    + assert (E' : (len (filter (fun ts => GameServer.clock srv - ts <? 1000) l)
                    <? MAX_MESSAGES_PER_SECOND) = true)
        by (apply Z.ltb_lt; apply Z.leb_gt in E; exact E).
      rewrite E'. rewrite !get_update, String.eqb_refl, G. cbn.
      repeat split; auto.
      intros other Hne. rewrite !get_update.
      destruct (String.eqb client_id other) eqn:Eo; [|reflexivity].
      apply String.eqb_eq in Eo. congruence.
  - rewrite get_update, String.eqb_refl, get_set, String.eqb_refl. cbn.
    rewrite !get_update, String.eqb_refl, get_set, String.eqb_refl. cbn.
    repeat split; auto.
    intros other Hne. rewrite !get_update, get_set.
    destruct (String.eqb client_id other) eqn:Eo; [|reflexivity].
    apply String.eqb_eq in Eo. congruence.
Qed.

Lemma len_filter_le {A} (f : A -> bool) (l : list A) :
  len (filter f l) <= len l.
Proof.
  unfold len. induction l as [|a l IH]; cbn [filter List.length]; [lia|].
  destruct (f a); cbn [List.length]; lia.
Qed.

(** X8. The rate limiter allows a message exactly when fewer than
    [MAX_MESSAGES_PER_SECOND] of the client's recorded messages lie within
    the last second.  Afterwards the client's record holds only stamps of
    the last second, the allowed message among them; a record of at most 30
    stamps stays at most 30 long, and no other client's record and nothing
    else of the server changes. *)
Theorem rate_limit_window (client_id : string) (srv : GameServer.t) :
  let r := GameServer._check_rate_limit client_id srv in
  (fst r = Return true \/ fst r = Return false) /\
  (fst r = Return true <->
   len (recent_stamps client_id srv) < MAX_MESSAGES_PER_SECOND) /\
  Forall (fun ts => GameServer.clock srv - ts < 1000)
         (stamps_of client_id (snd r)) /\
  (fst r = Return true ->
   In (GameServer.clock srv) (stamps_of client_id (snd r))) /\
  (fst r = Return false ->
   stamps_of client_id (snd r) = recent_stamps client_id srv) /\
  (len (stamps_of client_id srv) <= MAX_MESSAGES_PER_SECOND ->
   len (stamps_of client_id (snd r)) <= MAX_MESSAGES_PER_SECOND) /\
  (forall other, other <> client_id ->
     stamps_of other (snd r) = stamps_of other srv) /\
  same_but_counts srv (snd r).
Proof.
  cbv zeta.
  destruct (check_rate_limit_spec client_id srv) as (Hr & Hs & Ho & Hsame).
  cbv zeta in Hr, Hs, Ho, Hsame.
  rewrite Hr, Hs.
  assert (Hrecent : Forall (fun ts => GameServer.clock srv - ts < 1000)
                      (recent_stamps client_id srv)).
  { unfold recent_stamps. apply Forall_forall. intros ts Hin.
    apply filter_In in Hin. destruct Hin as [_ Hlt].
    apply Z.ltb_lt in Hlt. exact Hlt. }
  assert (Hle : len (recent_stamps client_id srv)
                <= len (stamps_of client_id srv))
    by (unfold recent_stamps; apply len_filter_le).
  destruct (len (recent_stamps client_id srv) <? MAX_MESSAGES_PER_SECOND)
    eqn:E.
  - apply Z.ltb_lt in E.
    repeat match goal with |- _ /\ _ => split end;
      auto; try discriminate.
    + split; auto.
    + apply Forall_app. split; [exact Hrecent|].
      constructor; [lia|constructor].
    + intros _. apply in_or_app. right. now left.
    + intros _. rewrite len_app. unfold len at 2. cbn. lia.
    + intros other Hne. unfold stamps_of. rewrite Ho; auto.
  - apply Z.ltb_ge in E.
    repeat match goal with |- _ /\ _ => split end;
      auto; try discriminate; try lia.
    + split; [discriminate | lia].
    + intros other Hne. unfold stamps_of. rewrite Ho; auto.
Qed.

(** ** The dispatcher *)

Lemma same_but_counts_refl (s : GameServer.t) : same_but_counts s s.
Proof. unfold same_but_counts. repeat split. Qed.

Lemma same_but_counts_trans (a b c : GameServer.t) :
  same_but_counts a b -> same_but_counts b c -> same_but_counts a c.
Proof.
  unfold same_but_counts.
  intros (H1 & H2 & H3 & H4 & H5 & H6 & H7 & H8)
         (K1 & K2 & K3 & K4 & K5 & K6 & K7 & K8).
  repeat split; congruence.
Qed.

(** The dispatcher, once the rate limiter has answered. *)
Ltac enter_handle_message temp_id srv :=
  let Hr := fresh "Hr" in
  let Hs := fresh "Hs" in
  let Ho := fresh "Ho" in
  let Hsame := fresh "Hsame" in
  let allowed := fresh "allowed" in
  let s1 := fresh "s1" in
  destruct (check_rate_limit_spec temp_id srv) as (Hr & Hs & Ho & Hsame);
  cbv zeta in Hr, Hs, Ho, Hsame;
  unfold GameServer._handle_message; unfold bind at 1;
  destruct (GameServer._check_rate_limit temp_id srv) as [[allowed|?] s1];
  cbn [fst snd] in *; [|discriminate Hr];
  injection Hr as Hr; subst allowed.

(** X9. A message of a client with [MAX_MESSAGES_PER_SECOND] or more
    messages in the last second is dropped whatever it holds: the call
    returns, the server is as before but for the limiter's table, and the
    dropped message is not counted. *)
Theorem rate_limited_message_dropped (temp_id : string) (msg : json)
  (srv : GameServer.t) :
  MAX_MESSAGES_PER_SECOND <= len (recent_stamps temp_id srv) ->
  dropped srv (GameServer._handle_message temp_id msg srv) /\
  stamps_of temp_id (snd (GameServer._handle_message temp_id msg srv))
  = recent_stamps temp_id srv.
Proof.
  intros Hfull.
  set (P := fun r : outcome unit * GameServer.t =>
              dropped srv r /\
              stamps_of temp_id (snd r) = recent_stamps temp_id srv).
  change (P (GameServer._handle_message temp_id msg srv)).
  enter_handle_message temp_id srv.
  apply Z.ltb_ge in Hfull. rewrite Hfull in *. cbn.
  split; [split; [reflexivity | exact Hsame] | exact Hs].
Qed.

Lemma rate_limited_message_dropped_witness :
  dropped flooded_server
    (GameServer._handle_message ann_id spoofed_input flooded_server).
Proof.
  apply (rate_limited_message_dropped ann_id spoofed_input flooded_server).
  by_computation.
Defined.




(** X11. An input is dropped when its ['action'] is not one of the six
    valid strings, or when the session is unknown or has not presented the
    password the server requires: nothing is queued and nothing but the
    limiter's table changes. *)
Theorem invalid_input_dropped (temp_id : string) (msg : Dict.t json)
  (srv : GameServer.t) :
  Dict.get "type" msg = Some (JStr "input") ->
  valid_action msg = false \/ input_permitted temp_id srv = false ->
  dropped srv (GameServer._handle_message temp_id (JDict msg) srv).
Proof.
  intros Hty Hbad.
  set (P := dropped srv).
  change (P (GameServer._handle_message temp_id (JDict msg) srv)).
  enter_handle_message temp_id srv.
  assert (HP : P (Return tt, s1)) by (split; [reflexivity | exact Hsame]).
  destruct (len (recent_stamps temp_id srv) <? MAX_MESSAGES_PER_SECOND);
    cbn [negb]; [|exact HP].
  rewrite Hty. cbn.
  destruct Hsame as (Hc & He & Hp & Hu & Hio & Hck & Hrp & Hpw).
  unfold input_permitted, valid_action in Hbad.
  rewrite Hc, Hrp.
  destruct (Dict.get temp_id (GameServer.clients srv)) as [client|];
    [|exact HP].
  destruct (GameServer.requires_password srv
            && negb (Client.authenticated client)); [exact HP|].
  cbn [negb] in Hbad.
  destruct Hbad as [Hbad|Hbad]; [|discriminate Hbad].
  destruct (Dict.get "action" msg) as [[| | | |action| |]|]; try exact HP.
  cbn in Hbad. rewrite Hbad. exact HP.
Qed.

Lemma invalid_input_dropped_witness :
  dropped (sample_server GameMode_CLASSIC)
    (GameServer._handle_message ann_id (JDict jump_input)
       (sample_server GameMode_CLASSIC)).
Proof.
  apply (invalid_input_dropped ann_id jump_input
           (sample_server GameMode_CLASSIC)).
  - reflexivity.
  - left. reflexivity.
Defined.

Lemma existsb_eqb_true (a : string) (l : list string) :
  In a l -> existsb (String.eqb a) l = true.
Proof.
  intros Hin. apply existsb_exists. exists a. split; [exact Hin|].
  apply String.eqb_refl.
Qed.

(** X12. A valid input of a permitted session for its own actor replaces
    whatever was queued for that actor and leaves the other entries of the
    queue alone; without an actor of that identity in the world nothing is
    queued.  The world, the registry and the sockets are not touched. *)
Theorem own_input_queued (temp_id action : string) (msg : Dict.t json)
  (srv : GameServer.t) :
  Dict.get "type" msg = Some (JStr "input") ->
  Dict.get "action" msg = Some (JStr action) ->
  In action VALID_ACTIONS ->
  Dict.get "player_id" msg = None \/
  Dict.get "player_id" msg = Some (JStr temp_id) ->
  input_permitted temp_id srv = true ->
  len (recent_stamps temp_id srv) < MAX_MESSAGES_PER_SECOND ->
  let r := GameServer._handle_message temp_id (JDict msg) srv in
  fst r = Return tt /\
  (Dict.mem temp_id (GameData.snakes (GameServer.the_game srv)) = true ->
   Dict.get temp_id (GameServer.pending_inputs (snd r)) = Some action /\
   forall other, other <> temp_id ->
     Dict.get other (GameServer.pending_inputs (snd r))
     = Dict.get other (GameServer.pending_inputs srv)) /\
  (Dict.mem temp_id (GameData.snakes (GameServer.the_game srv)) = false ->
   GameServer.pending_inputs (snd r) = GameServer.pending_inputs srv) /\
  GameServer.env (snd r) = GameServer.env srv /\
  GameServer.clients (snd r) = GameServer.clients srv /\
  GameServer.io (snd r) = GameServer.io srv.
Proof.
  intros Hty Hact Hvalid Hid Hperm Hrate.
  cbv zeta.
  set (P := fun r : outcome unit * GameServer.t =>
    fst r = Return tt /\
    (Dict.mem temp_id (GameData.snakes (GameServer.the_game srv)) = true ->
     Dict.get temp_id (GameServer.pending_inputs (snd r)) = Some action /\
     forall other, other <> temp_id ->
       Dict.get other (GameServer.pending_inputs (snd r))
       = Dict.get other (GameServer.pending_inputs srv)) /\
    (Dict.mem temp_id (GameData.snakes (GameServer.the_game srv)) = false ->
     GameServer.pending_inputs (snd r) = GameServer.pending_inputs srv) /\
    GameServer.env (snd r) = GameServer.env srv /\
    GameServer.clients (snd r) = GameServer.clients srv /\
    GameServer.io (snd r) = GameServer.io srv).
  change (P (GameServer._handle_message temp_id (JDict msg) srv)).
  enter_handle_message temp_id srv.
  apply Z.ltb_lt in Hrate. rewrite Hrate in *. cbn [negb].
  rewrite Hty. cbn.
  destruct Hsame as (Hc & He & Hp & Hu & Hio & Hck & Hrp & Hpw).
  unfold input_permitted in Hperm.
  rewrite Hc, Hrp.
  destruct (Dict.get temp_id (GameServer.clients srv)) as [client|];
    [|discriminate Hperm].
  apply negb_true_iff in Hperm. rewrite Hperm.
  rewrite Hact.
  pose proof (existsb_eqb_true _ _ Hvalid) as Hex. cbn in Hex. rewrite Hex.
  cbn [negb].
  assert (Hpid : msg_get "player_id" (JStr temp_id) msg = JStr temp_id).
  { unfold msg_get. destruct Hid as [-> | ->]; reflexivity. }
  rewrite Hpid. rewrite String.eqb_refl. cbn [negb andb].
  unfold GameServer.the_game. rewrite He.
  unfold P, GameServer.the_game.
  destruct (Dict.mem temp_id (GameData.snakes (game (GameServer.env srv))));
    cbn; rewrite ?Hp, ?He, ?Hc, ?Hio.
  - repeat split; auto; try discriminate.
    + rewrite get_set, String.eqb_refl. reflexivity.
    + intros other Hne. rewrite get_set.
      destruct (String.eqb temp_id other) eqn:E; [|reflexivity].
      apply String.eqb_eq in E. congruence.
  - repeat split; auto; discriminate.
Qed.

Lemma own_input_queued_witness :
  Dict.get ann_id
    (GameServer.pending_inputs
       (snd (GameServer._handle_message ann_id (JDict ann_left)
               (sample_server GameMode_CLASSIC))))
  = Some "LEFT".
Proof.
  assert (Hlt : len (recent_stamps ann_id (sample_server GameMode_CLASSIC))
                < MAX_MESSAGES_PER_SECOND) by by_computation.
  destruct (own_input_queued ann_id "LEFT" ann_left
              (sample_server GameMode_CLASSIC)
              eq_refl eq_refl
              (or_intror (or_intror (or_introl eq_refl)))
              (or_introl eq_refl) eq_refl Hlt)
    as (_ & H & _).
  apply H. reflexivity.
Defined.

(** X13. A ['start'] message of any session, joined or not, begins the
    countdown when the game is waiting and has an actor: the state becomes
    ['countdown'], the counter 5 and the start of the countdown the time of
    the message, and the actors stay.  In any other state, or without an
    actor, the message is dropped. *)
Theorem start_only_from_waiting (temp_id : string) (msg : Dict.t json)
  (srv : GameServer.t) :
  Dict.get "type" msg = Some (JStr "start") ->
  len (recent_stamps temp_id srv) < MAX_MESSAGES_PER_SECOND ->
  let r := GameServer._handle_message temp_id (JDict msg) srv in
  let g := GameServer.the_game srv in
  let g' := GameServer.the_game (snd r) in
  fst r = Return tt /\
  (GameData.state g = GameState_WAITING -> GameData.snakes g <> [] ->
   GameData.state g' = GameState_COUNTDOWN /\
   GameData.countdown g' = 5 /\
   GameData.countdown_start g' = GameServer.clock srv /\
   GameData.snakes g' = GameData.snakes g /\
   GameServer.clients (snd r) = GameServer.clients srv) /\
  (GameData.state g <> GameState_WAITING \/ GameData.snakes g = [] ->
   dropped srv r).
Proof.
  intros Hty Hrate. cbv zeta.
  set (P := fun r : outcome unit * GameServer.t =>
    fst r = Return tt /\
    (GameData.state (GameServer.the_game srv) = GameState_WAITING ->
     GameData.snakes (GameServer.the_game srv) <> [] ->
     GameData.state (GameServer.the_game (snd r)) = GameState_COUNTDOWN /\
     GameData.countdown (GameServer.the_game (snd r)) = 5 /\
     GameData.countdown_start (GameServer.the_game (snd r))
     = GameServer.clock srv /\
     GameData.snakes (GameServer.the_game (snd r))
     = GameData.snakes (GameServer.the_game srv) /\
     GameServer.clients (snd r) = GameServer.clients srv) /\
    (GameData.state (GameServer.the_game srv) <> GameState_WAITING \/
     GameData.snakes (GameServer.the_game srv) = [] ->
     dropped srv r)).
  change (P (GameServer._handle_message temp_id (JDict msg) srv)).
  enter_handle_message temp_id srv.
  apply Z.ltb_lt in Hrate. rewrite Hrate in *. cbn [negb].
  rewrite Hty. cbn.
  pose proof Hsame as (Hc & He & Hp & Hu & Hio & Hck & Hrp & Hpw).
  unfold GameServer.the_game. rewrite He.
  unfold P, GameServer.the_game.
  destruct (String.eqb (GameData.state (game (GameServer.env srv)))
                       GameState_WAITING) eqn:Est; cbn [andb].
  - apply String.eqb_eq in Est.
    destruct (GameData.snakes (game (GameServer.env srv))) as [|kv rest]
      eqn:Esn; cbn.
    + split; [reflexivity|]. split; [congruence|].
      intros _. split; [reflexivity | exact Hsame].
    + rewrite He, Hck, Hc, Esn.
      split; [reflexivity|]. split; [intros _ _; repeat split; auto|].
      intros [Hne | Hnil]; congruence.
  - apply String.eqb_neq in Est. cbn.
    split; [reflexivity|]. split; [congruence|].
    intros _. split; [reflexivity | exact Hsame].
Qed.

Lemma start_only_from_waiting_witness :
  GameData.state
    (GameServer.the_game
       (snd (GameServer._handle_message ann_id (JDict start_request)
               waiting_server)))
  = GameState_COUNTDOWN.
Proof.
  assert (Hlt : len (recent_stamps ann_id waiting_server)
                < MAX_MESSAGES_PER_SECOND) by by_computation.
  destruct (start_only_from_waiting ann_id start_request waiting_server
              eq_refl Hlt) as (_ & H & _).
  apply H; [reflexivity | discriminate].
Defined.

(** ** The countdown *)

(** X14. One update of the countdown, [elapsed] milliseconds after its
    start: before five seconds are over the game stays in its state and the
    counter shows five minus the full seconds elapsed; from five seconds on
    the game is running and the counter is 0.  With a clock that did not go
    back the counter stays within 0 and 5, and the update touches nothing
    else of the game. *)
Theorem countdown_runs_after_five_seconds (srv : GameServer.t) :
  let g := GameServer.the_game srv in
  let elapsed := GameServer.clock srv - GameData.countdown_start g in
  let r := GameServer._update_countdown srv in
  let g' := GameServer.the_game (snd r) in
  fst r = Return tt /\
  (elapsed < 5000 ->
   GameData.state g' = GameData.state g /\
   GameData.countdown g' = 5 - Z.quot elapsed 1000) /\
  (5000 <= elapsed ->
   GameData.state g' = GameState_RUNNING /\ GameData.countdown g' = 0) /\
  (0 <= elapsed -> 0 <= GameData.countdown g' <= 5) /\
  g' = GameData.set_countdown (GameData.countdown g')
         (GameData.set_state (GameData.state g') g).
Proof.
  cbv zeta.
  Opaque Z.sub Z.quot Z.eqb Z.max Z.geb.
  unfold GameServer._update_countdown, GameServer.time_time,
    GameServer.modify_the_game, GameServer.logic, GameServer.the_game,
    modify_game, when, bind, gets, get, modify, ret.
  cbn.
  set (g := game (GameServer.env srv)).
  set (elapsed := GameServer.clock srv - GameData.countdown_start g).
  assert (Hq : elapsed < 5000 -> Z.quot elapsed 1000 <= 4).
  { intros H. destruct (Z_lt_le_dec elapsed 0) as [Hneg|Hpos].
    - pose proof (Z.quot_opp_l elapsed 1000 ltac:(lia)).
      assert (0 <= Z.quot (- elapsed) 1000)
        by (apply Z.quot_pos; lia).
      lia.
    - apply Z.lt_succ_r. apply Z.quot_lt_upper_bound; lia. }
  assert (Hq0 : 0 <= elapsed -> 0 <= Z.quot elapsed 1000)
    by (intros H; apply Z.quot_pos; lia).
  assert (Hq5 : 5000 <= elapsed -> 5 <= Z.quot elapsed 1000)
    by (intros H; apply Z.quot_le_lower_bound; lia).
  clearbody elapsed. subst g.
  destruct (5 - Z.quot elapsed 1000 =? GameData.countdown _) eqn:Eq;
    cbn [negb];
    rewrite Z.geb_leb;
    destruct (5000 <=? elapsed) eqn:E5; cbn.
  all: try apply Z.leb_le in E5; try apply Z.leb_gt in E5.
  all: try apply Z.eqb_eq in Eq.
  all: repeat match goal with
              | |- _ /\ _ => split
              | |- _ -> _ => intros
              end; try reflexivity; try lia.
  all: destruct (game (GameServer.env srv)); reflexivity.
  Transparent Z.sub Z.quot Z.eqb Z.max Z.geb.
Qed.

Lemma countdown_runs_after_five_seconds_witness :
  GameData.state
    (GameServer.the_game (snd (GameServer._update_countdown countdown_server)))
  = GameState_COUNTDOWN /\
  GameData.countdown
    (GameServer.the_game (snd (GameServer._update_countdown countdown_server)))
  = 3.
Proof.
  destruct (countdown_runs_after_five_seconds countdown_server)
    as (_ & H & _).
  apply H. by_computation.
Defined.

(** ** What a tick never does *)

Lemma steady_refl_snake (s : Snake.t) : steady s s.
Proof. unfold steady. repeat split; auto. lia. Qed.

Lemma steady_trans_snake (a b c : Snake.t) :
  steady a b -> steady b c -> steady a c.
Proof.
  unfold steady. intros (H1 & H2 & H3 & H4 & H5) (K1 & K2 & K3 & K4 & K5).
  repeat split; try congruence; auto. lia.
Qed.

Lemma steady_refl (e : Env) : steady_rel e e.
Proof.
  unfold steady_rel. repeat split.
  apply entries_refl. intros k v. apply steady_refl_snake.
Qed.

Lemma steady_trans (a b c : Env) :
  steady_rel a b -> steady_rel b c -> steady_rel a c.
Proof.
  unfold steady_rel.
  intros (H0 & H1 & H2 & H3 & H4 & H5) (K0 & K1 & K2 & K3 & K4 & K5).
  repeat split; try congruence.
  eapply entries_trans; [|exact H0|exact K0].
  intros k x y z. apply steady_trans_snake.
Qed.

Lemma steady_modify_snake (pid : string) (f : Snake.t -> Snake.t) :
  (forall s, steady s (f s)) -> respects steady_rel (modify_snake pid f).
Proof.
  intros Hf e. cbn. unfold steady_rel. cbn. repeat split.
  apply entries_update; auto. intros k v Hk. apply steady_refl_snake.
Qed.

Lemma steady_modify_game (f : GameData.t -> GameData.t) :
  (forall g, GameData.snakes (f g) = GameData.snakes g) ->
  (forall g, GameData.width (f g) = GameData.width g) ->
  (forall g, GameData.height (f g) = GameData.height g) ->
  (forall g, GameData.walls_enabled (f g) = GameData.walls_enabled g) ->
  (forall g, GameData.mode (f g) = GameData.mode g) ->
  (forall g, GameData.next_player_id (f g) = GameData.next_player_id g) ->
  respects steady_rel (modify_game f).
Proof.
  intros H0 H1 H2 H3 H4 H5 e. cbn. unfold steady_rel. cbn.
  rewrite H0, H1, H2, H3, H4, H5. apply steady_refl.
Qed.

Lemma steady_emit (ev : Event) : respects steady_rel (emit ev).
Proof. intros e. cbn. apply (steady_refl e). Qed.

Lemma steady_random_draw : respects steady_rel random_draw.
Proof. intros e. cbn. apply (steady_refl e). Qed.

Lemma steady_get_snake (pid : string) : respects steady_rel (get_snake pid).
Proof.
  unfold get_snake. intros e. unfold bind, gets. cbn.
  destruct (Dict.get pid _); apply steady_refl.
Qed.

Lemma steady_strike (j : nat) (s : Snake.t) : steady s (strike j s).
Proof.
  unfold strike.
  destruct (List.length _ <? 2)%nat; unfold steady; cbn;
    repeat split; auto; try discriminate; lia.
Qed.

Ltac steady_leaf :=
  match goal with
  | H : respects steady_rel ?m |- respects steady_rel ?m => exact H
  | H : forall b, respects steady_rel (?f b)
    |- respects steady_rel (?f _) => apply H
  | |- respects _ (get_snake _) => apply steady_get_snake
  | |- respects _ (modify_snake _ (strike _)) =>
      apply steady_modify_snake; intros; apply steady_strike
  | |- respects _ (modify_snake _ _) =>
      apply steady_modify_snake; intros; unfold steady; cbn;
      repeat split; auto; try discriminate; lia
  | |- respects _ (modify_game _) => apply steady_modify_game; reflexivity
  | |- respects _ (emit _) => apply steady_emit
  | |- respects _ random_draw => apply steady_random_draw
  end.

Ltac steady_with extra :=
  respects_steps ltac:(idtac; first [extra | steady_leaf])
    steady_refl steady_trans.

Ltac steady_auto := steady_with ltac:(idtac; fail).

Lemma steady_random_randint (a b : Z) : respects steady_rel (random_randint a b).
Proof. unfold random_randint. steady_auto. Qed.

Lemma steady_random_coin : respects steady_rel random_coin.
Proof. unfold random_coin. steady_auto. Qed.

Lemma steady_random_uniform (a b : Z) : respects steady_rel (random_uniform a b).
Proof. unfold random_uniform. steady_auto. Qed.

Lemma steady_spawn_attempts (n : nat)
  (place : Cell -> GameData.t -> GameData.t) :
  (forall c, respects steady_rel (modify_game (place c))) ->
  respects steady_rel (SnakeGameLogic.spawn_attempts n place).
Proof.
  intros Hp. induction n as [|n IH]; cbn [SnakeGameLogic.spawn_attempts].
  - steady_auto.
  - steady_with ltac:(idtac; match goal with
        | |- respects _ (random_randint _ _) => apply steady_random_randint
        | |- respects _ (SnakeGameLogic.spawn_attempts _ _) => exact IH
        | |- respects _ (modify_game (place _)) => apply Hp
        end).
Qed.

Lemma steady_spawn_food : respects steady_rel SnakeGameLogic._spawn_food.
Proof.
  apply steady_spawn_attempts. intros c. apply steady_modify_game; reflexivity.
Qed.

Lemma steady_spawn_weapon : respects steady_rel SnakeGameLogic._spawn_weapon.
Proof.
  apply steady_spawn_attempts. intros c. apply steady_modify_game; reflexivity.
Qed.

Lemma steady_spawn_ghost : respects steady_rel SnakeGameLogic._spawn_ghost.
Proof.
  apply steady_spawn_attempts. intros c. apply steady_modify_game; reflexivity.
Qed.

Ltac steady_calls :=
  match goal with
  | |- respects _ (random_randint _ _) => apply steady_random_randint
  | |- respects _ random_coin => apply steady_random_coin
  | |- respects _ (random_uniform _ _) => apply steady_random_uniform
  | |- respects _ SnakeGameLogic._spawn_food => apply steady_spawn_food
  | |- respects _ SnakeGameLogic._spawn_weapon => apply steady_spawn_weapon
  | |- respects _ SnakeGameLogic._spawn_ghost => apply steady_spawn_ghost
  | |- respects _ (SnakeGameLogic._create_explosion _ _) =>
      apply steady_modify_game; reflexivity
  | |- respects _ SnakeGameLogic._update_explosions =>
      apply steady_modify_game; reflexivity
  end.

Lemma steady_move_snake (pid : string) :
  respects steady_rel (SnakeGameLogic._move_snake pid).
Proof.
  unfold SnakeGameLogic._move_snake.
  steady_with ltac:(idtac; steady_calls).
Qed.

Lemma steady_fire_weapon (pid : string) :
  respects steady_rel (SnakeGameLogic._fire_weapon pid).
Proof. unfold SnakeGameLogic._fire_weapon. steady_auto. Qed.

Lemma steady_activate_ghost (pid : string) (now : Z) :
  respects steady_rel (SnakeGameLogic._activate_ghost pid now).
Proof. unfold SnakeGameLogic._activate_ghost. steady_auto. Qed.

Lemma steady_bomb_flight (steps : nat) :
  forall bomb, respects steady_rel (SnakeGameLogic.bomb_flight steps bomb).
Proof.
  induction steps as [|steps IH]; intros bomb;
    cbn [SnakeGameLogic.bomb_flight].
  - steady_auto.
  - cbv zeta. steady_with ltac:(idtac; steady_calls).
Qed.

Lemma steady_fly_bombs (bombs : list Bomb.t) :
  respects steady_rel (SnakeGameLogic.fly_bombs bombs).
Proof.
  induction bombs as [|bomb rest IH]; cbn [SnakeGameLogic.fly_bombs].
  - steady_auto.
  - steady_with ltac:(idtac; match goal with
        | |- respects _ (SnakeGameLogic.bomb_flight _ _) =>
            apply steady_bomb_flight
        end).
Qed.

Lemma steady_update_bombs : respects steady_rel SnakeGameLogic._update_bombs.
Proof.
  unfold SnakeGameLogic._update_bombs.
  steady_with ltac:(idtac; match goal with
      | |- respects _ (SnakeGameLogic.fly_bombs _) => apply steady_fly_bombs
      end).
Qed.

Lemma steady_check_snake (pid : string) :
  respects steady_rel (SnakeGameLogic.check_snake pid).
Proof. unfold SnakeGameLogic.check_snake. steady_auto. Qed.

Lemma steady_check_collisions :
  respects steady_rel SnakeGameLogic._check_collisions.
Proof.
  unfold SnakeGameLogic._check_collisions.
  steady_with ltac:(idtac; match goal with
      | |- respects _ (SnakeGameLogic.check_snake _) =>
          apply steady_check_snake
      end).
Qed.

Lemma steady_expire_invisibility (now : Z) (pid : string) :
  respects steady_rel (GameServer.expire_invisibility now pid).
Proof. unfold GameServer.expire_invisibility. steady_auto. Qed.

Lemma steady_move_if_alive (pid : string) :
  respects steady_rel (GameServer.move_if_alive pid).
Proof.
  unfold GameServer.move_if_alive.
  steady_with ltac:(idtac; match goal with
      | |- respects _ (SnakeGameLogic._move_snake _) =>
          apply steady_move_snake
      end).
Qed.

Lemma steady_spawn_pickup (now : Z) :
  respects steady_rel (GameServer.spawn_pickup now).
Proof.
  unfold GameServer.spawn_pickup. steady_with ltac:(idtac; steady_calls).
Qed.

Lemma steady_check_winner : respects steady_rel GameServer.check_winner.
Proof. unfold GameServer.check_winner. steady_auto. Qed.

Lemma steady_apply_input (now : Z) (player_id action : string) :
  respects steady_rel (GameServer.apply_input now player_id action).
Proof.
  unfold GameServer.apply_input.
  steady_with ltac:(idtac; match goal with
      | |- respects _ (SnakeGameLogic._fire_weapon _) =>
          apply steady_fire_weapon
      | |- respects _ (SnakeGameLogic._activate_ghost _ _) =>
          apply steady_activate_ghost
      end).
Qed.

Lemma steady_update_world (now : Z) :
  respects steady_rel (GameServer.update_world now).
Proof.
  unfold GameServer.update_world.
  steady_with ltac:(idtac; match goal with
      | |- respects _ (GameServer.expire_invisibility _ _) =>
          apply steady_expire_invisibility
      | |- respects _ (GameServer.move_if_alive _) =>
          apply steady_move_if_alive
      | |- respects _ SnakeGameLogic._update_bombs => apply steady_update_bombs
      | |- respects _ SnakeGameLogic._update_explosions =>
          apply steady_modify_game; reflexivity
      | |- respects _ SnakeGameLogic._check_collisions =>
          apply steady_check_collisions
      | |- respects _ (GameServer.spawn_pickup _) => apply steady_spawn_pickup
      | |- respects _ GameServer.check_winner => apply steady_check_winner
      end).
Qed.

Lemma server_steady_refl (s : GameServer.t) : server_steady_rel s s.
Proof. apply steady_refl. Qed.

Lemma server_steady_trans (a b c : GameServer.t) :
  server_steady_rel a b -> server_steady_rel b c -> server_steady_rel a c.
Proof. apply steady_trans. Qed.

Lemma server_steady_logic {A} (m : M Env A) :
  respects steady_rel m -> respects server_steady_rel (GameServer.logic m).
Proof.
  intros H s. unfold server_steady_rel. rewrite env_logic. apply H.
Qed.

Lemma server_steady_modify (f : GameServer.t -> GameServer.t) :
  (forall s, GameServer.env (f s) = GameServer.env s) ->
  respects server_steady_rel (modify f).
Proof.
  intros Hf s. unfold server_steady_rel. cbn. rewrite Hf. apply steady_refl.
Qed.

Ltac server_steady_leaf :=
  match goal with
  | H : respects server_steady_rel ?m |- respects server_steady_rel ?m =>
      exact H
  | H : forall a, respects server_steady_rel (?f a)
    |- respects server_steady_rel (?f _) => apply H
  | |- respects _ (modify _) => apply server_steady_modify; reflexivity
  | |- respects _ (GameServer.log _) => apply server_steady_modify; reflexivity
  | |- respects _ (GameServer.time_sleep _) =>
      apply server_steady_modify; reflexivity
  | |- respects _ GameServer.time_time =>
      apply (respects_gets _ server_steady_refl)
  | |- respects _ (GameServer.modify_client _ _) =>
      apply server_steady_modify; reflexivity
  | |- respects _ (GameServer.modify_the_game _) =>
      apply server_steady_logic, steady_modify_game; reflexivity
  | |- respects _ (GameServer.logic (modify_snake _ _)) =>
      apply server_steady_logic, steady_modify_snake; intros;
      unfold steady; cbn; repeat split; auto; try discriminate; lia
  | |- respects _ (GameServer.logic (GameServer.apply_input _ _ _)) =>
      apply server_steady_logic, steady_apply_input
  | |- respects _ (GameServer.logic (GameServer.update_world _)) =>
      apply server_steady_logic, steady_update_world
  end.

Ltac server_steady_with extra :=
  respects_steps ltac:(idtac; first [extra | server_steady_leaf])
    server_steady_refl server_steady_trans.

Ltac server_steady_auto := server_steady_with ltac:(idtac; fail).

Lemma server_steady_send_to_client (player_id : string) (msg : ServerMsg) :
  respects server_steady_rel (GameServer._send_to_client player_id msg).
Proof. unfold GameServer._send_to_client. server_steady_auto. Qed.

Lemma server_steady_remove_client (player_id : string) (graceful : bool) :
  respects server_steady_rel (GameServer._remove_client player_id graceful).
Proof. unfold GameServer._remove_client. server_steady_auto. Qed.

Lemma server_steady_send_state_to (msg : ServerMsg) (ids : list string) :
  forall disconnected,
    respects server_steady_rel
      (GameServer.send_state_to msg ids disconnected).
Proof.
  induction ids as [|player_id rest IH]; intros disconnected;
    cbn [GameServer.send_state_to].
  - server_steady_auto.
  - server_steady_with ltac:(idtac; match goal with
        | |- respects _ (GameServer._send_to_client _ _) =>
            apply server_steady_send_to_client
        | |- respects _ (GameServer.send_state_to _ _ _) => apply IH
        end).
Qed.

Lemma server_steady_broadcast_state :
  respects server_steady_rel GameServer._broadcast_state.
Proof.
  unfold GameServer._broadcast_state.
  server_steady_with ltac:(idtac; match goal with
      | |- respects _ (GameServer.send_state_to _ _ _) =>
          apply server_steady_send_state_to
      | |- respects _ (GameServer._remove_client _ _) =>
          apply server_steady_remove_client
      end).
Qed.

Lemma server_steady_process_inputs :
  respects server_steady_rel GameServer._process_inputs.
Proof. unfold GameServer._process_inputs. server_steady_auto. Qed.

Lemma server_steady_update_countdown :
  respects server_steady_rel GameServer._update_countdown.
Proof. unfold GameServer._update_countdown. server_steady_auto. Qed.

Lemma server_steady_update_game :
  respects server_steady_rel GameServer._update_game.
Proof. unfold GameServer._update_game. server_steady_auto. Qed.

(** X15. Whatever the state of the game, one tick of the server loop keeps
    the actors and their order; no actor changes its number, name or
    colour, none that was dead is alive afterwards, and no score goes
    down.  The size of the field, the walls, the mode and the counter of
    player numbers are as before.  This holds also when the tick ends in
    an exception. *)
Theorem tick_keeps_actors_steady (srv : GameServer.t) :
  let srv' := snd (GameServer.run_loop_tick srv) in
  let g := GameServer.the_game srv in
  let g' := GameServer.the_game srv' in
  Dict.keys (GameData.snakes g') = Dict.keys (GameData.snakes g) /\
  (forall k s, Dict.get k (GameData.snakes g) = Some s ->
     exists s', Dict.get k (GameData.snakes g') = Some s' /\ steady s s') /\
  GameData.width g' = GameData.width g /\
  GameData.height g' = GameData.height g /\
  GameData.walls_enabled g' = GameData.walls_enabled g /\
  GameData.mode g' = GameData.mode g /\
  GameData.next_player_id g' = GameData.next_player_id g.
Proof.
  cbv zeta.
  assert (H : respects server_steady_rel GameServer.run_loop_tick).
  { unfold GameServer.run_loop_tick.
    server_steady_with ltac:(idtac; match goal with
        | |- respects _ GameServer._process_inputs =>
            apply server_steady_process_inputs
        | |- respects _ GameServer._update_countdown =>
            apply server_steady_update_countdown
        | |- respects _ GameServer._update_game =>
            apply server_steady_update_game
        | |- respects _ GameServer._broadcast_state =>
            apply server_steady_broadcast_state
        end). }
  destruct (H srv) as (He & Hw & Hh & Hwl & Hm & Hn).
  unfold GameServer.the_game.
  repeat split; auto.
  - eapply entries_keys. exact He.
  - intros k s Hk. eapply entries_get in Hk; [|exact He]. exact Hk.
Qed.

(** ** The inputs of a tick *)

Lemma turned_refl (o : option Snake.t) : turned o o.
Proof.
  destruct o as [s|]; cbn; [|exact I].
  repeat split. destruct (Snake.direction s); discriminate.
Qed.

Lemma turn_refl (ks : list string) (e : Env) : turn_rel ks e e.
Proof. intros k. split; intros _; [apply turned_refl | reflexivity]. Qed.

Lemma turn_compose (ks1 ks2 : list string) (a b c : Env) :
  (forall k, In k ks1 -> ~ In k ks2) ->
  turn_rel ks1 a b -> turn_rel ks2 b c -> turn_rel (ks1 ++ ks2) a c.
Proof.
  intros Hdisj H1 H2 k. destruct (H1 k) as [H1in H1out].
  destruct (H2 k) as [H2in H2out]. split.
  - intros Hin. apply in_app_or in Hin.
    destruct (in_dec string_dec k ks1) as [Hk1|Hk1].
    + rewrite (H2out (Hdisj k Hk1)). apply H1in, Hk1.
    + destruct Hin as [Hin|Hin]; [contradiction|].
      rewrite <- (H1out Hk1). apply H2in, Hin.
  - intros Hnot.
    rewrite H2out by (intros Hin; apply Hnot, in_or_app; now right).
    apply H1out. intros Hin. apply Hnot, in_or_app. now left.
Qed.

Lemma turn_modify_snake (pid : string) (f : Snake.t -> Snake.t) (e : Env) :
  (forall s, Dict.get pid (GameData.snakes (game e)) = Some s ->
     Snake.direction (f s) <> opposite (Snake.direction s) /\
     Snake.body (f s) = Snake.body s /\
     Snake.alive (f s) = Snake.alive s) ->
  turn_rel [pid] e (snd (modify_snake pid f e)).
Proof.
  intros Hf k. cbn. rewrite get_update. split.
  - intros [<-|[]]. rewrite String.eqb_refl.
    destruct (Dict.get pid (GameData.snakes (game e))) as [s|] eqn:G;
      cbn; [|exact I].
    apply Hf. reflexivity.
  - intros Hnot. destruct (String.eqb pid k) eqn:E; [|reflexivity].
    apply String.eqb_eq in E. subst k. exfalso. apply Hnot. now left.
Qed.

Lemma turn_quiet (ks : list string) (e e' : Env) :
  GameData.snakes (game e') = GameData.snakes (game e) -> turn_rel ks e e'.
Proof.
  intros H k. rewrite H. split; intros _; [apply turned_refl | reflexivity].
Qed.

Lemma turn_apply_input (now : Z) (player_id action : string) (e : Env) :
  turn_rel [player_id] e
    (snd (GameServer.apply_input now player_id action e)).
Proof.
  unfold GameServer.apply_input. rewrite bind_gets.
  destruct (Dict.get player_id (GameData.snakes (game e))) as [snake|] eqn:G;
    [|apply turn_refl].
  destruct (Snake.alive snake); cbn [negb]; [|apply turn_refl].
  repeat match goal with
  | |- context [if ?c && ?d then _ else _] =>
      destruct (c && d) eqn:?
  end;
  try apply turn_refl;
  try (apply turn_modify_snake; intros s Hs; rewrite G in Hs;
       injection Hs as <-; cbn; repeat split;
       match goal with
       | H : (_ && negb (Direction_value (Snake.direction snake) =? _)) = true
         |- _ =>
           apply andb_true_iff in H; destruct H as [_ H];
           destruct (Snake.direction snake); cbn in H; try discriminate H;
           discriminate
       end).
  - (* FIRE *)
    unfold SnakeGameLogic._fire_weapon, bind.
    pose proof (turn_modify_snake player_id (Snake.set_has_weapon false) e)
      as Hstep.
    destruct (modify_snake player_id (Snake.set_has_weapon false) e)
      as [[[]|x] e1] eqn:E1; cbn [snd] in Hstep.
    + assert (H1 : turn_rel [player_id] e e1).
      { apply Hstep. intros s _. cbn. repeat split.
        destruct (Snake.direction s); discriminate. }
      unfold get_snake, gets. cbn.
      destruct (Dict.get player_id (GameData.snakes (game e1))) as [s1|];
        cbn; [|exact H1].
      destruct (Snake.body s1); cbn; exact H1.
    + cbn in E1. discriminate E1.
  - (* GHOST *)
    unfold SnakeGameLogic._activate_ghost.
    apply turn_modify_snake. intros s _. cbn. repeat split.
    destruct (Snake.direction s); discriminate.
Qed.

Lemma logic_keeps_server {A} (m : M Env A) (s : GameServer.t) :
  GameServer.pending_inputs (snd (GameServer.logic m s))
  = GameServer.pending_inputs s /\
  GameServer.clients (snd (GameServer.logic m s)) = GameServer.clients s /\
  GameServer.io (snd (GameServer.logic m s)) = GameServer.io s.
Proof.
  unfold GameServer.logic. destruct (m (GameServer.env s)). repeat split.
Qed.

Lemma turn_inputs (now : Z) (inputs : Dict.t string) :
  NoDup (Dict.keys inputs) ->
  forall s,
    let s' := snd (for_each inputs
                     (fun entry =>
                        GameServer.logic
                          (GameServer.apply_input now (fst entry) (snd entry)))
                     s) in
    turn_rel (Dict.keys inputs) (GameServer.env s) (GameServer.env s') /\
    GameServer.pending_inputs s' = GameServer.pending_inputs s /\
    GameServer.clients s' = GameServer.clients s /\
    GameServer.io s' = GameServer.io s.
Proof.
  induction inputs as [|[k a] inputs IH]; intros Hnd s; cbn [for_each].
  - cbn. split; [apply turn_refl | repeat split].
  - cbn [Dict.keys map fst snd] in *.
    inversion Hnd as [|? ? Hnotin Hnd']. subst.
    cbv zeta. unfold bind.
    pose proof (turn_apply_input now k a (GameServer.env s)) as Hstep.
    rewrite <- env_logic in Hstep.
    destruct (logic_keeps_server (GameServer.apply_input now k a) s)
      as (Hp & Hc & Hio).
    destruct (GameServer.logic (GameServer.apply_input now k a) s)
      as [[[]|x] s1]; cbn [fst snd] in *.
    + destruct (IH Hnd' s1) as (Hrest & Hp' & Hc' & Hio').
      cbv zeta in Hrest, Hp', Hc', Hio'.
      split; [|repeat split; congruence].
      change (k :: map fst inputs) with ([k] ++ map fst inputs).
      eapply turn_compose; [|exact Hstep|exact Hrest].
      intros k0 [<-|[]]. exact Hnotin.
    + split; [|repeat split; assumption].
      change (k :: map fst inputs) with ([k] ++ map fst inputs).
      eapply turn_compose; [|exact Hstep|apply turn_refl].
      intros k0 [<-|[]]. exact Hnotin.
Qed.

Lemma process_inputs_eq (srv : GameServer.t) :
  GameServer._process_inputs srv
  = for_each (GameServer.pending_inputs srv)
      (fun entry =>
         GameServer.logic
           (GameServer.apply_input (GameServer.clock srv)
              (fst entry) (snd entry)))
      (GameServer.set_pending_inputs [] srv).
Proof. reflexivity. Qed.

(** X16. Processing the inputs of a tick empties the queue.  Whatever was
    queued, every actor is still there with its body and its life as they
    were, and none has turned back onto its own neck: the heading after is
    never the opposite of the heading before.  Actors without a queued
    input are exactly as before. *)
Theorem inputs_never_reverse (srv : GameServer.t) :
  NoDup (Dict.keys (GameServer.pending_inputs srv)) ->
  let srv' := snd (GameServer._process_inputs srv) in
  GameServer.pending_inputs srv' = [] /\
  (forall k s,
     Dict.get k (GameData.snakes (GameServer.the_game srv)) = Some s ->
     exists s',
       Dict.get k (GameData.snakes (GameServer.the_game srv')) = Some s' /\
       Snake.direction s' <> opposite (Snake.direction s) /\
       Snake.body s' = Snake.body s /\
       Snake.alive s' = Snake.alive s /\
       (Dict.mem k (GameServer.pending_inputs srv) = false -> s' = s)) /\
  GameServer.clients srv' = GameServer.clients srv /\
  GameServer.io srv' = GameServer.io srv.
Proof.
  intros Hnd. cbv zeta.
  rewrite process_inputs_eq.
  destruct (turn_inputs (GameServer.clock srv)
              (GameServer.pending_inputs srv) Hnd
              (GameServer.set_pending_inputs [] srv))
    as (Hturn & Hp & Hc & Hio).
  cbv zeta in Hturn, Hp, Hc, Hio.
  split; [exact Hp|]. split; [|split; [exact Hc | exact Hio]].
  intros k s Hk. unfold GameServer.the_game in *.
  destruct (Hturn k) as [Hin Hout]. cbn [GameServer.env GameServer.set_pending_inputs] in Hin, Hout.
  destruct (in_dec string_dec k (Dict.keys (GameServer.pending_inputs srv)))
    as [Hmem|Hmem].
  - specialize (Hin Hmem). rewrite Hk in Hin.
    destruct (Dict.get k _) as [s'|] in Hin |- *; [|contradiction].
    destruct Hin as (Hd & Hb & Ha).
    exists s'. repeat split; auto.
    intros Hno. exfalso. unfold Dict.mem in Hno.
    destruct (Dict.get k (GameServer.pending_inputs srv)) eqn:G;
      [discriminate|].
    clear - Hmem G. induction (GameServer.pending_inputs srv) as [|[k0 v0] d IH];
      cbn in *; [contradiction|].
    destruct (String.eqb k k0) eqn:E; [discriminate|].
    destruct Hmem as [->|Hmem]; [rewrite String.eqb_refl in E; discriminate|].
    now apply IH.
  - rewrite (Hout Hmem), Hk. exists s. repeat split; auto.
    destruct (Snake.direction s); discriminate.
Qed.

Lemma inputs_never_reverse_witness :
  GameServer.pending_inputs
    (snd (GameServer._process_inputs (sample_server GameMode_CLASSIC))) = [].
Proof.
  destruct (inputs_never_reverse (sample_server GameMode_CLASSIC)) as (H & _).
  - repeat constructor. intros [].
  - exact H.
Defined.

(** ** Projectiles *)

Lemma bomb_flight_spec (steps : nat) :
  forall bomb e,
  exists b' flag e',
    SnakeGameLogic.bomb_flight steps bomb e = (Return (b', flag), e') /\
    Bomb.owner_id b' = Bomb.owner_id bomb /\
    Bomb.direction b' = Bomb.direction bomb /\
    (flag = false ->
     Bomb.remaining_range b'
     = Bomb.remaining_range bomb - Z.of_nat steps /\
     (steps <> O -> 0 < Bomb.remaining_range b')).
Proof.
  induction steps as [|steps IH]; intros bomb e;
    cbn [SnakeGameLogic.bomb_flight].
  - exists bomb, false, e. cbn. repeat split; auto; try lia; congruence.
  - cbv zeta. rewrite bind_gets.
    set (pos := step_cell (Bomb.direction bomb) (Bomb.x bomb, Bomb.y bomb)).
    assert (Hafter : forall m : Bomb.t,
      Bomb.owner_id m = Bomb.owner_id bomb ->
      Bomb.direction m = Bomb.direction bomb ->
      Bomb.remaining_range m = Bomb.remaining_range bomb - 1 ->
      exists b' flag e',
        (g <- gets game ;;
         match find_hit (Bomb.x m, Bomb.y m) (GameData.snakes g) with
         | Some (player_id, hit_index) =>
             SnakeGameLogic._create_explosion (Bomb.x m) (Bomb.y m) ;;
             modify_snake player_id (strike hit_index) ;;
             emit (EvStrike player_id) ;;
             ret (m, true)
         | None =>
             if Bomb.remaining_range m <=? 0 then ret (m, true)
             else SnakeGameLogic.bomb_flight steps m
         end) e = (Return (b', flag), e') /\
        Bomb.owner_id b' = Bomb.owner_id bomb /\
        Bomb.direction b' = Bomb.direction bomb /\
        (flag = false ->
         Bomb.remaining_range b'
         = Bomb.remaining_range bomb - Z.of_nat (S steps) /\
         (S steps <> O -> 0 < Bomb.remaining_range b'))).
    { intros m Ho Hd Hr. rewrite bind_gets.
      destruct (find_hit (Bomb.x m, Bomb.y m) (GameData.snakes (game e)))
        as [[player_id hit_index]|].
      - eexists m, true, _. split; [reflexivity|].
        repeat split; auto; discriminate.
      - destruct (Bomb.remaining_range m <=? 0) eqn:El.
        + eexists m, true, _. split; [reflexivity|].
          repeat split; auto; discriminate.
        + apply Z.leb_gt in El.
          destruct (IH m e) as (b' & flag & e' & Heq & Ho' & Hd' & Hf).
          exists b', flag, e'. split; [exact Heq|].
          split; [congruence|]. split; [congruence|].
          intros Hflag. destruct (Hf Hflag) as [Hrange Hpos].
          split; [lia|]. intros _.
          destruct steps as [|steps']; [cbn in Hrange; lia|].
          apply Hpos. discriminate. }
    destruct (GameData.walls_enabled (game e)).
    + destruct (out_of_bounds (game e) pos).
      * eexists _, true, _. split; [reflexivity|].
        repeat split; auto; discriminate.
      * apply Hafter; reflexivity.
    + apply Hafter; reflexivity.
Qed.

Lemma fly_bombs_spec (bombs : list Bomb.t) :
  forall e,
  exists flown e',
    SnakeGameLogic.fly_bombs bombs e = (Return flown, e') /\
    Forall2 (fun b r =>
      Bomb.owner_id (fst r) = Bomb.owner_id b /\
      Bomb.direction (fst r) = Bomb.direction b /\
      (snd r = false ->
       Bomb.remaining_range (fst r)
       = Bomb.remaining_range b - Z.of_nat BOMB_SPEED /\
       0 < Bomb.remaining_range (fst r))) bombs flown.
Proof.
  induction bombs as [|bomb rest IH]; intros e;
    cbn [SnakeGameLogic.fly_bombs].
  - exists [], e. split; [reflexivity | constructor].
  - destruct (bomb_flight_spec BOMB_SPEED bomb e)
      as (b' & flag & e1 & Heq & Ho & Hd & Hf).
    destruct (IH e1) as (flown & e2 & Heq2 & Hall).
    exists ((b', flag) :: flown), e2. split.
    + unfold bind at 1. rewrite Heq. unfold bind at 1. rewrite Heq2.
      reflexivity.
    + constructor; [|exact Hall]. cbn [fst snd].
      repeat split; auto; apply Hf; auto; discriminate.
Qed.

(** X17. An update of the projectiles never fails and never adds one.
    Every projectile still in the game afterwards is one of those of
    before, with its owner and direction, exactly [BOMB_SPEED] cells of
    range shorter, and has range left: when no projectile has more than 3
    cells of range, none is left after the update. *)
Theorem update_bombs_spends_range (e : Env) :
  let r := SnakeGameLogic._update_bombs e in
  fst r = Return tt /\
  (List.length (GameData.bombs (game (snd r)))
   <= List.length (GameData.bombs (game e)))%nat /\
  Forall (still_flying (GameData.bombs (game e)))
         (GameData.bombs (game (snd r))) /\
  (Forall (fun b => Bomb.remaining_range b <= Z.of_nat BOMB_SPEED)
          (GameData.bombs (game e)) ->
   GameData.bombs (game (snd r)) = []).
Proof.
  cbv zeta.
  enough (H : fst (SnakeGameLogic._update_bombs e) = Return tt /\
    (List.length (GameData.bombs (game (snd (SnakeGameLogic._update_bombs e))))
     <= List.length (GameData.bombs (game e)))%nat /\
    Forall (still_flying (GameData.bombs (game e)))
      (GameData.bombs (game (snd (SnakeGameLogic._update_bombs e))))).
  { destruct H as (H1 & H2 & H3). repeat split; auto.
    intros Hshort.
    destruct (GameData.bombs (game (snd (SnakeGameLogic._update_bombs e))))
      as [|b' l]; [reflexivity|].
    inversion H3 as [|? ? (b & Hin & _ & _ & Hr & Hpos) _]. subst.
    rewrite Forall_forall in Hshort. specialize (Hshort b Hin). lia. }
  unfold SnakeGameLogic._update_bombs. rewrite bind_gets.
  destruct (fly_bombs_spec (GameData.bombs (game e)) e)
    as (flown & e1 & Heq & Hall).
  unfold bind. rewrite Heq. cbn.
  clear Heq. revert Hall.
  generalize (GameData.bombs (game e)). intros bombs Hall.
  split; [reflexivity|].
  induction Hall as [|b r bombs flown (Ho & Hd & Hf) Hall IH];
    cbn [filter map List.length].
  - split; [lia | constructor].
  - destruct IH as [IHlen IHall].
    assert (Hweak : Forall (still_flying (b :: bombs))
                      (map fst (filter (fun b0 => negb (snd b0)) flown))).
    { eapply Forall_impl; [|exact IHall].
      intros b' (b0 & Hin & Hrest). exists b0. split; [now right | exact Hrest]. }
    destruct (snd r) eqn:Er; cbn [negb map List.length].
    + split; [lia | exact Hweak].
    + split; [lia|]. constructor; [|exact Hweak].
      exists b. split; [now left|]. destruct (Hf eq_refl). auto.
Qed.

(** ** Explosions *)

Lemma explosions_after_S (n : nat) (e : Env) :
  explosions_after (S n) e
  = snd (SnakeGameLogic._update_explosions (explosions_after n e)).
Proof. reflexivity. Qed.

(** X18. After [n >= 1] updates the explosions left are those that had
    more than [n] ticks to live, in their order, each with its place and
    radius and [n] ticks less to live.  An explosion is created with 5
    ticks to live: it is there for four updates and gone with the fifth. *)
Theorem explosion_lifetime (n : nat) (e : Env) :
  GameData.explosions (game (explosions_after (S n) e))
  = map (aged (S n))
      (filter (fun x => Z.of_nat (S n) <? Explosion.ttl x)
              (GameData.explosions (game e))) /\
  (forall x y,
     In (aged 4 (Explosion.mk x y 3 5))
        (GameData.explosions
           (game (explosions_after 4
                    (snd (SnakeGameLogic._create_explosion x y e))))) /\
     ~ In (aged 5 (Explosion.mk x y 3 5))
        (GameData.explosions
           (game (explosions_after 5
                    (snd (SnakeGameLogic._create_explosion x y e)))))).
Proof.
  assert (Hgen : forall n e,
    GameData.explosions (game (explosions_after (S n) e))
    = map (aged (S n))
        (filter (fun x => Z.of_nat (S n) <? Explosion.ttl x)
                (GameData.explosions (game e)))).
  { clear. intros n e. induction n as [|n IH].
    - cbn [explosions_after Nat.iter]. cbn.
      induction (GameData.explosions (game e)) as [|x l IHl];
        cbn [map filter]; [reflexivity|].
      cbn [Explosion.ttl].
      replace (Explosion.ttl x - 1 <=? 0) with (negb (1 <? Explosion.ttl x))
        by (destruct (1 <? Explosion.ttl x) eqn:E1;
            destruct (Explosion.ttl x - 1 <=? 0) eqn:E2; cbn; try reflexivity;
            try apply Z.ltb_lt in E1; try apply Z.ltb_ge in E1;
            try apply Z.leb_le in E2; try apply Z.leb_gt in E2; lia).
      rewrite negb_involutive.
      destruct (1 <? Explosion.ttl x); cbn [map]; rewrite IHl; reflexivity.
    - rewrite explosions_after_S.
      remember (S n) as m eqn:Hm.
      cbn [SnakeGameLogic._update_explosions]. unfold SnakeGameLogic._update_explosions.
      cbn [modify_game modify snd game GameData.explosions GameData.set_explosions].
      cbn. rewrite IH. clear IH.
      change (Z.pos (Pos.of_succ_nat m)) with (Z.of_nat (S m)).
      induction (GameData.explosions (game e)) as [|x l IHl];
        cbn [map filter]; [reflexivity|].
      destruct (Z.of_nat m <? Explosion.ttl x) eqn:E1;
        destruct (Z.of_nat (S m) <? Explosion.ttl x) eqn:E2;
        cbn [map filter aged Explosion.ttl Explosion.x Explosion.y
             Explosion.radius];
        try apply Z.ltb_lt in E1; try apply Z.ltb_ge in E1;
        try apply Z.ltb_lt in E2; try apply Z.ltb_ge in E2; try lia.
      + replace (Explosion.ttl x - Z.of_nat m - 1 <=? 0) with false
          by (symmetry; apply Z.leb_gt; lia).
        cbn [negb map]. rewrite IHl. unfold aged. f_equal. f_equal. lia.
      + replace (Explosion.ttl x - Z.of_nat m - 1 <=? 0) with true
          by (symmetry; apply Z.leb_le; lia).
        cbn [negb]. exact IHl.
      + exact IHl. }
  split; [apply Hgen|].
  intros x y. rewrite !Hgen. cbn [SnakeGameLogic._create_explosion].
  unfold SnakeGameLogic._create_explosion.
  cbn [modify_game modify snd game GameData.explosions GameData.set_explosions].
  rewrite !filter_app, !map_app. cbn [filter]. split.
  - apply in_or_app. right. cbn. now left.
  - intros Hin. apply in_app_or in Hin. destruct Hin as [Hin|Hin].
    + apply in_map_iff in Hin. destruct Hin as (x0 & Hx0 & Hin).
      apply filter_In in Hin. destruct Hin as [_ Hlt].
      apply Z.ltb_lt in Hlt. unfold aged in Hx0. cbn in Hx0.
      injection Hx0 as _ _ _ Httl. lia.
    + cbn in Hin. exact Hin.
Qed.

(** ** The cloak *)

Lemma apply_ghost (t0 : Z) (pid : string) (e : Env) (s : Snake.t) :
  Dict.get pid (GameData.snakes (game e)) = Some s ->
  Snake.alive s = true ->
  Snake.has_ghost s = true ->
  GameServer.apply_input t0 pid "GHOST" e
  = SnakeGameLogic._activate_ghost pid t0 e.
Proof.
  intros Hget Halive Hghost.
  unfold GameServer.apply_input. rewrite bind_gets. rewrite Hget, Halive.
  cbn [negb].
  change (String.eqb "GHOST" "UP") with false.
  change (String.eqb "GHOST" "DOWN") with false.
  change (String.eqb "GHOST" "LEFT") with false.
  change (String.eqb "GHOST" "RIGHT") with false.
  change (String.eqb "GHOST" "FIRE") with false.
  change (String.eqb "GHOST" "GHOST") with true.
  cbn [andb]. rewrite Hghost. reflexivity.
Qed.

Lemma get_modify_snake (pid k : string) (f : Snake.t -> Snake.t) (e : Env) :
  Dict.get k (GameData.snakes (game (snd (modify_snake pid f e))))
  = if String.eqb pid k then option_map f (Dict.get k (GameData.snakes (game e)))
    else Dict.get k (GameData.snakes (game e)).
Proof. cbn. apply get_update. Qed.

Lemma expire_invisibility_state (t : Z) (pid : string) (e : Env)
  (s : Snake.t) :
  Dict.get pid (GameData.snakes (game e)) = Some s ->
  snd (GameServer.expire_invisibility t pid e)
  = if Snake.is_invisible s && (t >=? Snake.invisible_until s)
    then snd (modify_snake pid (Snake.set_is_invisible false) e)
    else e.
Proof.
  intros Hget. unfold GameServer.expire_invisibility, get_snake, bind, gets.
  cbn [fst snd]. rewrite Hget. cbn [ret].
  destruct (Snake.is_invisible s && (t >=? Snake.invisible_until s));
    reflexivity.
Qed.

(** X19. A living actor that holds the cloak pickup and sends ['GHOST'] at
    time [t0] is invisible from then on, and the pickup is used up.  The
    check made at the start of a tick at time [t] leaves it invisible
    exactly while [t] is less than [t0 + GHOST_DURATION]; its body is not
    touched by either step. *)
Theorem cloak_lasts_ghost_duration (t0 t : Z) (pid : string) (e : Env)
  (s : Snake.t) :
  Dict.get pid (GameData.snakes (game e)) = Some s ->
  Snake.alive s = true ->
  Snake.has_ghost s = true ->
  let e1 := snd (GameServer.apply_input t0 pid "GHOST" e) in
  let e2 := snd (GameServer.expire_invisibility t pid e1) in
  exists s1 s2,
    Dict.get pid (GameData.snakes (game e1)) = Some s1 /\
    Snake.is_invisible s1 = true /\
    Snake.has_ghost s1 = false /\
    Snake.invisible_until s1 = t0 + GHOST_DURATION /\
    Dict.get pid (GameData.snakes (game e2)) = Some s2 /\
    Snake.is_invisible s2 = (t <? t0 + GHOST_DURATION) /\
    Snake.has_ghost s2 = false /\
    Snake.body s2 = Snake.body s /\
    Snake.alive s2 = true.
Proof.
  intros Hget Halive Hghost. cbv zeta.
  rewrite (apply_ghost t0 pid e s Hget Halive Hghost).
  unfold SnakeGameLogic._activate_ghost.
  set (s1 := Snake.set_invisible_until (t0 + GHOST_DURATION)
               (Snake.set_is_invisible true (Snake.set_has_ghost false s))).
  set (e1 := snd (modify_snake pid _ e)).
  assert (H1 : Dict.get pid (GameData.snakes (game e1)) = Some s1).
  { unfold e1. rewrite get_modify_snake, String.eqb_refl, Hget. reflexivity. }
  rewrite (expire_invisibility_state t pid e1 s1 H1).
  change (Snake.is_invisible s1) with true.
  change (Snake.invisible_until s1) with (t0 + GHOST_DURATION).
  cbn [andb]. rewrite Z.geb_leb.
  destruct (t0 + GHOST_DURATION <=? t) eqn:E.
  - apply Z.leb_le in E.
    exists s1, (Snake.set_is_invisible false s1).
    repeat split; auto.
    + rewrite get_modify_snake, String.eqb_refl, H1. reflexivity.
    + cbn. symmetry. apply Z.ltb_ge. exact E.
  - apply Z.leb_gt in E.
    exists s1, s1. repeat split; auto.
    cbn. symmetry. apply Z.ltb_lt. exact E.
Qed.

Lemma cloak_lasts_ghost_duration_witness :
  exists s2,
    Dict.get ann_id
      (GameData.snakes
         (game (snd (GameServer.expire_invisibility 54999 ann_id
                  (snd (GameServer.apply_input 50000 ann_id "GHOST"
                          ghost_env))))))
    = Some s2 /\
    Snake.is_invisible s2 = true.
Proof.
  destruct (cloak_lasts_ghost_duration 50000 54999 ann_id ghost_env
              (Snake.set_has_ghost true ann) eq_refl eq_refl eq_refl)
    as (s1 & s2 & _ & _ & _ & _ & H2 & Hinv & _).
  exists s2. split; [exact H2 | exact Hinv].
Defined.

(** ** Firing *)

Lemma apply_fire (now : Z) (pid : string) (e : Env) (s : Snake.t) :
  Dict.get pid (GameData.snakes (game e)) = Some s ->
  Snake.alive s = true ->
  GameServer.apply_input now pid "FIRE" e
  = if Snake.has_weapon s then SnakeGameLogic._fire_weapon pid e
    else (Return tt, e).
Proof.
  intros Hget Halive.
  unfold GameServer.apply_input. rewrite bind_gets. rewrite Hget, Halive.
  cbn [negb].
  change (String.eqb "FIRE" "UP") with false.
  change (String.eqb "FIRE" "DOWN") with false.
  change (String.eqb "FIRE" "LEFT") with false.
  change (String.eqb "FIRE" "RIGHT") with false.
  change (String.eqb "FIRE" "FIRE") with true.
  change (String.eqb "FIRE" "GHOST") with false.
  cbn [andb]. destruct (Snake.has_weapon s); reflexivity.
Qed.

(** X20. ['FIRE'] of a living actor without a weapon changes nothing.
    With a weapon it uses the weapon up and adds exactly one projectile, on
    the cell in front of the head, flying in the heading of the actor, with
    the actor's number as owner and [BOMB_RANGE] cells of range; the other
    actors are as before. *)
Theorem fire_uses_weapon (now : Z) (pid : string) (e : Env) (s : Snake.t)
  (head : Cell) (rest : list Cell) :
  Dict.get pid (GameData.snakes (game e)) = Some s ->
  Snake.alive s = true ->
  Snake.body s = head :: rest ->
  let r := GameServer.apply_input now pid "FIRE" e in
  let start := step_cell (Snake.direction s) head in
  fst r = Return tt /\
  (Snake.has_weapon s = false -> snd r = e) /\
  (Snake.has_weapon s = true ->
   GameData.bombs (game (snd r))
   = GameData.bombs (game e)
     ++ [Bomb.mk (fst start) (snd start) (Snake.direction s)
                 (Snake.player_id s) BOMB_RANGE] /\
   Dict.get pid (GameData.snakes (game (snd r)))
   = Some (Snake.set_has_weapon false s) /\
   forall other, other <> pid ->
     Dict.get other (GameData.snakes (game (snd r)))
     = Dict.get other (GameData.snakes (game e))).
Proof.
  intros Hget Halive Hbody. cbv zeta.
  rewrite (apply_fire now pid e s Hget Halive).
  destruct (Snake.has_weapon s) eqn:Hw.
  - unfold SnakeGameLogic._fire_weapon, get_snake, modify_snake, modify_game,
      modify, bind, gets.
    cbn. rewrite get_update, String.eqb_refl, Hget. cbn. rewrite Hbody. cbn.
    split; [reflexivity|]. split; [discriminate|]. intros _.
    split; [reflexivity|].
    split; [rewrite get_update, String.eqb_refl, Hget; reflexivity|].
    intros other Hne. rewrite get_update.
    destruct (String.eqb pid other) eqn:E; [|reflexivity].
    apply String.eqb_eq in E. congruence.
  - split; [reflexivity|]. split; [reflexivity | discriminate].
Qed.

Lemma fire_uses_weapon_witness :
  GameData.bombs
    (game (snd (GameServer.apply_input 50000 bob_id "FIRE"
                  (GameServer.env (sample_server GameMode_CLASSIC)))))
  = [Bomb.mk 8 2 DOWN 1 BOMB_RANGE].
Proof.
  destruct (fire_uses_weapon 50000 bob_id
              (GameServer.env (sample_server GameMode_CLASSIC)) bob
              (8, 1) [(9, 1); (10, 1)] eq_refl eq_refl eq_refl)
    as (_ & _ & H).
  destruct (H eq_refl) as (Hb & _). exact Hb.
Defined.

(** ** The end of a game *)

Lemma announce_winner (l : list Snake.t) :
  forall e,
    let r := for_each l
               (fun s =>
                  when (Snake.alive s)
                    (modify_game (GameData.set_winner (Snake.player_name s))))
               e in
    fst r = Return tt /\
    snd r = mkEnv (GameData.set_winner
                     (fold_left (fun w s => if Snake.alive s
                                            then Snake.player_name s else w)
                                l (GameData.winner (game e)))
                     (game e))
                  (rng e) (trace e).
Proof.
  induction l as [|s l IH]; intros e; cbn [for_each fold_left].
  - cbn. split; [reflexivity|]. destruct e as [g ? ?]. destruct g.
    reflexivity.
  - cbv zeta. unfold bind.
    destruct (Snake.alive s); cbn [when].
    + cbn [modify_game modify fst snd].
      destruct (IH (mkEnv (GameData.set_winner (Snake.player_name s) (game e))
                          (rng e) (trace e))) as [Hr Hs].
      cbv zeta in Hr, Hs.
      unfold modify_game, modify.
      destruct (for_each l _ _) as [o e']. cbn [fst snd] in *.
      subst. split; reflexivity.
    + cbn [ret]. apply IH.
Qed.

Lemma winner_fold_nil (l : list Snake.t) (w : string) :
  filter Snake.alive l = [] ->
  fold_left (fun w s => if Snake.alive s then Snake.player_name s else w) l w
  = w.
Proof.
  revert w. induction l as [|s l IH]; intros w; cbn; [reflexivity|].
  destruct (Snake.alive s); [discriminate|]. apply IH.
Qed.

Lemma winner_fold_one (l : list Snake.t) (w : string) (s : Snake.t) :
  filter Snake.alive l = [s] ->
  fold_left (fun w s => if Snake.alive s then Snake.player_name s else w) l w
  = Snake.player_name s.
Proof.
  revert w. induction l as [|s0 l IH]; intros w; cbn; [discriminate|].
  destruct (Snake.alive s0).
  - intros [= -> Hrest]. apply winner_fold_nil. exact Hrest.
  - apply IH.
Qed.

Lemma bind_modify_game {B} (f : GameData.t -> GameData.t)
  (k : unit -> M Env B) (e : Env) :
  bind (modify_game f) k e = k tt (mkEnv (f (game e)) (rng e) (trace e)).
Proof. reflexivity. Qed.

(** X21. The check for a winner ends the game only when there are at
    least two actors and at most one of them is alive: the state becomes
    ['finished'], and the winner is the name of the survivor, or stays as
    it was when nobody survived.  With a single actor, or with two or more
    alive, the check changes nothing; it never touches the actors. *)
Theorem winner_declared (e : Env) :
  let r := GameServer.check_winner e in
  let g := game e in
  let g' := game (snd r) in
  let survivors := filter Snake.alive (Dict.values (GameData.snakes g)) in
  fst r = Return tt /\
  GameData.snakes g' = GameData.snakes g /\
  ((List.length (GameData.snakes g) < 2)%nat \/
   (2 <= List.length survivors)%nat -> snd r = e) /\
  ((2 <= List.length (GameData.snakes g))%nat -> survivors = [] ->
   GameData.state g' = GameState_FINISHED /\
   GameData.winner g' = GameData.winner g) /\
  (forall s, (2 <= List.length (GameData.snakes g))%nat -> survivors = [s] ->
   GameData.state g' = GameState_FINISHED /\
   GameData.winner g' = Snake.player_name s).
Proof.
  cbv zeta. unfold GameServer.check_winner. rewrite bind_gets.
  set (survivors := filter Snake.alive (Dict.values (GameData.snakes (game e)))).
  destruct ((len survivors <=? 1) && (len (GameData.snakes (game e)) >? 1))
    eqn:Ec; cbn [when].
  - apply andb_true_iff in Ec. destruct Ec as [Ea Es].
    apply Z.leb_le in Ea. rewrite Z.gtb_ltb in Es. apply Z.ltb_lt in Es.
    unfold len in Ea, Es.
    rewrite bind_modify_game.
    destruct (announce_winner (Dict.values (GameData.snakes (game e)))
                (mkEnv (GameData.set_state GameState_FINISHED (game e))
                       (rng e) (trace e))) as [Hr Hs].
    cbv zeta in Hr, Hs. rewrite Hr, Hs. cbn.
    split; [reflexivity|]. split; [reflexivity|].
    split; [intros [H|H]; lia|].
    split.
    + intros _ Hnone. split; [reflexivity|].
      apply winner_fold_nil. exact Hnone.
    + intros s _ Hone. split; [reflexivity|].
      apply winner_fold_one. exact Hone.
  - apply andb_false_iff in Ec. cbn.
    split; [reflexivity|]. split; [reflexivity|].
    split; [reflexivity|].
    unfold len in Ec.
    split.
    + intros H2 Hnone. exfalso. fold survivors in Hnone. rewrite Hnone in Ec.
      destruct Ec as [Ec|Ec]; [discriminate Ec|].
      rewrite Z.gtb_ltb in Ec. apply Z.ltb_ge in Ec. lia.
    + intros s H2 Hone. exfalso. fold survivors in Hone. rewrite Hone in Ec.
      destruct Ec as [Ec|Ec]; [discriminate Ec|].
      rewrite Z.gtb_ltb in Ec. apply Z.ltb_ge in Ec. lia.
Qed.

Lemma winner_declared_witness :
  GameData.state (game (snd (GameServer.check_winner duel_over_env)))
  = GameState_FINISHED /\
  GameData.winner (game (snd (GameServer.check_winner duel_over_env)))
  = "Bob".
Proof.
  destruct (winner_declared duel_over_env) as (_ & _ & _ & _ & H).
  apply (H bob); [cbn; lia | reflexivity].
Defined.

(** ** Collision resolution leaves no collision behind *)

Lemma entries_get_back {V} (R : string -> V -> V -> Prop) (d d' : Dict.t V)
  (k : string) (v' : V) :
  entries R d d' -> Dict.get k d' = Some v' ->
  exists v, Dict.get k d = Some v /\ R k v v'.
Proof.
  intros H. induction H as [|[k1 v1] [k2 v2] d1 d2 [Hk H1] _ IH]; cbn;
    [discriminate|].
  cbn in Hk, H1. subst k2.
  destruct (String.eqb k k1) eqn:E.
  - apply String.eqb_eq in E. subst k1. intros [= <-]. eauto.
  - exact IH.
Qed.

Lemma existsb_cell_eqb_In (c : Cell) (l : list Cell) :
  In c l -> existsb (cell_eqb c) l = true.
Proof.
  intros Hin. apply existsb_exists. exists c. split; [exact Hin|].
  now apply cell_eqb_true.
Qed.

Lemma hits_other_intro (k b : string) (B : Snake.t) (head : Cell)
  (snakes : Dict.t Snake.t) :
  In (b, B) snakes -> b <> k -> Snake.alive B = true ->
  Snake.is_invisible B = false -> In head (Snake.body B) ->
  SnakeGameLogic.hits_other k head snakes = true.
Proof.
  intros Hin Hne Ha Hv Hb. unfold SnakeGameLogic.hits_other.
  apply existsb_exists. exists (b, B). split; [exact Hin|]. cbn.
  apply String.eqb_neq in Hne. rewrite Hne, Ha, Hv. cbn.
  now apply existsb_cell_eqb_In.
Qed.

Lemma check_snake_settles (k : string) (e : Env) :
  settled (game (snd (SnakeGameLogic.check_snake k e))) k.
Proof.
  rewrite check_snake_state. intros s0 head0 tail0.
  destruct (Dict.get k (GameData.snakes (game e))) as [s|] eqn:Hget.
  - destruct (Snake.alive s) eqn:Halive; cbn [negb].
    + destruct (Snake.body s) as [|head tail] eqn:Hbody.
      * rewrite Hget. intros [= <-]. congruence.
      * match goal with
        | |- context [if ?c then _ else _] => destruct c eqn:Hc
        end.
        -- rewrite get_modify_snake, String.eqb_refl, Hget. cbn.
           intros [= <-]. cbn. discriminate.
        -- rewrite Hget. intros [= <-] _ Hb. rewrite Hbody in Hb.
           injection Hb as <- <-. exact Hc.
    + rewrite Hget. intros [= <-]. congruence.
  - rewrite Hget. discriminate.
Qed.

Lemma settled_mono (e e' : Env) (k : string) :
  collisions_rel e e' -> settled (game e) k -> settled (game e') k.
Proof.
  intros Hrel Hset s' head tail Hget Halive Hbody.
  pose proof Hrel as (Hw & Hwd & Hh & He).
  destruct (entries_get_back _ _ _ _ _ He Hget) as (s & Hgs & Hb & Hi & Ha & _).
  specialize (Hset s head tail Hgs (Ha Halive) ltac:(congruence)).
  rewrite !orb_false_iff in *. destruct Hset as [[H1 H2] H3].
  repeat split.
  - unfold out_of_bounds in *. rewrite Hw, Hwd, Hh. exact H1.
  - exact H2.
  - destruct (SnakeGameLogic.hits_other k head (GameData.snakes (game e')))
      eqn:Hhit; [|reflexivity].
    destruct (hits_other_cause e e' k head Hrel Hhit)
      as (c & C & Hin & Hne & Hca & Hcv & Hcb).
    rewrite <- H3. symmetry.
    eapply hits_other_intro; eassumption.
Qed.

Lemma check_snake_returns (k : string) (e : Env) (s : Snake.t) :
  Dict.get k (GameData.snakes (game e)) = Some s ->
  Snake.body s <> [] ->
  fst (SnakeGameLogic.check_snake k e) = Return tt.
Proof.
  intros Hget Hbody.
  unfold SnakeGameLogic.check_snake, get_snake, bind, gets, ret, raise.
  cbn [fst snd]. rewrite Hget.
  destruct (negb (Snake.alive s)); [reflexivity|].
  destruct (Snake.body s) as [|head tail]; [congruence|].
  destruct (GameData.walls_enabled (game e) && out_of_bounds (game e) head);
    [reflexivity|].
  destruct (existsb (cell_eqb head) tail); [reflexivity|].
  destruct (SnakeGameLogic.hits_other k head (GameData.snakes (game e)));
    reflexivity.
Qed.

Lemma collisions_settle (ks : list string) :
  forall e,
    NoDup (Dict.keys (GameData.snakes (game e))) ->
    (forall k, In k ks ->
       exists s, Dict.get k (GameData.snakes (game e)) = Some s /\
                 Snake.body s <> []) ->
    fst (for_each ks SnakeGameLogic.check_snake e) = Return tt /\
    forall k, In k ks ->
      settled (game (snd (for_each ks SnakeGameLogic.check_snake e))) k.
Proof.
  induction ks as [|k ks IH]; intros e Hnd Hks; cbn [for_each].
  - split; [reflexivity | intros k []].
  - destruct (Hks k (or_introl eq_refl)) as (s & Hget & Hbody).
    pose proof (check_snake_returns k e s Hget Hbody) as Hret.
    pose proof (check_snake_settles k e) as Hsettled.
    pose proof (collisions_check_snake e e k Hnd (collisions_refl e)) as Hrel.
    unfold bind.
    destruct (SnakeGameLogic.check_snake k e) as [o e1]. cbn [fst snd] in *.
    subst o.
    pose proof Hrel as (_ & _ & _ & He).
    assert (Hnd1 : NoDup (Dict.keys (GameData.snakes (game e1))))
      by (rewrite (entries_keys _ _ _ He); exact Hnd).
    assert (Hks1 : forall k0, In k0 ks ->
              exists s0, Dict.get k0 (GameData.snakes (game e1)) = Some s0 /\
                         Snake.body s0 <> []).
    { intros k0 Hin. destruct (Hks k0 (or_intror Hin)) as (s0 & Hg0 & Hb0).
      destruct (entries_get _ _ _ _ _ He Hg0) as (s1 & Hg1 & Hb1 & _).
      exists s1. split; [exact Hg1 | congruence]. }
    destruct (IH e1 Hnd1 Hks1) as [Hr Hall].
    split; [exact Hr|].
    intros k0 [<-|Hin]; [|apply Hall, Hin].
    eapply settled_mono; [|exact Hsettled].
    apply collisions_for_each; [exact Hnd1 | apply collisions_refl].
Qed.

Lemma keys_get {V} (k : string) (d : Dict.t V) :
  In k (Dict.keys d) -> exists v, Dict.get k d = Some v /\ In (k, v) d.
Proof.
  unfold Dict.keys. induction d as [|[k0 v0] d IH]; cbn; [intros []|].
  intros Hin. destruct (String.eqb k k0) eqn:E.
  - apply String.eqb_eq in E. subst k0. exists v0. split; auto.
  - destruct Hin as [->|Hin]; [rewrite String.eqb_refl in E; discriminate|].
    destruct (IH Hin) as (v & Hg & Hv). exists v. split; auto.
Qed.

(** X22. Collision resolution leaves no collision behind.  With distinct
    actors that all have a body, it returns, and every actor that is alive
    afterwards has its head inside the walls when walls are enabled, not on
    its own body, and not on any segment of another actor that is alive
    and visible afterwards. *)
Theorem collisions_leave_none (e : Env) :
  NoDup (Dict.keys (GameData.snakes (game e))) ->
  all_bodies_nonempty (game e) ->
  let r := SnakeGameLogic._check_collisions e in
  let g' := game (snd r) in
  fst r = Return tt /\
  forall a A head tail,
    Dict.get a (GameData.snakes g') = Some A ->
    Snake.alive A = true ->
    Snake.body A = head :: tail ->
    (GameData.walls_enabled g' = true -> out_of_bounds g' head = false) /\
    ~ In head tail /\
    forall b B,
      b <> a -> Dict.get b (GameData.snakes g') = Some B ->
      Snake.alive B = true -> Snake.is_invisible B = false ->
      ~ In head (Snake.body B).
Proof.
  intros Hnd Hbodies. cbv zeta.
  unfold SnakeGameLogic._check_collisions. rewrite bind_gets.
  assert (Hks : forall k, In k (Dict.keys (GameData.snakes (game e))) ->
            exists s, Dict.get k (GameData.snakes (game e)) = Some s /\
                      Snake.body s <> []).
  { intros k Hin. destruct (keys_get k _ Hin) as (s & Hg & Hs).
    exists s. split; [exact Hg|].
    unfold all_bodies_nonempty in Hbodies. rewrite Forall_forall in Hbodies.
    specialize (Hbodies (k, s) Hs). cbn in Hbodies.
    intros Hnil. rewrite Hnil in Hbodies. cbn in Hbodies. lia. }
  destruct (collisions_settle _ e Hnd Hks) as [Hr Hall].
  pose proof (collisions_for_each e (Dict.keys (GameData.snakes (game e)))
                Hnd e (collisions_refl e)) as (_ & _ & _ & He).
  split; [exact Hr|].
  intros a A head tail Hget Halive Hbody.
  assert (Hin : In a (Dict.keys (GameData.snakes (game e)))).
  { rewrite <- (entries_keys _ _ _ He). unfold Dict.keys.
    apply get_In in Hget. change a with (fst (a, A)). now apply in_map. }
  specialize (Hall a Hin A head tail Hget Halive Hbody).
  rewrite !orb_false_iff in Hall. destruct Hall as [[H1 H2] H3].
  repeat split.
  - intros Hw. rewrite Hw in H1. exact H1.
  - intros Htail. apply existsb_cell_eqb_In in Htail. congruence.
  - intros b B Hne Hgb Hba Hbv Hbb.
    apply get_In in Hgb.
    pose proof (hits_other_intro a b B head _ Hgb Hne Hba Hbv Hbb). congruence.
Qed.

Lemma collisions_leave_none_witness :
  fst (SnakeGameLogic._check_collisions cloak_env) = Return tt.
Proof.
  apply (collisions_leave_none cloak_env).
  - repeat constructor; cbn; intuition discriminate.
  - repeat constructor; cbn; lia.
Defined.

(** ** A move *)

Lemma find_cell_eqb_some (c f : Cell) (l : list Cell) :
  find (cell_eqb c) l = Some f -> In c l.
Proof.
  intros H. apply find_some in H. destruct H as [Hin Heq].
  apply cell_eqb_true in Heq. now subst.
Qed.

Lemma find_cell_eqb_none (c : Cell) (l : list Cell) :
  find (cell_eqb c) l = None -> ~ In c l.
Proof.
  intros H Hin. apply (find_none _ _ H) in Hin.
  assert (cell_eqb c c = true) by now apply cell_eqb_true. congruence.
Qed.

Lemma wrap_coord_inside (v limit : Z) :
  3 <= limit -> 1 <= wrap_coord v limit <= limit - 2.
Proof.
  intros H. unfold wrap_coord.
  destruct (v <=? 0) eqn:E1; [lia|]. apply Z.leb_gt in E1.
  rewrite Z.geb_leb.
  destruct (limit - 1 <=? v) eqn:E2; [lia|]. apply Z.leb_gt in E2. lia.
Qed.

(** Closes a path of [_move_snake]. *)
Ltac move_close :=
  match goal with
  | P := _ : Env -> Prop, Hget : Dict.get ?pid _ = Some _,
    Hbody : Snake.body _ = _ |- _ =>
      unfold P; cbn;
      repeat match goal with
             | H : GameData.snakes _ = _ |- _ => rewrite H
             end;
      rewrite ?get_update, ?String.eqb_refl, Hget; cbn;
      eexists; split; [reflexivity|]; cbn; rewrite ?Hbody;
      repeat match goal with
             | Q : GameData.mode (game ?a) = _,
               H : String.eqb (GameData.mode (game ?a)) _ = _ |- _ =>
                 rewrite Q in H
             end;
      repeat match goal with
             | H : String.eqb _ _ = true |- _ => apply String.eqb_eq in H
             | H : String.eqb _ _ = false |- _ => apply String.eqb_neq in H
             end;
      repeat match goal with |- _ /\ _ => split end;
      try assumption; try reflexivity;
      try (intros; first [reflexivity | exfalso; tauto | lia]);
      try (intros other Hne;
           assert (E : String.eqb pid other = false)
             by (apply String.eqb_neq; congruence);
           repeat (rewrite get_update, E); reflexivity)
  end.

Opaque SnakeGameLogic._spawn_food.

(** X23. A move puts the new head one cell ahead in the heading of the
    snake, wrapped to the opposite side when walls are disabled.  The old
    segments follow: the tail is dropped unless the snake ate or the mode
    is ['kurve'].  Eating gives 10 points; heading and life are as before,
    no other actor is touched, and without walls the new head lies inside
    the border of a field of at least 3 by 3. *)
Theorem move_advances_one_cell (pid : string) (e : Env) (s : Snake.t)
  (head : Cell) (tail : list Cell) :
  Dict.get pid (GameData.snakes (game e)) = Some s ->
  Snake.body s = head :: tail ->
  let g := game e in
  let nh := next_head g s head in
  let g' := game (snd (SnakeGameLogic._move_snake pid e)) in
  exists s',
    Dict.get pid (GameData.snakes g') = Some s' /\
    (In nh (GameData.foods g) \/ GameData.mode g = GameMode_KURVE ->
     Snake.body s' = nh :: head :: tail) /\
    (~ In nh (GameData.foods g) -> GameData.mode g <> GameMode_KURVE ->
     Snake.body s' = nh :: removelast (head :: tail)) /\
    (In nh (GameData.foods g) -> Snake.score s' = Snake.score s + 10) /\
    (~ In nh (GameData.foods g) -> Snake.score s' = Snake.score s) /\
    Snake.direction s' = Snake.direction s /\
    Snake.alive s' = Snake.alive s /\
    (forall other, other <> pid ->
       Dict.get other (GameData.snakes g')
       = Dict.get other (GameData.snakes g)) /\
    (GameData.walls_enabled g = false ->
     3 <= GameData.width g -> 3 <= GameData.height g ->
     1 <= fst nh <= GameData.width g - 2 /\
     1 <= snd nh <= GameData.height g - 2).
Proof.
  intros Hget Hbody. cbv zeta.
  assert (Hwrap : GameData.walls_enabled (game e) = false ->
     3 <= GameData.width (game e) -> 3 <= GameData.height (game e) ->
     1 <= fst (next_head (game e) s head) <= GameData.width (game e) - 2 /\
     1 <= snd (next_head (game e) s head) <= GameData.height (game e) - 2).
  { intros Hw Hwd Hh. unfold next_head. rewrite Hw. cbn [negb].
    unfold wrap_cell. cbn [fst snd].
    split; apply wrap_coord_inside; assumption. }
  revert Hwrap.
  unfold SnakeGameLogic._move_snake, get_snake.
  unfold bind, gets, ret, raise, modify_snake, modify_game, emit, modify.
  cbn. rewrite Hget. cbn. rewrite Hbody. cbn.
  fold (next_head (game e) s head).
  set (nh := next_head (game e) s head). clearbody nh. intros Hwrap.
  set (P := fun e' : Env => exists s' : Snake.t,
    Dict.get pid (GameData.snakes (game e')) = Some s' /\
    (In nh (GameData.foods (game e)) \/ GameData.mode (game e) = GameMode_KURVE ->
     Snake.body s' = nh :: head :: tail) /\
    (~ In nh (GameData.foods (game e)) ->
     GameData.mode (game e) <> GameMode_KURVE ->
     Snake.body s' = nh :: removelast (head :: tail)) /\
    (In nh (GameData.foods (game e)) -> Snake.score s' = Snake.score s + 10) /\
    (~ In nh (GameData.foods (game e)) -> Snake.score s' = Snake.score s) /\
    Snake.direction s' = Snake.direction s /\
    Snake.alive s' = Snake.alive s /\
    (forall other, other <> pid ->
       Dict.get other (GameData.snakes (game e'))
       = Dict.get other (GameData.snakes (game e))) /\
    (GameData.walls_enabled (game e) = false ->
     3 <= GameData.width (game e) -> 3 <= GameData.height (game e) ->
     1 <= fst nh <= GameData.width (game e) - 2 /\
     1 <= snd nh <= GameData.height (game e) - 2)).
  match goal with |- exists s', Dict.get pid (GameData.snakes (game ?x)) = _ /\ _ =>
    change (P x) end.
  destruct (find (cell_eqb nh) (GameData.foods (game e))) as [food|] eqn:Hfood.
  - apply find_cell_eqb_some in Hfood.
    match goal with
    | |- context [SnakeGameLogic._spawn_food ?x] =>
        pose proof (quiet_spawn_food x) as (Qs & Qt & Qm);
        destruct (SnakeGameLogic._spawn_food x) as [[[]|x0] e2]
    end; cbn in Qs, Qt, Qm |- *.
    + destruct (find (cell_eqb nh) (GameData.weapons (game e2)));
        cbn;
        match goal with
        | |- context [find ?p ?l] => destruct (find p l)
        end; cbn;
        match goal with
        | |- context [String.eqb ?a ?b] => destruct (String.eqb a b) eqn:Hk
        end; cbn in Hk |- *; move_close.
    + move_close.
  - apply find_cell_eqb_none in Hfood. cbn.
    destruct (find (cell_eqb nh) (GameData.weapons (game e)));
      cbn;
      match goal with
      | |- context [find ?p ?l] => destruct (find p l)
      end; cbn;
      match goal with
      | |- context [String.eqb ?a ?b] => destruct (String.eqb a b) eqn:Hk
      end; cbn in Hk |- *; move_close.
Qed.

Transparent SnakeGameLogic._spawn_food.

Lemma move_advances_one_cell_witness :
  exists s',
    Dict.get bob_id
      (GameData.snakes
         (game (snd (SnakeGameLogic._move_snake bob_id
                       (GameServer.env (sample_server GameMode_CLASSIC))))))
    = Some s' /\
    Snake.body s' = [(8, 2); (8, 1); (9, 1); (10, 1)] /\
    Snake.score s' = 10.
Proof.
  destruct (move_advances_one_cell bob_id
              (GameServer.env (sample_server GameMode_CLASSIC)) bob
              (8, 1) [(9, 1); (10, 1)] eq_refl eq_refl)
    as (s' & Hg & Hb & _ & Hs & _).
  exists s'. split; [exact Hg|]. split.
  - apply Hb. left. cbn. right. left. reflexivity.
  - apply Hs. cbn. right. left. reflexivity.
Defined.

(** ** Joining late *)

Lemma send_to_client_state (player_id : string) (msg : ServerMsg)
  (s : GameServer.t) :
  snd (GameServer._send_to_client player_id msg s)
  = GameServer.set_io (GameServer.io s ++ sent_to player_id msg s) s.
Proof.
  unfold GameServer._send_to_client, sent_to, GameServer.log, bind, get,
    modify, ret.
  cbn. destruct (Dict.get player_id (GameServer.clients s)) as [client|].
  - destruct (Socket.connected (Client.socket client)); cbn.
    + reflexivity.
    + rewrite app_nil_r. destruct s; reflexivity.
  - rewrite app_nil_r. destruct s; reflexivity.
Qed.

Lemma send_to_client_returns (player_id : string) (msg : ServerMsg)
  (s : GameServer.t) :
  exists sent, fst (GameServer._send_to_client player_id msg s) = Return sent.
Proof.
  unfold GameServer._send_to_client, GameServer.log, bind, get, modify, ret.
  cbn. destruct (Dict.get player_id (GameServer.clients s)) as [client|].
  - destruct (Socket.connected (Client.socket client)); cbn;
      eexists; reflexivity.
  - eexists; reflexivity.
Qed.

Lemma sent_to_update (temp_id k : string) (f : Client.t -> Client.t)
  (msg : ServerMsg) (s : GameServer.t) :
  (forall c, Client.socket (f c) = Client.socket c) ->
  sent_to temp_id msg
    (GameServer.set_clients (Dict.update k f (GameServer.clients s)) s)
  = sent_to temp_id msg s.
Proof.
  intros Hf. unfold sent_to. cbn. rewrite get_update.
  destruct (String.eqb k temp_id);
    destruct (Dict.get temp_id (GameServer.clients s)) as [c|]; cbn;
    rewrite ?Hf; reflexivity.
Qed.

Lemma bind_modify {S B} (f : S -> S) (k : unit -> M S B) (s : S) :
  bind (modify f) k s = k tt (f s).
Proof. reflexivity. Qed.

(** X24. A join that passes the password gate while the game is not
    waiting, or while [MAX_PLAYERS] actors are in the game, is refused: the
    session gets the error ['Game already started'] or ['Game is full'],
    no actor is added and the field is not resized.  The session is kept,
    and on a server with a password it is authenticated from then on. *)
Theorem late_join_refused (temp_id : string) (msg : Dict.t json)
  (srv : GameServer.t) :
  GameServer.requires_password srv = false \/
  bad_password (GameServer.password srv) msg = false ->
  GameData.state (GameServer.the_game srv) <> GameState_WAITING \/
  MAX_PLAYERS <= len (GameData.snakes (GameServer.the_game srv)) ->
  let r := GameServer._handle_join temp_id msg srv in
  fst r = Return tt /\
  GameServer.env (snd r) = GameServer.env srv /\
  GameServer.udp_clients (snd r) = GameServer.udp_clients srv /\
  GameServer.pending_inputs (snd r) = GameServer.pending_inputs srv /\
  GameServer.clients (snd r)
  = (if GameServer.requires_password srv
     then Dict.update temp_id (Client.set_authenticated true)
            (GameServer.clients srv)
     else GameServer.clients srv) /\
  GameServer.io (snd r)
  = GameServer.io srv
    ++ sent_to temp_id (MsgError (refusal_text (GameServer.the_game srv))) srv.
Proof.
  intros Hgate Hlate. cbv zeta.
  assert (Hafter : forall s : GameServer.t,
    GameServer.env s = GameServer.env srv ->
    fst (GameServer.join_after_gate temp_id msg s) = Return tt /\
    snd (GameServer.join_after_gate temp_id msg s)
    = GameServer.set_io
        (GameServer.io s
         ++ sent_to temp_id
              (MsgError (refusal_text (GameServer.the_game srv))) s) s).
  { intros s He. unfold GameServer.join_after_gate. rewrite bind_get.
    unfold GameServer.the_game, refusal_text in *. rewrite He.
    destruct (negb (String.eqb (GameData.state (game (GameServer.env srv)))
                               GameState_WAITING)) eqn:Est.
    - unfold bind.
      pose proof (send_to_client_state temp_id (MsgError "Game already started") s)
        as Hs.
      destruct (send_to_client_returns temp_id
                  (MsgError "Game already started") s) as (sent & Hr).
      destruct (GameServer._send_to_client temp_id _ s) as [o s'].
      cbn [fst snd] in *. subst o s'. split; reflexivity.
    - apply negb_false_iff, String.eqb_eq in Est.
      destruct Hlate as [Hne|Hfull]; [contradiction|].
      rewrite Z.geb_leb.
      apply Z.leb_le in Hfull. rewrite Hfull.
      unfold bind.
      pose proof (send_to_client_state temp_id (MsgError "Game is full") s)
        as Hs.
      destruct (send_to_client_returns temp_id (MsgError "Game is full") s)
        as (sent & Hr).
      destruct (GameServer._send_to_client temp_id _ s) as [o s'].
      cbn [fst snd] in *. subst o s'. split; reflexivity. }
  unfold GameServer._handle_join. rewrite bind_get.
  destruct (GameServer.requires_password srv) eqn:Hreq.
  - destruct Hgate as [Hgate|Hgate]; [discriminate|].
    unfold bad_password in Hgate.
    destruct (msg_get "password" (JStr EmptyString) msg)
      as [| | | |p| |]; try discriminate Hgate.
    apply orb_false_iff in Hgate. destruct Hgate as [Hlen Hpw].
    rewrite Hlen. rewrite Hpw.
    unfold GameServer.modify_client. rewrite bind_modify.
    match goal with
    | |- context [GameServer.join_after_gate temp_id msg ?s] =>
        destruct (Hafter s eq_refl) as [Hr Hs]; rewrite Hr, Hs
    end.
    rewrite sent_to_update by reflexivity.
    repeat split.
  - destruct (Hafter srv eq_refl) as [Hr Hs]. rewrite Hr, Hs.
    repeat split.
Qed.

Lemma late_join_refused_witness :
  GameServer.io
    (snd (GameServer._handle_join ann_id right_join
            (sample_server GameMode_CLASSIC)))
  = [IoSend ("10.0.0.7", 40001) (MsgError "Game already started")] /\
  GameServer.env
    (snd (GameServer._handle_join ann_id right_join
            (sample_server GameMode_CLASSIC)))
  = GameServer.env (sample_server GameMode_CLASSIC).
Proof.
  destruct (late_join_refused ann_id right_join
              (sample_server GameMode_CLASSIC))
    as (_ & He & _ & _ & _ & Hio).
  - right. reflexivity.
  - left. discriminate.
  - split; [exact Hio | exact He].
Defined.

(** ** Player names *)

Lemma chars_lstrip_suffix (s : string) :
  exists spaces,
    list_ascii_of_string s = spaces ++ list_ascii_of_string (lstrip s).
Proof.
  induction s as [|c s IH]; cbn [lstrip].
  - exists []. reflexivity.
  - destruct (is_space c).
    + destruct IH as (sp & Hsp). exists (c :: sp). cbn. now rewrite Hsp.
    + exists []. reflexivity.
Qed.

Lemma lstrip_head (s : string) :
  hd_error (list_ascii_of_string (lstrip s)) <> Some " "%char.
Proof.
  induction s as [|c s IH]; cbn [lstrip]; [discriminate|].
  destruct (is_space c) eqn:E; [exact IH|].
  cbn. intros [= ->]. discriminate E.
Qed.

Lemma chars_rstrip_prefix (s : string) :
  exists spaces,
    list_ascii_of_string s = list_ascii_of_string (rstrip s) ++ spaces.
Proof.
  induction s as [|c s IH]; cbn [rstrip].
  - exists []. reflexivity.
  - destruct IH as (sp & Hsp).
    destruct (rstrip s) as [|c' r] eqn:Er.
    + destruct (is_space c).
      * exists (c :: sp). cbn in *. now rewrite Hsp.
      * exists sp. cbn in *. now rewrite Hsp.
    + exists sp. cbn in *. now rewrite Hsp.
Qed.

Lemma rstrip_last (s : string) :
  last (list_ascii_of_string (rstrip s)) "x"%char <> " "%char.
Proof.
  induction s as [|c s IH]; cbn [rstrip]; [discriminate|].
  destruct (rstrip s) as [|c' r] eqn:Er.
  - destruct (is_space c) eqn:E; [discriminate|].
    cbn. intros ->. discriminate E.
  - exact IH.
Qed.

Lemma last_app_nonempty {A} (l1 l2 : list A) (d : A) :
  l2 <> [] -> last (l1 ++ l2) d = last l2 d.
Proof.
  intros Hne. induction l1 as [|a l1 IH]; [reflexivity|].
  cbn [app]. rewrite <- IH.
  destruct (l1 ++ l2) eqn:E; [|reflexivity].
  apply app_eq_nil in E. destruct E. contradiction.
Qed.

Lemma chars_filter (p : ascii -> bool) (s : string) :
  list_ascii_of_string (string_filter p s)
  = filter p (list_ascii_of_string s).
Proof.
  induction s as [|c s IH]; cbn; [reflexivity|].
  destruct (p c); cbn; now rewrite IH.
Qed.

Lemma chars_substring_prefix (n : nat) (s : string) :
  list_ascii_of_string (String.substring 0 n s)
  = firstn n (list_ascii_of_string s).
Proof.
  revert s. induction n as [|n IH]; intros s.
  - destruct s; reflexivity.
  - destruct s as [|c s]; cbn; [reflexivity|]. now rewrite IH.
Qed.

Lemma Forall_firstn {A} (P : A -> Prop) (n : nat) (l : list A) :
  Forall P l -> Forall P (firstn n l).
Proof.
  intros H. revert n. induction H; intros [|n]; cbn; constructor; auto.
Qed.

(** X25. A sanitized player name has at most 16 characters, all of them
    printable, and neither begins nor ends with a space. *)
Theorem sanitize_name_shape (raw_name : string) :
  let cs := list_ascii_of_string (sanitize_name raw_name) in
  (List.length cs <= 16)%nat /\
  Forall (fun c => isprintable c = true) cs /\
  hd_error cs <> Some " "%char /\
  last cs "x"%char <> " "%char.
Proof.
  cbv zeta. unfold sanitize_name.
  set (cut := String.substring 0 16 (string_filter isprintable raw_name)).
  assert (Hcut : list_ascii_of_string cut
                 = firstn 16 (filter isprintable
                                (list_ascii_of_string raw_name))).
  { unfold cut. now rewrite chars_substring_prefix, chars_filter. }
  destruct (chars_rstrip_prefix cut) as (sp2 & H2).
  destruct (chars_lstrip_suffix (rstrip cut)) as (sp1 & H1).
  set (out := list_ascii_of_string (lstrip (rstrip cut))) in *.
  assert (Hall : list_ascii_of_string cut = sp1 ++ out ++ sp2).
  { rewrite H2, H1. now rewrite app_assoc. }
  assert (Hlen : (List.length (list_ascii_of_string cut) <= 16)%nat).
  { rewrite Hcut. apply firstn_le_length. }
  assert (Hpr : Forall (fun c => isprintable c = true)
                  (list_ascii_of_string cut)).
  { rewrite Hcut. apply Forall_firstn. apply Forall_forall.
    intros c Hin. apply filter_In in Hin. tauto. }
  repeat split.
  - rewrite Hall, !length_app in Hlen. lia.
  - rewrite Hall in Hpr. apply Forall_app in Hpr. destruct Hpr as [_ Hpr].
    apply Forall_app in Hpr. tauto.
  - apply lstrip_head.
  - pose proof (rstrip_last cut) as Hlast. rewrite H1 in Hlast.
    fold out in Hlast.
    destruct out as [|c o] eqn:Eo; [discriminate|].
    rewrite last_app_nonempty in Hlast by discriminate. exact Hlast.
Qed.

(** ** The broadcast *)

Lemma logged_refl (s : GameServer.t) : logged [] s s.
Proof. unfold logged. rewrite app_nil_r. repeat split. Qed.

Lemma logged_trans (evs1 evs2 : list IoEvent) (a b c : GameServer.t) :
  logged evs1 a b -> logged evs2 b c -> logged (evs1 ++ evs2) a c.
Proof.
  unfold logged. intros (H1 & H2 & H3 & H4 & H5) (K1 & K2 & K3 & K4 & K5).
  rewrite K1, H1, app_assoc. repeat split; congruence.
Qed.

Lemma logged_log (ev : IoEvent) (s : GameServer.t) :
  logged [ev] s (snd (GameServer.log ev s)).
Proof. unfold logged. cbn. repeat split. Qed.

Lemma send_datagrams (msg : ServerMsg) (addrs : list Addr) :
  forall s,
    fst (for_each addrs (fun a => GameServer.log (IoSendTo a msg)) s)
    = Return tt /\
    logged (map (fun a => IoSendTo a msg) addrs) s
      (snd (for_each addrs (fun a => GameServer.log (IoSendTo a msg)) s)).
Proof.
  induction addrs as [|a addrs IH]; intros s; cbn [for_each map].
  - split; [reflexivity | apply logged_refl].
  - unfold bind. cbn [GameServer.log modify].
    destruct (IH (GameServer.set_io (GameServer.io s ++ [IoSendTo a msg]) s))
      as [Hr Hl].
    unfold GameServer.log, modify.
    split; [exact Hr|].
    change (IoSendTo a msg :: map (fun a0 => IoSendTo a0 msg) addrs)
      with ([IoSendTo a msg] ++ map (fun a0 => IoSendTo a0 msg) addrs).
    eapply logged_trans; [|exact Hl].
    apply (logged_log (IoSendTo a msg) s).
Qed.

Lemma send_to_client_logged (player_id : string) (msg : ServerMsg)
  (s : GameServer.t) (c : Client.t) :
  Dict.get player_id (GameServer.clients s) = Some c ->
  fst (GameServer._send_to_client player_id msg s)
  = Return (Socket.connected (Client.socket c)) /\
  logged (if Socket.connected (Client.socket c)
          then [IoSend (Socket.peer (Client.socket c)) msg] else [])
    s (snd (GameServer._send_to_client player_id msg s)).
Proof.
  intros Hget.
  unfold GameServer._send_to_client, GameServer.log, bind, get, modify, ret.
  cbn. rewrite Hget.
  destruct (Socket.connected (Client.socket c)); cbn.
  - split; [reflexivity|]. unfold logged. cbn. repeat split.
  - split; [reflexivity | apply logged_refl].
Qed.

Lemma send_state_to_spec (msg : ServerMsg) (es : Dict.t Client.t) :
  forall s disconnected,
    (forall kv, In kv es ->
       Dict.get (fst kv) (GameServer.clients s) = Some (snd kv)) ->
    fst (GameServer.send_state_to msg (Dict.keys es) disconnected s)
    = Return (disconnected ++ lost_ids es) /\
    logged (tcp_sends msg es) s
      (snd (GameServer.send_state_to msg (Dict.keys es) disconnected s)).
Proof.
  induction es as [|[k c] es IH]; intros s disconnected Hes;
    cbn [Dict.keys map fst GameServer.send_state_to].
  - unfold lost_ids. cbn. rewrite app_nil_r.
    split; [reflexivity | apply logged_refl].
  - rewrite bind_get.
    pose proof (Hes (k, c) (or_introl eq_refl)) as Hkc. cbn [snd fst] in Hkc.
    rewrite Hkc.
    unfold tcp_sends, lost_ids, reachable, lost. cbn [filter snd fst].
    destruct (Client.joined c) eqn:Hj; cbn [andb].
    + destruct (send_to_client_logged k msg s c Hkc) as [Hr Hl].
      unfold bind.
      destruct (GameServer._send_to_client k msg s) as [o s1].
      cbn [fst snd] in Hr, Hl. subst o.
      assert (Hes1 : forall kv, In kv es ->
                Dict.get (fst kv) (GameServer.clients s1) = Some (snd kv)).
      { intros kv Hin. destruct Hl as (_ & Hc & _). rewrite Hc.
        apply Hes. now right. }
      destruct (Socket.connected (Client.socket c)); cbn [negb map].
      * destruct (IH s1 disconnected Hes1) as [Hr1 Hl1].
        split; [exact Hr1|].
        exact (logged_trans [IoSend (Socket.peer (Client.socket c)) msg]
                 (tcp_sends msg es) s s1 _ Hl Hl1).
      * destruct (IH s1 (disconnected ++ [k]) Hes1) as [Hr1 Hl1].
        split.
        -- rewrite <- app_assoc in Hr1. exact Hr1.
        -- exact (logged_trans [] (tcp_sends msg es) s s1 _ Hl Hl1).
    + apply IH. intros kv Hin. apply Hes. now right.
Qed.

Lemma remove_client_closes (player_id : string) (c : Client.t)
  (s : GameServer.t) :
  Dict.get player_id (GameServer.clients s) = Some c ->
  GameServer.io (snd (GameServer._remove_client player_id false s))
  = GameServer.io s ++ [IoClose (Socket.peer (Client.socket c))].
Proof.
  intros Hg.
  unfold GameServer._remove_client, GameServer.log, GameServer.time_sleep,
    GameServer.logic, modify_snake, modify_game, when, bind, get, modify, ret,
    GameServer.the_game.
  cbn. rewrite Hg. cbn.
  destruct (Dict.mem player_id (GameServer.udp_clients s)); cbn;
    destruct (Dict.mem player_id (GameData.snakes (game (GameServer.env s))));
    reflexivity.
Qed.

Lemma keys_del_NoDup {V} (k : string) (d : Dict.t V) :
  NoDup (Dict.keys d) -> NoDup (Dict.keys (Dict.del k d)).
Proof.
  unfold Dict.keys. induction d as [|[k0 v0] d IH]; cbn; intros Hnd;
    [constructor|].
  inversion Hnd as [|? ? Hnotin Hnd']. subst.
  destruct (String.eqb k k0); [exact Hnd'|].
  cbn. constructor; [|now apply IH].
  intros Hin. apply Hnotin. clear - Hin.
  induction d as [|[k1 v1] d IH]; cbn in *; [exact Hin|].
  destruct (String.eqb k k1); cbn in *; [now right|].
  destruct Hin as [->|Hin]; [now left | right; now apply IH].
Qed.

Lemma get_del {V} (k k' : string) (d : Dict.t V) :
  NoDup (Dict.keys d) ->
  Dict.get k (Dict.del k' d)
  = if String.eqb k k' then None else Dict.get k d.
Proof.
  intros Hnd. destruct (String.eqb k k') eqn:E.
  - apply String.eqb_eq in E. subst k'. now apply get_del_same.
  - apply String.eqb_neq in E. now apply get_del_other.
Qed.

Lemma drop_all (ids : list string) :
  forall s,
    NoDup (Dict.keys (GameServer.clients s)) ->
    NoDup (Dict.keys (GameServer.udp_clients s)) ->
    let r := for_each ids (fun k => GameServer._remove_client k false) s in
    fst r = Return tt /\
    GameServer.pending_inputs (snd r) = GameServer.pending_inputs s /\
    forall k,
      Dict.get k (GameServer.clients (snd r))
      = (if existsb (String.eqb k) ids then None
         else Dict.get k (GameServer.clients s)) /\
      Dict.get k (GameServer.udp_clients (snd r))
      = (if existsb (String.eqb k) ids then None
         else Dict.get k (GameServer.udp_clients s)) /\
      Dict.get k (GameData.snakes (GameServer.the_game (snd r)))
      = (if existsb (String.eqb k) ids
         then option_map (Snake.set_alive false)
                (Dict.get k (GameData.snakes (GameServer.the_game s)))
         else Dict.get k (GameData.snakes (GameServer.the_game s))).
Proof.
  induction ids as [|id ids IH]; intros s Hc Hu; cbn [for_each existsb].
  - cbn. repeat split.
  - cbv zeta. unfold bind.
    pose proof (remove_client_returns id false s) as Hret.
    destruct (remove_client_state id false s) as (H1 & H2 & H3 & H4).
    destruct (GameServer._remove_client id false s) as [o s1].
    cbn [fst snd] in *. subst o.
    assert (Hc1 : NoDup (Dict.keys (GameServer.clients s1)))
      by (rewrite H1; now apply keys_del_NoDup).
    assert (Hu1 : NoDup (Dict.keys (GameServer.udp_clients s1)))
      by (rewrite H2; now apply keys_del_NoDup).
    destruct (IH s1 Hc1 Hu1) as (Hr & Hp & Hk).
    cbv zeta in Hr, Hp, Hk.
    split; [exact Hr|]. split; [congruence|].
    intros k. destruct (Hk k) as (K1 & K2 & K3).
    rewrite K1, K2, K3, H1, H2, H3.
    rewrite !get_del by assumption. rewrite get_update.
    rewrite (String.eqb_sym id k).
    destruct (String.eqb k id); cbn [orb];
      destruct (existsb (String.eqb k) ids); repeat split.
    destruct (Dict.get k (GameData.snakes (GameServer.the_game s)));
      reflexivity.
Qed.

(** Every lost session is still registered when its turn comes, so the
    socket of each is closed. *)
Lemma drop_all_closes (es : Dict.t Client.t) :
  forall s,
    NoDup (Dict.keys es) ->
    (forall kv, In kv es ->
       Dict.get (fst kv) (GameServer.clients s) = Some (snd kv)) ->
    GameServer.io
      (snd (for_each (lost_ids es)
              (fun k => GameServer._remove_client k false) s))
    = GameServer.io s ++ closes es.
Proof.
  induction es as [|[k c] es IH]; intros s Hnd Hes.
  - cbn. now rewrite app_nil_r.
  - inversion Hnd as [|? ? Hnotin Hnd']. subst.
    unfold lost_ids, closes. cbn [filter snd fst].
    destruct (lost c) eqn:Hl; cbn [map fst snd].
    + cbn [for_each]. unfold bind.
      pose proof (remove_client_returns k false s) as Hret.
      pose proof (remove_client_closes k c s (Hes (k, c) (or_introl eq_refl)))
        as Hio.
      destruct (remove_client_state k false s) as (H1 & _).
      destruct (GameServer._remove_client k false s) as [o s1].
      cbn [fst snd] in *. subst o.
      fold (lost_ids es). fold (closes es).
      rewrite IH; [rewrite Hio, <- app_assoc; reflexivity|exact Hnd'|].
      intros kv Hin. rewrite H1.
      rewrite get_del_other; [apply Hes; now right|].
      intros E. apply Hnotin. rewrite <- E. unfold Dict.keys.
      now apply in_map.
    + fold (lost_ids es). fold (closes es).
      apply IH; [exact Hnd'|]. intros kv Hin. apply Hes. now right.
Qed.

Lemma existsb_lost_ids (k : string) (cs : Dict.t Client.t) :
  NoDup (Dict.keys cs) ->
  existsb (String.eqb k) (lost_ids cs)
  = match Dict.get k cs with
    | Some c => lost c
    | None => false
    end.
Proof.
  unfold lost_ids. induction cs as [|[k0 c0] cs IH]; cbn; intros Hnd;
    [reflexivity|].
  inversion Hnd as [|? ? Hnotin Hnd']. subst.
  specialize (IH Hnd').
  destruct (String.eqb k k0) eqn:E.
  - apply String.eqb_eq in E. subst k0.
    destruct (lost c0); cbn.
    + rewrite String.eqb_refl. reflexivity.
    + rewrite IH.
      destruct (Dict.get k cs) as [c|] eqn:G; [|reflexivity].
      exfalso. apply Hnotin. apply get_In in G.
      change k with (fst (k, c)). now apply in_map.
  - destruct (lost c0); cbn; rewrite ?E; exact IH.
Qed.

Lemma broadcast_state_spec (srv : GameServer.t) :
  NoDup (Dict.keys (GameServer.clients srv)) ->
  NoDup (Dict.keys (GameServer.udp_clients srv)) ->
  let g := GameServer.the_game srv in
  let msg := MsgState g in
  let r := GameServer._broadcast_state srv in
  fst r = Return tt /\
  GameServer.io (snd r)
  = GameServer.io srv
    ++ datagrams msg (GameServer.udp_clients srv)
    ++ (if due_on_tcp g
        then tcp_sends msg (GameServer.clients srv)
             ++ closes (GameServer.clients srv)
        else []) /\
  GameServer.pending_inputs (snd r) = GameServer.pending_inputs srv /\
  (due_on_tcp g = false ->
   GameServer.clients (snd r) = GameServer.clients srv /\
   GameServer.udp_clients (snd r) = GameServer.udp_clients srv /\
   GameServer.env (snd r) = GameServer.env srv) /\
  (due_on_tcp g = true ->
   forall k,
     let gone := match Dict.get k (GameServer.clients srv) with
                 | Some c => lost c
                 | None => false
                 end in
     Dict.get k (GameServer.clients (snd r))
     = (if gone then None else Dict.get k (GameServer.clients srv)) /\
     Dict.get k (GameServer.udp_clients (snd r))
     = (if gone then None else Dict.get k (GameServer.udp_clients srv)) /\
     Dict.get k (GameData.snakes (GameServer.the_game (snd r)))
     = (if gone
        then option_map (Snake.set_alive false)
               (Dict.get k (GameData.snakes g))
        else Dict.get k (GameData.snakes g))).
Proof.
  intros Hc Hu. cbv zeta.
  set (msg := MsgState (GameServer.the_game srv)).
  set (P := fun r : outcome unit * GameServer.t =>
    fst r = Return tt /\
    GameServer.io (snd r)
    = GameServer.io srv
      ++ datagrams msg (GameServer.udp_clients srv)
      ++ (if due_on_tcp (GameServer.the_game srv)
          then tcp_sends msg (GameServer.clients srv)
               ++ closes (GameServer.clients srv)
          else []) /\
    GameServer.pending_inputs (snd r) = GameServer.pending_inputs srv /\
    (due_on_tcp (GameServer.the_game srv) = false ->
     GameServer.clients (snd r) = GameServer.clients srv /\
     GameServer.udp_clients (snd r) = GameServer.udp_clients srv /\
     GameServer.env (snd r) = GameServer.env srv) /\
    (due_on_tcp (GameServer.the_game srv) = true ->
     forall k,
       Dict.get k (GameServer.clients (snd r))
       = (if match Dict.get k (GameServer.clients srv) with
             | Some c => lost c
             | None => false
             end
          then None else Dict.get k (GameServer.clients srv)) /\
       Dict.get k (GameServer.udp_clients (snd r))
       = (if match Dict.get k (GameServer.clients srv) with
             | Some c => lost c
             | None => false
             end
          then None else Dict.get k (GameServer.udp_clients srv)) /\
       Dict.get k (GameData.snakes (GameServer.the_game (snd r)))
       = (if match Dict.get k (GameServer.clients srv) with
             | Some c => lost c
             | None => false
             end
          then option_map (Snake.set_alive false)
                 (Dict.get k (GameData.snakes (GameServer.the_game srv)))
          else Dict.get k (GameData.snakes (GameServer.the_game srv))))).
  change (P (GameServer._broadcast_state srv)).
  unfold GameServer._broadcast_state. rewrite bind_get.
  fold (due_on_tcp (GameServer.the_game srv)). fold msg.
  destruct (send_datagrams msg (Dict.values (GameServer.udp_clients srv)) srv)
    as [Hr1 Hl1].
  fold (datagrams msg (GameServer.udp_clients srv)) in Hl1.
  unfold bind at 1.
  destruct (for_each (Dict.values (GameServer.udp_clients srv)) _ srv)
    as [o s1]. cbn [fst snd] in Hr1, Hl1. subst o.
  pose proof Hl1 as (L1io & L1c & L1e & L1u & L1p).
  destruct (due_on_tcp (GameServer.the_game srv)) eqn:Hdue; cbn [when].
  - assert (Hes : forall kv, In kv (GameServer.clients srv) ->
              Dict.get (fst kv) (GameServer.clients s1) = Some (snd kv)).
    { intros [k c] Hin. rewrite L1c. cbn. now apply In_get_NoDup. }
    destruct (send_state_to_spec msg (GameServer.clients srv) s1 [] Hes)
      as [Hr2 Hl2].
    unfold bind.
    destruct (GameServer.send_state_to msg _ [] s1) as [o s2].
    cbn [fst snd app] in Hr2, Hl2. subst o.
    pose proof Hl2 as (L2io & L2c & L2e & L2u & L2p).
    assert (Hc2 : NoDup (Dict.keys (GameServer.clients s2)))
      by (rewrite L2c, L1c; exact Hc).
    assert (Hu2 : NoDup (Dict.keys (GameServer.udp_clients s2)))
      by (rewrite L2u, L1u; exact Hu).
    assert (Hes2 : forall kv, In kv (GameServer.clients srv) ->
              Dict.get (fst kv) (GameServer.clients s2) = Some (snd kv)).
    { intros kv Hin. rewrite L2c. now apply Hes. }
    pose proof (drop_all_closes (GameServer.clients srv) s2 Hc Hes2) as Hio3.
    destruct (drop_all (lost_ids (GameServer.clients srv)) s2 Hc2 Hu2)
      as (Hr3 & Hp3 & Hk3).
    cbv zeta in Hr3, Hp3, Hk3.
    unfold P.
    split; [exact Hr3|].
    split; [rewrite Hio3, L2io, L1io, <- !app_assoc; reflexivity|].
    split; [congruence|].
    split; [discriminate|].
    intros _ k. destruct (Hk3 k) as (K1 & K2 & K3).
    rewrite K1, K2, K3.
    rewrite (existsb_lost_ids k (GameServer.clients srv) Hc).
    unfold GameServer.the_game. rewrite L2c, L1c, L2u, L1u, L2e, L1e.
    repeat split.
  - unfold P. cbn [ret fst snd].
    split; [reflexivity|].
    split; [rewrite L1io, app_nil_r; reflexivity|].
    split; [exact L1p|].
    split; [intros _; repeat split; assumption | discriminate].
Qed.

(** X26. A broadcast sends the state of the game as it is at the start of
    the broadcast: one datagram to every registered datagram address, and,
    every third tick or while the game is waiting, one write to every
    joined session whose connection is up, after which the socket of every
    joined session whose connection is down is closed.  When the
    connections are not served, nothing but the log of the sockets
    changes.  When they are, the joined sessions whose connection is down
    are removed from the registry and from the datagram addresses, and
    their actors are marked dead; every other session and actor is as
    before. *)
Theorem broadcast_policy (srv : GameServer.t) :
  NoDup (Dict.keys (GameServer.clients srv)) ->
  NoDup (Dict.keys (GameServer.udp_clients srv)) ->
  let g := GameServer.the_game srv in
  let msg := MsgState g in
  let r := GameServer._broadcast_state srv in
  fst r = Return tt /\
  GameServer.io (snd r)
  = GameServer.io srv
    ++ datagrams msg (GameServer.udp_clients srv)
    ++ (if due_on_tcp g
        then tcp_sends msg (GameServer.clients srv)
             ++ closes (GameServer.clients srv)
        else []) /\
  GameServer.pending_inputs (snd r) = GameServer.pending_inputs srv /\
  (due_on_tcp g = false ->
   GameServer.clients (snd r) = GameServer.clients srv /\
   GameServer.udp_clients (snd r) = GameServer.udp_clients srv /\
   GameServer.env (snd r) = GameServer.env srv) /\
  (due_on_tcp g = true ->
   forall k,
     let gone := match Dict.get k (GameServer.clients srv) with
                 | Some c => lost c
                 | None => false
                 end in
     Dict.get k (GameServer.clients (snd r))
     = (if gone then None else Dict.get k (GameServer.clients srv)) /\
     Dict.get k (GameServer.udp_clients (snd r))
     = (if gone then None else Dict.get k (GameServer.udp_clients srv)) /\
     Dict.get k (GameData.snakes (GameServer.the_game (snd r)))
     = (if gone
        then option_map (Snake.set_alive false)
               (Dict.get k (GameData.snakes g))
        else Dict.get k (GameData.snakes g))).
Proof. exact (broadcast_state_spec srv). Qed.

Lemma broadcast_policy_witness :
  GameServer.io (snd (GameServer._broadcast_state half_open_server))
  = [IoSendTo ("10.0.0.7", 41001)
       (MsgState (GameServer.the_game half_open_server));
     IoSend ("10.0.0.7", 40001)
       (MsgState (GameServer.the_game half_open_server));
     IoClose ("10.0.0.8", 40002)] /\
  Dict.get bob_id
    (GameServer.clients (snd (GameServer._broadcast_state half_open_server)))
  = None.
Proof.
  destruct (broadcast_policy half_open_server) as (_ & Hio & _ & _ & Hk).
  - repeat constructor; cbn; intuition discriminate.
  - repeat constructor; cbn; intuition discriminate.
  - split; [exact Hio|].
    destruct (Hk eq_refl bob_id) as (H1 & _). exact H1.
Defined.

(** ** A new actor *)

Lemma randint_returns (a b : Z) (e : Env) :
  a <= b ->
  exists v e',
    random_randint a b e = (Return v, e') /\
    a <= v <= b /\ game e' = game e.
Proof.
  intros Hab. unfold random_randint.
  assert (E : (b <? a) = false) by (apply Z.ltb_ge; lia). rewrite E.
  unfold bind, random_draw, ret. cbn [fst snd].
  eexists _, _. split; [reflexivity|]. split; [|reflexivity].
  pose proof (Z.mod_pos_bound (draws (rng e) (used (rng e))) (b - a + 1)
                ltac:(lia)).
  lia.
Qed.

Lemma randint_raises (a b : Z) (e : Env) :
  b < a -> random_randint a b e = (Raise ValueError, e).
Proof.
  intros Hab. unfold random_randint.
  assert (E : (b <? a) = true) by (apply Z.ltb_lt; lia). rewrite E.
  reflexivity.
Qed.

Lemma find_start_returns (n : nat) :
  forall c0 e,
    10 <= GameData.width (game e) -> 10 <= GameData.height (game e) ->
    exists c e',
      SnakeGameLogic.find_start n c0 e = (Return c, e') /\
      game e' = game e /\
      (n <> O ->
       5 <= fst c <= GameData.width (game e) - 5 /\
       5 <= snd c <= GameData.height (game e) - 5).
Proof.
  induction n as [|n IH]; intros c0 e Hw Hh;
    cbn [SnakeGameLogic.find_start].
  - exists c0, e. repeat split; congruence.
  - rewrite bind_gets.
    destruct (randint_returns 5 (GameData.width (game e) - 5) e ltac:(lia))
      as (x & e1 & Hx & Hxr & G1).
    unfold bind at 1. rewrite Hx.
    destruct (randint_returns 5 (GameData.height (game e) - 5) e1 ltac:(lia))
      as (y & e2 & Hy & Hyr & G2).
    unfold bind at 1. rewrite Hy.
    destruct (SnakeGameLogic.position_clear (game e) x y).
    + exists (x, y), e2. split; [reflexivity|].
      split; [congruence|]. intros _. cbn. lia.
    + destruct (IH (x, y) e2) as (c & e3 & Hc & G3 & Hr);
        [rewrite G2, G1; exact Hw | rewrite G2, G1; exact Hh|].
      exists c, e3. split; [exact Hc|]. split; [congruence|].
      intros _. destruct n as [|n'].
      * cbn in Hc. injection Hc as <- <-. cbn. lia.
      * rewrite G2, G1 in Hr. apply Hr. discriminate.
Qed.

Lemma find_start_raises (n : nat) (c0 : Cell) (e : Env) :
  GameData.width (game e) < 10 \/ GameData.height (game e) < 10 ->
  exists e',
    SnakeGameLogic.find_start (S n) c0 e = (Raise ValueError, e') /\
    game e' = game e.
Proof.
  intros Hsmall. cbn [SnakeGameLogic.find_start]. rewrite bind_gets.
  destruct (Z_lt_le_dec (GameData.width (game e)) 10) as [Hw|Hw].
  - unfold bind at 1.
    rewrite (randint_raises 5 (GameData.width (game e) - 5) e) by lia.
    exists e. split; reflexivity.
  - destruct Hsmall as [Hs|Hh]; [lia|].
    destruct (randint_returns 5 (GameData.width (game e) - 5) e ltac:(lia))
      as (x & e1 & Hx & _ & G1).
    unfold bind at 1. rewrite Hx. unfold bind at 1.
    rewrite (randint_raises 5 (GameData.height (game e) - 5) e1) by lia.
    exists e1. split; [reflexivity | exact G1].
Qed.

Lemma spawn_attempts_returns (n : nat)
  (place : Cell -> GameData.t -> GameData.t) :
  forall e,
    4 <= GameData.width (game e) -> 4 <= GameData.height (game e) ->
    fst (SnakeGameLogic.spawn_attempts n place e) = Return tt.
Proof.
  induction n as [|n IH]; intros e Hw Hh;
    cbn [SnakeGameLogic.spawn_attempts]; [reflexivity|].
  rewrite bind_gets.
  destruct (randint_returns 2 (GameData.width (game e) - 2) e ltac:(lia))
    as (x & e1 & Hx & Hxr & G1).
  unfold bind at 1. rewrite Hx.
  destruct (randint_returns 2 (GameData.height (game e) - 2) e1 ltac:(lia))
    as (y & e2 & Hy & Hyr & G2).
  unfold bind at 1. rewrite Hy.
  destruct (negb (SnakeGameLogic._is_position_occupied (game e) x y));
    [reflexivity|].
  apply IH; rewrite G2, G1; assumption.
Qed.

Lemma initial_body_inside (d : Direction) (start : Cell) (w h : Z) :
  5 <= fst start <= w - 5 -> 5 <= snd start <= h - 5 ->
  Forall (fun c => 3 <= fst c <= w - 3 /\ 3 <= snd c <= h - 3)
         (SnakeGameLogic.initial_body d start).
Proof.
  destruct start as [x y]. cbn [fst snd]. intros Hx Hy.
  destruct d; cbn; repeat constructor; cbn; lia.
Qed.

Lemma add_player_spec (player_id player_name : string) (e : Env) :
  let r := SnakeGameLogic._add_player_to_game player_id player_name e in
  let g := game e in
  let g' := game (snd r) in
  (10 <= GameData.width g -> 10 <= GameData.height g ->
   fst r = Return tt /\
   GameData.next_player_id g' = GameData.next_player_id g + 1 /\
   (forall other, other <> player_id ->
      Dict.get other (GameData.snakes g')
      = Dict.get other (GameData.snakes g)) /\
   exists s,
     Dict.get player_id (GameData.snakes g') = Some s /\
     Snake.player_id s = GameData.next_player_id g /\
     Snake.color s = GameData.next_player_id g /\
     Snake.player_name s = player_name /\
     Snake.alive s = true /\
     Snake.score s = 0 /\
     Snake.has_weapon s = false /\
     Snake.has_ghost s = false /\
     Snake.is_invisible s = false /\
     List.length (Snake.body s) = 3%nat /\
     Forall (fun c => 3 <= fst c <= GameData.width g - 3 /\
                      3 <= snd c <= GameData.height g - 3)
            (Snake.body s)) /\
  (GameData.width g < 10 \/ GameData.height g < 10 ->
   fst r = Raise ValueError /\
   GameData.snakes g' = GameData.snakes g).
Proof.
  cbv zeta.
  set (P := fun r : outcome unit * Env =>
    (10 <= GameData.width (game e) -> 10 <= GameData.height (game e) ->
     fst r = Return tt /\
     GameData.next_player_id (game (snd r))
     = GameData.next_player_id (game e) + 1 /\
     (forall other, other <> player_id ->
        Dict.get other (GameData.snakes (game (snd r)))
        = Dict.get other (GameData.snakes (game e))) /\
     exists s,
       Dict.get player_id (GameData.snakes (game (snd r))) = Some s /\
       Snake.player_id s = GameData.next_player_id (game e) /\
       Snake.color s = GameData.next_player_id (game e) /\
       Snake.player_name s = player_name /\
       Snake.alive s = true /\
       Snake.score s = 0 /\
       Snake.has_weapon s = false /\
       Snake.has_ghost s = false /\
       Snake.is_invisible s = false /\
       List.length (Snake.body s) = 3%nat /\
       Forall (fun c => 3 <= fst c <= GameData.width (game e) - 3 /\
                        3 <= snd c <= GameData.height (game e) - 3)
              (Snake.body s)) /\
    (GameData.width (game e) < 10 \/ GameData.height (game e) < 10 ->
     fst r = Raise ValueError /\
     GameData.snakes (game (snd r)) = GameData.snakes (game e))).
  change (P (SnakeGameLogic._add_player_to_game player_id player_name e)).
  unfold SnakeGameLogic._add_player_to_game.
  rewrite bind_gets, bind_modify_game.
  unfold random_choice. unfold bind at 1. unfold bind at 1.
  cbn [random_draw ret fst snd game rng trace].
  set (direction := nth _ [UP; DOWN; LEFT; RIGHT] UP).
  set (e1 := mkEnv _ _ (trace e)).
  assert (G1w : GameData.width (game e1) = GameData.width (game e))
    by reflexivity.
  assert (G1h : GameData.height (game e1) = GameData.height (game e))
    by reflexivity.
  assert (G1s : GameData.snakes (game e1) = GameData.snakes (game e))
    by reflexivity.
  assert (G1n : GameData.next_player_id (game e1)
                = GameData.next_player_id (game e) + 1) by reflexivity.
  clearbody e1 direction.
  destruct (Z_lt_le_dec (GameData.width (game e)) 10) as [Hw|Hw];
    [|destruct (Z_lt_le_dec (GameData.height (game e)) 10) as [Hh|Hh]].
  - destruct (find_start_raises 99 (0, 0) e1) as (e2 & Hst & G2);
      [rewrite G1w; left; exact Hw|].
    unfold bind at 1. rewrite Hst. unfold P. cbn [fst snd].
    split; [intros; lia|]. intros _. split; [reflexivity | congruence].
  - destruct (find_start_raises 99 (0, 0) e1) as (e2 & Hst & G2);
      [rewrite G1h; right; exact Hh|].
    unfold bind at 1. rewrite Hst. unfold P. cbn [fst snd].
    split; [intros; lia|]. intros _. split; [reflexivity | congruence].
  - destruct (find_start_returns 100 (0, 0) e1
                ltac:(rewrite G1w; exact Hw) ltac:(rewrite G1h; exact Hh))
      as (start & e2 & Hst & G2 & Hrange).
    specialize (Hrange ltac:(discriminate)). rewrite G1w, G1h in Hrange.
    unfold bind at 1. rewrite Hst. rewrite bind_modify_game.
    match goal with
    | |- P (SnakeGameLogic._spawn_food ?x) =>
        pose proof (quiet_spawn_food x) as (Qs & _ & _);
        pose proof (spawn_attempts_spec 100
          (fun c g => GameData.set_foods (GameData.foods g ++ [c]) g) x)
          as [Hsp _];
        assert (Hret : fst (SnakeGameLogic._spawn_food x) = Return tt)
          by (apply spawn_attempts_returns; cbn; rewrite G2;
              [rewrite G1w | rewrite G1h]; lia)
    end.
    fold SnakeGameLogic._spawn_food in Hsp.
    cbn [game GameData.snakes GameData.set_snakes] in Qs.
    assert (Hn : GameData.next_player_id
                   (game (snd (SnakeGameLogic._spawn_food
                      (mkEnv (GameData.set_snakes
                         (Dict.set player_id
                            (Snake.mk (GameData.next_player_id (game e))
                               player_name
                               (SnakeGameLogic.initial_body direction start)
                               direction true false false false 0 0
                               (GameData.next_player_id (game e)))
                            (GameData.snakes (game e2))) (game e2))
                         (rng e2) (trace e2)))))
                 = GameData.next_player_id (game e) + 1).
    { destruct Hsp as [Hsp|(c & _ & Hsp)]; rewrite Hsp; cbn;
        rewrite G2; exact G1n. }
    unfold P. split; [|intros [H|H]; lia].
    intros _ _. split; [exact Hret|]. split; [exact Hn|].
    rewrite Qs, G2, G1s. split.
    + intros other Hne. rewrite get_set.
      destruct (String.eqb player_id other) eqn:E; [|reflexivity].
      apply String.eqb_eq in E. congruence.
    + eexists. split; [rewrite get_set, String.eqb_refl; reflexivity|].
      cbn. repeat split; try reflexivity.
      * apply initial_body_length.
      * apply initial_body_inside; tauto.
Qed.

(** X27. On a field of at least 10 by 10, adding an actor returns.  The
    actor is stored under the given identity with the next player number
    as number and colour and the given name; it is alive, has no points
    and no pickup, and its three segments lie at least three cells inside
    the field, so none is on a wall.  The counter of player numbers
    advances by one and the other actors are as before.  On a narrower or
    lower field the call raises [ValueError] and adds no actor. *)
Theorem new_actor_starts_inside (player_id player_name : string) (e : Env) :
  let r := SnakeGameLogic._add_player_to_game player_id player_name e in
  let g := game e in
  let g' := game (snd r) in
  (10 <= GameData.width g -> 10 <= GameData.height g ->
   fst r = Return tt /\
   GameData.next_player_id g' = GameData.next_player_id g + 1 /\
   (forall other, other <> player_id ->
      Dict.get other (GameData.snakes g')
      = Dict.get other (GameData.snakes g)) /\
   exists s,
     Dict.get player_id (GameData.snakes g') = Some s /\
     Snake.player_id s = GameData.next_player_id g /\
     Snake.color s = GameData.next_player_id g /\
     Snake.player_name s = player_name /\
     Snake.alive s = true /\
     Snake.score s = 0 /\
     Snake.has_weapon s = false /\
     Snake.has_ghost s = false /\
     Snake.is_invisible s = false /\
     List.length (Snake.body s) = 3%nat /\
     Forall (fun c => 3 <= fst c <= GameData.width g - 3 /\
                      3 <= snd c <= GameData.height g - 3)
            (Snake.body s)) /\
  (GameData.width g < 10 \/ GameData.height g < 10 ->
   fst r = Raise ValueError /\
   GameData.snakes g' = GameData.snakes g).
Proof. exact (add_player_spec player_id player_name e). Qed.

Lemma new_actor_starts_inside_witness :
  fst (SnakeGameLogic._add_player_to_game "temp_10.0.0.9_40003" "Cyd"
         (GameServer.env (sample_server GameMode_CLASSIC)))
  = Return tt /\
  fst (SnakeGameLogic._add_player_to_game "temp_10.0.0.9_40003" "Cyd"
         narrow_env)
  = Raise ValueError.
Proof.
  destruct (new_actor_starts_inside "temp_10.0.0.9_40003" "Cyd"
              (GameServer.env (sample_server GameMode_CLASSIC)))
    as [Hok _].
  destruct (new_actor_starts_inside "temp_10.0.0.9_40003" "Cyd" narrow_env)
    as [_ Hbad].
  split.
  - apply Hok; by_computation.
  - apply Hbad. left. by_computation.
Defined.

(** ** A successful join *)

Lemma field_refl (e : Env) : field_rel e e.
Proof. repeat split. Qed.

Lemma field_trans (a b c : Env) :
  field_rel a b -> field_rel b c -> field_rel a c.
Proof.
  unfold field_rel. intros (H1 & H2 & H3) (K1 & K2 & K3).
  repeat split; congruence.
Qed.

Lemma field_modify_game (f : GameData.t -> GameData.t) :
  (forall g, GameData.state (f g) = GameData.state g) ->
  (forall g, GameData.width (f g) = GameData.width g) ->
  (forall g, GameData.height (f g) = GameData.height g) ->
  respects field_rel (modify_game f).
Proof.
  intros H1 H2 H3 e. cbn. unfold field_rel. cbn. auto.
Qed.

Lemma field_random_draw : respects field_rel random_draw.
Proof. intros e. cbn. apply (field_refl e). Qed.

Ltac field_leaf :=
  match goal with
  | H : respects field_rel ?m |- respects field_rel ?m => exact H
  | H : forall b, respects field_rel (?f b)
    |- respects field_rel (?f _) => apply H
  | |- respects _ (modify_game _) => apply field_modify_game; reflexivity
  | |- respects _ random_draw => apply field_random_draw
  end.

Ltac field_with extra :=
  respects_steps ltac:(idtac; first [extra | field_leaf])
    field_refl field_trans.

Lemma field_random_randint (a b : Z) : respects field_rel (random_randint a b).
Proof. unfold random_randint. field_with ltac:(idtac; fail). Qed.

Lemma field_find_start (n : nat) :
  forall c, respects field_rel (SnakeGameLogic.find_start n c).
Proof.
  induction n as [|n IH]; intros c; cbn [SnakeGameLogic.find_start].
  - field_with ltac:(idtac; fail).
  - field_with ltac:(idtac; match goal with
        | |- respects _ (random_randint _ _) => apply field_random_randint
        | |- respects _ (SnakeGameLogic.find_start _ _) => apply IH
        end).
Qed.

Lemma field_spawn_food : respects field_rel SnakeGameLogic._spawn_food.
Proof.
  unfold SnakeGameLogic._spawn_food. generalize 100%nat. intros n.
  induction n as [|n IH]; cbn [SnakeGameLogic.spawn_attempts].
  - field_with ltac:(idtac; fail).
  - field_with ltac:(idtac; match goal with
        | |- respects _ (random_randint _ _) => apply field_random_randint
        | |- respects _ (SnakeGameLogic.spawn_attempts _ _) => exact IH
        end).
Qed.

Lemma field_add_player (player_id player_name : string) :
  respects field_rel
    (SnakeGameLogic._add_player_to_game player_id player_name).
Proof.
  unfold SnakeGameLogic._add_player_to_game, random_choice.
  field_with ltac:(idtac; match goal with
      | |- respects _ (SnakeGameLogic.find_start _ _) =>
          apply field_find_start
      | |- respects _ SnakeGameLogic._spawn_food => apply field_spawn_food
      end).
Qed.

Lemma logic_eq {A} (m : M Env A) (s : GameServer.t) :
  GameServer.logic m s
  = (fst (m (GameServer.env s)),
     GameServer.set_env (snd (m (GameServer.env s))) s).
Proof.
  unfold GameServer.logic. destruct (m (GameServer.env s)). reflexivity.
Qed.

Lemma logic_eq_bind {B} (m : M Env unit) (k : unit -> M GameServer.t B)
  (s : GameServer.t) :
  bind (GameServer.logic m) k s
  = match fst (m (GameServer.env s)) with
    | Return a => k a (GameServer.set_env (snd (m (GameServer.env s))) s)
    | Raise x => (Raise x, GameServer.set_env (snd (m (GameServer.env s))) s)
    end.
Proof.
  unfold bind. rewrite logic_eq. reflexivity.
Qed.

Lemma keys_set_NoDup {V} (k : string) (v : V) (d : Dict.t V) :
  NoDup (Dict.keys d) -> NoDup (Dict.keys (Dict.set k v d)).
Proof.
  unfold Dict.keys. induction d as [|[k0 v0] d IH]; cbn; intros Hnd.
  - constructor; [intros [] | constructor].
  - inversion Hnd as [|? ? Hnotin Hnd']. subst.
    destruct (String.eqb k k0) eqn:E; cbn; [exact Hnd|].
    constructor; [|now apply IH].
    intros Hin. apply Hnotin. clear - Hin E.
    induction d as [|[k1 v1] d IH]; cbn in *.
    + destruct Hin as [->|[]]. rewrite String.eqb_refl in E. discriminate.
    + destruct (String.eqb k k1); cbn in *; [exact Hin|].
      destruct Hin as [->|Hin]; [now left | right; now apply IH].
Qed.

Lemma join_name_nonempty (msg : Dict.t json) : join_name msg <> EmptyString.
Proof.
  unfold join_name. cbv zeta.
  destruct (String.eqb (sanitize_name _) EmptyString) eqn:E; [discriminate|].
  now apply String.eqb_neq in E.
Qed.

Lemma join_udp_port_range (msg : Dict.t json) :
  0 <= join_udp_port msg <= 65535.
Proof.
  unfold join_udp_port.
  destruct (as_int (msg_get "udp_port" (JInt 0) msg)) as [p|]; [|lia].
  destruct (p <? 0) eqn:E1; cbn [orb]; [lia|].
  destruct (p >? 65535) eqn:E2; [lia|].
  apply Z.ltb_ge in E1. rewrite Z.gtb_ltb in E2. apply Z.ltb_ge in E2. lia.
Qed.

Lemma join_tail_spec (temp_id name : string) (port : Z) (s : GameServer.t)
  (client : Client.t) :
  NoDup (Dict.keys (GameServer.clients s)) ->
  NoDup (Dict.keys (GameServer.udp_clients s)) ->
  GameData.state (GameServer.the_game s) = GameState_WAITING ->
  Dict.get temp_id (GameServer.clients s) = Some client ->
  Socket.connected (Client.socket client) = true ->
  fst (join_tail temp_id name port s) = Return tt ->
  let s' := snd (join_tail temp_id name port s) in
  Dict.get temp_id (GameServer.clients s')
  = Some (Client.set_authenticated true
            (Client.set_joined true (Client.set_name name client))) /\
  (exists snake,
     Dict.get temp_id (GameData.snakes (GameServer.the_game s')) = Some snake /\
     Snake.player_name snake = name /\
     Snake.alive snake = true) /\
  Dict.get temp_id (GameServer.udp_clients s')
  = (if port >? 0
     then Some (fst (Socket.peer (Client.socket client)), port)
     else Dict.get temp_id (GameServer.udp_clients s)) /\
  In (IoSend (Socket.peer (Client.socket client))
        (MsgWelcome temp_id (GameServer.udp_port s)
           (GameData.width (GameServer.the_game s))
           (GameData.height (GameServer.the_game s))
           (String.append "Welcome " (String.append name "!"))))
     (GameServer.io s') /\
  GameData.width (GameServer.the_game s')
  = GameData.width (GameServer.the_game s) /\
  GameData.height (GameServer.the_game s')
  = GameData.height (GameServer.the_game s).
Proof.
  intros Hc Hu Hstate Hget Hconn. cbv zeta.
  set (f := fun c => Client.set_authenticated true
                       (Client.set_joined true (Client.set_name name c))).
  set (P := fun r : outcome unit * GameServer.t =>
    fst r = Return tt ->
    Dict.get temp_id (GameServer.clients (snd r)) = Some (f client) /\
    (exists snake,
       Dict.get temp_id (GameData.snakes (GameServer.the_game (snd r)))
       = Some snake /\
       Snake.player_name snake = name /\
       Snake.alive snake = true) /\
    Dict.get temp_id (GameServer.udp_clients (snd r))
    = (if port >? 0
       then Some (fst (Socket.peer (Client.socket client)), port)
       else Dict.get temp_id (GameServer.udp_clients s)) /\
    In (IoSend (Socket.peer (Client.socket client))
          (MsgWelcome temp_id (GameServer.udp_port s)
             (GameData.width (GameServer.the_game s))
             (GameData.height (GameServer.the_game s))
             (String.append "Welcome " (String.append name "!"))))
       (GameServer.io (snd r)) /\
    GameData.width (GameServer.the_game (snd r))
    = GameData.width (GameServer.the_game s) /\
    GameData.height (GameServer.the_game (snd r))
    = GameData.height (GameServer.the_game s)).
  change (P (join_tail temp_id name port s)).
  unfold join_tail. fold f.
  unfold bind at 1. rewrite logic_eq.
  destruct (add_player_spec temp_id name (GameServer.env s)) as [Hok Hbad].
  destruct (field_add_player temp_id name (GameServer.env s))
    as (Fst & Fw & Fh).
  cbv zeta in Hok, Hbad.
  destruct (SnakeGameLogic._add_player_to_game temp_id name (GameServer.env s))
    as [[[]|x] eB]; cbn [fst snd] in *;
    [|unfold P; cbn; discriminate].
  assert (Hsnake : exists snake,
            Dict.get temp_id (GameData.snakes (game eB)) = Some snake /\
            Snake.player_name snake = name /\ Snake.alive snake = true).
  { destruct (Z_lt_le_dec (GameData.width (game (GameServer.env s))) 10)
      as [Hw|Hw]; [destruct (Hbad (or_introl Hw)); discriminate|].
    destruct (Z_lt_le_dec (GameData.height (game (GameServer.env s))) 10)
      as [Hh|Hh]; [destruct (Hbad (or_intror Hh)); discriminate|].
    destruct (Hok Hw Hh) as (_ & _ & _ & snake & Hg & _ & _ & Hn & Ha & _).
    exists snake. auto. }
  clear Hok Hbad.
  unfold GameServer.modify_client. rewrite bind_modify.
  set (sC := GameServer.set_clients _ (GameServer.set_env eB s)).
  assert (HgetC : Dict.get temp_id (GameServer.clients sC) = Some (f client)).
  { unfold sC. cbn. rewrite get_update, String.eqb_refl, Hget. reflexivity. }
  assert (HcC : NoDup (Dict.keys (GameServer.clients sC))).
  { change (NoDup (Dict.keys (Dict.update temp_id f (GameServer.clients s)))).
    rewrite keys_update. exact Hc. }
  assert (HuC : GameServer.udp_clients sC = GameServer.udp_clients s)
    by reflexivity.
  assert (HeC : GameServer.env sC = eB) by reflexivity.
  assert (HpC : GameServer.udp_port sC = GameServer.udp_port s)
    by reflexivity.
  clearbody sC.
  assert (HD : exists sD,
    when (port >? 0)
      (s0 <- get ;;
       match Dict.get temp_id (GameServer.clients s0) with
       | Some client0 =>
           when (Socket.connected (Client.socket client0))
             (modify (fun s1 =>
                GameServer.set_udp_clients
                  (Dict.set temp_id
                     (fst (Socket.peer (Client.socket client0)), port)
                     (GameServer.udp_clients s1)) s1))
       | None => ret tt
       end) sC = (Return tt, sD) /\
    GameServer.clients sD = GameServer.clients sC /\
    GameServer.env sD = GameServer.env sC /\
    GameServer.io sD = GameServer.io sC /\
    GameServer.udp_port sD = GameServer.udp_port sC /\
    NoDup (Dict.keys (GameServer.udp_clients sD)) /\
    Dict.get temp_id (GameServer.udp_clients sD)
    = (if port >? 0
       then Some (fst (Socket.peer (Client.socket client)), port)
       else Dict.get temp_id (GameServer.udp_clients s))).
  { destruct (port >? 0); cbn [when].
    - rewrite bind_get, HgetC. cbn [f Client.socket Client.set_authenticated
        Client.set_joined Client.set_name]. rewrite Hconn. cbn [when modify].
      eexists. split; [reflexivity|]. cbn.
      repeat split.
      + apply keys_set_NoDup. rewrite HuC. exact Hu.
      + rewrite get_set, String.eqb_refl. reflexivity.
    - exists sC. split; [reflexivity|]. repeat split.
      + rewrite HuC. exact Hu.
      + rewrite HuC. reflexivity. }
  destruct HD as (sD & HDeq & HcD & HeD & HioD & HpD & HuD & HgD).
  unfold bind at 1. rewrite HDeq. rewrite bind_get.
  assert (HgetD : Dict.get temp_id (GameServer.clients sD) = Some (f client))
    by (rewrite HcD; exact HgetC).
  match goal with
  | |- P ((GameServer._send_to_client temp_id ?m ;; _) sD) =>
      destruct (send_to_client_logged temp_id m sD (f client) HgetD)
        as [HrE HlE];
      unfold bind;
      destruct (GameServer._send_to_client temp_id m sD) as [oE sE]
  end.
  cbn [fst snd] in HrE, HlE. subst oE.
  cbn [f Client.socket Client.set_authenticated Client.set_joined
       Client.set_name] in HlE.
  rewrite Hconn in HlE.
  destruct HlE as (LEio & LEc & LEe & LEu & LEp).
  destruct (broadcast_state_spec sE) as (HrF & HioF & _ & _ & HkF).
  { rewrite LEc, HcD. exact HcC. }
  { rewrite LEu. exact HuD. }
  cbv zeta in HrF, HioF, HkF.
  assert (Hdue : due_on_tcp (GameServer.the_game sE) = true).
  { unfold due_on_tcp, GameServer.the_game. rewrite LEe, HeD, HeC, Fst.
    unfold GameServer.the_game in Hstate. rewrite Hstate.
    rewrite String.eqb_refl. apply orb_true_r. }
  specialize (HkF Hdue temp_id). rewrite LEc, HgetD in HkF.
  assert (Hnot : lost (f client) = false).
  { unfold lost. cbn. rewrite Hconn. reflexivity. }
  rewrite Hnot in HkF. destruct HkF as (K1 & K2 & K3).
  unfold P. intros _.
  split; [exact K1|].
  split.
  { destruct Hsnake as (snake & Hg & Hn & Ha). exists snake.
    split; [|split; assumption].
    rewrite K3. unfold GameServer.the_game. rewrite LEe, HeD, HeC. exact Hg. }
  split; [rewrite K2, LEu; exact HgD|].
  destruct (server_steady_broadcast_state sE) as (_ & Sw & Sh & _).
  split.
  { rewrite HioF, LEio. apply in_or_app. left. apply in_or_app. right.
    unfold GameServer.the_game. rewrite HpD, HpC, HeD, HeC, Fw, Fh.
    now left. }
  unfold GameServer.the_game.
  rewrite Sw, Sh, LEe, HeD, HeC, Fw, Fh. split; reflexivity.
Qed.

(** X28. A join that passes the password gate while the game is waiting
    and not full, on a session whose connection is up, and that returns,
    registers the player.  The session is marked joined and authenticated
    under the sanitized name of the message (or ['Player']), an actor with
    that name is alive in the game under the identity the server gave the
    session, and the session gets the welcome with that identity and the
    size of the field.  A datagram port between 1 and 65535 is registered
    with the address of the connection, never with an address taken from
    the message; any other port registers nothing. *)
Theorem join_registers_session (temp_id : string) (msg : Dict.t json)
  (srv : GameServer.t) (client : Client.t) :
  NoDup (Dict.keys (GameServer.clients srv)) ->
  NoDup (Dict.keys (GameServer.udp_clients srv)) ->
  GameServer.requires_password srv = false \/
  bad_password (GameServer.password srv) msg = false ->
  GameData.state (GameServer.the_game srv) = GameState_WAITING ->
  len (GameData.snakes (GameServer.the_game srv)) < MAX_PLAYERS ->
  Dict.get temp_id (GameServer.clients srv) = Some client ->
  Socket.connected (Client.socket client) = true ->
  fst (GameServer._handle_join temp_id msg srv) = Return tt ->
  let srv' := snd (GameServer._handle_join temp_id msg srv) in
  let name := join_name msg in
  let port := join_udp_port msg in
  name <> EmptyString /\
  0 <= port <= 65535 /\
  Dict.get temp_id (GameServer.clients srv')
  = Some (Client.mk (Client.socket client) (Client.buffer client) name
                    (Client.addr client) true true) /\
  (exists snake,
     Dict.get temp_id (GameData.snakes (GameServer.the_game srv'))
     = Some snake /\
     Snake.player_name snake = name /\
     Snake.alive snake = true) /\
  Dict.get temp_id (GameServer.udp_clients srv')
  = (if port >? 0
     then Some (fst (Socket.peer (Client.socket client)), port)
     else Dict.get temp_id (GameServer.udp_clients srv)) /\
  In (IoSend (Socket.peer (Client.socket client))
        (MsgWelcome temp_id (GameServer.udp_port srv)
           (GameData.width (GameServer.the_game srv'))
           (GameData.height (GameServer.the_game srv'))
           (String.append "Welcome " (String.append name "!"))))
     (GameServer.io srv').
Proof.
  intros Hc Hu Hgate Hstate Hroom Hget Hconn Hret. cbv zeta.
  split; [apply join_name_nonempty|].
  split; [apply join_udp_port_range|].
  revert Hret.
  set (P := fun (c0 : Client.t) (s0 : GameServer.t)
                (r : outcome unit * GameServer.t) =>
    fst r = Return tt ->
    Dict.get temp_id (GameServer.clients (snd r))
    = Some (Client.set_authenticated true
              (Client.set_joined true (Client.set_name (join_name msg) c0))) /\
    (exists snake,
       Dict.get temp_id (GameData.snakes (GameServer.the_game (snd r)))
       = Some snake /\
       Snake.player_name snake = join_name msg /\
       Snake.alive snake = true) /\
    Dict.get temp_id (GameServer.udp_clients (snd r))
    = (if join_udp_port msg >? 0
       then Some (fst (Socket.peer (Client.socket c0)), join_udp_port msg)
       else Dict.get temp_id (GameServer.udp_clients s0)) /\
    In (IoSend (Socket.peer (Client.socket c0))
          (MsgWelcome temp_id (GameServer.udp_port s0)
             (GameData.width (GameServer.the_game (snd r)))
             (GameData.height (GameServer.the_game (snd r)))
             (String.append "Welcome " (String.append (join_name msg) "!"))))
       (GameServer.io (snd r))).
  assert (Hafter : forall (s0 : GameServer.t) (c0 : Client.t),
    NoDup (Dict.keys (GameServer.clients s0)) ->
    NoDup (Dict.keys (GameServer.udp_clients s0)) ->
    GameServer.env s0 = GameServer.env srv ->
    Dict.get temp_id (GameServer.clients s0) = Some c0 ->
    Socket.connected (Client.socket c0) = true ->
    P c0 s0 (GameServer.join_after_gate temp_id msg s0)).
  { intros s0 c0 Hc0 Hu0 He0 Hget0 Hconn0.
    unfold GameServer.join_after_gate. rewrite bind_get.
    unfold GameServer.the_game in *. rewrite He0, Hstate.
    rewrite String.eqb_refl. cbn [negb].
    rewrite Z.geb_leb.
    assert (Hno : (MAX_PLAYERS <=? len (GameData.snakes (game (GameServer.env srv)))) = false)
      by (apply Z.leb_gt; exact Hroom).
    rewrite Hno. cbv zeta.
    fold (join_name msg). fold (join_udp_port msg).
    match goal with
    | |- P c0 s0 ((when ?c ?body ;; _) s0) =>
        change (P c0 s0 ((when c body ;;
                          join_tail temp_id (join_name msg)
                            (join_udp_port msg)) s0));
        assert (HA : exists sA,
          when c body s0 = (Return tt, sA) /\
          GameServer.clients sA = GameServer.clients s0 /\
          GameServer.udp_clients sA = GameServer.udp_clients s0 /\
          GameServer.udp_port sA = GameServer.udp_port s0 /\
          GameData.state (GameServer.the_game sA) = GameState_WAITING)
    end.
    { match goal with |- context [when ?c _ s0] => destruct c end;
        cbn [when]; [|exists s0; repeat split;
                      unfold GameServer.the_game; rewrite He0; exact Hstate].
      match goal with |- context [if ?c then _ else _] => destruct c end;
        unfold GameServer.modify_the_game, GameServer.logic, modify_game,
          bind, modify; cbn [fst snd];
        (eexists; split; [reflexivity|]); cbn; repeat split;
        rewrite He0; exact Hstate. }
    destruct HA as (sA & HAeq & HAc & HAu & HAp & HAst).
    unfold bind at 1. rewrite HAeq.
    unfold P. intros Hret.
    destruct (join_tail_spec temp_id (join_name msg) (join_udp_port msg) sA c0)
      as (J1 & J2 & J3 & J4 & J5 & J6); try assumption.
    - rewrite HAc. exact Hc0.
    - rewrite HAu. exact Hu0.
    - rewrite HAc. exact Hget0.
    - cbv zeta in J1, J2, J3, J4, J5, J6.
      split; [exact J1|]. split; [exact J2|].
      split; [rewrite J3, HAu; reflexivity|].
      unfold GameServer.the_game in *. rewrite J5, J6, <- HAp. exact J4. }
  unfold GameServer._handle_join. rewrite bind_get.
  destruct (GameServer.requires_password srv) eqn:Hreq.
  - destruct Hgate as [Hgate|Hgate]; [discriminate|].
    unfold bad_password in Hgate.
    destruct (msg_get "password" (JStr EmptyString) msg)
      as [| | | |p| |]; try discriminate Hgate.
    apply orb_false_iff in Hgate. destruct Hgate as [Hlen Hpw].
    rewrite Hlen. rewrite Hpw.
    unfold GameServer.modify_client. rewrite bind_modify.
    match goal with
    | |- fst (GameServer.join_after_gate temp_id msg ?s0) = _ -> _ =>
        refine (Hafter s0 (Client.set_authenticated true client) _ _ _ _ _)
    end; try assumption.
    + change (NoDup (Dict.keys (Dict.update temp_id
                (Client.set_authenticated true) (GameServer.clients srv)))).
      rewrite keys_update. exact Hc.
    + reflexivity.
    + cbn. rewrite get_update, String.eqb_refl, Hget. reflexivity.
  - refine (Hafter srv client _ _ _ _ _); try assumption. reflexivity.
Qed.

Lemma join_registers_session_witness :
  Dict.get cyd_id
    (GameServer.udp_clients
       (snd (GameServer._handle_join cyd_id cyd_join lobby_server)))
  = Some ("10.0.0.9", 41003) /\
  Dict.get cyd_id
    (GameServer.clients
       (snd (GameServer._handle_join cyd_id cyd_join lobby_server)))
  = Some (Client.mk (Socket.mk ("10.0.0.9", 40003) true) [] "Cyd"
                    ("10.0.0.9", 40003) true true).
Proof.
  assert (Hret : fst (GameServer._handle_join cyd_id cyd_join lobby_server)
                 = Return tt) by (vm_compute; reflexivity).
  destruct (join_registers_session cyd_id cyd_join lobby_server
              (Client.mk (Socket.mk ("10.0.0.9", 40003) true) [] "Unknown"
                         ("10.0.0.9", 40003) false false))
    as (_ & _ & H1 & _ & H2 & _).
  - repeat constructor; cbn; intuition discriminate.
  - constructor.
  - right. reflexivity.
  - reflexivity.
  - by_computation.
  - reflexivity.
  - reflexivity.
  - exact Hret.
  - split; [exact H2 | exact H1].
Defined.

(** ** A first join from a small terminal *)

(** X29. The first join sets the size of the field from the terminal the
    client reports (at most 300 columns): [min (columns - 2) 200] by
    [min (rows - 3) 50].  When that leaves a field narrower or lower than
    10 cells, the join raises [ValueError] while looking for a start
    position: the field keeps the new size, no actor is added, the session
    is not joined and gets no reply. *)
Theorem tiny_first_join_raises (temp_id : string) (msg : Dict.t json)
  (srv : GameServer.t) (w h : Z) :
  GameServer.requires_password srv = false \/
  bad_password (GameServer.password srv) msg = false ->
  GameData.state (GameServer.the_game srv) = GameState_WAITING ->
  GameData.snakes (GameServer.the_game srv) = [] ->
  as_int (msg_get "screen_width" (JInt 0) msg) = Some w ->
  as_int (msg_get "screen_height" (JInt 0) msg) = Some h ->
  0 < w <= 300 -> 0 < h <= 10000 ->
  Z.min (w - 2) 200 < 10 \/ Z.min (h - 3) 50 < 10 ->
  let r := GameServer._handle_join temp_id msg srv in
  fst r = Raise ValueError /\
  GameData.width (GameServer.the_game (snd r)) = Z.min (w - 2) 200 /\
  GameData.height (GameServer.the_game (snd r)) = Z.min (h - 3) 50 /\
  GameData.snakes (GameServer.the_game (snd r)) = [] /\
  GameServer.io (snd r) = GameServer.io srv /\
  GameServer.udp_clients (snd r) = GameServer.udp_clients srv /\
  forall c, Dict.get temp_id (GameServer.clients (snd r)) = Some c ->
            Client.joined c = false \/
            exists c0, Dict.get temp_id (GameServer.clients srv) = Some c0 /\
                       Client.joined c0 = true.
Proof.
  intros Hgate Hstate Hempty Hw Hh Hwr Hhr Hsmall. cbv zeta.
  set (P := fun (s0 : GameServer.t) (r : outcome unit * GameServer.t) =>
    fst r = Raise ValueError /\
    GameData.width (GameServer.the_game (snd r)) = Z.min (w - 2) 200 /\
    GameData.height (GameServer.the_game (snd r)) = Z.min (h - 3) 50 /\
    GameData.snakes (GameServer.the_game (snd r)) = [] /\
    GameServer.io (snd r) = GameServer.io s0 /\
    GameServer.udp_clients (snd r) = GameServer.udp_clients s0 /\
    GameServer.clients (snd r) = GameServer.clients s0).
  assert (Hafter : forall s0 : GameServer.t,
    GameServer.env s0 = GameServer.env srv ->
    P s0 (GameServer.join_after_gate temp_id msg s0)).
  { intros s0 He0.
    unfold GameServer.join_after_gate. rewrite bind_get.
    unfold GameServer.the_game in *. rewrite He0, Hstate, Hempty.
    rewrite String.eqb_refl. cbn [negb].
    change (len (@nil (string * Snake.t)) >=? MAX_PLAYERS) with false.
    change (len (@nil (string * Snake.t)) =? 0) with true.
    cbv zeta. rewrite Hw, Hh.
    assert (E1 : ((w <? 0) || (w >? 10000)) = false).
    { apply orb_false_iff. split; [apply Z.ltb_ge; lia|].
      rewrite Z.gtb_ltb. apply Z.ltb_ge. lia. }
    assert (E2 : ((h <? 0) || (h >? 10000)) = false).
    { apply orb_false_iff. split; [apply Z.ltb_ge; lia|].
      rewrite Z.gtb_ltb. apply Z.ltb_ge. lia. }
    rewrite E1, E2.
    assert (E3 : (w >? 0) = true) by (rewrite Z.gtb_ltb; apply Z.ltb_lt; lia).
    assert (E4 : (h >? 0) = true) by (rewrite Z.gtb_ltb; apply Z.ltb_lt; lia).
    assert (E5 : (w <=? 300) = true) by (apply Z.leb_le; lia).
    rewrite E3, E4, E5. cbn [andb when].
    unfold bind at 1. unfold bind at 1.
    unfold GameServer.modify_the_game. rewrite logic_eq.
    cbn [modify_game modify fst snd].
    unfold bind at 1. rewrite logic_eq.
    match goal with
    | |- context [SnakeGameLogic._add_player_to_game ?a ?b ?e] =>
        destruct (add_player_spec a b e) as [_ Hbad];
        destruct (field_add_player a b e) as (_ & Fw & Fh);
        cbv zeta in Hbad;
        assert (Hsm : GameData.width (game e) < 10 \/
                      GameData.height (game e) < 10) by (cbn; exact Hsmall);
        destruct (Hbad Hsm) as [Hr Hs];
        destruct (SnakeGameLogic._add_player_to_game a b e) as [o eB]
    end.
    cbn [fst snd] in Hr, Hs, Fw, Fh. subst o.
    cbn in Fw, Fh, Hs.
    unfold P, GameServer.the_game. cbn.
    rewrite Fw, Fh, Hs, He0, Hempty. repeat split. }
  unfold GameServer._handle_join. rewrite bind_get.
  assert (Hfin : forall s0 r,
    P s0 r ->
    (forall c, Dict.get temp_id (GameServer.clients s0) = Some c ->
               Client.joined c = false \/
               exists c0, Dict.get temp_id (GameServer.clients srv) = Some c0 /\
                          Client.joined c0 = true) ->
    GameServer.io s0 = GameServer.io srv ->
    GameServer.udp_clients s0 = GameServer.udp_clients srv ->
    fst r = Raise ValueError /\
    GameData.width (GameServer.the_game (snd r)) = Z.min (w - 2) 200 /\
    GameData.height (GameServer.the_game (snd r)) = Z.min (h - 3) 50 /\
    GameData.snakes (GameServer.the_game (snd r)) = [] /\
    GameServer.io (snd r) = GameServer.io srv /\
    GameServer.udp_clients (snd r) = GameServer.udp_clients srv /\
    forall c, Dict.get temp_id (GameServer.clients (snd r)) = Some c ->
              Client.joined c = false \/
              exists c0, Dict.get temp_id (GameServer.clients srv) = Some c0 /\
                         Client.joined c0 = true).
  { intros s0 r (P1 & P2 & P3 & P4 & P5 & P6 & P7) Hj Hio Hudp.
    repeat split; try assumption; try congruence.
    intros c Hc. rewrite P7 in Hc. apply Hj, Hc. }
  destruct (GameServer.requires_password srv) eqn:Hreq.
  - destruct Hgate as [Hgate|Hgate]; [discriminate|].
    unfold bad_password in Hgate.
    destruct (msg_get "password" (JStr EmptyString) msg)
      as [| | | |p| |]; try discriminate Hgate.
    apply orb_false_iff in Hgate. destruct Hgate as [Hlen Hpw].
    rewrite Hlen. rewrite Hpw.
    unfold GameServer.modify_client. rewrite bind_modify.
    eapply Hfin; [apply Hafter; reflexivity| |reflexivity|reflexivity].
    intros c. cbn. rewrite get_update, String.eqb_refl.
    destruct (Dict.get temp_id (GameServer.clients srv)) as [c0|];
      [|discriminate].
    cbn. intros [= <-]. cbn.
    destruct (Client.joined c0) eqn:Ej; [right; eauto | now left].
  - eapply Hfin; [apply Hafter; reflexivity| |reflexivity|reflexivity].
    intros c Hc.
    destruct (Client.joined c) eqn:Ej; [right; eauto | now left].
Qed.

Lemma tiny_first_join_raises_witness :
  fst (GameServer._handle_join cyd_id tiny_join empty_server)
  = Raise ValueError /\
  GameData.width
    (GameServer.the_game
       (snd (GameServer._handle_join cyd_id tiny_join empty_server))) = 9.
Proof.
  destruct (tiny_first_join_raises cyd_id tiny_join empty_server 11 40)
    as (H1 & H2 & _).
  - right. reflexivity.
  - reflexivity.
  - reflexivity.
  - reflexivity.
  - reflexivity.
  - lia.
  - lia.
  - left. by_computation.
  - split; [exact H1 | exact H2].
Defined.

(** ** What a hit does *)

Lemma list_pop_split {A} (i : nat) (l : list A) :
  list_pop i l = firstn i l ++ skipn (S i) l.
Proof.
  revert i. induction l as [|a l IH]; intros i.
  - destruct i; reflexivity.
  - destruct i as [|i]; cbn; [reflexivity|]. now rewrite IH.
Qed.

Lemma pop_after_cut {A} (j k : nat) (l : list A) :
  (j + k < List.length l)%nat ->
  list_pop j (firstn j l ++ skipn (j + k) l)
  = firstn j l ++ skipn (j + S k) l.
Proof.
  intros Hlt. rewrite list_pop_split.
  assert (Hlen : List.length (firstn j l) = j)
    by (rewrite length_firstn; lia).
  rewrite firstn_app, Hlen, Nat.sub_diag. cbn [firstn].
  rewrite app_nil_r, firstn_firstn, Nat.min_id.
  f_equal.
  rewrite skipn_app, Hlen.
  replace (S j - j)%nat with 1%nat by lia.
  rewrite (skipn_all2 (firstn j l)) by (rewrite Hlen; lia).
  cbn [app]. rewrite skipn_skipn. f_equal. lia.
Qed.

Lemma remove_segments_cut (budget : nat) :
  forall (j k : nat) (body : list Cell),
    (j + k <= List.length body)%nat ->
    remove_segments budget j (firstn j body ++ skipn (j + k) body)
    = firstn j body
      ++ skipn (j + k + Nat.min budget
                          (Nat.min (List.length body - j - k)
                                   (List.length body - k - 1)))
               body.
Proof.
  induction budget as [|b IH]; intros j k body Hle;
    cbn [remove_segments].
  - cbn [Nat.min]. now rewrite Nat.add_0_r.
  - assert (Hlen : List.length (firstn j body ++ skipn (j + k) body)
                   = (List.length body - k)%nat).
    { rewrite length_app, length_firstn, length_skipn. lia. }
    rewrite Hlen.
    destruct (j <? List.length body - k)%nat eqn:E1; cbn [andb].
    + apply Nat.ltb_lt in E1.
      destruct (1 <? List.length body - k)%nat eqn:E2.
      * apply Nat.ltb_lt in E2.
        rewrite pop_after_cut by lia.
        rewrite IH by lia. f_equal. f_equal. lia.
      * apply Nat.ltb_ge in E2. f_equal. f_equal. lia.
    + apply Nat.ltb_ge in E1. f_equal. f_equal. lia.
Qed.

(** X30. A hit on segment [j] of a body of [n] segments removes the
    segments from [j] on, at most [BOMB_DAMAGE] of them and never the last
    one that is left: the body afterwards is the part before [j] followed
    by what lies behind the removed stretch.  The actor dies when fewer
    than two segments are left, and is otherwise as alive as before; its
    points and its heading are not touched. *)
Theorem strike_removes_stretch (j : nat) (s : Snake.t) :
  (j < List.length (Snake.body s))%nat ->
  let n := List.length (Snake.body s) in
  let removed := Nat.min BOMB_DAMAGE (Nat.min (n - j) (n - 1)) in
  Snake.body (strike j s)
  = firstn j (Snake.body s) ++ skipn (j + removed) (Snake.body s) /\
  List.length (Snake.body (strike j s)) = (n - removed)%nat /\
  (1 <= List.length (Snake.body (strike j s)))%nat /\
  Snake.alive (strike j s)
  = (if (n - removed <? 2)%nat then false else Snake.alive s) /\
  Snake.score (strike j s) = Snake.score s /\
  Snake.direction (strike j s) = Snake.direction s.
Proof.
  intros Hj. cbv zeta.
  pose proof (remove_segments_cut BOMB_DAMAGE j 0 (Snake.body s)
                ltac:(lia)) as Hcut.
  rewrite Nat.add_0_r in Hcut. cbn [skipn] in Hcut.
  rewrite firstn_skipn in Hcut.
  rewrite !Nat.sub_0_r in Hcut.
  set (removed := Nat.min BOMB_DAMAGE
                    (Nat.min (List.length (Snake.body s) - j)
                             (List.length (Snake.body s) - 1))) in *.
  assert (Hcutlen : List.length (firstn j (Snake.body s)
                                 ++ skipn (j + removed) (Snake.body s))
                    = (List.length (Snake.body s) - removed)%nat).
  { rewrite length_app, length_firstn, length_skipn. unfold removed. lia. }
  assert (Hrem : (removed <= List.length (Snake.body s) - 1)%nat)
    by (unfold removed; lia).
  unfold strike. cbn [Snake.body Snake.set_body].
  rewrite Hcut, Hcutlen.
  destruct (List.length (Snake.body s) - removed <? 2)%nat;
    cbn [Snake.body Snake.set_body Snake.set_alive Snake.alive Snake.score
         Snake.direction];
    repeat split; try exact Hcutlen; lia.
Qed.

Lemma strike_removes_stretch_witness :
  Snake.body (strike 2 ann) = [(10, 5); (9, 5)] /\
  Snake.alive (strike 2 ann) = true.
Proof.
  destruct (strike_removes_stretch 2 ann) as (Hb & _ & _ & Ha & _).
  - cbn. lia.
  - split; [exact Hb | exact Ha].
Defined.
